(** * Segmentation overlay and tensor conversion kernels (segnet.cpp)

    A shallow embedding of the CUDA kernels [gpuSegOverlay], [TensorToRGB]
    and [BlendRGBA32ToRGB8] and of their host launchers, together with the
    properties of the written pixels.

    - [float] is IEEE-754 binary32, taken from the standard library's
      executable specification [SpecFloat] at precision 24 and [emax] 128;
      every arithmetic operation of the source is the correctly rounded one.
    - [int] and [unsigned] values are integers of [Z]; a signed operation
      that leaves the 32-bit range, a conversion from [float] that does not
      fit, a load or a store outside its buffer are undefined in the source
      and make the embedded computation return [None].
    - A kernel launch runs the kernel body once per thread of the grid, the
      output buffer being the state threaded through the runs. *)

From Stdlib Require Import ZArith List Lia Bool String Reals Lra.
From Stdlib Require Import Floats.SpecFloat.
From stdpp Require Import base option list.

Local Open Scope Z_scope.

(** ** binary32 arithmetic *)

Module F32.

Definition float : Type := spec_float.

Abbreviation prec := 24%Z.
Abbreviation emax := 128%Z.

Definition add : float -> float -> float := SFadd prec emax.
Definition sub : float -> float -> float := SFsub prec emax.
Definition mul : float -> float -> float := SFmul prec emax.
Definition div : float -> float -> float := SFdiv prec emax.

(** [a < b] and [a > b]; both are false when an operand is NaN. *)
Definition lt (a b : float) : bool := SFltb a b.
Definition gt (a b : float) : bool := SFltb b a.

(** [float(z)]: an integer rounded to the nearest binary32, ties to even. *)
Definition of_int (z : Z) : float := binary_normalize prec emax z 0 false.

(** The integral part of a finite value (rounding toward zero). *)
Definition trunc (f : float) : option Z :=
  match f with
  | S754_zero _ => Some 0
  | S754_finite s m e =>
      let a := match e with
               | Z0 => Zpos m
               | Zpos _ => Zpos m * 2 ^ e
               | Zneg p => Zpos m / 2 ^ Zpos p
               end in
      Some (if s then - a else a)
  | S754_infinity _ | S754_nan => None
  end.

(** The largest integer not above a finite value. *)
Definition floor (f : float) : option Z :=
  match f with
  | S754_zero _ => Some 0
  | S754_finite s m e =>
      Some (match e with
            | Z0 => if s then Zneg m else Zpos m
            | Zpos _ => (if s then Zneg m else Zpos m) * 2 ^ e
            | Zneg p => (if s then Zneg m else Zpos m) / 2 ^ Zpos p
            end)
  | S754_infinity _ | S754_nan => None
  end.

(** Literals of the source. *)
Definition zero : float := S754_zero false.                     (* 0.0f *)
Definition half : float := S754_finite false 8388608 (-24).     (* 0.5f *)
Definition one : float := S754_finite false 8388608 (-23).      (* 1.0f *)
Definition c120 : float := S754_finite false 15728640 (-17).    (* 120.0f *)
Definition c155 : float := S754_finite false 10158080 (-16).    (* 155.0f *)
Definition c255 : float := S754_finite false 16711680 (-16).    (* 255.0f *)

(** A finite value is a valid binary32 when its mantissa and exponent are
    the canonical ones of the format. *)
Definition valid (f : float) : bool := valid_binary prec emax f.

Definition is_finite (f : float) : bool :=
  match f with S754_zero _ | S754_finite _ _ _ => true | _ => false end.

Definition is_zero (f : float) : bool :=
  match f with S754_zero _ => true | _ => false end.

(** A zero or a finite number in canonical form: what a [float] variable
    holds when it is neither an infinity nor a NaN. *)
Definition regular (f : float) : bool := valid f && is_finite f.

End F32.

Abbreviation float := F32.float.

(** ** Machine integers *)

Definition INT_MIN : Z := - 2 ^ 31.
Definition INT_MAX : Z := 2 ^ 31 - 1.

(** The result of a signed [int] operation: undefined on overflow. *)
Definition int_ (z : Z) : option Z :=
  if (INT_MIN <=? z) && (z <=? INT_MAX) then Some z else None.

Definition int_add (a b : Z) : option Z := int_ (a + b).
Definition int_sub (a b : Z) : option Z := int_ (a - b).
Definition int_mul (a b : Z) : option Z := int_ (a * b).

(** Arithmetic on [unsigned] wraps modulo 2^32. *)
Definition uint (z : Z) : Z := z mod 2 ^ 32.

(** Conversion of a wider or unsigned value to [int] (two's complement). *)
Definition int_of_uint (u : Z) : Z := (u + 2 ^ 31) mod 2 ^ 32 - 2 ^ 31.

(** [int(f)]: truncation toward zero, undefined when the integral part does
    not fit an [int]. *)
Definition int_of_float (f : float) : option Z :=
  z ← F32.trunc f; int_ z.

(** Conversion of a [float] to [unsigned char]: truncation toward zero,
    undefined when the integral part is not in [0,255]. *)
Definition uchar_of_float (f : float) : option Z :=
  z ← F32.trunc f;
  if (0 <=? z) && (z <=? 255) then Some z else None.

(** ** CUDA vector types *)

Record int2 : Type := make_int2 { int2_x : Z; int2_y : Z }.
Record dim3 : Type := make_dim3 { dim3_x : Z; dim3_y : Z; dim3_z : Z }.
Record uchar3 : Type := make_uchar3 { uchar3_x : Z; uchar3_y : Z; uchar3_z : Z }.
Record uchar4 : Type :=
  make_uchar4 { uchar4_x : Z; uchar4_y : Z; uchar4_z : Z; uchar4_w : Z }.
Record float3 : Type :=
  make_float3 { float3_x : float; float3_y : float; float3_z : float }.
Record float4 : Type :=
  make_float4 { float4_x : float; float4_y : float; float4_z : float; float4_w : float }.

(** The template parameter [T] of [gpuSegOverlay]. *)
Inductive pixelType : Type := T_uchar3 | T_uchar4 | T_float3 | T_float4.

(** A pixel of one of the four types. *)
Inductive pixel : Type :=
| px_uchar3 (v : uchar3)
| px_uchar4 (v : uchar4)
| px_float3 (v : float3)
| px_float4 (v : float4).

(** Modelled from the spec: [make_vec<T>] of cudaVector.h, which is not
    part of the kernel file.  It builds a pixel of type [T] from four
    [float] components, each written in the native channel type of [T];
    the three-channel types have no fourth component. *)
Definition make_vec (T : pixelType) (x y z w : float) : option pixel :=
  match T with
  | T_uchar3 =>
      a ← uchar_of_float x; b ← uchar_of_float y; c ← uchar_of_float z;
      Some (px_uchar3 (make_uchar3 a b c))
  | T_uchar4 =>
      a ← uchar_of_float x; b ← uchar_of_float y; c ← uchar_of_float z;
      d ← uchar_of_float w;
      Some (px_uchar4 (make_uchar4 a b c d))
  | T_float3 => Some (px_float3 (make_float3 x y z))
  | T_float4 => Some (px_float4 (make_float4 x y z w))
  end.

(** The channels [.x], [.y], [.z] of a pixel used in [float] arithmetic
    (an [unsigned char] channel is converted exactly). *)
Definition pixel_x (p : pixel) : float :=
  match p with
  | px_uchar3 v => F32.of_int (uchar3_x v)
  | px_uchar4 v => F32.of_int (uchar4_x v)
  | px_float3 v => float3_x v
  | px_float4 v => float4_x v
  end.

Definition pixel_y (p : pixel) : float :=
  match p with
  | px_uchar3 v => F32.of_int (uchar3_y v)
  | px_uchar4 v => F32.of_int (uchar4_y v)
  | px_float3 v => float3_y v
  | px_float4 v => float4_y v
  end.

Definition pixel_z (p : pixel) : float :=
  match p with
  | px_uchar3 v => F32.of_int (uchar3_z v)
  | px_uchar4 v => F32.of_int (uchar4_z v)
  | px_float3 v => float3_z v
  | px_float4 v => float4_z v
  end.

(** The fourth channel of a pixel, when its type has one. *)
Inductive channel : Type := ch_uchar (v : Z) | ch_float (v : float).

Definition pixel_alpha (p : pixel) : option channel :=
  match p with
  | px_uchar4 v => Some (ch_uchar (uchar4_w v))
  | px_float4 v => Some (ch_float (float4_w v))
  | px_uchar3 _ | px_float3 _ => None
  end.

(** ** Device memory *)

(** A device pointer is null or designates a buffer. *)
Inductive ptr (A : Type) : Type :=
| NULL
| Ptr (cells : list A).
Arguments NULL {A}.
Arguments Ptr {A} cells.

Definition is_null {A} (p : ptr A) : bool :=
  match p with NULL => true | Ptr _ => false end.

(** [buf[i]]: undefined outside the buffer. *)
Definition load_at {A} (buf : list A) (i : Z) : option A :=
  if 0 <=? i then buf !! Z.to_nat i else None.

(** [p[i]]: undefined through a null pointer. *)
Definition load {A} (p : ptr A) (i : Z) : option A :=
  match p with
  | NULL => None
  | Ptr buf => load_at buf i
  end.

(** [buf[i] = v]: undefined outside the buffer. *)
Definition store {A} (buf : list A) (i : Z) (v : A) : option (list A) :=
  if (0 <=? i) && (i <? Z.of_nat (length buf))
  then Some (<[Z.to_nat i := v]> buf)
  else None.

(** [row * width + col] in [int] arithmetic. *)
Definition offset (row width col : Z) : option Z :=
  r ← int_mul row width; int_add r col.

(** ** gpuSegOverlay *)

(** [#define LOOKUP_CLASS_MAP(ix, iy) scores[iy * scores_dim.x + ix]] *)
Definition LOOKUP_CLASS_MAP (scores : ptr Z) (scores_dim : int2) (ix iy : Z)
  : option Z :=
  i ← offset iy (int2_x scores_dim) ix; load scores i.

(** The body of the kernel, run by the thread [threadIdx] of the block
    [blockIdx]; [output] is the content of the output buffer. *)
Definition gpuSegOverlay (T : pixelType) (filter_linear mask_only : bool)
    (input : ptr pixel) (in_width in_height : Z)
    (out_width out_height : Z)
    (class_colors : ptr float4) (scores : ptr Z) (scores_dim : int2)
    (blockIdx blockDim threadIdx : dim3)
    (output : list pixel) : option (list pixel) :=
  let x := int_of_uint (uint (dim3_x blockIdx * dim3_x blockDim + dim3_x threadIdx)) in
  let y := int_of_uint (uint (dim3_y blockIdx * dim3_y blockDim + dim3_y threadIdx)) in
  if (x >=? out_width) || (y >=? out_height) then Some output else
  let px := F32.div (F32.of_int x) (F32.of_int out_width) in
  let py := F32.div (F32.of_int y) (F32.of_int out_height) in
  (* point or linear filtering mode *)
  if negb filter_linear then
    (* calculate coordinates in scores cell *)
    let cx := F32.mul px (F32.of_int (int2_x scores_dim)) in
    let cy := F32.mul py (F32.of_int (int2_y scores_dim)) in
    x1 ← int_of_float cx;
    y1 ← int_of_float cy;
    (* get the class ID of this cell *)
    classIdx ← LOOKUP_CLASS_MAP scores scores_dim x1 y1;
    (* find the color of this class *)
    classColor ← load class_colors classIdx;
    (* output the pixel *)
    if mask_only then
      (* only draw the segmentation mask *)
      v ← make_vec T (float4_x classColor) (float4_y classColor)
                     (float4_z classColor) F32.c255;
      i ← offset y out_width x;
      store output i v
    else
      (* alpha blend with input image *)
      x_in ← int_of_float (F32.mul px (F32.of_int in_width));
      y_in ← int_of_float (F32.mul py (F32.of_int in_height));
      i_in ← offset y_in in_width x_in;
      px_in ← load input i_in;
      let alph := F32.div (float4_w classColor) F32.c255 in
      let inva := F32.sub F32.one alph in
      v ← make_vec T
            (F32.add (F32.mul alph (float4_x classColor)) (F32.mul inva (pixel_x px_in)))
            (F32.add (F32.mul alph (float4_y classColor)) (F32.mul inva (pixel_y px_in)))
            (F32.add (F32.mul alph (float4_z classColor)) (F32.mul inva (pixel_z px_in)))
            F32.c255;
      i ← offset y out_width x;
      store output i v
  else
    (* calculate coordinates in scores cell *)
    let bx := F32.sub (F32.mul px (F32.of_int (int2_x scores_dim))) F32.half in
    let by_ := F32.sub (F32.mul py (F32.of_int (int2_y scores_dim))) F32.half in
    let cx := if F32.lt bx F32.zero then F32.zero else bx in
    let cy := if F32.lt by_ F32.zero then F32.zero else by_ in
    x1 ← int_of_float cx;
    y1 ← int_of_float cy;
    xmax ← int_sub (int2_x scores_dim) 1;
    x2 ← (if x1 >=? xmax then Some x1 else int_add x1 1);   (* bounds check *)
    ymax ← int_sub (int2_y scores_dim) 1;
    y2 ← (if y1 >=? ymax then Some y1 else int_add y1 1);
    id0 ← LOOKUP_CLASS_MAP scores scores_dim x1 y1;
    id1 ← LOOKUP_CLASS_MAP scores scores_dim x2 y1;
    id2 ← LOOKUP_CLASS_MAP scores scores_dim x2 y2;
    id3 ← LOOKUP_CLASS_MAP scores scores_dim x1 y2;
    cc0 ← load class_colors id0;
    cc1 ← load class_colors id1;
    cc2 ← load class_colors id2;
    cc3 ← load class_colors id3;
    (* compute bilinear weights *)
    let x1d := F32.sub cx (F32.of_int x1) in
    let y1d := F32.sub cy (F32.of_int y1) in
    let x1f := F32.sub F32.one x1d in
    let y1f := F32.sub F32.one y1d in
    let x2f := F32.sub F32.one x1f in
    let y2f := F32.sub F32.one y1f in
    let x1y1f := F32.mul x1f y1f in
    let x1y2f := F32.mul x1f y2f in
    let x2y1f := F32.mul x2f y1f in
    let x2y2f := F32.mul x2f y2f in
    let classColor := make_float4
      (F32.add (F32.add (F32.add (F32.mul (float4_x cc0) x1y1f) (F32.mul (float4_x cc1) x2y1f))
                        (F32.mul (float4_x cc2) x2y2f)) (F32.mul (float4_x cc3) x1y2f))
      (F32.add (F32.add (F32.add (F32.mul (float4_y cc0) x1y1f) (F32.mul (float4_y cc1) x2y1f))
                        (F32.mul (float4_y cc2) x2y2f)) (F32.mul (float4_y cc3) x1y2f))
      (F32.add (F32.add (F32.add (F32.mul (float4_z cc0) x1y1f) (F32.mul (float4_z cc1) x2y1f))
                        (F32.mul (float4_z cc2) x2y2f)) (F32.mul (float4_z cc3) x1y2f))
      (F32.add (F32.add (F32.add (F32.mul (float4_w cc0) x1y1f) (F32.mul (float4_w cc1) x2y1f))
                        (F32.mul (float4_w cc2) x2y2f)) (F32.mul (float4_w cc3) x1y2f)) in
    (* output the pixel *)
    if mask_only then
      (* only draw the segmentation mask *)
      v ← make_vec T (float4_x classColor) (float4_y classColor)
                     (float4_z classColor) F32.c255;
      i ← offset y out_width x;
      store output i v
    else
      (* alpha blend with input image *)
      x_in ← int_of_float (F32.mul px (F32.of_int in_width));
      y_in ← int_of_float (F32.mul py (F32.of_int in_height));
      i_in ← offset y_in in_width x_in;
      px_in ← load input i_in;
      let alph := F32.div (float4_w classColor) F32.c255 in
      let inva := F32.sub F32.one alph in
      v ← make_vec T
            (F32.add (F32.mul alph (float4_x classColor)) (F32.mul inva (pixel_x px_in)))
            (F32.add (F32.mul alph (float4_y classColor)) (F32.mul inva (pixel_y px_in)))
            (F32.add (F32.mul alph (float4_z classColor)) (F32.mul inva (pixel_z px_in)))
            F32.c255;
      i ← offset y out_width x;
      store output i v.

(** ** Kernel launches *)

(** The indices [0 .. n-1]. *)
Definition range (n : Z) : list Z := seqZ 0 n.

(** The threads of a two-dimensional launch, as pairs of a block index and
    a thread index. *)
Definition grid_threads (gridDim blockDim : dim3) : list (dim3 * dim3) :=
  by_ ← range (dim3_y gridDim);
  bx ← range (dim3_x gridDim);
  ty ← range (dim3_y blockDim);
  tx ← range (dim3_x blockDim);
  [(make_dim3 bx by_ 0, make_dim3 tx ty 0)].

(** The threads run one after the other on the destination buffer; a thread
    whose behaviour is undefined makes the launch undefined. *)
Fixpoint run_threads {S T : Type} (body : T -> S -> option S) (ts : list T) (s : S)
  : option S :=
  match ts with
  | [] => Some s
  | t :: ts' => s' ← body t s; run_threads body ts' s'
  end.

(** [kernel<<<gridDim, blockDim>>>(...)] as a transformer of the destination
    buffer. *)
Definition launch {S : Type} (kernel : dim3 -> dim3 -> dim3 -> S -> option S)
    (gridDim blockDim : dim3) (s : S) : option S :=
  run_threads (fun t => kernel (fst t) blockDim (snd t))
              (grid_threads gridDim blockDim) s.

(** Modelled from the spec: [iDivUp] of cudaUtility.h, which is not part of
    the kernel file; the tile count is the ceiling division of a dimension
    by the tile edge. *)
Definition iDivUp (a b : Z) : Z := (a + b - 1) / b.

(** ** Host side *)

Inductive cudaError_t : Type :=
| cudaSuccess
| cudaErrorInvalidValue
| cudaErrorInvalidDevicePointer
| cudaErrorLaunchFailure
| cudaErrorUnknown.

(** Modelled from the spec: [imageFormat] of imageFormat.h, which is not
    part of the kernel file; a closed set of four supported layouts
    (3- and 4-channel, 8-bit and 32-bit float), any other format tag being
    unsupported. *)
Inductive imageFormat : Type :=
| IMAGE_RGB8
| IMAGE_RGBA8
| IMAGE_RGB32F
| IMAGE_RGBA32F
| IMAGE_OTHER (tag : Z).

(** Modelled from the spec: [imageFormatIsRGB] of imageFormat.h; it holds
    of exactly the four supported formats. *)
Definition imageFormatIsRGB (format : imageFormat) : bool :=
  match format with
  | IMAGE_RGB8 | IMAGE_RGBA8 | IMAGE_RGB32F | IMAGE_RGBA32F => true
  | IMAGE_OTHER _ => false
  end.

(** What a host function leaves behind: the status it returns, the lines it
    logged, and the kernel it put on the stream (if any), as a transformer
    of the destination buffer of type [S]. *)
Record call (S : Type) : Type := mk_call {
  status : cudaError_t;
  logged : list string;
  launched : option (S -> option S)
}.
Arguments mk_call {S}.
Arguments status {S}.
Arguments logged {S}.
Arguments launched {S}.

(** The destination buffer once the device has completed the call. *)
Definition completed {S : Type} (c : call S) (s : S) : option S :=
  match launched c with
  | None => Some s
  | Some k => k s
  end.

Section Host.

(** The log prefix, the name of a format and the status reported by the
    runtime after a launch are given by the environment. *)
Variable LOG_TRT : string.
Variable imageFormatToStr : imageFormat -> string.
Variable cudaGetLastError : cudaError_t.

Definition newline : string := String (Ascii.ascii_of_nat 10) EmptyString.

(** [LAUNCH_OVERLAY(filter, mask)] *)
Definition LAUNCH_OVERLAY (filter mask : bool) (format : imageFormat)
    (gridDim blockDim : dim3)
    (input : ptr pixel) (in_width in_height : Z) (out_width out_height : Z)
    (class_colors : ptr float4) (scores : ptr Z) (scores_dim : int2)
  : option (list pixel -> option (list pixel)) :=
  let LAUNCH_OVERLAY_KERNEL (type : pixelType) :=
    launch (gpuSegOverlay type filter mask input
              (int_of_uint in_width) (int_of_uint in_height)
              (int_of_uint out_width) (int_of_uint out_height)
              class_colors scores scores_dim) gridDim blockDim in
  match format with
  | IMAGE_RGB8 => Some (LAUNCH_OVERLAY_KERNEL T_uchar3)
  | IMAGE_RGBA8 => Some (LAUNCH_OVERLAY_KERNEL T_uchar4)
  | IMAGE_RGB32F => Some (LAUNCH_OVERLAY_KERNEL T_float3)
  | IMAGE_RGBA32F => Some (LAUNCH_OVERLAY_KERNEL T_float4)
  | IMAGE_OTHER _ => None
  end.

(** [cudaSegOverlay]; the dimensions are [uint32_t] values. *)
Definition cudaSegOverlay (input : ptr pixel) (in_width in_height : Z)
    (output : ptr pixel) (out_width out_height : Z) (format : imageFormat)
    (class_colors : ptr float4) (scores : ptr Z) (scores_dim : int2)
    (filter_linear mask_only : bool) : call (list pixel) :=
  if is_null output then mk_call cudaErrorInvalidDevicePointer [] None else
  if (out_width =? 0) || (out_height =? 0) then mk_call cudaErrorInvalidValue [] None else
  if negb (imageFormatIsRGB format) then
    mk_call cudaErrorInvalidValue
      [ (LOG_TRT ++ "segNet -- unsupported image format (" ++ imageFormatToStr format
           ++ ")" ++ newline)%string;
        (LOG_TRT ++ "          supported formats are:" ++ newline)%string;
        (LOG_TRT ++ "              * rgb8" ++ newline)%string;
        (LOG_TRT ++ "              * rgba8" ++ newline)%string;
        (LOG_TRT ++ "              * rgb32f" ++ newline)%string;
        (LOG_TRT ++ "              * rgba32f" ++ newline)%string ]
      None
  else
  (* launch kernel *)
  let blockDim := make_dim3 8 8 1 in
  let gridDim := make_dim3 (uint (iDivUp (int_of_uint out_width) (dim3_x blockDim)))
                           (uint (iDivUp (int_of_uint out_height) (dim3_y blockDim))) 1 in
  mk_call cudaGetLastError []
    (if filter_linear then
       if mask_only
       then LAUNCH_OVERLAY true true format gridDim blockDim input in_width in_height
              out_width out_height class_colors scores scores_dim
       else LAUNCH_OVERLAY true false format gridDim blockDim input in_width in_height
              out_width out_height class_colors scores scores_dim
     else
       if mask_only
       then LAUNCH_OVERLAY false true format gridDim blockDim input in_width in_height
              out_width out_height class_colors scores scores_dim
       else LAUNCH_OVERLAY false false format gridDim blockDim input in_width in_height
              out_width out_height class_colors scores scores_dim).

End Host.

(** ** Alpha blending of two pixels *)

(** [cudaBlendImage]: [fgr * alph + bgr * (1.0 - alph)] *)
Definition cudaBlendImage (fgr bgr : float3) (alph : float) : float3 :=
  let inva := F32.sub F32.one alph in
  make_float3 (F32.add (F32.mul alph (float3_x fgr)) (F32.mul inva (float3_x bgr)))
              (F32.add (F32.mul alph (float3_y fgr)) (F32.mul inva (float3_y bgr)))
              (F32.add (F32.mul alph (float3_z fgr)) (F32.mul inva (float3_z bgr))).

(** ** Tensor conversion kernels *)

(** clip float to [min,max] *)
Definition clip (x min max : float) : float :=
  if F32.gt x max then max else if F32.lt x min then min else x.

(** clip vector to [min,max]; the three clipped values are converted to
    [unsigned char] by [make_uchar3]. *)
Definition clip_float3 (px : float3) (min max : Z) : option uchar3 :=
  a ← uchar_of_float (clip (float3_x px) (F32.of_int min) (F32.of_int max));
  b ← uchar_of_float (clip (float3_y px) (F32.of_int min) (F32.of_int max));
  c ← uchar_of_float (clip (float3_z px) (F32.of_int min) (F32.of_int max));
  Some (make_uchar3 a b c).

(** [srcImage[n * c + dy * width + dx]] *)
Definition plane_offset (n c dy width dx : Z) : option Z :=
  p ← int_mul n c; r ← int_mul dy width; q ← int_add p r; int_add q dx.

(** [TensorToRGB<float, uchar3>] *)
Definition TensorToRGB (srcImage : ptr float) (width height : Z)
    (blockIdx blockDim threadIdx : dim3)
    (dstImage : list uchar3) : option (list uchar3) :=
  let x := int_of_uint (uint (dim3_x blockIdx * dim3_x blockDim + dim3_x threadIdx)) in
  let y := int_of_uint (uint (dim3_y blockIdx * dim3_y blockDim + dim3_y threadIdx)) in
  n ← int_mul width height;
  if (x >=? width) || (y >=? height) then Some dstImage else
  dx ← int_of_float (F32.mul (F32.of_int x) F32.one);
  dy ← int_of_float (F32.mul (F32.of_int y) F32.one);
  i0 ← plane_offset n 0 dy width dx;
  s0 ← load srcImage i0;
  i1 ← plane_offset n 1 dy width dx;
  s1 ← load srcImage i1;
  i2 ← plane_offset n 2 dy width dx;
  s2 ← load srcImage i2;
  rgb ← clip_float3 (make_float3 (F32.mul s0 F32.c255) (F32.mul s1 F32.c255)
                                  (F32.mul s2 F32.c255)) 0 255;
  i ← offset y width x;
  store dstImage i rgb.

(** One channel of the matting blend:
    [(src * 255.0f * alph) + ((1.0f - alph) * bg)]. *)
Definition blend_channel (src alph bg : float) : float :=
  F32.add (F32.mul (F32.mul src F32.c255) alph)
          (F32.mul (F32.sub F32.one alph) bg).

(** [BlendRGBA32ToRGB8<float, float, uchar3>] *)
Definition BlendRGBA32ToRGB8 (srcImage alphImage : ptr float) (width height : Z)
    (blockIdx blockDim threadIdx : dim3)
    (dstImage : list uchar3) : option (list uchar3) :=
  let x := int_of_uint (uint (dim3_x blockIdx * dim3_x blockDim + dim3_x threadIdx)) in
  let y := int_of_uint (uint (dim3_y blockIdx * dim3_y blockDim + dim3_y threadIdx)) in
  n ← int_mul width height;
  if (x >=? width) || (y >=? height) then Some dstImage else
  dx ← int_of_float (F32.mul (F32.of_int x) F32.one);
  dy ← int_of_float (F32.mul (F32.of_int y) F32.one);
  i0 ← plane_offset n 0 dy width dx;
  s0 ← load srcImage i0;
  i1 ← plane_offset n 1 dy width dx;
  s1 ← load srcImage i1;
  i2 ← plane_offset n 2 dy width dx;
  s2 ← load srcImage i2;
  ia ← offset dy width dx;
  a ← load alphImage ia;
  rgb ← clip_float3 (make_float3 (blend_channel s0 a F32.c120)
                                  (blend_channel s1 a F32.c255)
                                  (blend_channel s2 a F32.c155)) 0 255;
  i ← offset y width x;
  store dstImage i rgb.

Section HostTensor.

Variable cudaGetLastError : cudaError_t.

(** [launchTensorToRGB<float, uchar3>]; the dimensions are [size_t] values. *)
Definition launchTensorToRGB (srcDev : ptr float) (dstDev : ptr uchar3)
    (width height : Z) : call (list uchar3) :=
  if is_null srcDev || is_null dstDev then mk_call cudaErrorInvalidDevicePointer [] None else
  if (width =? 0) || (height =? 0) then mk_call cudaErrorInvalidValue [] None else
  (* launch kernel *)
  let blockDim := make_dim3 8 8 1 in
  let gridDim := make_dim3 (uint (iDivUp (int_of_uint width) (dim3_x blockDim)))
                           (uint (iDivUp (int_of_uint height) (dim3_y blockDim))) 1 in
  mk_call cudaGetLastError []
    (Some (launch (TensorToRGB srcDev (int_of_uint width) (int_of_uint height))
                  gridDim blockDim)).

(** [cudaTensor32ToRGB8] (float -> uchar3) *)
Definition cudaTensor32ToRGB8 (srcDev : ptr float) (dstDev : ptr uchar3)
    (width height : Z) : call (list uchar3) :=
  launchTensorToRGB srcDev dstDev width height.

(** [launchBlendRGBA32ToRGB8<float, float, uchar3>] *)
Definition launchBlendRGBA32ToRGB8 (srcDev alphDev : ptr float) (dstDev : ptr uchar3)
    (width height : Z) : call (list uchar3) :=
  if is_null srcDev || is_null alphDev || is_null dstDev
  then mk_call cudaErrorInvalidDevicePointer [] None else
  if (width =? 0) || (height =? 0) then mk_call cudaErrorInvalidValue [] None else
  (* launch kernel *)
  let blockDim := make_dim3 8 8 1 in
  let gridDim := make_dim3 (uint (iDivUp (int_of_uint width) (dim3_x blockDim)))
                           (uint (iDivUp (int_of_uint height) (dim3_y blockDim))) 1 in
  mk_call cudaGetLastError []
    (Some (launch (BlendRGBA32ToRGB8 srcDev alphDev (int_of_uint width) (int_of_uint height))
                  gridDim blockDim)).

(** [cudaBlendRGBA32ToRGB8] (float(rgb-3ch), float(a-1ch) -> uchar3) *)
Definition cudaBlendRGBA32ToRGB8 (srcDev alphDev : ptr float) (dstDev : ptr uchar3)
    (width height : Z) : call (list uchar3) :=
  launchBlendRGBA32ToRGB8 srcDev alphDev dstDev width height.

End HostTensor.

(** * The value stored by a thread of [gpuSegOverlay]

    The kernel body is cut into the steps it is made of: the normalised
    position of the pixel, the score-grid cells that are read, the class
    colour, and the pixel that is stored.  [gpuSegOverlay_thread] below
    shows that the kernel is the composition of these steps. *)

(** [px = float(x) / float(out_width)] *)
Definition normalized (x out_width : Z) : float :=
  F32.div (F32.of_int x) (F32.of_int out_width).

(** Point filtering: the cell [(x1,y1)] that is read. *)
Definition point_cell (scores_dim : int2) (px py : float) : option (Z * Z) :=
  x1 ← int_of_float (F32.mul px (F32.of_int (int2_x scores_dim)));
  y1 ← int_of_float (F32.mul py (F32.of_int (int2_y scores_dim)));
  Some (x1, y1).

Definition point_color (class_colors : ptr float4) (scores : ptr Z) (scores_dim : int2)
    (px py : float) : option float4 :=
  c ← point_cell scores_dim px py;
  classIdx ← LOOKUP_CLASS_MAP scores scores_dim (fst c) (snd c);
  load class_colors classIdx.

(** Linear filtering: the clamped coordinate [cx] along one axis. *)
Definition linear_coord (p : float) (dim : Z) : float :=
  let b := F32.sub (F32.mul p (F32.of_int dim)) F32.half in
  if F32.lt b F32.zero then F32.zero else b.

(** Linear filtering: the low and the high neighbour along one axis. *)
Definition linear_axis (p : float) (dim : Z) : option (Z * Z) :=
  x1 ← int_of_float (linear_coord p dim);
  xmax ← int_sub dim 1;
  x2 ← (if x1 >=? xmax then Some x1 else int_add x1 1);
  Some (x1, x2).

(** Linear filtering: the two bilinear weights [(x1f, x2f)] along one axis. *)
Definition linear_weights (c : float) (x1 : Z) : float * float :=
  let x1d := F32.sub c (F32.of_int x1) in
  let x1f := F32.sub F32.one x1d in
  let x2f := F32.sub F32.one x1f in
  (x1f, x2f).

(** One weighted sum of the bilinear filter:
    [c0 * x1y1f + c1 * x2y1f + c2 * x2y2f + c3 * x1y2f]. *)
Definition bilinear (c0 c1 c2 c3 x1y1f x2y1f x2y2f x1y2f : float) : float :=
  F32.add (F32.add (F32.add (F32.mul c0 x1y1f) (F32.mul c1 x2y1f))
                   (F32.mul c2 x2y2f))
          (F32.mul c3 x1y2f).

Definition bilinear4 (cc0 cc1 cc2 cc3 : float4) (wx wy : float * float) : float4 :=
  let x1y1f := F32.mul (fst wx) (fst wy) in
  let x1y2f := F32.mul (fst wx) (snd wy) in
  let x2y1f := F32.mul (snd wx) (fst wy) in
  let x2y2f := F32.mul (snd wx) (snd wy) in
  make_float4
    (bilinear (float4_x cc0) (float4_x cc1) (float4_x cc2) (float4_x cc3)
              x1y1f x2y1f x2y2f x1y2f)
    (bilinear (float4_y cc0) (float4_y cc1) (float4_y cc2) (float4_y cc3)
              x1y1f x2y1f x2y2f x1y2f)
    (bilinear (float4_z cc0) (float4_z cc1) (float4_z cc2) (float4_z cc3)
              x1y1f x2y1f x2y2f x1y2f)
    (bilinear (float4_w cc0) (float4_w cc1) (float4_w cc2) (float4_w cc3)
              x1y1f x2y1f x2y2f x1y2f).

Definition linear_color (class_colors : ptr float4) (scores : ptr Z) (scores_dim : int2)
    (px py : float) : option float4 :=
  ax ← linear_axis px (int2_x scores_dim);
  ay ← linear_axis py (int2_y scores_dim);
  id0 ← LOOKUP_CLASS_MAP scores scores_dim (fst ax) (fst ay);
  id1 ← LOOKUP_CLASS_MAP scores scores_dim (snd ax) (fst ay);
  id2 ← LOOKUP_CLASS_MAP scores scores_dim (snd ax) (snd ay);
  id3 ← LOOKUP_CLASS_MAP scores scores_dim (fst ax) (snd ay);
  cc0 ← load class_colors id0;
  cc1 ← load class_colors id1;
  cc2 ← load class_colors id2;
  cc3 ← load class_colors id3;
  Some (bilinear4 cc0 cc1 cc2 cc3
          (linear_weights (linear_coord px (int2_x scores_dim)) (fst ax))
          (linear_weights (linear_coord py (int2_y scores_dim)) (fst ay))).

(** The pixel stored when only the mask is drawn. *)
Definition mask_value (T : pixelType) (classColor : float4) : option pixel :=
  make_vec T (float4_x classColor) (float4_y classColor) (float4_z classColor) F32.c255.

(** The cell [(x_in, y_in)] of the input image that is read. *)
Definition input_cell (in_width in_height : Z) (px py : float) : option (Z * Z) :=
  x_in ← int_of_float (F32.mul px (F32.of_int in_width));
  y_in ← int_of_float (F32.mul py (F32.of_int in_height));
  Some (x_in, y_in).

(** [alph * color + inva * input] with [inva = 1.0f - alph]. *)
Definition blend (alph color input : float) : float :=
  F32.add (F32.mul alph color) (F32.mul (F32.sub F32.one alph) input).

(** The pixel stored when the colour is blended over the input image. *)
Definition blend_value (T : pixelType) (input : ptr pixel) (in_width in_height : Z)
    (px py : float) (classColor : float4) : option pixel :=
  c ← input_cell in_width in_height px py;
  i_in ← offset (snd c) in_width (fst c);
  px_in ← load input i_in;
  let alph := F32.div (float4_w classColor) F32.c255 in
  make_vec T (blend alph (float4_x classColor) (pixel_x px_in))
             (blend alph (float4_y classColor) (pixel_y px_in))
             (blend alph (float4_z classColor) (pixel_z px_in))
             F32.c255.

(** The pixel that the thread of pixel [(x,y)] stores at [y * out_width + x]. *)
Definition pixel_value (T : pixelType) (filter_linear mask_only : bool)
    (input : ptr pixel) (in_width in_height : Z) (out_width out_height : Z)
    (class_colors : ptr float4) (scores : ptr Z) (scores_dim : int2)
    (x y : Z) : option pixel :=
  let px := normalized x out_width in
  let py := normalized y out_height in
  classColor ← (if filter_linear
                then linear_color class_colors scores scores_dim px py
                else point_color class_colors scores scores_dim px py);
  if mask_only then mask_value T classColor
  else blend_value T input in_width in_height px py classColor.

(** * The value stored by a thread of [BlendRGBA32ToRGB8] *)

(** The cell [(dx, dy)] read by the thread of pixel [(x,y)]:
    [dx = (float)x * 1.0f], [dy = (float)y * 1.0f]. *)
Definition tensor_cell (x y : Z) : option (Z * Z) :=
  dx ← int_of_float (F32.mul (F32.of_int x) F32.one);
  dy ← int_of_float (F32.mul (F32.of_int y) F32.one);
  Some (dx, dy).

(** The pixel that the thread of pixel [(x,y)] stores at [y * width + x];
    [n] is [width * height]. *)
Definition matte_value (srcImage alphImage : ptr float) (n width x y : Z)
  : option uchar3 :=
  c ← tensor_cell x y;
  i0 ← plane_offset n 0 (snd c) width (fst c);
  s0 ← load srcImage i0;
  i1 ← plane_offset n 1 (snd c) width (fst c);
  s1 ← load srcImage i1;
  i2 ← plane_offset n 2 (snd c) width (fst c);
  s2 ← load srcImage i2;
  ia ← offset (snd c) width (fst c);
  a ← load alphImage ia;
  clip_float3 (make_float3 (blend_channel s0 a F32.c120)
                           (blend_channel s1 a F32.c255)
                           (blend_channel s2 a F32.c155)) 0 255.

(** * The value stored by a thread of [TensorToRGB] *)

(** The pixel that the thread of pixel [(x,y)] of [TensorToRGB] stores at
    [y * width + x]; [n] is [width * height]. *)
Definition tensor_value (srcImage : ptr float) (n width x y : Z) : option uchar3 :=
  c ← tensor_cell x y;
  i0 ← plane_offset n 0 (snd c) width (fst c);
  s0 ← load srcImage i0;
  i1 ← plane_offset n 1 (snd c) width (fst c);
  s1 ← load srcImage i1;
  i2 ← plane_offset n 2 (snd c) width (fst c);
  s2 ← load srcImage i2;
  clip_float3 (make_float3 (F32.mul s0 F32.c255) (F32.mul s1 F32.c255)
                           (F32.mul s2 F32.c255)) 0 255.

(** * The specification's description of a pixel

    The definitions of this module follow the words of the specification
    (section 4.1), not the kernel; the theorems compare them with the
    kernel. *)

Module Spec.

(** Point mode: the score-grid cell
    [(x1,y1) = floor(px*scores_dim.x), floor(py*scores_dim.y)]. *)
Definition nearest_cell (scores_dim : int2) (px py : float) : option (Z * Z) :=
  x1 ← F32.floor (F32.mul px (F32.of_int (int2_x scores_dim)));
  y1 ← F32.floor (F32.mul py (F32.of_int (int2_y scores_dim)));
  Some (x1, y1).

(** [class_colors[scores[y1 * scores_dim.x + x1]]] *)
Definition class_color (class_colors : ptr float4) (scores : ptr Z) (scores_dim : int2)
    (cell : Z * Z) : option float4 :=
  id ← load scores (snd cell * int2_x scores_dim + fst cell);
  load class_colors id.

(** The input image sampled at [(floor(px*in_width), floor(py*in_height))]. *)
Definition nearest_input (input : ptr pixel) (in_width in_height : Z) (px py : float)
  : option pixel :=
  x_in ← F32.floor (F32.mul px (F32.of_int in_width));
  y_in ← F32.floor (F32.mul py (F32.of_int in_height));
  load input (y_in * in_width + x_in).

(** [out = alpha*color + (1-alpha)*input] *)
Definition alpha_blend (alpha color input : float) : float :=
  F32.add (F32.mul alpha color) (F32.mul (F32.sub F32.one alpha) input).

(** Mask-only point mode:
    [output(x,y) == class_colors[scores[nearest_cell(x,y)]]], written in the
    native channel type with alpha forced opaque. *)
Definition point_mask_pixel (T : pixelType)
    (class_colors : ptr float4) (scores : ptr Z) (scores_dim : int2)
    (out_width out_height x y : Z) : option pixel :=
  cell ← nearest_cell scores_dim (normalized x out_width) (normalized y out_height);
  color ← class_color class_colors scores scores_dim cell;
  make_vec T (float4_x color) (float4_y color) (float4_z color) F32.c255.

(** Overlay point mode: [alpha*color + (1-alpha)*input] per RGB channel
    with [alpha = color.w / 255], written in the native channel type with
    alpha forced opaque. *)
Definition point_overlay_pixel (T : pixelType)
    (input : ptr pixel) (in_width in_height : Z)
    (class_colors : ptr float4) (scores : ptr Z) (scores_dim : int2)
    (out_width out_height x y : Z) : option pixel :=
  let px := normalized x out_width in
  let py := normalized y out_height in
  cell ← nearest_cell scores_dim px py;
  color ← class_color class_colors scores scores_dim cell;
  input_pixel ← nearest_input input in_width in_height px py;
  let alpha := F32.div (float4_w color) F32.c255 in
  make_vec T (alpha_blend alpha (float4_x color) (pixel_x input_pixel))
             (alpha_blend alpha (float4_y color) (pixel_y input_pixel))
             (alpha_blend alpha (float4_z color) (pixel_z input_pixel))
             F32.c255.

(** Linear mode: the high neighbour [min(x1+1, dim-1)]. *)
Definition high_neighbor (x1 dim : Z) : Z := Z.min (x1 + 1) (dim - 1).

(** [clip(v, 0, 255)], saturating. *)
Definition clip_0_255 (v : float) : float :=
  if F32.gt v F32.c255 then F32.c255 else if F32.lt v F32.zero then F32.zero else v.

(** The fixed background colour of the matting path. *)
Definition BG : float3 := make_float3 F32.c120 F32.c255 F32.c155.

(** [clip(255*src*alpha + (1-alpha)*BG_channel, 0, 255)] *)
Definition composite (src alpha bg : float) : float :=
  clip_0_255 (F32.add (F32.mul (F32.mul F32.c255 src) alpha)
                      (F32.mul (F32.sub F32.one alpha) bg)).

(** The matting path, for the pixel at offset [y * width + x] of a planar
    tensor whose three planes have [width * height] elements each: every
    channel is composited with the alpha read at that pixel and quantized
    to an 8-bit integer. *)
Definition matte_pixel (src alpha : ptr float) (width height x y : Z) : option uchar3 :=
  let n := width * height in
  let o := y * width + x in
  r ← load src (0 * n + o);
  g ← load src (1 * n + o);
  b ← load src (2 * n + o);
  a ← load alpha o;
  qr ← uchar_of_float (composite r a (float3_x BG));
  qg ← uchar_of_float (composite g a (float3_y BG));
  qb ← uchar_of_float (composite b a (float3_z BG));
  Some (make_uchar3 qr qg qb).

End Spec.

(** The pixel type of a supported format. *)
Definition format_type (format : imageFormat) : option pixelType :=
  match format with
  | IMAGE_RGB8 => Some T_uchar3
  | IMAGE_RGBA8 => Some T_uchar4
  | IMAGE_RGB32F => Some T_float3
  | IMAGE_RGBA32F => Some T_float4
  | IMAGE_OTHER _ => None
  end.

(** The number of cells behind a pointer. *)
Definition size {A : Type} (p : ptr A) : Z :=
  match p with
  | NULL => 0
  | Ptr cells => Z.of_nat (length cells)
  end.

(** The sign bit of a value is clear (or the value is NaN). *)
Definition sign_clear (f : float) : Prop :=
  match f with
  | S754_zero s | S754_infinity s | S754_finite s _ _ => s = false
  | S754_nan => True
  end.

(** * Numbers, colours and pixels *)

(** A value that is not a NaN. *)
Definition is_nan (f : float) : bool :=
  match f with S754_nan => true | _ => false end.

(** The 8-bit value [v] of a number [x] clipped to [0,255]: 255 above 255,
    0 below 0, and the integral part of [x] in between. *)
Definition saturated (x : float) (v : Z) : Prop :=
  0 <= v <= 255 /\
  (F32.gt x F32.c255 = true -> v = 255) /\
  (F32.lt x F32.zero = true -> v = 0) /\
  (F32.gt x F32.c255 = false -> F32.lt x F32.zero = false -> F32.trunc x = Some v).

(** A number of a tensor: a valid binary32 that is not a NaN. *)
Definition number (s : float) : Prop := F32.valid s = true /\ is_nan s = false.

(** A finite number other than the negative zero. *)
Definition plain (f : float) : Prop := F32.regular f = true /\ f <> S754_zero true.

(** The three colour channels are plain numbers. *)
Definition plain_color (c : float4) : Prop :=
  plain (float4_x c) /\ plain (float4_y c) /\ plain (float4_z c).

(** The three colour channels are finite. *)
Definition finite_color (c : float4) : Prop :=
  F32.is_finite (float4_x c) = true /\ F32.is_finite (float4_y c) = true /\
  F32.is_finite (float4_z c) = true.

Definition finite_pixel (p : pixel) : Prop :=
  F32.is_finite (pixel_x p) = true /\ F32.is_finite (pixel_y p) = true /\
  F32.is_finite (pixel_z p) = true.

(** A pixel of an RGB8 image: three channels in [0,255]. *)
Definition rgb8_pixel (p : pixel) : Prop :=
  exists r g b, p = px_uchar3 (make_uchar3 r g b) /\
    0 <= r <= 255 /\ 0 <= g <= 255 /\ 0 <= b <= 255.

(** The four channels of a colour are plain numbers. *)
Definition plain4 (c : float4) : Prop :=
  plain (float4_x c) /\ plain (float4_y c) /\ plain (float4_z c) /\ plain (float4_w c).

(** What the thread [t] of a launch over a [W] x [H] image does to the
    destination buffer when the pixel [(x,y)] has the value [value x y]:
    nothing outside the image, and one store at [y * W + x] inside. *)
Definition image_act {A : Type} (W H : Z) (value : Z -> Z -> option A)
    (t : dim3 * dim3) : option (Z * A) :=
  let x := dim3_x (fst t) * 8 + dim3_x (snd t) in
  let y := dim3_y (fst t) * 8 + dim3_y (snd t) in
  if (x >=? W) || (y >=? H) then None
  else v ← value x y; Some (y * W + x, v).

(** * Example inputs *)

(** Scenario A of the specification: a 2x2 score grid [[0,1],[1,0]], two
    classes (red and green, both opaque) and a 4x4 output. *)
Definition rgba (r g b a : Z) : float4 :=
  make_float4 (F32.of_int r) (F32.of_int g) (F32.of_int b) (F32.of_int a).

Definition scenario_colors : ptr float4 := Ptr [rgba 255 0 0 255; rgba 0 255 0 255].
Definition scenario_scores : ptr Z := Ptr [0; 1; 1; 0].
Definition scenario_dim : int2 := make_int2 2 2.
Definition scenario_output : list pixel := repeat (px_uchar3 (make_uchar3 0 0 0)) 16.

(** The same classes with a half-transparent green, and a grey input image. *)
Definition overlay_colors : ptr float4 := Ptr [rgba 255 0 0 255; rgba 0 255 0 128].
Definition overlay_input : ptr pixel := Ptr (repeat (px_uchar3 (make_uchar3 50 60 70)) 16).

(** Scenario C of the specification: a 1x1 planar tensor with the channel
    values (1.0, 0.5, -0.2); the last one is the binary32 nearest to -0.2. *)
Definition minus_point_two : float := S754_finite true 13421773 (-26).
Definition scenario_tensor : ptr float := Ptr [F32.one; F32.half; minus_point_two].
Definition scenario_dst : list uchar3 := [make_uchar3 0 0 0].

(** A 1x1 four-channel float image. *)
Definition float4_output : list pixel :=
  [px_float4 (make_float4 F32.zero F32.zero F32.zero F32.zero)].

(** A 2x1 planar tensor (red, then green, then blue plane), its alpha plane
    and a 2x1 destination. *)
Definition matte_src : ptr float :=
  Ptr [F32.one; F32.half; F32.zero; F32.one; F32.half; F32.half].
Definition matte_alpha : ptr float := Ptr [F32.one; F32.half].
Definition matte_dst : list uchar3 := [make_uchar3 0 0 0; make_uchar3 0 0 0].

(** A planar tensor of 2^24 + 2 columns and one row whose channels are all
    1.0, and its alpha plane: 0.0 everywhere but on the last pixel, 1.0. *)
Definition wide_src : ptr float := Ptr (replicate (Z.to_nat (3 * 16777218)) F32.one).
Definition wide_alpha : ptr float :=
  Ptr (replicate (Z.to_nat 16777217) F32.zero ++ [F32.one]).

(** A 3x3 score grid of the single class 0 and its colour. *)
Definition constant_colors : ptr float4 := Ptr [rgba 255 200 100 77].
Definition constant_scores : ptr Z := Ptr [0; 0; 0; 0; 0; 0; 0; 0; 0].
Definition constant_dim : int2 := make_int2 3 3.

(** A 4x4 output followed by one more cell. *)
Definition padded_output : list pixel :=
  scenario_output ++ [px_uchar3 (make_uchar3 9 9 9)].

(** An output one cell short of a 4x4 image. *)
Definition short_output : list pixel := repeat (px_uchar3 (make_uchar3 0 0 0)) 15.

(** The classes of scenario A made fully transparent. *)
Definition transparent_colors : ptr float4 := Ptr [rgba 255 0 0 0; rgba 0 255 0 0].


(** Alpha planes of a 2x1 image. *)
Definition ones_alpha : ptr float := Ptr [F32.one; F32.one].
Definition zeros_alpha : ptr float := Ptr [F32.zero; F32.zero].

(** The four components of a colour are regular numbers. *)
Definition float4_regular (c : float4) : bool :=
  F32.regular (float4_x c) && F32.regular (float4_y c) &&
  F32.regular (float4_z c) && F32.regular (float4_w c).

(** The alpha channel stored in mask-only mode, by pixel type: the constant
    255 in the channel type, and none for the three-channel types. *)
Definition mask_alpha (T : pixelType) : option channel :=
  match T with
  | T_uchar4 => Some (ch_uchar 255)
  | T_float4 => Some (ch_float F32.c255)
  | T_uchar3 | T_float3 => None
  end.

(** * The values of binary32 numbers

    The value of a finite number is [m * 2^e], a real number; [bpow e] is
    the power [2^e].  The definitions below state what the rounding steps
    of [SpecFloat] compute. *)

Definition bpow (e : Z) : R := powerRZ 2 e.

Definition shr_inv (m0 : Z) (r0 s0 : bool) (n : Z) (mrs : shr_record) : Prop :=
  shr_m mrs = m0 / 2 ^ n /\
  (shr_r mrs = true <-> 2 ^ (n - 1) <= m0 mod 2 ^ n) /\
  (shr_s mrs = true <-> (m0 mod 2 ^ (n - 1) <> 0 \/ r0 = true \/ s0 = true)).

Definition fexp32 (e : Z) : Z := fexp 24 128 e.

Definition inexact (l : location) : bool :=
  match l with loc_Exact => false | _ => true end.

(** The magnitude [m1 * 2^E] carried by the result [r] of a rounding of sign [s]. *)
Definition carries (r : spec_float) (s : bool) (m1 E : Z) : Prop :=
  (m1 = 0 /\ r = S754_zero s) \/
  (0 < m1 /\ exists m'' e'', r = S754_finite s m'' e'' /\
     (IZR (Zpos m'') * bpow e'' = IZR m1 * bpow E)%R /\ E <= e'' <= E + 1).

(** The result of a rounding whose mantissa before normalisation is [m1],
    at exponent [E]. *)
Definition round_result (s : bool) (m1 E : Z) : spec_float :=
  if m1 =? 0 then S754_zero s
  else if m1 =? 2 ^ 24
       then if E + 1 <=? 104 then S754_finite s 8388608 (E + 1) else S754_infinity s
       else if E <=? 104 then S754_finite s (Z.to_pos m1) E else S754_infinity s.

(** A value that is zero or positive, with its exponent bounded. *)
Definition nn_val (f : spec_float) (v : R) (eb : Z) : Prop :=
  (f = S754_zero false /\ v = 0%R) \/
  (exists m e, f = S754_finite false m e /\ v = (IZR (Zpos m) * bpow e)%R /\ e <= eb).

(** The value of a number: [m * 2^e] with its sign, and 0 for a zero. *)
Definition value (f : float) : R :=
  match f with
  | S754_finite s m e =>
      if s then (- (IZR (Zpos m) * bpow e))%R else (IZR (Zpos m) * bpow e)%R
  | _ => 0%R
  end.

(** A zero, or a finite number of sign [s], with its magnitude [v] and its
    exponent bounded. *)
Definition magnitude (f : float) (s : bool) (v : R) (eb : Z) : Prop :=
  ((exists s', f = S754_zero s') /\ v = 0%R) \/
  (exists m e, f = S754_finite s m e /\ v = (IZR (Zpos m) * bpow e)%R /\ e <= eb).

(** A zero or a finite number below [2^100] in magnitude. *)
Definition moderate (f : float) : bool :=
  match f with
  | S754_zero _ => true
  | S754_finite _ m e => Zpos (digits2_pos m) + e <=? 100
  | _ => false
  end.

Definition moderate_color (c : float4) : bool :=
  moderate (float4_x c) && moderate (float4_y c) &&
  moderate (float4_z c) && moderate (float4_w c).

(** [r] is the number [c] up to the rounding of a bilinear sum: a finite
    number within [2^-21 * |c| + 2^-147] of [c]. *)
Definition rounded (r c : float) : Prop :=
  F32.is_finite r = true /\
  (Rabs (value r - value c) <= bpow (-21) * Rabs (value c) + bpow (-147))%R.

Definition rounded_color (r c : float4) : Prop :=
  rounded (float4_x r) (float4_x c) /\ rounded (float4_y r) (float4_y c) /\
  rounded (float4_z r) (float4_z c) /\ rounded (float4_w r) (float4_w c).

(** * Proof automation

    Case analysis on a coordinate [0 <= x < n] of a small image. *)

Ltac enum_below x n :=
  lazymatch n with
  | O => exfalso; lia
  | S ?k =>
      let E := fresh "E" in
      destruct (Z.eq_dec x (Z.of_nat k)) as [E|E];
      [cbn in E; subst x | enum_below x k]
  end.

(** Case analysis along a chain of binds in the hypothesis [H]. *)
Ltac bind_cases H :=
  repeat (match type of H with
          | context [mbind _ ?o] =>
              lazymatch o with
              | context [mbind] => fail
              | _ => destruct o eqn:?; cbn [mbind option_bind fst snd] in H;
                     [|discriminate H]
              end
          end).

(** * Properties *)

(** ** Running the threads of a launch *)

Section RunThreads.

Context {A T : Type}.

(** What a thread does to the buffer: nothing, or one store. *)
Variable act : T -> option (Z * A).
Variable body : T -> list A -> option (list A).
Variable n : nat.

Lemma store_Some (s : list A) (i : Z) (v : A) :
  0 <= i < Z.of_nat (length s) ->
  store s i v = Some (<[Z.to_nat i := v]> s).
Proof.
  intros Hi. unfold store.
  destruct (Z.leb_spec 0 i); [|lia].
  destruct (Z.ltb_spec i (Z.of_nat (length s))); [|lia].
  reflexivity.
Qed.

(** When the threads of a list store to distinct cells inside the buffer,
    the run is defined, every stored value is found in its cell at the end
    and the other cells are unchanged. *)
Lemma run_threads_stores (ts : list T) : forall s : list A,
  (forall t s1, t ∈ ts -> length s1 = n ->
     body t s1 = match act t with
                 | None => Some s1
                 | Some (i, v) => store s1 i v
                 end) ->
  length s = n ->
  NoDup ts ->
  (forall t i v, t ∈ ts -> act t = Some (i, v) -> 0 <= i < Z.of_nat n) ->
  (forall t1 t2 i v1 v2, t1 ∈ ts -> t2 ∈ ts ->
     act t1 = Some (i, v1) -> act t2 = Some (i, v2) -> t1 = t2) ->
  exists s', run_threads body ts s = Some s' /\ length s' = n /\
    (forall t i v, t ∈ ts -> act t = Some (i, v) -> s' !! Z.to_nat i = Some v) /\
    (forall j, (forall t i v, t ∈ ts -> act t = Some (i, v) -> Z.to_nat i <> j) ->
       s' !! j = s !! j).
Proof.
  induction ts as [|t ts IH]; intros s body_act Hlen Hnd Hin Hinj.
  - exists s. repeat split; try done.
    intros t i v Ht. by apply elem_of_nil in Ht.
  - apply NoDup_cons in Hnd as [Hnot Hnd].
    cbn [run_threads]. rewrite body_act by (done || apply elem_of_cons; by left).
    assert (Hrest : forall s1, length s1 = n ->
      exists s', run_threads body ts s1 = Some s' /\ length s' = n /\
        (forall t i v, t ∈ ts -> act t = Some (i, v) -> s' !! Z.to_nat i = Some v) /\
        (forall j, (forall t i v, t ∈ ts -> act t = Some (i, v) -> Z.to_nat i <> j) ->
           s' !! j = s1 !! j)).
    { intros s1 Hs1. apply IH; try done.
      - intros t' s2 Ht'. apply body_act. by apply elem_of_cons; right.
      - intros t' i v Ht'. apply Hin. by apply elem_of_cons; right.
      - intros t1 t2 i v1 v2 H1 H2. apply Hinj; apply elem_of_cons; by right. }
    destruct (act t) as [[i v]|] eqn:Hact.
    + assert (Hi : 0 <= i < Z.of_nat n) by (eapply Hin; [apply elem_of_cons; by left|done]).
      rewrite store_Some by (rewrite Hlen; done). cbn.
      destruct (Hrest (<[Z.to_nat i := v]> s)) as (s' & Hrun & Hl & Hw & Hu).
      { by rewrite length_insert. }
      exists s'. split; [done|]. split; [done|]. split.
      * intros t' i' v' Ht' Hact'. apply elem_of_cons in Ht' as [->|Ht'].
        -- rewrite Hact in Hact'. injection Hact' as <- <-.
           rewrite Hu.
           ++ apply list_lookup_insert_eq. lia.
           ++ intros t2 i2 v2 Ht2 Hact2 Heq.
              assert (i2 = i) as ->.
              { assert (0 <= i2 < Z.of_nat n)
                  by (eapply Hin; [apply elem_of_cons; by right|done]). lia. }
              assert (t = t2) as <-.
              { eapply (Hinj t t2 i v v2); try done.
                - apply elem_of_cons; by left.
                - apply elem_of_cons; by right. }
              done.
        -- by eapply Hw.
      * intros j Hj. rewrite Hu.
        -- apply list_lookup_insert_ne. eapply Hj; [apply elem_of_cons; by left|done].
        -- intros t2 i2 v2 Ht2. apply Hj. apply elem_of_cons; by right.
    + cbn. destruct (Hrest s Hlen) as (s' & Hrun & Hl & Hw & Hu).
      exists s'. split; [done|]. split; [done|]. split.
      * intros t' i' v' Ht' Hact'. apply elem_of_cons in Ht' as [->|Ht'].
        -- congruence.
        -- by eapply Hw.
      * intros j Hj. apply Hu. intros t2 i2 v2 Ht2. apply Hj. apply elem_of_cons; by right.
Qed.

End RunThreads.

(** ** The threads of a grid *)

Lemma elem_of_grid_threads (g b : dim3) (t : dim3 * dim3) :
  t ∈ grid_threads g b <->
  exists bx by_ tx ty,
    t = (make_dim3 bx by_ 0, make_dim3 tx ty 0) /\
    0 <= bx < dim3_x g /\ 0 <= by_ < dim3_y g /\
    0 <= tx < dim3_x b /\ 0 <= ty < dim3_y b.
Proof.
  unfold grid_threads, range. split.
  - intros H.
    apply list_elem_of_bind in H as (by_ & H & Hby%elem_of_seqZ).
    apply list_elem_of_bind in H as (bx & H & Hbx%elem_of_seqZ).
    apply list_elem_of_bind in H as (ty & H & Hty%elem_of_seqZ).
    apply list_elem_of_bind in H as (tx & H & Htx%elem_of_seqZ).
    apply list_elem_of_singleton in H.
    exists bx, by_, tx, ty. repeat split; (done || lia).
  - intros (bx & by_ & tx & ty & -> & Hbx & Hby & Htx & Hty).
    apply list_elem_of_bind. exists by_. split; [|apply elem_of_seqZ; lia].
    apply list_elem_of_bind. exists bx. split; [|apply elem_of_seqZ; lia].
    apply list_elem_of_bind. exists ty. split; [|apply elem_of_seqZ; lia].
    apply list_elem_of_bind. exists tx. split; [|apply elem_of_seqZ; lia].
    by apply list_elem_of_singleton.
Qed.

Lemma NoDup_grid_threads (g b : dim3) : NoDup (grid_threads g b).
Proof.
  unfold grid_threads, range.
  apply NoDup_bind; [| |apply NoDup_seqZ].
  { intros y1 y2 t _ _ H1 H2.
    apply list_elem_of_bind in H1 as (? & H1 & _).
    apply list_elem_of_bind in H1 as (? & H1 & _).
    apply list_elem_of_bind in H1 as (? & H1 & _).
    apply list_elem_of_singleton in H1.
    apply list_elem_of_bind in H2 as (? & H2 & _).
    apply list_elem_of_bind in H2 as (? & H2 & _).
    apply list_elem_of_bind in H2 as (? & H2 & _).
    apply list_elem_of_singleton in H2. congruence. }
  intros by_ _.
  apply NoDup_bind; [| |apply NoDup_seqZ].
  { intros x1 x2 t _ _ H1 H2.
    apply list_elem_of_bind in H1 as (? & H1 & _).
    apply list_elem_of_bind in H1 as (? & H1 & _).
    apply list_elem_of_singleton in H1.
    apply list_elem_of_bind in H2 as (? & H2 & _).
    apply list_elem_of_bind in H2 as (? & H2 & _).
    apply list_elem_of_singleton in H2. congruence. }
  intros bx _.
  apply NoDup_bind; [| |apply NoDup_seqZ].
  { intros x1 x2 t _ _ H1 H2.
    apply list_elem_of_bind in H1 as (? & H1 & _).
    apply list_elem_of_singleton in H1.
    apply list_elem_of_bind in H2 as (? & H2 & _).
    apply list_elem_of_singleton in H2. congruence. }
  intros ty _.
  apply NoDup_bind; [| |apply NoDup_seqZ].
  { intros x1 x2 t _ _ H1 H2.
    apply list_elem_of_singleton in H1.
    apply list_elem_of_singleton in H2. congruence. }
  intros tx _. apply NoDup_singleton.
Qed.

(** ** Machine integers *)

Lemma int_Some (z : Z) : INT_MIN <= z <= INT_MAX -> int_ z = Some z.
Proof.
  intros H. unfold int_.
  destruct (Z.leb_spec INT_MIN z); [|lia].
  destruct (Z.leb_spec z INT_MAX); [|lia]. reflexivity.
Qed.

Lemma int_inv (z r : Z) : int_ z = Some r -> r = z /\ INT_MIN <= z <= INT_MAX.
Proof.
  unfold int_. destruct (Z.leb_spec INT_MIN z), (Z.leb_spec z INT_MAX); cbn; try discriminate.
  intros [= <-]. lia.
Qed.

Lemma int_of_uint_small (z : Z) : INT_MIN <= z <= INT_MAX -> int_of_uint z = z.
Proof.
  unfold int_of_uint, INT_MIN, INT_MAX. intros H.
  rewrite Z.mod_small by lia. lia.
Qed.

Lemma uint_small (z : Z) : 0 <= z < 2 ^ 32 -> uint z = z.
Proof. intros H. unfold uint. by apply Z.mod_small. Qed.

Lemma global_index (b t : Z) :
  0 <= b * 8 + t <= INT_MAX -> int_of_uint (uint (b * 8 + t)) = b * 8 + t.
Proof.
  unfold INT_MAX. intros H. rewrite uint_small by lia.
  apply int_of_uint_small. unfold INT_MIN, INT_MAX. lia.
Qed.

Lemma offset_Some (row width col : Z) :
  0 <= row -> 0 <= width -> 0 <= col -> row * width + col <= INT_MAX ->
  offset row width col = Some (row * width + col).
Proof.
  intros Hr Hw Hc H. unfold offset, int_mul, int_add.
  assert (0 <= row * width) by lia.
  rewrite int_Some by (unfold INT_MIN; lia). cbn.
  apply int_Some. unfold INT_MIN; lia.
Qed.

Lemma iDivUp_8 (w : Z) : 0 < w <= INT_MAX ->
  uint (iDivUp (int_of_uint w) 8) = (w + 7) / 8 /\ 0 < (w + 7) / 8 /\
  w <= 8 * ((w + 7) / 8) <= INT_MAX + 1.
Proof.
  unfold INT_MAX. intros H.
  rewrite int_of_uint_small by (unfold INT_MIN, INT_MAX; lia).
  unfold iDivUp. replace (w + 8 - 1) with (w + 7) by lia.
  assert (H8 := Z.div_mod (w + 7) 8 ltac:(lia)).
  assert (Hm := Z.mod_pos_bound (w + 7) 8 ltac:(lia)).
  rewrite uint_small by lia. lia.
Qed.

(** ** A launch that covers an image *)

Section ImageLaunch.

Context {A : Type}.
Variable kernel : dim3 -> dim3 -> dim3 -> list A -> option (list A).
Variable W H : Z.
Variable value : Z -> Z -> option A.

Hypothesis W_pos : 0 < W.
Hypothesis H_pos : 0 < H.
Hypothesis WH_int : W * H <= INT_MAX.

(** Each thread leaves the buffer alone outside the image and stores the
    value of its pixel inside. *)
Hypothesis kernel_thread : forall bx by_ tx ty s,
  0 <= bx -> 0 <= by_ -> 0 <= tx < 8 -> 0 <= ty < 8 ->
  bx * 8 + tx <= INT_MAX -> by_ * 8 + ty <= INT_MAX ->
  length s = Z.to_nat (W * H) ->
  kernel (make_dim3 bx by_ 0) (make_dim3 8 8 1) (make_dim3 tx ty 0) s =
    if (bx * 8 + tx >=? W) || (by_ * 8 + ty >=? H) then Some s
    else match value (bx * 8 + tx) (by_ * 8 + ty) with
         | Some v => store s ((by_ * 8 + ty) * W + (bx * 8 + tx)) v
         | None => None
         end.

Hypothesis value_defined : forall x y, 0 <= x < W -> 0 <= y < H -> is_Some (value x y).

Lemma image_act_Some (t : dim3 * dim3) (i : Z) (v : A) :
  0 <= dim3_x (fst t) * 8 + dim3_x (snd t) ->
  0 <= dim3_y (fst t) * 8 + dim3_y (snd t) ->
  image_act W H value t = Some (i, v) ->
  let x := dim3_x (fst t) * 8 + dim3_x (snd t) in
  let y := dim3_y (fst t) * 8 + dim3_y (snd t) in
  0 <= x < W /\ 0 <= y < H /\ i = y * W + x /\ value x y = Some v.
Proof.
  intros Hx Hy. unfold image_act. cbn zeta.
  destruct (Z.geb_spec (dim3_x (fst t) * 8 + dim3_x (snd t)) W);
  destruct (Z.geb_spec (dim3_y (fst t) * 8 + dim3_y (snd t)) H); cbn; try discriminate.
  destruct (value _ _) as [v'|]; cbn; [|discriminate].
  intros [= <- <-]. repeat split; (done || lia).
Qed.

(** The launch of [cudaSegOverlay] and of the tensor launchers, on a buffer
    of [W * H] cells: it is defined and leaves in cell [y * W + x] the value
    of the pixel [(x,y)]. *)
Lemma launch_image (s : list A) :
  length s = Z.to_nat (W * H) ->
  exists s',
    launch kernel (make_dim3 (uint (iDivUp (int_of_uint W) 8))
                             (uint (iDivUp (int_of_uint H) 8)) 1)
                  (make_dim3 8 8 1) s = Some s' /\
    length s' = length s /\
    forall x y, 0 <= x < W -> 0 <= y < H ->
      s' !! Z.to_nat (y * W + x) = value x y.
Proof.
  intros Hlen.
  assert (HW : W <= INT_MAX) by nia.
  assert (HH : H <= INT_MAX) by nia.
  destruct (iDivUp_8 W ltac:(lia)) as (-> & HgW & HgW').
  destruct (iDivUp_8 H ltac:(lia)) as (-> & HgH & HgH').
  set (g := make_dim3 ((W + 7) / 8) ((H + 7) / 8) 1).
  set (b := make_dim3 8 8 1).
  unfold launch.
  assert (Hcoord : forall t, t ∈ grid_threads g b ->
    exists bx by_ tx ty, t = (make_dim3 bx by_ 0, make_dim3 tx ty 0) /\
      0 <= bx /\ 0 <= by_ /\ 0 <= tx < 8 /\ 0 <= ty < 8 /\
      bx * 8 + tx <= INT_MAX /\ by_ * 8 + ty <= INT_MAX).
  { intros t (bx & by_ & tx & ty & -> & Hbx & Hby & Htx & Hty)%elem_of_grid_threads.
    cbn in Hbx, Hby, Htx, Hty.
    exists bx, by_, tx, ty. repeat split; (done || lia). }
  destruct (run_threads_stores (image_act W H value)
              (fun t => kernel (fst t) b (snd t)) (Z.to_nat (W * H))
              (grid_threads g b) s) as (s' & Hrun & Hl & Hw & _).
  - (* each thread is described by [image_act] *)
    intros t s1 (bx & by_ & tx & ty & -> & ? & ? & ? & ? & ? & ?)%Hcoord Hs1.
    cbn [fst snd]. rewrite kernel_thread by done.
    unfold image_act. cbn [fst snd dim3_x dim3_y].
    destruct (Z.geb_spec (bx * 8 + tx) W); [done|].
    destruct (Z.geb_spec (by_ * 8 + ty) H); [done|]. cbn.
    destruct (value_defined (bx * 8 + tx) (by_ * 8 + ty)) as [v ->]; [lia..|]. done.
  - done.
  - apply NoDup_grid_threads.
  - intros t i v (bx & by_ & tx & ty & -> & ? & ? & ? & ? & ? & ?)%Hcoord Hact.
    apply image_act_Some in Hact; cbn [fst snd dim3_x dim3_y] in *; [|lia..].
    destruct Hact as (Hx & Hy & -> & _). nia.
  - intros t1 t2 i v1 v2
      (bx1 & by1 & tx1 & ty1 & -> & ? & ? & ? & ? & ? & ?)%Hcoord
      (bx2 & by2 & tx2 & ty2 & -> & ? & ? & ? & ? & ? & ?)%Hcoord Ha1 Ha2.
    apply image_act_Some in Ha1; cbn [fst snd dim3_x dim3_y] in *; [|lia..].
    apply image_act_Some in Ha2; cbn [fst snd dim3_x dim3_y] in *; [|lia..].
    destruct Ha1 as (Hx1 & Hy1 & -> & _). destruct Ha2 as (Hx2 & Hy2 & Heq & _).
    assert (by1 * 8 + ty1 = by2 * 8 + ty2) by nia.
    assert (bx1 * 8 + tx1 = bx2 * 8 + tx2) by nia.
    assert (bx1 = bx2) by lia. assert (by1 = by2) by lia.
    assert (tx1 = tx2) by lia. assert (ty1 = ty2) by lia.
    by subst.
  - exists s'. split; [done|]. split; [lia|].
    intros x y Hx Hy.
    destruct (value_defined x y Hx Hy) as [v Hv]. rewrite Hv.
    apply (Hw (make_dim3 (x / 8) (y / 8) 0, make_dim3 (x mod 8) (y mod 8) 0)).
    + apply elem_of_grid_threads.
      exists (x / 8), (y / 8), (x mod 8), (y mod 8). cbn.
      assert (Hdx := Z.div_mod x 8 ltac:(lia)).
      assert (Hmx := Z.mod_pos_bound x 8 ltac:(lia)).
      assert (Hdy := Z.div_mod y 8 ltac:(lia)).
      assert (Hmy := Z.mod_pos_bound y 8 ltac:(lia)).
      repeat split; (done || lia).
    + unfold image_act. cbn [fst snd dim3_x dim3_y].
      assert (Hdx := Z.div_mod x 8 ltac:(lia)).
      assert (Hdy := Z.div_mod y 8 ltac:(lia)).
      replace (x / 8 * 8 + x mod 8) with x by lia.
      replace (y / 8 * 8 + y mod 8) with y by lia.
      destruct (Z.geb_spec x W); [lia|].
      destruct (Z.geb_spec y H); [lia|].
      cbn. by rewrite Hv.
Qed.

End ImageLaunch.

(** ** The kernel as a composition of its steps *)

Lemma gpuSegOverlay_thread (T : pixelType) (filter_linear mask_only : bool)
    (input : ptr pixel) (in_width in_height out_width out_height : Z)
    (class_colors : ptr float4) (scores : ptr Z) (scores_dim : int2)
    (bx by_ tx ty : Z) (s : list pixel) :
  0 <= bx * 8 + tx <= INT_MAX -> 0 <= by_ * 8 + ty <= INT_MAX ->
  gpuSegOverlay T filter_linear mask_only input in_width in_height
    out_width out_height class_colors scores scores_dim
    (make_dim3 bx by_ 0) (make_dim3 8 8 1) (make_dim3 tx ty 0) s =
  if (bx * 8 + tx >=? out_width) || (by_ * 8 + ty >=? out_height) then Some s
  else v ← pixel_value T filter_linear mask_only input in_width in_height
             out_width out_height class_colors scores scores_dim
             (bx * 8 + tx) (by_ * 8 + ty);
       i ← offset (by_ * 8 + ty) out_width (bx * 8 + tx);
       store s i v.
Proof.
  intros Hx Hy. unfold gpuSegOverlay. cbn [dim3_x dim3_y].
  rewrite !global_index by done.
  destruct (_ || _); [reflexivity|].
  unfold pixel_value, point_color, point_cell, linear_color, linear_axis,
    mask_value, blend_value, input_cell, bilinear4, linear_weights, bilinear,
    blend, normalized, linear_coord.
  destruct filter_linear, mask_only; cbn [negb];
    repeat (match goal with
            | |- context [mbind _ ?o] =>
                lazymatch o with
                | context [mbind] => fail
                | _ => destruct o eqn:?; cbn [mbind option_bind fst snd]
                end
            end); try reflexivity.
Qed.

(** ** Signs *)

Lemma binary_round_aux_sign (m e : Z) (l : location) :
  sign_clear (binary_round_aux F32.prec F32.emax false m e l).
Proof.
  unfold binary_round_aux.
  destruct (shr_fexp _ _ _ _ _) as [mrs' e'].
  destruct (shr_fexp _ _ _ _ _) as [mrs'' e''].
  destruct (shr_m mrs''); [reflexivity| |exact I].
  destruct (_ <=? _)%Z; reflexivity.
Qed.

Lemma of_int_sign (z : Z) : 0 <= z -> sign_clear (F32.of_int z).
Proof.
  intros Hz. unfold F32.of_int, binary_normalize.
  destruct z as [|p|p]; [reflexivity| |lia].
  unfold binary_round. destruct (shl_align _ _ _) as [mz ez].
  apply binary_round_aux_sign.
Qed.

Lemma div_sign (a b : float) :
  sign_clear a -> sign_clear b -> sign_clear (F32.div a b).
Proof.
  destruct a as [sa|sa| |sa ma ea], b as [sb|sb| |sb mb eb]; cbn;
    intros Ha Hb; subst; try done.
  unfold F32.div, SFdiv.
  destruct (SFdiv_core_binary _ _ _ _ _ _) as [[mz ez] lz].
  apply binary_round_aux_sign.
Qed.

Lemma mul_sign (a b : float) :
  sign_clear a -> sign_clear b -> sign_clear (F32.mul a b).
Proof.
  destruct a as [sa|sa| |sa ma ea], b as [sb|sb| |sb mb eb]; cbn;
    intros Ha Hb; subst; try done.
  apply binary_round_aux_sign.
Qed.

Lemma normalized_sign (x w : Z) : 0 <= x -> 0 <= w -> sign_clear (normalized x w).
Proof. intros Hx Hw. apply div_sign; by apply of_int_sign. Qed.

Lemma trunc_floor (f : float) : sign_clear f -> F32.trunc f = F32.floor f.
Proof.
  destruct f as [s|s| |s m e]; cbn; try done.
  intros ->. by destruct e.
Qed.

Lemma floor_nonneg (f : float) (z : Z) : sign_clear f -> F32.floor f = Some z -> 0 <= z.
Proof.
  destruct f as [s|s| |s m e]; cbn; try done.
  - intros _ [= <-]. lia.
  - intros -> [= <-]. destruct e; try lia.
    apply Z.div_pos; lia.
Qed.

(** The kernel's [int(...)] of a scaled position is the specification's
    floor, as long as the floor fits an [int]. *)
Lemma int_of_float_floor (p : float) (dim z : Z) :
  sign_clear p -> 0 <= dim ->
  F32.floor (F32.mul p (F32.of_int dim)) = Some z -> z <= INT_MAX ->
  int_of_float (F32.mul p (F32.of_int dim)) = Some z /\ 0 <= z.
Proof.
  intros Hp Hd Hf Hz.
  assert (Hs : sign_clear (F32.mul p (F32.of_int dim)))
    by (apply mul_sign; [done|by apply of_int_sign]).
  assert (0 <= z) by (by eapply floor_nonneg).
  split; [|done].
  unfold int_of_float. rewrite trunc_floor, Hf by done. cbn.
  apply int_Some. unfold INT_MIN. lia.
Qed.

(** ** The launch of [cudaSegOverlay] *)

Lemma load_bound {A : Type} (p : ptr A) (i : Z) (v : A) :
  load p i = Some v -> 0 <= i < size p.
Proof.
  destruct p as [|cells]; cbn; [done|].
  unfold load_at. destruct (Z.leb_spec 0 i); [|done].
  intros Hl%lookup_lt_Some. lia.
Qed.

Lemma LAUNCH_OVERLAY_type (filter mask : bool) (format : imageFormat) (T : pixelType)
    (g b : dim3) (input : ptr pixel) (in_width in_height out_width out_height : Z)
    (class_colors : ptr float4) (scores : ptr Z) (scores_dim : int2) :
  format_type format = Some T ->
  LAUNCH_OVERLAY filter mask format g b input in_width in_height out_width out_height
    class_colors scores scores_dim =
  Some (launch (gpuSegOverlay T filter mask input
                  (int_of_uint in_width) (int_of_uint in_height)
                  (int_of_uint out_width) (int_of_uint out_height)
                  class_colors scores scores_dim) g b).
Proof. destruct format; cbn; intros [= <-]; reflexivity. Qed.

Lemma format_type_IsRGB (format : imageFormat) (T : pixelType) :
  format_type format = Some T -> imageFormatIsRGB format = true.
Proof. by destruct format. Qed.

Section SegOverlayLaunch.

Variable LOG_TRT : string.
Variable imageFormatToStr : imageFormat -> string.
Variable cudaGetLastError : cudaError_t.

(** A call on a supported format and a non-empty image whose pixels all
    have a value returns the status polled after the launch, and the device
    leaves in every cell of the output buffer the value of its pixel. *)
Lemma cudaSegOverlay_pixels (T : pixelType) (filter_linear mask_only : bool)
    (input : ptr pixel) (in_width in_height : Z) (out : list pixel) (W H : Z)
    (format : imageFormat)
    (class_colors : ptr float4) (scores : ptr Z) (scores_dim : int2) :
  format_type format = Some T ->
  0 < W -> 0 < H -> W * H <= INT_MAX ->
  length out = Z.to_nat (W * H) ->
  (forall x y, 0 <= x < W -> 0 <= y < H ->
     is_Some (pixel_value T filter_linear mask_only input
                (int_of_uint in_width) (int_of_uint in_height) W H
                class_colors scores scores_dim x y)) ->
  let c := cudaSegOverlay LOG_TRT imageFormatToStr cudaGetLastError
             input in_width in_height (Ptr out) W H format
             class_colors scores scores_dim filter_linear mask_only in
  status c = cudaGetLastError /\
  exists out', completed c out = Some out' /\ length out' = length out /\
    forall x y, 0 <= x < W -> 0 <= y < H ->
      out' !! Z.to_nat (y * W + x) =
      pixel_value T filter_linear mask_only input
        (int_of_uint in_width) (int_of_uint in_height) W H
        class_colors scores scores_dim x y.
Proof.
  intros Hfmt HW HH HWH Hlen Hdef c. subst c.
  assert (HW' : W <= INT_MAX) by nia.
  assert (HH' : H <= INT_MAX) by nia.
  unfold cudaSegOverlay. cbn [is_null].
  destruct (Z.eqb_spec W 0); [lia|]. destruct (Z.eqb_spec H 0); [lia|]. cbn [orb].
  rewrite (format_type_IsRGB _ _ Hfmt). cbn [negb status].
  split; [reflexivity|].
  unfold completed. cbn [launched dim3_x dim3_y].
  assert (Hl : forall f m,
    LAUNCH_OVERLAY f m format
      (make_dim3 (uint (iDivUp (int_of_uint W) 8)) (uint (iDivUp (int_of_uint H) 8)) 1)
      (make_dim3 8 8 1) input in_width in_height W H class_colors scores scores_dim =
    Some (launch (gpuSegOverlay T f m input (int_of_uint in_width) (int_of_uint in_height)
                    W H class_colors scores scores_dim)
            (make_dim3 (uint (iDivUp (int_of_uint W) 8)) (uint (iDivUp (int_of_uint H) 8)) 1)
            (make_dim3 8 8 1))).
  { intros f m. rewrite (LAUNCH_OVERLAY_type _ _ _ T) by done.
    rewrite !(int_of_uint_small W), !(int_of_uint_small H)
      by (unfold INT_MIN; unfold INT_MAX in *; lia).
    reflexivity. }
  assert (Hgoal : exists out',
    launch (gpuSegOverlay T filter_linear mask_only input
              (int_of_uint in_width) (int_of_uint in_height) W H
              class_colors scores scores_dim)
      (make_dim3 (uint (iDivUp (int_of_uint W) 8)) (uint (iDivUp (int_of_uint H) 8)) 1)
      (make_dim3 8 8 1) out = Some out' /\ length out' = length out /\
    forall x y, 0 <= x < W -> 0 <= y < H ->
      out' !! Z.to_nat (y * W + x) =
      pixel_value T filter_linear mask_only input
        (int_of_uint in_width) (int_of_uint in_height) W H
        class_colors scores scores_dim x y).
  { apply launch_image; try done.
    intros bx by_ tx ty s Hbx Hby Htx Hty Hx Hy Hs.
    rewrite gpuSegOverlay_thread by lia.
    destruct (Z.geb_spec (bx * 8 + tx) W); [done|].
    destruct (Z.geb_spec (by_ * 8 + ty) H); [done|]. cbn [orb].
    destruct (pixel_value _ _ _ _ _ _ _ _ _ _ _ _ _) as [v|]; [|done].
    cbn. rewrite offset_Some by nia. done. }
  destruct filter_linear, mask_only; rewrite Hl; exact Hgoal.
Qed.

End SegOverlayLaunch.

(** ** Point filtering against the specification *)

Lemma point_color_spec (class_colors : ptr float4) (scores : ptr Z) (scores_dim : int2)
    (px py : float) (cell : Z * Z) (c : float4) :
  sign_clear px -> sign_clear py ->
  0 < int2_x scores_dim -> 0 < int2_y scores_dim ->
  size scores <= INT_MAX ->
  Spec.nearest_cell scores_dim px py = Some cell ->
  Spec.class_color class_colors scores scores_dim cell = Some c ->
  point_color class_colors scores scores_dim px py = Some c.
Proof.
  intros Hpx Hpy Hsx Hsy Hsize Hcell Hcol.
  unfold Spec.nearest_cell in Hcell.
  destruct (F32.floor (F32.mul px _)) as [x1|] eqn:Hx1; [|done].
  destruct (F32.floor (F32.mul py _)) as [y1|] eqn:Hy1; [|done].
  cbn in Hcell. injection Hcell as <-.
  unfold Spec.class_color in Hcol. cbn [fst snd] in Hcol.
  destruct (load scores _) as [id|] eqn:Hid; [|done]. cbn in Hcol.
  apply load_bound in Hid as Hb.
  assert (0 <= x1) by (eapply floor_nonneg; [|exact Hx1]; apply mul_sign;
    [done|apply of_int_sign; lia]).
  assert (0 <= y1) by (eapply floor_nonneg; [|exact Hy1]; apply mul_sign;
    [done|apply of_int_sign; lia]).
  assert (x1 <= INT_MAX) by nia.
  assert (y1 <= INT_MAX) by nia.
  unfold point_color, point_cell.
  destruct (int_of_float_floor px (int2_x scores_dim) x1) as [-> _]; [done|lia|done..|].
  destruct (int_of_float_floor py (int2_y scores_dim) y1) as [-> _]; [done|lia|done..|].
  cbn. unfold LOOKUP_CLASS_MAP. rewrite offset_Some by lia. cbn.
  by rewrite Hid.
Qed.

Lemma input_spec (input : ptr pixel) (in_width in_height : Z) (px py : float) (p : pixel) :
  sign_clear px -> sign_clear py ->
  0 < in_width -> 0 < in_height ->
  size input <= INT_MAX ->
  Spec.nearest_input input in_width in_height px py = Some p ->
  (c ← input_cell in_width in_height px py;
   i_in ← offset (snd c) in_width (fst c);
   load input i_in) = Some p.
Proof.
  intros Hpx Hpy Hw Hh Hsize Hin.
  unfold Spec.nearest_input in Hin.
  destruct (F32.floor (F32.mul px _)) as [x1|] eqn:Hx1; [|done].
  destruct (F32.floor (F32.mul py _)) as [y1|] eqn:Hy1; [|done].
  cbn in Hin. apply load_bound in Hin as Hb.
  assert (0 <= x1) by (eapply floor_nonneg; [|exact Hx1]; apply mul_sign;
    [done|apply of_int_sign; lia]).
  assert (0 <= y1) by (eapply floor_nonneg; [|exact Hy1]; apply mul_sign;
    [done|apply of_int_sign; lia]).
  assert (x1 <= INT_MAX) by nia.
  assert (y1 <= INT_MAX) by nia.
  unfold input_cell.
  destruct (int_of_float_floor px in_width x1) as [-> _]; [done|lia|done..|].
  destruct (int_of_float_floor py in_height y1) as [-> _]; [done|lia|done..|].
  cbn. rewrite offset_Some by lia. cbn. done.
Qed.

Lemma point_mask_value (T : pixelType) (input : ptr pixel) (in_width in_height : Z)
    (class_colors : ptr float4) (scores : ptr Z) (scores_dim : int2)
    (W H x y : Z) (p : pixel) :
  0 <= x -> 0 <= y -> 0 <= W -> 0 <= H ->
  0 < int2_x scores_dim -> 0 < int2_y scores_dim ->
  size scores <= INT_MAX ->
  Spec.point_mask_pixel T class_colors scores scores_dim W H x y = Some p ->
  pixel_value T false true input in_width in_height W H
    class_colors scores scores_dim x y = Some p.
Proof.
  intros Hx Hy HW HH Hsx Hsy Hsize Hp.
  unfold Spec.point_mask_pixel in Hp.
  destruct (Spec.nearest_cell _ _ _) as [cell|] eqn:Hcell; [|done].
  cbn in Hp.
  destruct (Spec.class_color _ _ _ _) as [c|] eqn:Hc; [|done].
  cbn in Hp.
  unfold pixel_value.
  erewrite point_color_spec; try done; try by apply normalized_sign.
Qed.

Lemma point_overlay_value (T : pixelType) (input : ptr pixel) (in_width in_height : Z)
    (class_colors : ptr float4) (scores : ptr Z) (scores_dim : int2)
    (W H x y : Z) (p : pixel) :
  0 <= x -> 0 <= y -> 0 <= W -> 0 <= H ->
  0 < int2_x scores_dim -> 0 < int2_y scores_dim ->
  0 < in_width -> 0 < in_height ->
  size scores <= INT_MAX -> size input <= INT_MAX ->
  Spec.point_overlay_pixel T input in_width in_height
    class_colors scores scores_dim W H x y = Some p ->
  pixel_value T false false input in_width in_height W H
    class_colors scores scores_dim x y = Some p.
Proof.
  intros Hx Hy HW HH Hsx Hsy Hiw Hih Hsize Hsize' Hp.
  unfold Spec.point_overlay_pixel in Hp. cbn zeta in Hp.
  destruct (Spec.nearest_cell _ _ _) as [cell|] eqn:Hcell; [|done].
  cbn in Hp.
  destruct (Spec.class_color _ _ _ _) as [c|] eqn:Hc; [|done].
  cbn in Hp.
  destruct (Spec.nearest_input _ _ _ _ _) as [pin|] eqn:Hpin; [|done].
  cbn in Hp.
  unfold pixel_value.
  erewrite point_color_spec; try done; try by apply normalized_sign.
  cbn. unfold blend_value.
  apply input_spec in Hpin; try done; try by apply normalized_sign.
  destruct (input_cell _ _ _ _) as [ic|]; [|done]. cbn in Hpin |- *.
  destruct (offset _ _ _) as [i|]; [|done]. cbn in Hpin |- *.
  rewrite Hpin. cbn. exact Hp.
Qed.

Section PointMode.

Variable LOG_TRT : string.
Variable imageFormatToStr : imageFormat -> string.
Variable cudaGetLastError : cudaError_t.

(** C1. In point-filter mask-only mode the call is defined and every output
    pixel [(x,y)] of the image holds the colour
    [class_colors[scores[y1 * scores_dim.x + x1]]] of the cell
    [(x1,y1) = (floor((x/out_width) * scores_dim.x),
                floor((y/out_height) * scores_dim.y))],
    its three components written as they are in the channel type of the
    format and the alpha set to 255; nothing is blended. *)
Theorem point_mask_exact (T : pixelType)
    (input : ptr pixel) (in_width in_height : Z) (out : list pixel) (W H : Z)
    (format : imageFormat)
    (class_colors : ptr float4) (scores : ptr Z) (scores_dim : int2) :
  format_type format = Some T ->
  0 < W -> 0 < H -> W * H <= INT_MAX ->
  length out = Z.to_nat (W * H) ->
  0 < int2_x scores_dim -> 0 < int2_y scores_dim ->
  size scores <= INT_MAX ->
  (forall x y, 0 <= x < W -> 0 <= y < H ->
     is_Some (Spec.point_mask_pixel T class_colors scores scores_dim W H x y)) ->
  exists out',
    completed (cudaSegOverlay LOG_TRT imageFormatToStr cudaGetLastError
                 input in_width in_height (Ptr out) W H format
                 class_colors scores scores_dim false true) out = Some out' /\
    length out' = length out /\
    forall x y, 0 <= x < W -> 0 <= y < H ->
      out' !! Z.to_nat (y * W + x) =
      Spec.point_mask_pixel T class_colors scores scores_dim W H x y.
Proof.
  intros Hfmt HW HH HWH Hlen Hsx Hsy Hsize Hdef.
  assert (Hval : forall x y, 0 <= x < W -> 0 <= y < H ->
    pixel_value T false true input (int_of_uint in_width) (int_of_uint in_height) W H
      class_colors scores scores_dim x y =
    Spec.point_mask_pixel T class_colors scores scores_dim W H x y).
  { intros x y Hx Hy. destruct (Hdef x y Hx Hy) as [p Hp]. rewrite Hp.
    apply point_mask_value; (done || lia). }
  destruct (cudaSegOverlay_pixels LOG_TRT imageFormatToStr cudaGetLastError
              T false true input in_width in_height out W H format
              class_colors scores scores_dim) as (_ & out' & Hc & Hl & Hpix);
    try done.
  { intros x y Hx Hy. rewrite Hval by done. by apply Hdef. }
  exists out'. split; [done|]. split; [done|].
  intros x y Hx Hy. rewrite Hpix by done. by apply Hval.
Qed.

(** C2. In point-filter overlay mode the call is defined and every output
    pixel holds [alpha*color + (1-alpha)*input] per RGB channel, computed
    in binary32 with [alpha = color.w / 255], where [color] is the colour of
    the nearest cell and [input] the input pixel at
    [(floor(px*in_width), floor(py*in_height))]; the sums are handed to the
    channel type of the format as they are (neither rounded nor clamped by
    the kernel) and the alpha is set to 255. *)
Theorem point_overlay_blend (T : pixelType)
    (input : ptr pixel) (in_width in_height : Z) (out : list pixel) (W H : Z)
    (format : imageFormat)
    (class_colors : ptr float4) (scores : ptr Z) (scores_dim : int2) :
  format_type format = Some T ->
  0 < W -> 0 < H -> W * H <= INT_MAX ->
  length out = Z.to_nat (W * H) ->
  0 < int2_x scores_dim -> 0 < int2_y scores_dim ->
  0 < in_width <= INT_MAX -> 0 < in_height <= INT_MAX ->
  size scores <= INT_MAX -> size input <= INT_MAX ->
  (forall x y, 0 <= x < W -> 0 <= y < H ->
     is_Some (Spec.point_overlay_pixel T input in_width in_height
                class_colors scores scores_dim W H x y)) ->
  exists out',
    completed (cudaSegOverlay LOG_TRT imageFormatToStr cudaGetLastError
                 input in_width in_height (Ptr out) W H format
                 class_colors scores scores_dim false false) out = Some out' /\
    length out' = length out /\
    forall x y, 0 <= x < W -> 0 <= y < H ->
      out' !! Z.to_nat (y * W + x) =
      Spec.point_overlay_pixel T input in_width in_height
        class_colors scores scores_dim W H x y.
Proof.
  intros Hfmt HW HH HWH Hlen Hsx Hsy Hiw Hih Hsize Hsize' Hdef.
  assert (Hiw' : int_of_uint in_width = in_width)
    by (apply int_of_uint_small; unfold INT_MIN; lia).
  assert (Hih' : int_of_uint in_height = in_height)
    by (apply int_of_uint_small; unfold INT_MIN; lia).
  assert (Hval : forall x y, 0 <= x < W -> 0 <= y < H ->
    pixel_value T false false input (int_of_uint in_width) (int_of_uint in_height) W H
      class_colors scores scores_dim x y =
    Spec.point_overlay_pixel T input in_width in_height
      class_colors scores scores_dim W H x y).
  { intros x y Hx Hy. destruct (Hdef x y Hx Hy) as [p Hp]. rewrite Hp, Hiw', Hih'.
    apply point_overlay_value; (done || lia). }
  destruct (cudaSegOverlay_pixels LOG_TRT imageFormatToStr cudaGetLastError
              T false false input in_width in_height out W H format
              class_colors scores scores_dim) as (_ & out' & Hc & Hl & Hpix);
    try done.
  { intros x y Hx Hy. rewrite Hval by done. by apply Hdef. }
  exists out'. split; [done|]. split; [done|].
  intros x y Hx Hy. rewrite Hpix by done. by apply Hval.
Qed.

End PointMode.

Lemma point_mask_exact_witness :
  exists out',
    completed (cudaSegOverlay EmptyString (fun _ => EmptyString) cudaSuccess
                 NULL 0 0 (Ptr scenario_output) 4 4 IMAGE_RGB8
                 scenario_colors scenario_scores scenario_dim false true)
              scenario_output = Some out' /\
    length out' = length scenario_output /\
    forall x y, 0 <= x < 4 -> 0 <= y < 4 ->
      out' !! Z.to_nat (y * 4 + x) =
      Spec.point_mask_pixel T_uchar3 scenario_colors scenario_scores scenario_dim 4 4 x y.
Proof.
  apply (point_mask_exact EmptyString (fun _ => EmptyString) cudaSuccess T_uchar3
           NULL 0 0 scenario_output 4 4 IMAGE_RGB8
           scenario_colors scenario_scores scenario_dim).
  - reflexivity.
  - lia.
  - lia.
  - vm_compute. discriminate.
  - reflexivity.
  - cbn. lia.
  - cbn. lia.
  - vm_compute. discriminate.
  - intros x y Hx Hy.
    enum_below x 4%nat; enum_below y 4%nat; vm_compute; eexists; reflexivity.
Defined.

Lemma point_overlay_blend_witness :
  exists out',
    completed (cudaSegOverlay EmptyString (fun _ => EmptyString) cudaSuccess
                 overlay_input 4 4 (Ptr scenario_output) 4 4 IMAGE_RGB8
                 overlay_colors scenario_scores scenario_dim false false)
              scenario_output = Some out' /\
    length out' = length scenario_output /\
    forall x y, 0 <= x < 4 -> 0 <= y < 4 ->
      out' !! Z.to_nat (y * 4 + x) =
      Spec.point_overlay_pixel T_uchar3 overlay_input 4 4
        overlay_colors scenario_scores scenario_dim 4 4 x y.
Proof.
  apply (point_overlay_blend EmptyString (fun _ => EmptyString) cudaSuccess T_uchar3
           overlay_input 4 4 scenario_output 4 4 IMAGE_RGB8
           overlay_colors scenario_scores scenario_dim).
  - reflexivity.
  - lia.
  - lia.
  - vm_compute. discriminate.
  - reflexivity.
  - cbn. lia.
  - cbn. lia.
  - unfold INT_MAX. lia.
  - unfold INT_MAX. lia.
  - vm_compute. discriminate.
  - vm_compute. discriminate.
  - intros x y Hx Hy.
    enum_below x 4%nat; enum_below y 4%nat; vm_compute; eexists; reflexivity.
Defined.

(** ** Validation in [cudaSegOverlay] *)

Section Validation.

Variable LOG_TRT : string.
Variable imageFormatToStr : imageFormat -> string.
Variable cudaGetLastError : cudaError_t.

(** C3. [cudaSegOverlay] fails before any kernel is put on the stream: a
    null output pointer gives [cudaErrorInvalidDevicePointer]; with a
    non-null output, a zero output width or height gives
    [cudaErrorInvalidValue]; with non-zero dimensions, a format other than
    the four RGB formats gives [cudaErrorInvalidValue] and a diagnostic
    naming them.  In each case nothing is launched, so the output buffer
    is left as it was. *)
Theorem cudaSegOverlay_fails_fast
    (input : ptr pixel) (in_width in_height : Z)
    (output : ptr pixel) (out_width out_height : Z) (format : imageFormat)
    (class_colors : ptr float4) (scores : ptr Z) (scores_dim : int2)
    (filter_linear mask_only : bool) :
  let c := cudaSegOverlay LOG_TRT imageFormatToStr cudaGetLastError
             input in_width in_height output out_width out_height format
             class_colors scores scores_dim filter_linear mask_only in
  (output = NULL ->
     status c = cudaErrorInvalidDevicePointer /\ launched c = None /\
     forall buf, completed c buf = Some buf) /\
  (output <> NULL -> out_width = 0 \/ out_height = 0 ->
     status c = cudaErrorInvalidValue /\ launched c = None /\
     forall buf, completed c buf = Some buf) /\
  (output <> NULL -> out_width <> 0 -> out_height <> 0 ->
   format <> IMAGE_RGB8 -> format <> IMAGE_RGBA8 ->
   format <> IMAGE_RGB32F -> format <> IMAGE_RGBA32F ->
     status c = cudaErrorInvalidValue /\ launched c = None /\
     (forall buf, completed c buf = Some buf) /\
     exists line, logged c =
       [ line;
         (LOG_TRT ++ "          supported formats are:" ++ newline)%string;
         (LOG_TRT ++ "              * rgb8" ++ newline)%string;
         (LOG_TRT ++ "              * rgba8" ++ newline)%string;
         (LOG_TRT ++ "              * rgb32f" ++ newline)%string;
         (LOG_TRT ++ "              * rgba32f" ++ newline)%string ]).
Proof.
  cbn zeta. unfold cudaSegOverlay, completed. split; [|split].
  - by intros ->.
  - intros Hout Hdim. destruct output; [done|]. cbn [is_null].
    destruct Hdim as [-> | ->]; cbn; [done|]. by rewrite orb_true_r.
  - intros Hout HW HH H1 H2 H3 H4. destruct output; [done|]. cbn [is_null].
    destruct (Z.eqb_spec out_width 0); [done|].
    destruct (Z.eqb_spec out_height 0); [done|].
    destruct format; try done. cbn. repeat split; try done.
    eexists. reflexivity.
Qed.

(** C9. Of the buffer arguments only the output pointer is inspected: with
    a non-null output, non-zero output dimensions and a supported format,
    whatever the input, score-grid and colour-table pointers are (null
    included), nothing is logged, the kernel of the format is launched on
    these very pointers, and the status returned is the one polled after
    the launch, not an error of the validation. *)
Theorem cudaSegOverlay_ignores_null_inputs (T : pixelType)
    (input : ptr pixel) (in_width in_height : Z)
    (out : list pixel) (out_width out_height : Z) (format : imageFormat)
    (class_colors : ptr float4) (scores : ptr Z) (scores_dim : int2)
    (filter_linear mask_only : bool) :
  out_width <> 0 -> out_height <> 0 -> format_type format = Some T ->
  let c := cudaSegOverlay LOG_TRT imageFormatToStr cudaGetLastError
             input in_width in_height (Ptr out) out_width out_height format
             class_colors scores scores_dim filter_linear mask_only in
  status c = cudaGetLastError /\
  logged c = [] /\
  launched c =
    Some (launch (gpuSegOverlay T filter_linear mask_only input
                    (int_of_uint in_width) (int_of_uint in_height)
                    (int_of_uint out_width) (int_of_uint out_height)
                    class_colors scores scores_dim)
            (make_dim3 (uint (iDivUp (int_of_uint out_width) 8))
                       (uint (iDivUp (int_of_uint out_height) 8)) 1)
            (make_dim3 8 8 1)).
Proof.
  intros HW HH Hfmt. cbn zeta. unfold cudaSegOverlay. cbn [is_null].
  destruct (Z.eqb_spec out_width 0); [done|].
  destruct (Z.eqb_spec out_height 0); [done|]. cbn [orb].
  rewrite (format_type_IsRGB _ _ Hfmt). cbn [negb status logged launched dim3_x dim3_y].
  split; [done|]. split; [done|].
  destruct filter_linear, mask_only; by apply LAUNCH_OVERLAY_type.
Qed.

End Validation.

Lemma cudaSegOverlay_fails_fast_witness :
  status (cudaSegOverlay EmptyString (fun _ => EmptyString) cudaSuccess
            NULL 0 0 NULL 4 4 IMAGE_RGB8
            scenario_colors scenario_scores scenario_dim false true)
    = cudaErrorInvalidDevicePointer /\
  status (cudaSegOverlay EmptyString (fun _ => EmptyString) cudaSuccess
            NULL 0 0 (Ptr scenario_output) 0 4 IMAGE_RGB8
            scenario_colors scenario_scores scenario_dim false true)
    = cudaErrorInvalidValue /\
  completed (cudaSegOverlay EmptyString (fun _ => EmptyString) cudaSuccess
               NULL 0 0 (Ptr scenario_output) 4 4 (IMAGE_OTHER 8)
               scenario_colors scenario_scores scenario_dim false true)
            scenario_output = Some scenario_output.
Proof.
  split; [|split].
  - destruct (cudaSegOverlay_fails_fast EmptyString (fun _ => EmptyString) cudaSuccess
                NULL 0 0 NULL 4 4 IMAGE_RGB8
                scenario_colors scenario_scores scenario_dim false true) as (H1 & _ & _).
    apply H1. reflexivity.
  - destruct (cudaSegOverlay_fails_fast EmptyString (fun _ => EmptyString) cudaSuccess
                NULL 0 0 (Ptr scenario_output) 0 4 IMAGE_RGB8
                scenario_colors scenario_scores scenario_dim false true) as (_ & H2 & _).
    apply H2; [discriminate|left; reflexivity].
  - destruct (cudaSegOverlay_fails_fast EmptyString (fun _ => EmptyString) cudaSuccess
                NULL 0 0 (Ptr scenario_output) 4 4 (IMAGE_OTHER 8)
                scenario_colors scenario_scores scenario_dim false true) as (_ & _ & H3).
    apply H3; discriminate.
Defined.

Lemma cudaSegOverlay_ignores_null_inputs_witness :
  status (cudaSegOverlay EmptyString (fun _ => EmptyString) cudaSuccess
            NULL 4 4 (Ptr scenario_output) 4 4 IMAGE_RGB8
            NULL NULL scenario_dim false false) = cudaSuccess /\
  is_Some (launched (cudaSegOverlay EmptyString (fun _ => EmptyString) cudaSuccess
            NULL 4 4 (Ptr scenario_output) 4 4 IMAGE_RGB8
            NULL NULL scenario_dim false false)).
Proof.
  destruct (cudaSegOverlay_ignores_null_inputs EmptyString (fun _ => EmptyString)
              cudaSuccess T_uchar3 NULL 4 4 scenario_output 4 4 IMAGE_RGB8
              NULL NULL scenario_dim false false) as (Hs & _ & Hl).
  - discriminate.
  - discriminate.
  - reflexivity.
  - split; [exact Hs|]. rewrite Hl. eexists. reflexivity.
Defined.

(** ** The alpha channel of a mask *)

Lemma mask_value_alpha (T : pixelType) (c : float4) (p : pixel) :
  mask_value T c = Some p -> pixel_alpha p = mask_alpha T.
Proof.
  unfold mask_value, make_vec. destruct T.
  - destruct (uchar_of_float (float4_x c)); cbn; [|done].
    destruct (uchar_of_float (float4_y c)); cbn; [|done].
    destruct (uchar_of_float (float4_z c)); cbn; [|done]. by intros [= <-].
  - change (uchar_of_float F32.c255) with (Some 255).
    destruct (uchar_of_float (float4_x c)); cbn; [|done].
    destruct (uchar_of_float (float4_y c)); cbn; [|done].
    destruct (uchar_of_float (float4_z c)); cbn; [|done]. by intros [= <-].
  - by intros [= <-].
  - by intros [= <-].
Qed.

Section MaskAlpha.

Variable LOG_TRT : string.
Variable imageFormatToStr : imageFormat -> string.
Variable cudaGetLastError : cudaError_t.

(** C8. In mask-only mode, with point as with linear filtering,
    every pixel of the output is stored with the constant 255 as fourth
    component whatever the format: the stored alpha is the integer 255 for
    RGBA8 and the float 255.0 (not 1.0) for RGBA32F, and the three-channel
    formats RGB8 and RGB32F store no alpha. *)
Theorem mask_alpha_is_255 (T : pixelType) (filter_linear : bool)
    (input : ptr pixel) (in_width in_height : Z) (out : list pixel) (W H : Z)
    (format : imageFormat)
    (class_colors : ptr float4) (scores : ptr Z) (scores_dim : int2) :
  format_type format = Some T ->
  0 < W -> 0 < H -> W * H <= INT_MAX ->
  length out = Z.to_nat (W * H) ->
  (forall x y, 0 <= x < W -> 0 <= y < H ->
     is_Some (pixel_value T filter_linear true input
                (int_of_uint in_width) (int_of_uint in_height) W H
                class_colors scores scores_dim x y)) ->
  exists out',
    completed (cudaSegOverlay LOG_TRT imageFormatToStr cudaGetLastError
                 input in_width in_height (Ptr out) W H format
                 class_colors scores scores_dim filter_linear true) out = Some out' /\
    forall x y, 0 <= x < W -> 0 <= y < H ->
      exists p, out' !! Z.to_nat (y * W + x) = Some p /\
                pixel_alpha p = mask_alpha T.
Proof.
  intros Hfmt HW HH HWH Hlen Hdef.
  destruct (cudaSegOverlay_pixels LOG_TRT imageFormatToStr cudaGetLastError
              T filter_linear true input in_width in_height out W H format
              class_colors scores scores_dim) as (_ & out' & Hc & Hl & Hpix);
    try done.
  exists out'. split; [done|].
  intros x y Hx Hy. rewrite Hpix by done.
  destruct (Hdef x y Hx Hy) as [p Hp]. exists p. split; [done|].
  unfold pixel_value in Hp.
  destruct (if filter_linear then _ else _) as [c|]; [|done].
  cbn in Hp. by eapply mask_value_alpha.
Qed.

End MaskAlpha.

Lemma mask_alpha_is_255_witness :
  exists out',
    completed (cudaSegOverlay EmptyString (fun _ => EmptyString) cudaSuccess
                 NULL 0 0 (Ptr float4_output) 1 1 IMAGE_RGBA32F
                 scenario_colors scenario_scores scenario_dim true true)
              float4_output = Some out' /\
    forall x y, 0 <= x < 1 -> 0 <= y < 1 ->
      exists p, out' !! Z.to_nat (y * 1 + x) = Some p /\
                pixel_alpha p = mask_alpha T_float4.
Proof.
  apply (mask_alpha_is_255 EmptyString (fun _ => EmptyString) cudaSuccess T_float4 true
           NULL 0 0 float4_output 1 1 IMAGE_RGBA32F
           scenario_colors scenario_scores scenario_dim).
  - reflexivity.
  - lia.
  - lia.
  - vm_compute. discriminate.
  - reflexivity.
  - intros x y Hx Hy.
    enum_below x 1%nat; enum_below y 1%nat; vm_compute; eexists; reflexivity.
Defined.

(** C8, counterexample: on a 1x1 RGBA32F output in mask-only point mode the
    stored alpha is 255.0, which is not the float 1.0. *)
Lemma mask_alpha_float_not_one :
  exists out' p,
    completed (cudaSegOverlay EmptyString (fun _ => EmptyString) cudaSuccess
                 NULL 0 0 (Ptr float4_output) 1 1 IMAGE_RGBA32F
                 scenario_colors scenario_scores scenario_dim false true)
              float4_output = Some out' /\
    out' !! 0%nat = Some p /\
    pixel_alpha p = Some (ch_float F32.c255) /\
    pixel_alpha p <> Some (ch_float F32.one).
Proof.
  eexists. eexists. split; [vm_compute; reflexivity|].
  split; [reflexivity|]. split; [reflexivity|]. discriminate.
Qed.

(** ** Scenario C *)

(** C7. [cudaTensor32ToRGB8] on the 1x1 tensor (1.0, 0.5, -0.2)
    writes the pixel (255, 127, 0): each channel is multiplied by 255,
    clipped to [0,255] and converted to 8 bits by truncation, so that
    127.5 becomes 127. *)
Theorem tensor_scenario_pixel (cudaGetLastError : cudaError_t) (init : uchar3) :
  completed (cudaTensor32ToRGB8 cudaGetLastError scenario_tensor (Ptr [init]) 1 1)
            [init] = Some [make_uchar3 255 127 0].
Proof. vm_compute. reflexivity. Qed.

(** C7, counterexample: the pixel written is not (255, 128, 0). *)
Lemma tensor_scenario_not_128 :
  completed (cudaTensor32ToRGB8 cudaSuccess scenario_tensor (Ptr scenario_dst) 1 1)
            scenario_dst <> Some [make_uchar3 255 128 0].
Proof. vm_compute. discriminate. Qed.

(** ** Rounding in binary32 *)

Lemma bpow_pos e : (0 < bpow e)%R.
Proof. apply powerRZ_lt. lra. Qed.

Lemma bpow_1 : bpow 1 = 2%R.
Proof. unfold bpow. simpl. lra. Qed.

Lemma bpow_add a b : bpow (a + b) = (bpow a * bpow b)%R.
Proof. apply powerRZ_add. lra. Qed.

Lemma bpow_IZR e : 0 <= e -> bpow e = IZR (2 ^ e).
Proof.
  intros He. unfold bpow. destruct e as [|p|p]; [reflexivity| |lia].
  cbn [powerRZ]. rewrite <- (positive_nat_Z p).
  rewrite <- pow_IZR. reflexivity.
Qed.

Lemma bpow_split a b : bpow b = (bpow a * IZR (2 ^ (b - a)))%R \/ b < a.
Proof.
  destruct (Z_lt_le_dec b a); [by right|left].
  rewrite <- bpow_IZR by lia. rewrite <- bpow_add. f_equal. lia.
Qed.

Lemma bpow_shift a b : a <= b -> bpow b = (bpow a * IZR (2 ^ (b - a)))%R.
Proof. intros H. destruct (bpow_split a b); [done|lia]. Qed.

Lemma bpow_le a b : a <= b -> (bpow a <= bpow b)%R.
Proof.
  intros H. rewrite (bpow_shift a b) by done.
  assert (H0 : 1 <= 2 ^ (b - a))
    by (assert (0 < 2 ^ (b - a)) by (apply Z.pow_pos_nonneg; lia); lia).
  apply IZR_le in H0. pose proof (bpow_pos a). nra.
Qed.

Lemma bpow_lt a b : a < b -> (bpow a < bpow b)%R.
Proof.
  intros H. rewrite (bpow_shift a b) by lia.
  assert (H0 : 2 <= 2 ^ (b - a)).
  { replace (b - a) with (1 + (b - a - 1)) by lia.
    rewrite Z.pow_add_r by lia.
    assert (0 < 2 ^ (b - a - 1)) by (apply Z.pow_pos_nonneg; lia). lia. }
  apply IZR_le in H0. pose proof (bpow_pos a). nra.
Qed.

Lemma digits2_pos_bounds (p : positive) :
  2 ^ (Zpos (digits2_pos p) - 1) <= Zpos p < 2 ^ Zpos (digits2_pos p).
Proof.
  induction p as [p IH|p IH|]; cbn [digits2_pos].
  - rewrite Pos2Z.inj_succ.
    replace (Z.succ (Zpos (digits2_pos p)) - 1) with (1 + (Zpos (digits2_pos p) - 1)) by lia.
    rewrite Z.pow_succ_r by lia. rewrite Z.pow_add_r by lia.
    change (2 ^ 1) with 2. lia.
  - rewrite Pos2Z.inj_succ.
    replace (Z.succ (Zpos (digits2_pos p)) - 1) with (1 + (Zpos (digits2_pos p) - 1)) by lia.
    rewrite Z.pow_succ_r by lia. rewrite Z.pow_add_r by lia.
    change (2 ^ 1) with 2. lia.
  - cbn. lia.
Qed.

Lemma Zdigits2_bounds (m : Z) : 0 < m ->
  2 ^ (Zdigits2 m - 1) <= m < 2 ^ Zdigits2 m /\ 0 < Zdigits2 m.
Proof.
  destruct m as [|p|p]; try lia. intros _. cbn [Zdigits2].
  split; [apply digits2_pos_bounds|lia].
Qed.

Lemma Zdigits2_le (m d : Z) : 0 <= d -> 0 <= m < 2 ^ d -> Zdigits2 m <= d.
Proof.
  intros Hd Hm. destruct (Z.eq_dec m 0) as [->|]; [cbn; lia|].
  destruct (Zdigits2_bounds m) as [[H1 _] H2]; [lia|].
  destruct (Z_lt_le_dec d (Zdigits2 m)); [|lia].
  assert (2 ^ d <= 2 ^ (Zdigits2 m - 1)) by (apply Z.pow_le_mono_r; lia). lia.
Qed.

Lemma Zdigits2_ge (m d : Z) : 2 ^ (d - 1) <= m -> 0 < m -> d <= Zdigits2 m.
Proof.
  intros Hm Hp.
  destruct (Zdigits2_bounds m) as [[_ H1] H2]; [lia|].
  destruct (Z_lt_le_dec (Zdigits2 m) d); [|lia].
  assert (2 ^ Zdigits2 m <= 2 ^ (d - 1)) by (apply Z.pow_le_mono_r; lia). lia.
Qed.

Lemma iter_pos_iter {A} (f : A -> A) (p : positive) (x : A) :
  SpecFloat.iter_pos f p x = Pos.iter f x p.
Proof.
  revert x. induction p as [p IH|p IH|]; intros x; cbn [SpecFloat.iter_pos Pos.iter].
  - rewrite !IH. rewrite !Pos.iter_swap. reflexivity.
  - rewrite !IH. reflexivity.
  - reflexivity.
Qed.

Lemma shr_1_spec (m : Z) (r s : bool) : 0 <= m ->
  shr_1 (Build_shr_record m r s) = Build_shr_record (m / 2) (Z.odd m) (r || s).
Proof.
  intros Hm. destruct m as [|p|p]; [reflexivity| |lia].
  destruct p as [p|p|]; cbn [shr_1].
  - f_equal. rewrite Pos2Z.inj_xI.
    apply Z.div_unique with 1; lia.
  - f_equal. rewrite Pos2Z.inj_xO.
    apply Z.div_unique with 0; lia.
  - reflexivity.
Qed.

Lemma Z_odd_mod (m : Z) : Z.odd m = true <-> m mod 2 = 1.
Proof. rewrite Zodd_mod. apply Z.eqb_eq. Qed.

Lemma shr_inv_step (m0 : Z) (r0 s0 : bool) (n : Z) (mrs : shr_record) :
  0 <= m0 -> 1 <= n ->
  shr_inv m0 r0 s0 n mrs -> shr_inv m0 r0 s0 (n + 1) (shr_1 mrs).
Proof.
  intros Hm Hn (Hq & Hr & Hs). destruct mrs as [m r s]. cbn in Hq, Hr, Hs.
  assert (Hpn : 0 < 2 ^ n) by (apply Z.pow_pos_nonneg; lia).
  assert (Hpn1 : 0 < 2 ^ (n - 1)) by (apply Z.pow_pos_nonneg; lia).
  assert (Hm' : 0 <= m) by (subst m; apply Z.div_pos; lia).
  rewrite shr_1_spec by done.
  assert (E1 : 2 ^ (n + 1) = 2 ^ n * 2) by (rewrite Z.pow_add_r by lia; reflexivity).
  assert (E2 : 2 ^ n = 2 ^ (n - 1) * 2).
  { replace n with ((n - 1) + 1) at 1 by lia. rewrite Z.pow_add_r by lia. reflexivity. }
  assert (Hmod : m0 mod 2 ^ (n + 1) = m0 mod 2 ^ n + 2 ^ n * (m mod 2)).
  { rewrite E1, Z.rem_mul_r by lia. by rewrite Hq. }
  assert (Hmod' : m0 mod 2 ^ n = m0 mod 2 ^ (n - 1) + 2 ^ (n - 1) * ((m0 / 2 ^ (n - 1)) mod 2)).
  { rewrite E2 at 1. rewrite Z.rem_mul_r by lia. reflexivity. }
  assert (Hb := Z.mod_pos_bound m0 (2 ^ n) Hpn).
  assert (Hb1 := Z.mod_pos_bound m0 (2 ^ (n - 1)) Hpn1).
  assert (Hb2 := Z.mod_pos_bound m 2 ltac:(lia)).
  assert (Hb3 := Z.mod_pos_bound (m0 / 2 ^ (n - 1)) 2 ltac:(lia)).
  set (bit := (m0 / 2 ^ (n - 1)) mod 2) in *.
  assert (Hbit : bit = 0 \/ bit = 1) by lia.
  unfold shr_inv. replace (n + 1 - 1) with n by lia.
  repeat split; cbn [shr_m shr_r shr_s].
  - rewrite Hq, E1, Z.div_div by lia. reflexivity.
  - rewrite Hmod. intros H%Z_odd_mod. rewrite H. lia.
  - rewrite Hmod. intros H. apply Z_odd_mod.
    assert (m mod 2 = 0 \/ m mod 2 = 1) as [H0|H0] by lia; [|done].
    rewrite H0 in H. lia.
  - intros [Hr'|Hs']%orb_true_iff.
    + apply Hr in Hr'. left. lia.
    + apply Hs in Hs'. destruct Hs' as [Hs'|Hs']; [left|by right].
      destruct Hbit as [Hbit|Hbit]; rewrite Hbit in Hmod'; lia.
  - intros H. apply orb_true_iff.
    destruct H as [H|H]; [|right; apply Hs; by right].
    destruct (Z.eq_dec (m0 mod 2 ^ (n - 1)) 0) as [Hz|Hz].
    + left. apply Hr.
      destruct Hbit as [Hbit|Hbit]; rewrite Hbit in Hmod'; lia.
    + right. apply Hs. by left.
Qed.

Lemma shr_iter (m0 : Z) (r0 s0 : bool) (p : positive) :
  0 <= m0 ->
  shr_inv m0 r0 s0 (Zpos p) (SpecFloat.iter_pos shr_1 p (Build_shr_record m0 r0 s0)).
Proof.
  intros Hm. rewrite iter_pos_iter.
  induction p as [|p IH] using Pos.peano_ind.
  - cbn [Pos.iter]. rewrite shr_1_spec by done.
    assert (Hb := Z.mod_pos_bound m0 2 ltac:(lia)).
    unfold shr_inv. change (2 ^ 1) with 2. change (2 ^ (1 - 1)) with 1.
    repeat split; cbn [shr_m shr_r shr_s].
    + intros H%Z_odd_mod. lia.
    + intros H. apply Z_odd_mod. lia.
    + intros [->| ->]%orb_true_iff; auto.
    + rewrite Z.mod_1_r.
      intros [H|[->| ->]]; [done|reflexivity|apply orb_true_r].
  - rewrite Pos.iter_succ. rewrite Pos2Z.inj_succ.
    apply (shr_inv_step m0 r0 s0 (Zpos p)); (done || lia).
Qed.

Lemma fexp32_eq e : fexp32 e = Z.max (e - 24) (-149).
Proof. reflexivity. Qed.

Lemma loc_of_record_of_loc m l : loc_of_shr_record (shr_record_of_loc m l) = l.
Proof. by destruct l as [|[]]. Qed.

Lemma shr_m_record_of_loc m l : shr_m (shr_record_of_loc m l) = m.
Proof. by destruct l as [|[]]. Qed.

Lemma round_shr_spec (m e : Z) (l : location) :
  0 <= m ->
  let E := Z.max e (fexp32 (Zdigits2 m + e)) in
  let k := E - e in
  let M := m / 2 ^ k in
  let rem := m mod 2 ^ k in
  exists mrs, shr_fexp 24 128 m e l = (mrs, E) /\ shr_m mrs = M /\
    let m1 := round_nearest_even (shr_m mrs) (loc_of_shr_record mrs) in
    M <= m1 <= M + 1 /\
    (m1 = M + 1 -> rem <> 0 \/ inexact l = true) /\
    (inexact l = false ->
       (m1 = M -> 2 * rem <= 2 ^ k) /\ (m1 = M + 1 -> 2 ^ k <= 2 * rem)).
Proof.
  intros Hm E k M rem. unfold shr_fexp, shr. fold (fexp32 (Zdigits2 m + e)).
  destruct (fexp32 (Zdigits2 m + e) - e) as [|p|p] eqn:Hn.
  - (* no shift *)
    assert (Hk : k = 0) by (unfold k, E; lia).
    assert (HM : M = m) by (unfold M; rewrite Hk; apply Z.div_1_r).
    assert (Hrem : rem = 0) by (unfold rem; rewrite Hk; apply Z.mod_1_r).
    exists (shr_record_of_loc m l). split; [do 2 f_equal; unfold E; lia|].
    rewrite loc_of_record_of_loc, shr_m_record_of_loc, HM, Hrem, Hk.
    split; [done|].
    destruct l as [|[]]; cbn; try destruct (Z.even m); repeat split; intros; try lia; auto.
  - (* shift by p *)
    assert (Hk : k = Zpos p) by (unfold k, E; lia).
    assert (Hpk : 0 < 2 ^ k) by (apply Z.pow_pos_nonneg; lia).
    assert (Hpk1 : 0 < 2 ^ (k - 1)) by (apply Z.pow_pos_nonneg; lia).
    assert (E2 : 2 ^ k = 2 ^ (k - 1) * 2).
    { replace k with ((k - 1) + 1) at 1 by lia. rewrite Z.pow_add_r by lia. reflexivity. }
    exists (SpecFloat.iter_pos shr_1 p (shr_record_of_loc m l)).
    split; [f_equal; unfold E; lia|].
    assert (Hinv : shr_inv m (match l with loc_Inexact Eq | loc_Inexact Gt => true | _ => false end)
                     (match l with loc_Inexact Lt | loc_Inexact Gt => true | _ => false end)
                     (Zpos p) (SpecFloat.iter_pos shr_1 p (shr_record_of_loc m l))).
    { destruct l as [|[]]; by apply shr_iter. }
    destruct (SpecFloat.iter_pos shr_1 p (shr_record_of_loc m l)) as [m' r s].
    destruct Hinv as (Hq & Hr & Hs). cbn [shr_m shr_r shr_s] in Hq, Hr, Hs.
    rewrite <- Hk in Hq, Hr, Hs. fold M in Hq. fold rem in Hr. subst m'.
    cbn [shr_m]. split; [done|].
    assert (Hb := Z.mod_pos_bound m (2 ^ k) Hpk). fold rem in Hb.
    assert (Hb1 := Z.mod_pos_bound m (2 ^ (k - 1)) Hpk1).
    assert (Hrem : rem = m mod 2 ^ (k - 1) + 2 ^ (k - 1) * ((m / 2 ^ (k - 1)) mod 2)).
    { unfold rem. rewrite E2 at 1. rewrite Z.rem_mul_r by lia. reflexivity. }
    assert (Hb3 := Z.mod_pos_bound (m / 2 ^ (k - 1)) 2 ltac:(lia)).
    set (bit := (m / 2 ^ (k - 1)) mod 2) in *.
    assert (Hbit : bit = 0 \/ bit = 1) by lia.
    destruct r, s; cbn [loc_of_shr_record round_nearest_even].
    + (* Gt: round up *)
      assert (2 ^ (k - 1) <= rem) by (by apply Hr).
      repeat split; intros; try lia.
    + (* Eq *)
      assert (2 ^ (k - 1) <= rem) by (by apply Hr).
      assert (Hz : m mod 2 ^ (k - 1) = 0).
      { destruct (Z.eq_dec (m mod 2 ^ (k - 1)) 0); [done|].
        assert (false = true) by (apply Hs; by left). done. }
      assert (rem = 2 ^ (k - 1)).
      { destruct Hbit as [Hbit|Hbit]; rewrite Hbit in Hrem; lia. }
      destruct (Z.even M); repeat split; intros; try lia.
    + (* Lt *)
      assert (rem < 2 ^ (k - 1)).
      { destruct (Z_lt_le_dec rem (2 ^ (k - 1))); [done|].
        assert (false = true) by (by apply Hr). done. }
      repeat split; intros; try lia.
    + (* Exact *)
      assert (rem < 2 ^ (k - 1)).
      { destruct (Z_lt_le_dec rem (2 ^ (k - 1))); [done|].
        assert (false = true) by (by apply Hr). done. }
      repeat split; intros; try lia.
  - (* negative shift amount *)
    assert (Hk : k = 0) by (unfold k, E; lia).
    assert (HM : M = m) by (unfold M; rewrite Hk; apply Z.div_1_r).
    assert (Hrem : rem = 0) by (unfold rem; rewrite Hk; apply Z.mod_1_r).
    exists (shr_record_of_loc m l). split; [do 2 f_equal; unfold E; lia|].
    rewrite loc_of_record_of_loc, shr_m_record_of_loc, HM, Hrem, Hk.
    split; [done|].
    destruct l as [|[]]; cbn; try destruct (Z.even m); repeat split; intros; try lia; auto.
Qed.

Lemma Zdigits2_pow2 (n : Z) : 0 <= n -> Zdigits2 (2 ^ n) = n + 1.
Proof.
  intros Hn.
  assert (0 < 2 ^ n) by (apply Z.pow_pos_nonneg; lia).
  apply Z.le_antisymm.
  - apply Zdigits2_le; [lia|]. rewrite Z.pow_add_r by lia. change (2 ^ 1) with 2. lia.
  - apply Zdigits2_ge; [|lia]. replace (n + 1 - 1) with n by lia. lia.
Qed.

Lemma binary_round_aux_result (s : bool) (m e : Z) (l : location) :
  0 <= m ->
  let E := Z.max e (fexp32 (Zdigits2 m + e)) in
  let k := E - e in
  let M := m / 2 ^ k in
  let rem := m mod 2 ^ k in
  exists m1, binary_round_aux 24 128 s m e l = round_result s m1 E /\
    M <= m1 <= M + 1 /\ 0 <= m1 <= 2 ^ 24 /\
    (m1 = M + 1 -> rem <> 0 \/ inexact l = true) /\
    (inexact l = false ->
       (m1 = M -> 2 * rem <= 2 ^ k) /\ (m1 = M + 1 -> 2 ^ k <= 2 * rem)).
Proof.
  intros Hm E k M rem.
  destruct (round_shr_spec m e l Hm) as (mrs & Hshr & HmM & Hm1 & Hup & Hnear).
  fold E k M rem in Hshr, HmM, Hm1, Hup, Hnear.
  set (m1 := round_nearest_even (shr_m mrs) (loc_of_shr_record mrs)) in *.
  assert (HE : -149 <= E) by (unfold E; rewrite fexp32_eq; lia).
  assert (Hk : 0 <= k) by (unfold k, E; lia).
  assert (Hpk : 0 < 2 ^ k) by (apply Z.pow_pos_nonneg; lia).
  assert (HM0 : 0 <= M) by (apply Z.div_pos; lia).
  assert (HM : M < 2 ^ 24).
  { destruct (Z.eq_dec m 0) as [->|]; [unfold M; rewrite Z.div_0_l by lia; lia|].
    destruct (Zdigits2_bounds m) as [[_ Hd] Hd0]; [lia|].
    apply Z.div_lt_upper_bound; [lia|].
    assert (Zdigits2 m <= k + 24) by (unfold k, E; rewrite fexp32_eq; lia).
    assert (2 ^ Zdigits2 m <= 2 ^ (k + 24)) by (apply Z.pow_le_mono_r; lia).
    rewrite Z.pow_add_r in * by lia. lia. }
  exists m1. split; [|split; [done|split; [lia|done]]].
  destruct (round_shr_spec m1 E loc_Exact ltac:(lia)) as (mrs2 & Hshr2 & Hm2 & _).
  unfold binary_round_aux. rewrite Hshr. fold m1. rewrite Hshr2, Hm2.
  unfold round_result.
  destruct (Z.eqb_spec m1 (2 ^ 24)) as [Heq|Hne].
  - (* the mantissa overflowed to 2^24 *)
    rewrite Heq. rewrite (Zdigits2_pow2 24) by lia.
    replace (Z.max E (fexp32 (24 + 1 + E))) with (E + 1) by (rewrite fexp32_eq; lia).
    replace (E + 1 - E) with 1 by lia. change (2 ^ 24 / 2 ^ 1) with 8388608.
    reflexivity.
  - assert (Hd : Zdigits2 m1 <= 24) by (apply Zdigits2_le; lia).
    replace (Z.max E (fexp32 (Zdigits2 m1 + E))) with E by (rewrite fexp32_eq; lia).
    replace (E - E) with 0 by lia. rewrite Z.div_1_r.
    destruct m1 as [|p|p] eqn:Hp; [reflexivity|reflexivity|lia].
Qed.

Lemma round_result_carries (s : bool) (m1 E : Z) :
  0 <= m1 -> E + 1 <= 104 -> carries (round_result s m1 E) s m1 E.
Proof.
  intros Hm1 HE. unfold round_result, carries.
  destruct (Z.eqb_spec m1 0) as [->|Hz]; [by left|]. right. split; [lia|].
  destruct (Z.eqb_spec m1 (2 ^ 24)) as [->|Hne].
  - destruct (Z.leb_spec (E + 1) 104); [|lia].
    exists 8388608%positive, (E + 1). split; [done|]. split; [|lia].
    rewrite bpow_add, bpow_1. change (2 ^ 24) with 16777216. lra.
  - destruct (Z.leb_spec E 104); [|lia].
    exists (Z.to_pos m1), E. split; [done|]. rewrite Z2Pos.id by lia. split; [done|lia].
Qed.

Lemma binary_round_aux_carries (s : bool) (m e : Z) (l : location) :
  0 <= m ->
  let E := Z.max e (fexp32 (Zdigits2 m + e)) in
  let k := E - e in
  let M := m / 2 ^ k in
  let rem := m mod 2 ^ k in
  E + 1 <= 104 ->
  exists m1, carries (binary_round_aux 24 128 s m e l) s m1 E /\
    M <= m1 <= M + 1 /\
    (m1 = M + 1 -> rem <> 0 \/ inexact l = true) /\
    (inexact l = false ->
       (m1 = M -> 2 * rem <= 2 ^ k) /\ (m1 = M + 1 -> 2 ^ k <= 2 * rem)).
Proof.
  intros Hm E k M rem Hov.
  destruct (binary_round_aux_result s m e l Hm) as (m1 & -> & HM & Hm1 & Hup & Hnear).
  exists m1. split; [apply round_result_carries; lia|done].
Qed.

Lemma bra_real (s : bool) (m e : Z) (l : location) (v : R) :
  0 <= m ->
  (IZR m * bpow e <= v)%R ->
  (inexact l = false -> v = (IZR m * bpow e)%R) ->
  (inexact l = true -> (IZR m * bpow e < v)%R) ->
  let E := Z.max e (fexp32 (Zdigits2 m + e)) in
  E + 1 <= 104 ->
  exists m1, carries (binary_round_aux 24 128 s m e l) s m1 E /\ 0 <= m1 /\
    (IZR (m1 - 1) * bpow E < v)%R /\
    (inexact l = false -> (Rabs (IZR m1 * bpow E - v) <= bpow E / 2)%R).
Proof.
  intros Hm Hv Hex Hin E Hov.
  destruct (binary_round_aux_carries s m e l Hm Hov) as (m1 & Hc & Hm1 & Hup & Hnear).
  fold E in Hc, Hm1, Hup, Hnear.
  set (k := E - e) in *. set (M := m / 2 ^ k) in *. set (rem := m mod 2 ^ k) in *.
  assert (Hk : 0 <= k) by (unfold k, E; lia).
  assert (Hpk : 0 < 2 ^ k) by (apply Z.pow_pos_nonneg; lia).
  assert (HM0 : 0 <= M) by (apply Z.div_pos; lia).
  assert (Hrem := Z.mod_pos_bound m (2 ^ k) Hpk). fold rem in Hrem.
  assert (Hdm : m = 2 ^ k * M + rem) by (apply Z.div_mod; lia).
  assert (HbE : bpow E = (bpow e * IZR (2 ^ k))%R) by (apply bpow_shift; lia).
  assert (Hbe := bpow_pos e).
  assert (HP : (1 <= IZR (2 ^ k))%R) by (apply IZR_le; lia).
  assert (Hr0 : (0 <= IZR rem)%R) by (apply IZR_le; lia).
  assert (Hr1 : (IZR rem + 1 <= IZR (2 ^ k))%R) by (rewrite <- plus_IZR; apply IZR_le; lia).
  assert (HRm : IZR m = (IZR (2 ^ k) * IZR M + IZR rem)%R)
    by (rewrite Hdm at 1; rewrite plus_IZR, mult_IZR; reflexivity).
  assert (HM0' : (0 <= IZR M)%R) by (apply IZR_le; lia).
  exists m1. split; [done|]. split; [lia|].
  assert (Hcase : m1 = M \/ m1 = M + 1) by lia.
  split.
  - rewrite HbE. destruct Hcase as [->| ->].
    + rewrite minus_IZR. nra.
    + replace (M + 1 - 1) with M by lia.
      destruct (Hup eq_refl) as [Hne|Hin'].
      * assert ((1 <= IZR rem)%R) by (apply IZR_le; lia). nra.
      * specialize (Hin Hin'). nra.
  - intros Hl. specialize (Hex Hl). destruct (Hnear Hl) as [Hn1 Hn2].
    rewrite HbE, Hex. destruct Hcase as [->| ->].
    + specialize (Hn1 eq_refl). apply (IZR_le (2 * rem)) in Hn1.
      rewrite mult_IZR in Hn1.
      rewrite Rabs_left1 by nra. nra.
    + specialize (Hn2 eq_refl). apply (IZR_le _ (2 * rem)) in Hn2.
      rewrite mult_IZR in Hn2. rewrite plus_IZR.
      rewrite Rabs_right by nra. nra.
Qed.

(** A result that is not above a point of the grid it is rounded on. *)
Lemma carried_le_grid (m1 b E : Z) (v : R) :
  (IZR (m1 - 1) * bpow E < v)%R -> (v <= IZR b * bpow E)%R ->
  (IZR m1 * bpow E <= IZR b * bpow E)%R.
Proof.
  intros H1 H2. assert (Hb := bpow_pos E).
  assert (Hlt : (IZR (m1 - 1) < IZR b)%R) by nra.
  apply lt_IZR in Hlt. assert (Hle : m1 <= b) by lia.
  apply IZR_le in Hle. nra.
Qed.

Lemma carried_on_grid (m1 b E : Z) :
  (Rabs (IZR m1 * bpow E - IZR b * bpow E) <= bpow E / 2)%R -> m1 = b.
Proof.
  intros H. assert (Hb := bpow_pos E).
  assert (Habs : (Rabs (IZR m1 - IZR b) <= 1 / 2)%R).
  { replace (IZR m1 * bpow E - IZR b * bpow E)%R
      with ((IZR m1 - IZR b) * bpow E)%R in H by ring.
    rewrite Rabs_mult, (Rabs_right (bpow E)) in H by lra. nra. }
  rewrite <- minus_IZR in Habs.
  destruct (Z.eq_dec m1 b); [done|].
  assert (1 <= Z.abs (m1 - b)) by lia.
  rewrite <- abs_IZR in Habs. apply (IZR_le 1) in H0. lra.
Qed.

Lemma bpow_lt_inv a b : (bpow a < bpow b)%R -> a < b.
Proof.
  intros H. destruct (Z_lt_le_dec a b); [done|].
  assert (H' := bpow_le b a ltac:(lia)). lra.
Qed.

Lemma digits_val (m e N : Z) :
  0 < m -> (IZR m * bpow e < bpow N)%R -> Zdigits2 m + e <= N.
Proof.
  intros Hm Hv. destruct (Zdigits2_bounds m Hm) as [[Hlo _] Hd].
  assert (Hb : (bpow (Zdigits2 m - 1 + e) <= IZR m * bpow e)%R).
  { rewrite bpow_add, (bpow_IZR (Zdigits2 m - 1)) by lia.
    apply IZR_le in Hlo. assert (He := bpow_pos e). nra. }
  assert (Zdigits2 m - 1 + e < N) by (apply bpow_lt_inv; lra). lia.
Qed.

Lemma digits_val_ge (m e N : Z) :
  0 < m -> (bpow N <= IZR m * bpow e)%R -> N < Zdigits2 m + e.
Proof.
  intros Hm Hv. destruct (Zdigits2_bounds m Hm) as [[_ Hhi] Hd].
  assert (Hb : (IZR m * bpow e < bpow (Zdigits2 m + e))%R).
  { rewrite bpow_add, (bpow_IZR (Zdigits2 m)) by lia.
    apply IZR_lt in Hhi. assert (He := bpow_pos e). nra. }
  apply bpow_lt_inv. lra.
Qed.

Lemma pos_iter_xO (m d : positive) : Zpos (Pos.iter xO m d) = Zpos m * 2 ^ Zpos d.
Proof.
  induction d as [|d IH] using Pos.peano_ind.
  - cbn [Pos.iter]. rewrite Pos2Z.inj_xO. change (2 ^ 1) with 2. lia.
  - rewrite Pos.iter_succ, Pos2Z.inj_xO, IH, Pos2Z.inj_succ, Z.pow_succ_r by lia. lia.
Qed.

Lemma shl_align_spec (mx : positive) (ex ex' : Z) :
  let '(mz, ez) := shl_align mx ex ex' in
  ez = Z.min ex ex' /\ Zpos mz = Zpos mx * 2 ^ (ex - ez).
Proof.
  unfold shl_align. destruct (ex' - ex) as [|d|d] eqn:Hd.
  - split; [lia|]. replace (ex - ex) with 0 by lia. lia.
  - split; [lia|]. replace (ex - ex) with 0 by lia. lia.
  - split; [lia|]. rewrite pos_iter_xO. f_equal. f_equal. lia.
Qed.

Lemma shl_align_real (mx : positive) (ex ex' : Z) :
  let '(mz, ez) := shl_align mx ex ex' in
  ez = Z.min ex ex' /\ (IZR (Zpos mz) * bpow ez = IZR (Zpos mx) * bpow ex)%R.
Proof.
  generalize (shl_align_spec mx ex ex'). destruct (shl_align mx ex ex') as [mz ez].
  intros [He Hm]. split; [done|].
  rewrite Hm, mult_IZR, (bpow_shift ez ex) by lia. ring.
Qed.

Lemma binary_round_exact (s : bool) (p : positive) (e b E : Z) :
  E = fexp32 (Zpos (digits2_pos p) + e) ->
  (IZR (Zpos p) * bpow e = IZR b * bpow E)%R ->
  E + 1 <= 104 ->
  carries (binary_round 24 128 s p e) s b E.
Proof.
  intros HE Hgrid Hov. unfold binary_round.
  fold (fexp32 (Zpos (digits2_pos p) + e)). rewrite <- HE.
  generalize (shl_align_real p e E). generalize (shl_align_spec p e E).
  destruct (shl_align p e E) as [mz ez]. intros [_ Hmz] [Hez Hval].
  assert (Hdig : Zdigits2 (Zpos mz) + ez = Zpos (digits2_pos p) + e).
  { apply Z.le_antisymm.
    - apply digits_val; [lia|]. rewrite Hval.
      destruct (digits2_pos_bounds p) as [_ Hhi].
      rewrite bpow_add, (bpow_IZR (Zpos (digits2_pos p))) by lia.
      apply IZR_lt in Hhi. assert (He := bpow_pos e). nra.
    - assert (Zpos (digits2_pos p) + e - 1 < Zdigits2 (Z.pos mz) + ez); [|lia].
      apply digits_val_ge; [lia|]. rewrite Hval.
      destruct (digits2_pos_bounds p) as [Hlo _].
      replace (Zpos (digits2_pos p) + e - 1) with (Zpos (digits2_pos p) - 1 + e) by lia.
      rewrite bpow_add, (bpow_IZR (Zpos (digits2_pos p) - 1)) by lia.
      apply IZR_le in Hlo. assert (He := bpow_pos e). nra. }
  destruct (bra_real s (Zpos mz) ez loc_Exact (IZR (Zpos mz) * bpow ez)%R)
    as (m1 & Hc & Hm1 & _ & Hnear); try done; try lia; try lra.
  { rewrite Hdig, <- HE. lia. }
  rewrite Hdig, <- HE in Hc, Hnear.
  replace (Z.max ez E) with E in Hc, Hnear by lia.
  specialize (Hnear eq_refl). rewrite Hval, Hgrid in Hnear.
  apply carried_on_grid in Hnear. by subst m1.
Qed.

Lemma of_int_exact (z : Z) : 0 < z <= 2 ^ 24 ->
  exists m e, F32.of_int z = S754_finite false m e /\
    (IZR (Zpos m) * bpow e = IZR z)%R /\ e <= 2.
Proof.
  intros Hz. destruct z as [|p|p]; try lia.
  unfold F32.of_int, binary_normalize.
  destruct (digits2_pos_bounds p) as [Hlo Hhi].
  set (d := Zpos (digits2_pos p)) in *.
  assert (Hd : 1 <= d <= 25).
  { split; [lia|]. destruct (Z_lt_le_dec 25 d); [|lia].
    assert (2 ^ 25 <= 2 ^ (d - 1)) by (apply Z.pow_le_mono_r; lia). lia. }
  assert (Hcar : exists b, carries (binary_round 24 128 false p 0) false b (fexp32 (d + 0)) /\
                   (IZR b * bpow (fexp32 (d + 0)) = IZR (Zpos p))%R /\ 0 < b).
  { destruct (Z.eq_dec d 25) as [H25|H25].
    - assert (Zpos p = 2 ^ 24) by (rewrite H25 in Hlo; change (25 - 1) with 24 in Hlo; lia).
      exists (2 ^ 23). rewrite H25. change (fexp32 (25 + 0)) with 1.
      assert (Hg : (IZR (Zpos p) * bpow 0 = IZR (2 ^ 23) * bpow 1)%R).
      { rewrite H, bpow_1. change (bpow 0) with 1%R.
        change (2 ^ 24) with 16777216. change (2 ^ 23) with 8388608. lra. }
      split; [apply binary_round_exact; [fold d; by rewrite H25|done|lia]|].
      split; [|lia]. rewrite <- Hg. change (bpow 0) with 1%R. lra.
    - assert (HE : fexp32 (d + 0) = d - 24) by (rewrite fexp32_eq; lia).
      exists (Zpos p * 2 ^ (24 - d)).
      assert (0 < 2 ^ (24 - d)) by (apply Z.pow_pos_nonneg; lia).
      assert (Hg : (IZR (Zpos p) * bpow 0 = IZR (Zpos p * 2 ^ (24 - d)) * bpow (fexp32 (d + 0)))%R).
      { rewrite HE, mult_IZR, <- bpow_IZR by lia. rewrite Rmult_assoc, <- bpow_add.
        f_equal. f_equal. lia. }
      split; [apply binary_round_exact; [done|done|lia]|].
      split; [|lia]. rewrite <- Hg. change (bpow 0) with 1%R. lra. }
  destruct Hcar as (b & [[Hb0 _]|(_ & m'' & e'' & Hr & Hv & He)] & Hval & Hb); [lia|].
  exists m'', e''. split; [done|]. split; [lra|].
  rewrite fexp32_eq in He. lia.
Qed.

Lemma trunc_spec (m : positive) (e : Z) :
  exists z, F32.trunc (S754_finite false m e) = Some z /\ 0 <= z /\
    (IZR z <= IZR (Zpos m) * bpow e < IZR z + 1)%R.
Proof.
  cbn [F32.trunc]. eexists. split; [reflexivity|].
  destruct e as [|p|p].
  - change (bpow 0) with 1%R. split; [lia|]. lra.
  - rewrite (bpow_IZR (Zpos p)) by lia. rewrite <- mult_IZR.
    split; [|lra]. assert (0 < 2 ^ Zpos p) by (apply Z.pow_pos_nonneg; lia). lia.
  - assert (Hp : 0 < 2 ^ Zpos p) by (apply Z.pow_pos_nonneg; lia).
    assert (Hdm := Z.div_mod (Zpos m) (2 ^ Zpos p) ltac:(lia)).
    assert (Hb := Z.mod_pos_bound (Zpos m) (2 ^ Zpos p) Hp).
    split; [apply Z.div_pos; lia|].
    set (q := Zpos m / 2 ^ Zpos p) in *. set (r := Zpos m mod 2 ^ Zpos p) in *.
    assert (Hbp : (bpow (Zneg p) * IZR (2 ^ Zpos p) = 1)%R).
    { rewrite <- bpow_IZR by lia. rewrite <- bpow_add.
      replace (Zneg p + Zpos p) with 0 by lia. reflexivity. }
    assert (Hbe := bpow_pos (Zneg p)).
    assert (HR : IZR (Zpos m) = (IZR (2 ^ Zpos p) * IZR q + IZR r)%R)
      by (rewrite <- mult_IZR, <- plus_IZR; f_equal; exact Hdm).
    rewrite HR.
    assert (Hr0 : (0 <= IZR r)%R) by (apply IZR_le; lia).
    assert (Hr1 : (IZR r + 1 <= IZR (2 ^ Zpos p))%R)
      by (rewrite <- plus_IZR; apply IZR_le; lia).
    replace ((IZR (2 ^ Zpos p) * IZR q + IZR r) * bpow (Zneg p))%R
      with (IZR q * (bpow (Zneg p) * IZR (2 ^ Zpos p)) + IZR r * bpow (Zneg p))%R by ring.
    rewrite Hbp.
    assert (0 <= IZR r * bpow (Zneg p))%R by (apply Rmult_le_pos; lra).
    assert (IZR r * bpow (Zneg p) < 1)%R by nra.
    lra.
Qed.

Lemma new_location_exact (nb k : Z) :
  inexact (new_location nb k) = negb (k =? 0).
Proof.
  unfold new_location, new_location_even, new_location_odd.
  destruct (Z.even nb); destruct (k =? 0); reflexivity.
Qed.

Lemma div_core_spec (mx my : positive) (ex ey : Z) :
  let '(q, e', l) := SFdiv_core_binary 24 128 (Zpos mx) ex (Zpos my) ey in
  let v := (IZR (Zpos mx) * bpow ex / (IZR (Zpos my) * bpow ey))%R in
  0 <= q /\
  e' = Z.min (fexp32 (Zdigits2 (Zpos mx) + ex - (Zdigits2 (Zpos my) + ey))) (ex - ey) /\
  (IZR q * bpow e' <= v)%R /\
  (inexact l = false -> v = (IZR q * bpow e')%R) /\
  (inexact l = true -> (IZR q * bpow e' < v)%R).
Proof.
  unfold SFdiv_core_binary.
  fold (fexp32 (Zdigits2 (Zpos mx) + ex - (Zdigits2 (Zpos my) + ey))).
  set (e' := Z.min _ (ex - ey)).
  set (s := ex - ey - e').
  assert (Hs : 0 <= s) by (unfold s, e'; lia).
  set (m' := match s with Zpos _ => Z.shiftl (Zpos mx) s | Z0 => Zpos mx | Zneg _ => 0 end).
  assert (Hm' : m' = Zpos mx * 2 ^ s).
  { unfold m'. destruct s as [|p|p]; [lia| |lia]. apply Z.shiftl_mul_pow2. lia. }
  assert (Hps : 0 < 2 ^ s) by (apply Z.pow_pos_nonneg; lia).
  assert (Hde := Z_div_mod m' (Zpos my) ltac:(lia)).
  destruct (Z.div_eucl m' (Zpos my)) as [q r]. destruct Hde as [Hq Hr].
  cbn zeta.
  assert (Hby := bpow_pos ey). assert (Hbe' := bpow_pos e').
  assert (Hmy : (0 < IZR (Zpos my))%R) by (apply IZR_lt; lia).
  assert (Hq0 : 0 <= q) by nia.
  assert (Hbx : bpow ex = (bpow e' * bpow ey * IZR (2 ^ s))%R).
  { rewrite <- bpow_IZR, <- !bpow_add by lia. f_equal. unfold s. lia. }
  assert (Hv : (IZR (Zpos mx) * bpow ex / (IZR (Zpos my) * bpow ey) =
               (IZR q + IZR r / IZR (Zpos my)) * bpow e')%R).
  { rewrite Hbx. apply (f_equal IZR) in Hq. rewrite Hm', plus_IZR, !mult_IZR in Hq.
    field_simplify_eq; [|lra]. nra. }
  rewrite Hv.
  assert (Hr0 : (0 <= IZR r / IZR (Zpos my))%R).
  { apply Rmult_le_pos; [apply IZR_le; lia|]. apply Rlt_le, Rinv_0_lt_compat. lra. }
  split; [done|]. split; [done|]. split; [nra|].
  rewrite new_location_exact. split.
  - intros Hz. apply negb_false_iff, Z.eqb_eq in Hz. subst r.
    unfold Rdiv. rewrite Rmult_0_l. ring.
  - intros Hz. apply negb_true_iff, Z.eqb_neq in Hz.
    assert (Hr1 : (0 < IZR r / IZR (Zpos my))%R).
    { apply Rmult_lt_0_compat; [apply IZR_lt; lia|]. apply Rinv_0_lt_compat. lra. }
    nra.
Qed.

Lemma digits_lower (m e : Z) : 0 < m ->
  (bpow (Zdigits2 m + e - 1) <= IZR m * bpow e)%R.
Proof.
  intros Hm. destruct (Zdigits2_bounds m Hm) as [[Hlo _] Hd].
  replace (Zdigits2 m + e - 1) with (Zdigits2 m - 1 + e) by lia.
  rewrite bpow_add, (bpow_IZR (Zdigits2 m - 1)) by lia.
  apply IZR_le in Hlo. assert (He := bpow_pos e). nra.
Qed.

Lemma digits_upper (m e : Z) : 0 < m ->
  (IZR m * bpow e < bpow (Zdigits2 m + e))%R.
Proof.
  intros Hm. destruct (Zdigits2_bounds m Hm) as [[_ Hhi] Hd].
  rewrite bpow_add, (bpow_IZR (Zdigits2 m)) by lia.
  apply IZR_lt in Hhi. assert (He := bpow_pos e). nra.
Qed.

Lemma carries_nn_val (r : spec_float) (m1 E eb : Z) :
  carries r false m1 E -> E + 1 <= eb -> nn_val r (IZR m1 * bpow E) eb.
Proof.
  intros [[-> ->]|(_ & m & e & -> & Hv & He)] Hb.
  - left. split; [done|]. lra.
  - right. exists m, e. split; [done|]. split; [lra|lia].
Qed.

Lemma bpow_m24 : (bpow (-24) * IZR (2 ^ 24) = 1)%R.
Proof.
  rewrite <- bpow_IZR by lia. rewrite <- bpow_add. reflexivity.
Qed.

Lemma normalized_bound (x w : Z) :
  0 <= x < w -> w <= 2 ^ 24 ->
  exists v, nn_val (F32.div (F32.of_int x) (F32.of_int w)) v (-23) /\
    (0 <= v <= 1 - bpow (-24))%R.
Proof.
  intros Hx Hw.
  destruct (of_int_exact w ltac:(lia)) as (mw & ew & -> & Hvw & Hew).
  destruct (Z.eq_dec x 0) as [->|Hx0].
  { exists 0%R. split; [by left|]. assert (H := bpow_m24).
    assert (1 <= IZR (2 ^ 24))%R by (apply IZR_le; lia).
    assert (H2 := bpow_pos (-24)). nra. }
  destruct (of_int_exact x ltac:(lia)) as (mx & ex & -> & Hvx & Hex).
  unfold F32.div; cbn [SFdiv xorb].
  generalize (div_core_spec mx mw ex ew).
  destruct (SFdiv_core_binary 24 128 (Zpos mx) ex (Zpos mw) ew) as [[q e'] l].
  cbn zeta. rewrite Hvx, Hvw.
  set (v := (IZR x / IZR w)%R).
  intros (Hq & He' & Hlo & Hex' & Hin).
  assert (Hxr : (1 <= IZR x)%R) by (apply IZR_le; lia).
  assert (Hwr : (IZR x + 1 <= IZR w)%R) by (rewrite <- plus_IZR; apply IZR_le; lia).
  assert (Hw24 : (IZR w <= IZR (2 ^ 24))%R) by (apply IZR_le; lia).
  assert (H24 := bpow_m24). assert (Hb24 := bpow_pos (-24)).
  assert (Hvw' : (v * IZR w = IZR x)%R) by (unfold v; field; lra).
  assert (Hv0 : (0 < v)%R) by (unfold v; apply Rdiv_lt_0_compat; lra).
  assert (HvB : (v <= 1 - bpow (-24))%R).
  { apply Rmult_le_reg_r with (IZR w); [lra|]. rewrite Hvw'. nra. }
  (* the exponent of the quotient is at most -24 *)
  assert (Hd : Zdigits2 (Zpos mx) + ex <= Zdigits2 (Zpos mw) + ew).
  { apply digits_val; [lia|]. rewrite Hvx.
    assert (Hu := digits_upper (Zpos mw) ew ltac:(lia)). lra. }
  assert (He24 : e' <= -24) by (rewrite He', fexp32_eq; lia).
  assert (Hdq : Zdigits2 q + e' <= 0).
  { destruct (Z.eq_dec q 0) as [->|]; [cbn; lia|].
    apply digits_val; [lia|]. change (bpow 0) with 1%R. lra. }
  assert (HE : Z.max e' (fexp32 (Zdigits2 q + e')) <= -24) by (rewrite fexp32_eq; lia).
  destruct (bra_real false q e' l v) as (m1 & Hc & Hm1 & Hup & _); try done; try lia.
  set (E := Z.max e' (fexp32 (Zdigits2 q + e'))) in *.
  exists (IZR m1 * bpow E)%R. split; [apply carries_nn_val; [done|lia]|].
  split; [apply Rmult_le_pos; [apply IZR_le; lia|apply Rlt_le, bpow_pos]|].
  assert (HB : (1 - bpow (-24) = IZR ((2 ^ 24 - 1) * 2 ^ (-24 - E)) * bpow E)%R).
  { rewrite mult_IZR, <- (bpow_IZR (-24 - E)) by lia.
    rewrite Rmult_assoc, <- bpow_add. replace (-24 - E + E) with (-24) by lia.
    rewrite minus_IZR. lra. }
  rewrite HB. eapply carried_le_grid; [exact Hup|]. rewrite <- HB. done.
Qed.

Lemma scaled_bound (p : spec_float) (vp : R) (d : Z) :
  nn_val p vp (-23) -> (0 <= vp <= 1 - bpow (-24))%R ->
  1 <= d <= 2 ^ 24 ->
  exists vc, nn_val (F32.mul p (F32.of_int d)) vc 1 /\ (0 <= vc < IZR d)%R.
Proof.
  intros Hp Hvp Hd.
  destruct (of_int_exact d ltac:(lia)) as (md & ed & -> & Hvd & Hed).
  assert (Hd1 : (1 <= IZR d)%R) by (apply IZR_le; lia).
  destruct Hp as [[-> _]|(mp & ep & -> & -> & Hep)].
  { exists 0%R. split; [by left|lra]. }
  unfold F32.mul, F32.one; cbn [SFmul xorb].
  set (v := (IZR (Zpos mp) * bpow ep * IZR d)%R).
  assert (Hd24 : (IZR d <= IZR (2 ^ 24))%R) by (apply IZR_le; lia).
  assert (H24 := bpow_m24). assert (Hb24 := bpow_pos (-24)).
  assert (Hvp0 : (0 < IZR (Zpos mp) * bpow ep)%R).
  { apply Rmult_lt_0_compat; [apply IZR_lt; lia|apply bpow_pos]. }
  assert (Hmv : (IZR (Zpos (mp * md)) * bpow (ep + ed) = v)%R).
  { unfold v. rewrite <- Hvd, Pos2Z.inj_mul, mult_IZR, bpow_add. ring. }
  assert (Hv0 : (0 < v)%R) by (unfold v; nra).
  assert (Hvd' : (v <= IZR d - IZR d * bpow (-24))%R) by (unfold v; nra).
  set (D := Zdigits2 (Zpos (mp * md)) + (ep + ed)).
  assert (HD : D <= 24).
  { apply digits_val; [lia|]. rewrite Hmv, (bpow_IZR 24) by lia. nra. }
  set (E := Z.max (ep + ed) (fexp32 D)).
  assert (HE : E <= 0) by (unfold E; rewrite fexp32_eq; lia).
  destruct (bra_real false (Zpos (mp * md)) (ep + ed) loc_Exact v)
    as (m1 & Hc & Hm1 & _ & Hnear); try done; try lia; try lra.
  { fold D E. lia. }
  fold D E in Hc, Hnear. specialize (Hnear eq_refl).
  exists (IZR m1 * bpow E)%R. split; [apply carries_nn_val; [done|lia]|].
  split; [apply Rmult_le_pos; [apply IZR_le; lia|apply Rlt_le, bpow_pos]|].
  destruct (Z.eq_dec E (ep + ed)) as [HEe|HEe].
  - rewrite <- Hmv, <- HEe in Hnear. apply carried_on_grid in Hnear.
    rewrite Hnear, HEe, Hmv. nra.
  - assert (HEf : E = fexp32 D) by (unfold E in *; lia).
    assert (Hb : (bpow (E + 23) < IZR d)%R).
    { rewrite fexp32_eq in HEf.
      destruct (Z.eq_dec E (-149)) as [->|].
      - assert (bpow (-149 + 23) < bpow 0)%R by (apply bpow_lt; lia).
        change (bpow 0) with 1%R in *. lra.
      - replace (E + 23) with (D - 1) by lia.
        assert (Hl := digits_lower (Zpos (mp * md)) (ep + ed) ltac:(lia)).
        fold D in Hl. rewrite Hmv in Hl. nra. }
    assert (Hh : (bpow E / 2 = bpow (E + 23) * bpow (-24))%R).
    { rewrite <- bpow_add. replace (E + 23 + -24) with (E + -1) by lia.
      rewrite bpow_add. replace (bpow (-1)) with (/ 2)%R; [lra|].
      unfold bpow. simpl. lra. }
    unfold Rabs in Hnear. destruct (Rcase_abs _) in Hnear; nra.
Qed.

Lemma nn_val_trunc (c : spec_float) (vc : R) (eb : Z) :
  nn_val c vc eb ->
  exists z, F32.trunc c = Some z /\ 0 <= z /\ (IZR z <= vc < IZR z + 1)%R.
Proof.
  intros [[-> ->]|(m & e & -> & -> & _)].
  - exists 0. split; [reflexivity|]. split; [lia|lra].
  - apply trunc_spec.
Qed.

Lemma scaled_trunc (p : spec_float) (vp : R) (d : Z) :
  nn_val p vp (-23) -> (0 <= vp <= 1 - bpow (-24))%R ->
  1 <= d <= 2 ^ 24 ->
  exists z, F32.trunc (F32.mul p (F32.of_int d)) = Some z /\ 0 <= z < d.
Proof.
  intros Hp Hvp Hd.
  destruct (scaled_bound p vp d Hp Hvp Hd) as (vc & Hc & Hvc).
  destruct (nn_val_trunc _ _ _ Hc) as (z & Hz & Hz0 & Hzv).
  exists z. split; [done|]. split; [done|]. apply lt_IZR. lra.
Qed.

Lemma trunc_mul_one (x : Z) : 0 <= x <= 2 ^ 24 ->
  F32.trunc (F32.mul (F32.of_int x) F32.one) = Some x.
Proof.
  intros Hx. destruct (Z.eq_dec x 0) as [->|Hx0]; [reflexivity|].
  destruct (of_int_exact x ltac:(lia)) as (mx & ex & -> & Hvx & Hex).
  unfold F32.mul, F32.one; cbn [SFmul xorb].
  assert (Hx1 : (1 <= IZR x)%R) by (apply IZR_le; lia).
  assert (Hx24 : (IZR x <= IZR (2 ^ 24))%R) by (apply IZR_le; lia).
  assert (Hmv : (IZR (Zpos (mx * 8388608)) * bpow (ex + -23) = IZR x)%R).
  { rewrite <- Hvx, Pos2Z.inj_mul, mult_IZR, bpow_add.
    assert (H : (IZR 8388608 * bpow (-23) = 1)%R).
    { change 8388608 with (2 ^ 23). rewrite <- bpow_IZR by lia.
      rewrite <- bpow_add. reflexivity. }
    nra. }
  set (D := Zdigits2 (Zpos (mx * 8388608)) + (ex + -23)).
  assert (HD : D <= 25).
  { apply digits_val; [lia|]. rewrite Hmv, (bpow_IZR 25) by lia.
    assert (IZR (2 ^ 24) < IZR (2 ^ 25))%R by (apply IZR_lt; lia). lra. }
  set (E := Z.max (ex + -23) (fexp32 D)).
  assert (HE : E <= 1) by (unfold E; rewrite fexp32_eq; lia).
  destruct (bra_real false (Zpos (mx * 8388608)) (ex + -23) loc_Exact (IZR x))
    as (m1 & Hc & Hm1 & _ & Hnear); try done; try lia; try lra.
  { fold D E. lia. }
  fold D E in Hc, Hnear. specialize (Hnear eq_refl).
  assert (Hgrid : exists b, (IZR x = IZR b * bpow E)%R).
  { destruct (Z_le_gt_dec E 0).
    - exists (x * 2 ^ (- E)). rewrite mult_IZR, <- bpow_IZR by lia.
      rewrite Rmult_assoc, <- bpow_add. replace (- E + E) with 0 by lia.
      change (bpow 0) with 1%R. lra.
    - assert (HE1 : E = 1) by lia.
      assert (HD25 : D = 25) by (unfold E in HE1; rewrite fexp32_eq in HE1; lia).
      assert (Hl := digits_lower (Zpos (mx * 8388608)) (ex + -23) ltac:(lia)).
      fold D in Hl. rewrite Hmv, HD25 in Hl. change (25 - 1) with 24 in Hl.
      rewrite HE1.
      rewrite (bpow_IZR 24) in Hl by lia. apply le_IZR in Hl.
      assert (x = 2 ^ 24) as -> by lia.
      exists (2 ^ 23). rewrite bpow_1. change (2 ^ 24) with 16777216.
      change (2 ^ 23) with 8388608. lra. }
  destruct Hgrid as (b & Hb). rewrite Hb in Hnear. apply carried_on_grid in Hnear.
  subst m1.
  destruct Hc as [[-> _]|(Hp1 & m'' & e'' & -> & Hv'' & He'')].
  { rewrite Hb in Hx1. lra. }
  destruct (trunc_spec m'' e'') as (z & Hz & Hz0 & Hzv).
  rewrite Hz. f_equal. rewrite Hv'', <- Hb in Hzv.
  destruct Hzv as [H1 H2]. apply le_IZR in H1.
  rewrite <- plus_IZR in H2. apply lt_IZR in H2. lia.
Qed.

Lemma Zdigits2_shift (m k : Z) : 0 < m -> 0 <= k -> Zdigits2 (m * 2 ^ k) = Zdigits2 m + k.
Proof.
  intros Hm Hk. destruct (Zdigits2_bounds m Hm) as [[Hlo Hhi] Hd].
  assert (Hpk : 0 < 2 ^ k) by (apply Z.pow_pos_nonneg; lia).
  apply Z.le_antisymm.
  - apply Zdigits2_le; [lia|]. rewrite Z.pow_add_r by lia. nia.
  - apply Zdigits2_ge; [|nia].
    replace (Zdigits2 m + k - 1) with (Zdigits2 m - 1 + k) by lia.
    rewrite Z.pow_add_r by lia. nia.
Qed.

Lemma mul_one_valid (s : bool) (m : positive) (e : Z) :
  bounded 24 128 m e = true ->
  F32.mul (S754_finite s m e) F32.one = S754_finite s m e.
Proof.
  unfold bounded, canonical_mantissa. fold (fexp32 (Zpos (digits2_pos m) + e)).
  intros [Hcan%Z.eqb_eq Hle%Z.leb_le]%andb_true_iff.
  unfold F32.mul, F32.one; cbn [SFmul]. rewrite xorb_false_r.
  destruct (binary_round_aux_result s (Zpos (m * 8388608)) (e + -23) loc_Exact ltac:(lia))
    as (m1 & -> & HM & Hm1 & Hup & _).
  rewrite Pos2Z.inj_mul in HM, Hup |- *. change (Zpos 8388608) with (2 ^ 23) in *.
  rewrite Zdigits2_shift in HM, Hup |- * by lia.
  change (Zdigits2 (Zpos m)) with (Zpos (digits2_pos m)) in *.
  replace (Zpos (digits2_pos m) + 23 + (e + -23)) with (Zpos (digits2_pos m) + e) in * by lia.
  rewrite Hcan in *.
  replace (Z.max (e + -23) e) with e in * by lia.
  replace (e - (e + -23)) with 23 in * by lia.
  rewrite Z.div_mul in HM, Hup by lia. rewrite Z.mod_mul in Hup by lia.
  assert (m1 = Zpos m) as ->.
  { destruct (Z.eq_dec m1 (Zpos m)); [done|].
    destruct Hup as [?|?]; [lia|done|done]. }
  destruct (digits2_pos_bounds m) as [Hlo Hhi].
  assert (Hd : Zpos (digits2_pos m) <= 24) by (rewrite fexp32_eq in Hcan; lia).
  assert (Zpos m < 2 ^ 24).
  { assert (2 ^ Zpos (digits2_pos m) <= 2 ^ 24) by (apply Z.pow_le_mono_r; lia). lia. }
  unfold round_result.
  destruct (Z.eqb_spec (Zpos m) 0); [lia|].
  destruct (Z.eqb_spec (Zpos m) (2 ^ 24)); [lia|].
  destruct (Z.leb_spec e 104); [|change (128 - 24) with 104 in Hle; lia].
  reflexivity.
Qed.

(** Rounding of an exact value [p * 2^e]. *)
Lemma binary_round_real (s : bool) (p : positive) (e : Z) :
  let E := fexp32 (Zpos (digits2_pos p) + e) in
  let v := (IZR (Zpos p) * bpow e)%R in
  exists m1, binary_round 24 128 s p e = round_result s m1 E /\ 0 <= m1 /\
    (IZR (m1 - 1) * bpow E < v)%R /\
    (Rabs (IZR m1 * bpow E - v) <= bpow E / 2)%R.
Proof.
  intros E v. unfold binary_round.
  fold (fexp32 (Zpos (digits2_pos p) + e)). fold E.
  generalize (shl_align_real p e E). generalize (shl_align_spec p e E).
  destruct (shl_align p e E) as [mz ez]. intros [_ Hmz] [Hez Hval].
  assert (Hdig : Zdigits2 (Zpos mz) + ez = Zpos (digits2_pos p) + e).
  { apply Z.le_antisymm.
    - apply digits_val; [lia|]. rewrite Hval.
      apply (digits_upper (Zpos p) e). lia.
    - assert (Zpos (digits2_pos p) + e - 1 < Zdigits2 (Z.pos mz) + ez); [|lia].
      apply digits_val_ge; [lia|]. rewrite Hval.
      apply (digits_lower (Zpos p) e). lia. }
  destruct (binary_round_aux_result s (Zpos mz) ez loc_Exact ltac:(lia))
    as (m1 & Hr & HM & Hm1 & Hup & Hnear).
  rewrite Hdig in Hr, HM, Hup, Hnear. fold E in Hr, HM, Hup, Hnear.
  replace (Z.max ez E) with E in * by lia.
  exists m1. split; [done|]. split; [lia|].
  set (k := E - ez) in *. set (M := Zpos mz / 2 ^ k) in *.
  set (rem := Zpos mz mod 2 ^ k) in *.
  assert (Hk : 0 <= k) by (unfold k; lia).
  assert (Hpk : 0 < 2 ^ k) by (apply Z.pow_pos_nonneg; lia).
  assert (Hrem := Z.mod_pos_bound (Zpos mz) (2 ^ k) Hpk). fold rem in Hrem.
  assert (Hdm : Zpos mz = 2 ^ k * M + rem) by (apply Z.div_mod; lia).
  assert (HbE : bpow E = (bpow ez * IZR (2 ^ k))%R) by (apply bpow_shift; lia).
  assert (Hbe := bpow_pos ez).
  assert (HP : (1 <= IZR (2 ^ k))%R) by (apply IZR_le; lia).
  assert (Hr0 : (0 <= IZR rem)%R) by (apply IZR_le; lia).
  assert (Hr1 : (IZR rem + 1 <= IZR (2 ^ k))%R) by (rewrite <- plus_IZR; apply IZR_le; lia).
  assert (HRm : IZR (Zpos mz) = (IZR (2 ^ k) * IZR M + IZR rem)%R)
    by (rewrite Hdm at 1; rewrite plus_IZR, mult_IZR; reflexivity).
  assert (HM0 : 0 <= M) by (apply Z.div_pos; lia).
  assert (HM0' : (0 <= IZR M)%R) by (apply IZR_le; lia).
  unfold v. rewrite <- Hval, HbE, HRm.
  destruct (Hnear eq_refl) as [Hn1 Hn2].
  assert (Hcase : m1 = M \/ m1 = M + 1) by lia.
  destruct Hcase as [->| ->].
  - specialize (Hn1 eq_refl). apply (IZR_le (2 * rem)) in Hn1. rewrite mult_IZR in Hn1.
    split; [rewrite minus_IZR; nra|]. rewrite Rabs_left1 by nra. nra.
  - specialize (Hn2 eq_refl). apply (IZR_le _ (2 * rem)) in Hn2. rewrite mult_IZR in Hn2.
    replace (M + 1 - 1) with M by lia.
    destruct (Hup eq_refl) as [Hne|?]; [|done].
    assert ((1 <= IZR rem)%R) by (apply IZR_le; lia).
    split; [nra|]. rewrite plus_IZR. rewrite Rabs_right by nra. nra.
Qed.

(** [max(c - 0.5, 0)] truncated, for [c <= dim <= 2^23]: the number
    [dim - 0.5] is a binary32 number. *)
Lemma linear_coord_trunc_le (c : spec_float) (vc : R) (d eb : Z) :
  nn_val c vc eb -> (0 <= vc <= IZR d)%R -> 1 <= d <= 2 ^ 23 ->
  let b := F32.sub c F32.half in
  let cx := if F32.lt b F32.zero then F32.zero else b in
  exists z, F32.trunc cx = Some z /\ 0 <= z <= d - 1.
Proof.
  intros Hc Hvc Hd. cbn zeta. unfold F32.lt, F32.zero, F32.half, F32.sub.
  destruct Hc as [[-> _]|(mc & ec & -> & -> & Hec)].
  { cbn. exists 0. split; [reflexivity|lia]. }
  cbn [SFsub cond_Zopp].
  set (ez := Z.min ec (-24)).
  generalize (shl_align_real mc ec ez). destruct (shl_align mc ec ez) as [a ea].
  intros [Hea Ha].
  generalize (shl_align_real 8388608 (-24) ez).
  destruct (shl_align 8388608 (-24) ez) as [h eh]. intros [Heh Hh].
  cbn [fst].
  replace (Z.min ec ez) with ez in Hea by (unfold ez; lia).
  replace (Z.min (-24) ez) with ez in Heh by (unfold ez; lia).
  subst ea eh.
  assert (Hhalf : (IZR 8388608 * bpow (-24) = 1 / 2)%R).
  { change 8388608 with (2 ^ 23). rewrite <- bpow_IZR by lia.
    rewrite <- bpow_add. unfold bpow. simpl. lra. }
  rewrite Hhalf in Hh.
  assert (Hbz := bpow_pos ez).
  assert (Hdiff : (IZR (Zpos a - Zpos h) * bpow ez = IZR (Zpos mc) * bpow ec - 1 / 2)%R).
  { rewrite minus_IZR. lra. }
  destruct (Zpos a - Zpos h) as [|q|q] eqn:Hq; cbn [binary_normalize].
  - cbn. exists 0. split; [reflexivity|lia].
  - (* c > 0.5 *)
    destruct (binary_round_real false q ez) as (m1 & -> & Hm1 & Hup & _).
    set (E := fexp32 (Zpos (digits2_pos q) + ez)) in *.
    assert (Hd23 : (IZR d <= IZR (2 ^ 23))%R) by (apply IZR_le; lia).
    assert (HD : Zpos (digits2_pos q) + ez <= 23).
    { apply (digits_val (Zpos q)); [lia|]. rewrite Hdiff, (bpow_IZR 23) by lia. lra. }
    assert (HE : E <= -1) by (unfold E; rewrite fexp32_eq; lia).
    assert (HB : (IZR d - 1 / 2 = IZR ((2 * d - 1) * 2 ^ (-1 - E)) * bpow E)%R).
    { rewrite mult_IZR, <- (bpow_IZR (-1 - E)) by lia.
      rewrite Rmult_assoc, <- bpow_add. replace (-1 - E + E) with (-1) by lia.
      rewrite minus_IZR, mult_IZR. replace (bpow (-1)) with (/ 2)%R; [lra|].
      unfold bpow. simpl. lra. }
    assert (Hle : (IZR m1 * bpow E <= IZR d - 1 / 2)%R).
    { rewrite HB. eapply carried_le_grid; [exact Hup|]. rewrite <- HB, Hdiff. lra. }
    destruct (round_result_carries false m1 E Hm1 ltac:(lia))
      as [[-> ->]|(Hp1 & m'' & e'' & -> & Hv'' & He'')].
    + cbn. exists 0. split; [reflexivity|lia].
    + cbn [SFltb SFcompare].
      destruct (trunc_spec m'' e'') as (z & Hz & Hz0 & Hzv).
      exists z. split; [done|]. split; [done|].
      assert (IZR z < IZR d)%R by lra. apply lt_IZR in H. lia.
  - (* c < 0.5 *)
    destruct (binary_round_real true q ez) as (m1 & -> & Hm1 & _).
    unfold round_result.
    destruct (m1 =? 0); [cbn; exists 0; split; [reflexivity|lia]|].
    destruct (m1 =? 2 ^ 24).
    + destruct (_ <=? _); cbn; exists 0; (split; [reflexivity|lia]).
    + destruct (_ <=? _); cbn; exists 0; (split; [reflexivity|lia]).
Qed.


(** ** The cells read by a thread *)

Lemma point_axis_bound (x w d : Z) :
  0 <= x < w -> w <= 2 ^ 24 -> 1 <= d <= 2 ^ 24 ->
  exists z, int_of_float (F32.mul (normalized x w) (F32.of_int d)) = Some z /\
            0 <= z < d.
Proof.
  intros Hx Hw Hd.
  destruct (normalized_bound x w Hx Hw) as (vp & Hp & Hvp).
  destruct (scaled_trunc _ vp d Hp Hvp Hd) as (z & Hz & Hzd).
  exists z. split; [|done].
  unfold int_of_float, normalized. rewrite Hz. cbn.
  apply int_Some. unfold INT_MIN, INT_MAX. lia.
Qed.


(** ** The matting kernel *)

Lemma BlendRGBA32ToRGB8_thread (srcImage alphImage : ptr float) (width height : Z)
    (bx by_ tx ty : Z) (s : list uchar3) :
  0 <= bx * 8 + tx <= INT_MAX -> 0 <= by_ * 8 + ty <= INT_MAX ->
  BlendRGBA32ToRGB8 srcImage alphImage width height
    (make_dim3 bx by_ 0) (make_dim3 8 8 1) (make_dim3 tx ty 0) s =
  n ← int_mul width height;
  if (bx * 8 + tx >=? width) || (by_ * 8 + ty >=? height) then Some s
  else v ← matte_value srcImage alphImage n width (bx * 8 + tx) (by_ * 8 + ty);
       i ← offset (by_ * 8 + ty) width (bx * 8 + tx);
       store s i v.
Proof.
  intros Hx Hy. unfold BlendRGBA32ToRGB8. cbn [dim3_x dim3_y].
  rewrite !global_index by done.
  destruct (int_mul width height) as [n|]; [|reflexivity]. cbn [mbind option_bind].
  destruct (_ || _); [reflexivity|].
  unfold matte_value, tensor_cell.
  repeat (match goal with
          | |- context [mbind _ ?o] =>
              lazymatch o with
              | context [mbind] => fail
              | _ => destruct o eqn:?; cbn [mbind option_bind fst snd]
              end
          end); try reflexivity.
Qed.

Lemma mul_comm (a b : float) : F32.mul a b = F32.mul b a.
Proof.
  unfold F32.mul.
  destruct a as [sa|sa| |sa ma ea], b as [sb|sb| |sb mb eb]; cbn;
    rewrite ?(xorb_comm sa sb), ?(Pos.mul_comm ma mb), ?(Z.add_comm ea eb); reflexivity.
Qed.

Lemma clip_composite (src a bg : float) :
  clip (blend_channel src a bg) (F32.of_int 0) (F32.of_int 255) = Spec.composite src a bg.
Proof.
  unfold clip, Spec.composite, Spec.clip_0_255, blend_channel.
  rewrite (mul_comm src F32.c255). reflexivity.
Qed.

Lemma tensor_cell_exact (x y : Z) :
  0 <= x <= 2 ^ 24 -> 0 <= y <= 2 ^ 24 -> tensor_cell x y = Some (x, y).
Proof.
  intros Hx Hy. unfold tensor_cell, int_of_float.
  rewrite !trunc_mul_one by done. cbn.
  rewrite !int_Some by (unfold INT_MIN, INT_MAX; lia). reflexivity.
Qed.

Lemma plane_offset_Some (n c dy width dx : Z) :
  0 <= n -> 0 <= c -> 0 <= dy -> 0 <= width -> 0 <= dx ->
  c * n + (dy * width + dx) <= INT_MAX ->
  plane_offset n c dy width dx = Some (c * n + (dy * width + dx)).
Proof.
  intros Hn Hc Hdy Hw Hdx Hle. unfold plane_offset, int_mul, int_add.
  assert (0 <= n * c) by lia. assert (0 <= dy * width) by lia.
  rewrite !int_Some by (unfold INT_MIN; lia). cbn.
  rewrite !int_Some by (unfold INT_MIN; lia). cbn.
  rewrite int_Some by (unfold INT_MIN; lia). f_equal. lia.
Qed.

Lemma matte_value_spec (src alpha : ptr float) (W H x y : Z) (p : uchar3) :
  0 <= x < W -> 0 <= y < H -> W <= 2 ^ 24 -> H <= 2 ^ 24 ->
  W * H <= INT_MAX -> size src <= INT_MAX ->
  Spec.matte_pixel src alpha W H x y = Some p ->
  matte_value src alpha (W * H) W x y = Some p.
Proof.
  intros Hx Hy HW HH HWH Hsize Hp.
  unfold Spec.matte_pixel in Hp. cbn zeta in Hp.
  destruct (load src (0 * _ + _)) as [r|] eqn:Hr; [|done]. cbn in Hp.
  destruct (load src (1 * _ + _)) as [g|] eqn:Hg; [|done]. cbn in Hp.
  destruct (load src (2 * _ + _)) as [b|] eqn:Hb; [|done]. cbn in Hp.
  destruct (load alpha _) as [a|] eqn:Ha; [|done]. cbn in Hp.
  apply load_bound in Hr as Hr'. apply load_bound in Hg as Hg'.
  apply load_bound in Hb as Hb'.
  assert (0 <= y * W + x < W * H) by nia.
  unfold matte_value. rewrite tensor_cell_exact by lia. cbn [mbind option_bind fst snd].
  rewrite !plane_offset_Some by nia. cbn [mbind option_bind].
  rewrite Hr. cbn [mbind option_bind]. rewrite Hg. cbn [mbind option_bind].
  rewrite Hb. cbn [mbind option_bind].
  rewrite offset_Some by nia. cbn [mbind option_bind]. rewrite Ha. cbn [mbind option_bind].
  unfold clip_float3. cbn [float3_x float3_y float3_z].
  rewrite !clip_composite. exact Hp.
Qed.

Lemma load_not_null {A : Type} (p : ptr A) (i : Z) (v : A) :
  load p i = Some v -> is_null p = false.
Proof. by destruct p. Qed.

(** C6. For an image of at most 2^24 columns and rows,
    [cudaBlendRGBA32ToRGB8] writes for every pixel the three channels
    [clip(255*src*alpha + (1-alpha)*BG, 0, 255)], where [src] is the value of
    the channel plane and [alpha] the value of the alpha plane at that pixel
    and BG is the constant (120, 255, 155) of the kernel, each quantized to
    an 8-bit integer by the conversion to [unsigned char]. *)
Theorem composite_matte_pixels (cudaGetLastError : cudaError_t)
    (src alpha : ptr float) (dst : list uchar3) (W H : Z) :
  0 < W <= 2 ^ 24 -> 0 < H <= 2 ^ 24 -> W * H <= INT_MAX ->
  length dst = Z.to_nat (W * H) ->
  size src <= INT_MAX ->
  (forall x y, 0 <= x < W -> 0 <= y < H ->
     is_Some (Spec.matte_pixel src alpha W H x y)) ->
  exists dst',
    completed (cudaBlendRGBA32ToRGB8 cudaGetLastError src alpha (Ptr dst) W H) dst
      = Some dst' /\
    length dst' = length dst /\
    forall x y, 0 <= x < W -> 0 <= y < H ->
      dst' !! Z.to_nat (y * W + x) = Spec.matte_pixel src alpha W H x y.
Proof.
  intros HW HH HWH Hlen Hsize Hdef.
  assert (Hnull : is_null src = false /\ is_null alpha = false).
  { destruct (Hdef 0 0 ltac:(lia) ltac:(lia)) as [p Hp].
    unfold Spec.matte_pixel in Hp. cbn zeta in Hp.
    destruct (load src (0 * _ + _)) eqn:Hr; [|done]. cbn in Hp.
    destruct (load src (1 * _ + _)); [|done]. cbn in Hp.
    destruct (load src (2 * _ + _)); [|done]. cbn in Hp.
    destruct (load alpha _) eqn:Ha; [|done].
    split; by eapply load_not_null. }
  destruct Hnull as [Hn1 Hn2].
  assert (HW' : int_of_uint W = W)
    by (apply int_of_uint_small; unfold INT_MIN, INT_MAX; lia).
  assert (HH' : int_of_uint H = H)
    by (apply int_of_uint_small; unfold INT_MIN, INT_MAX; lia).
  unfold cudaBlendRGBA32ToRGB8, launchBlendRGBA32ToRGB8, completed.
  rewrite Hn1, Hn2. cbn [orb is_null].
  destruct (Z.eqb_spec W 0); [lia|]. destruct (Z.eqb_spec H 0); [lia|].
  cbn [orb launched dim3_x dim3_y].
  assert (Hval : forall x y, 0 <= x < W -> 0 <= y < H ->
    matte_value src alpha (W * H) W x y = Spec.matte_pixel src alpha W H x y).
  { intros x y Hx Hy. destruct (Hdef x y Hx Hy) as [p Hp]. rewrite Hp.
    apply matte_value_spec; (done || lia). }
  destruct (launch_image (BlendRGBA32ToRGB8 src alpha W H) W H
              (fun x y => matte_value src alpha (W * H) W x y)) with (s := dst)
    as (dst' & Hrun & Hl & Hpix); try done; try lia.
  - intros bx by_ tx ty s Hbx Hby Htx Hty Hx Hy Hs.
    rewrite BlendRGBA32ToRGB8_thread by lia.
    unfold int_mul. rewrite int_Some by (unfold INT_MIN; nia). cbn [mbind option_bind].
    destruct (Z.geb_spec (bx * 8 + tx) W); [done|].
    destruct (Z.geb_spec (by_ * 8 + ty) H); [done|]. cbn [orb].
    destruct (matte_value _ _ _ _ _ _) as [v|]; [|done].
    cbn. rewrite offset_Some by nia. done.
  - intros x y Hx Hy. rewrite Hval by done. by apply Hdef.
  - rewrite HW', HH' in Hrun |- *.
    exists dst'. split; [done|]. split; [done|].
    intros x y Hx Hy. rewrite Hpix by done. by apply Hval.
Qed.

Lemma composite_matte_pixels_witness :
  exists dst',
    completed (cudaBlendRGBA32ToRGB8 cudaSuccess matte_src matte_alpha (Ptr matte_dst) 2 1)
              matte_dst = Some dst' /\
    length dst' = length matte_dst /\
    forall x y, 0 <= x < 2 -> 0 <= y < 1 ->
      dst' !! Z.to_nat (y * 2 + x) = Spec.matte_pixel matte_src matte_alpha 2 1 x y.
Proof.
  apply (composite_matte_pixels cudaSuccess matte_src matte_alpha matte_dst 2 1).
  - lia.
  - lia.
  - vm_compute. discriminate.
  - reflexivity.
  - vm_compute. discriminate.
  - intros x y Hx Hy.
    enum_below x 2%nat; enum_below y 1%nat; vm_compute; eexists; reflexivity.
Defined.

Lemma load_replicate {A : Type} (n i : Z) (v : A) :
  0 <= i < n -> load (Ptr (replicate (Z.to_nat n) v)) i = Some v.
Proof.
  intros Hi. unfold load, load_at.
  destruct (Z.leb_spec 0 i); [|lia].
  apply lookup_replicate_2. lia.
Qed.

Lemma load_wide_alpha_low (i : Z) :
  0 <= i < 16777217 -> load wide_alpha i = Some F32.zero.
Proof.
  intros Hi. unfold wide_alpha, load, load_at.
  destruct (Z.leb_spec 0 i); [|lia].
  rewrite lookup_app_l by (rewrite length_replicate; lia).
  apply lookup_replicate_2. lia.
Qed.

Lemma load_wide_alpha_last (i : Z) :
  i = 16777217 -> load wide_alpha i = Some F32.one.
Proof.
  intros ->. unfold wide_alpha, load, load_at.
  destruct (Z.leb_spec 0 16777217); [|lia].
  rewrite lookup_app_r by (rewrite length_replicate; lia).
  rewrite length_replicate, Nat.sub_diag. reflexivity.
Qed.

Lemma matte_value_loads (src alpha : ptr float)
    (n width x y dx dy i0 i1 i2 ia : Z) (s0 s1 s2 a : float) :
  tensor_cell x y = Some (dx, dy) ->
  plane_offset n 0 dy width dx = Some i0 ->
  plane_offset n 1 dy width dx = Some i1 ->
  plane_offset n 2 dy width dx = Some i2 ->
  offset dy width dx = Some ia ->
  load src i0 = Some s0 -> load src i1 = Some s1 -> load src i2 = Some s2 ->
  load alpha ia = Some a ->
  matte_value src alpha n width x y =
  clip_float3 (make_float3 (blend_channel s0 a F32.c120)
                           (blend_channel s1 a F32.c255)
                           (blend_channel s2 a F32.c155)) 0 255.
Proof.
  intros Hc H0 H1 H2 Ha Hs0 Hs1 Hs2 Hsa. unfold matte_value.
  rewrite Hc. cbn [mbind option_bind fst snd].
  rewrite H0. cbn [mbind option_bind]. rewrite Hs0. cbn [mbind option_bind].
  rewrite H1. cbn [mbind option_bind]. rewrite Hs1. cbn [mbind option_bind].
  rewrite H2. cbn [mbind option_bind]. rewrite Hs2. cbn [mbind option_bind].
  rewrite Ha. cbn [mbind option_bind]. rewrite Hsa. reflexivity.
Qed.

Lemma matte_pixel_loads (src alpha : ptr float) (width height x y : Z)
    (r g b a : float) :
  load src (0 * (width * height) + (y * width + x)) = Some r ->
  load src (1 * (width * height) + (y * width + x)) = Some g ->
  load src (2 * (width * height) + (y * width + x)) = Some b ->
  load alpha (y * width + x) = Some a ->
  Spec.matte_pixel src alpha width height x y =
  (qr ← uchar_of_float (Spec.composite r a (float3_x Spec.BG));
   qg ← uchar_of_float (Spec.composite g a (float3_y Spec.BG));
   qb ← uchar_of_float (Spec.composite b a (float3_z Spec.BG));
   Some (make_uchar3 qr qg qb)).
Proof.
  intros Hr Hg Hb Ha. unfold Spec.matte_pixel. cbn zeta.
  rewrite Hr. cbn [mbind option_bind]. rewrite Hg. cbn [mbind option_bind].
  rewrite Hb. cbn [mbind option_bind]. rewrite Ha. reflexivity.
Qed.

(** C6, counterexample: in an image of 2^24 + 2 columns the thread of the
    pixel of column 2^24 + 1 reads the source and the alpha of column 2^24
    ((float)16777217 is 16777216.0f), not those of its own pixel.  On a
    tensor of ones whose alpha is 1.0 at that pixel and 0.0 elsewhere it
    stores the background (120, 255, 155), where the formula gives
    (255, 255, 255). *)
Lemma matte_reads_other_pixel :
  0 <= 16777217 < 16777218 /\
  tensor_cell 16777217 0 = Some (16777216, 0) /\
  offset 0 16777218 16777216 <> offset 0 16777218 16777217 /\
  matte_value wide_src wide_alpha 16777218 16777218 16777217 0
    = Some (make_uchar3 120 255 155) /\
  Spec.matte_pixel wide_src wide_alpha 16777218 1 16777217 0
    = Some (make_uchar3 255 255 255).
Proof.
  split; [lia|]. split; [vm_compute; reflexivity|].
  split; [vm_compute; discriminate|]. split.
  - rewrite (matte_value_loads wide_src wide_alpha 16777218 16777218 16777217 0
               16777216 0 16777216 33554434 50331652 16777216
               F32.one F32.one F32.one F32.zero).
    + vm_compute; reflexivity.
    + vm_compute; reflexivity.
    + vm_compute; reflexivity.
    + vm_compute; reflexivity.
    + vm_compute; reflexivity.
    + vm_compute; reflexivity.
    + unfold wide_src; apply load_replicate; lia.
    + unfold wide_src; apply load_replicate; lia.
    + unfold wide_src; apply load_replicate; lia.
    + apply load_wide_alpha_low; lia.
  - rewrite (matte_pixel_loads wide_src wide_alpha 16777218 1 16777217 0
               F32.one F32.one F32.one F32.one).
    + vm_compute; reflexivity.
    + unfold wide_src; apply load_replicate; lia.
    + unfold wide_src; apply load_replicate; lia.
    + unfold wide_src; apply load_replicate; lia.
    + apply load_wide_alpha_last; lia.
Qed.

(** ** Linear filtering with zero offsets *)

Lemma linear_weights_zero (c : float) (x1 : Z) :
  F32.is_zero (F32.sub c (F32.of_int x1)) = true ->
  linear_weights c x1 = (F32.one, F32.zero).
Proof.
  unfold linear_weights. destruct (F32.sub c (F32.of_int x1)); try done.
Qed.

Lemma bilinear_degenerate (c : float) :
  F32.regular c = true ->
  bilinear c c c c (F32.mul F32.one F32.one) (F32.mul F32.zero F32.one)
    (F32.mul F32.zero F32.zero) (F32.mul F32.one F32.zero) = c.
Proof.
  unfold F32.regular, F32.valid. intros [Hv Hf]%andb_true_iff.
  change (F32.mul F32.one F32.one) with F32.one.
  change (F32.mul F32.zero F32.one) with F32.zero.
  change (F32.mul F32.zero F32.zero) with F32.zero.
  change (F32.mul F32.one F32.zero) with F32.zero.
  unfold bilinear.
  destruct c as [s|s| |s m e]; try done.
  - by destruct s.
  - cbn [valid_binary] in Hv. rewrite (mul_one_valid s m e Hv).
    unfold F32.mul, F32.zero. cbn [SFmul]. reflexivity.
Qed.

(** * Further properties of the kernels *)

(** ** Saturation *)

Lemma valid_mantissa (s : bool) (m : positive) (e : Z) :
  F32.valid (S754_finite s m e) = true -> Zpos m < 2 ^ 24 /\ -149 <= e <= 104.
Proof.
  unfold F32.valid, valid_binary, bounded, canonical_mantissa.
  intros [Hc He]%andb_true_iff. apply Z.eqb_eq in Hc. apply Z.leb_le in He.
  change (fexp 24 128) with fexp32 in Hc. rewrite fexp32_eq in Hc.
  assert (Hd := digits2_pos_bounds m).
  assert (Zpos (digits2_pos m) <= 24) by lia.
  split; [|lia].
  eapply Z.lt_le_trans; [apply Hd|]. apply Z.pow_le_mono_r; lia.
Qed.

Lemma gt_c255 (m : positive) (e : Z) :
  F32.gt (S754_finite false m e) F32.c255 =
  (-16 <? e) || ((e =? -16) && (16711680 <? Zpos m)).
Proof.
  unfold F32.gt, SFltb, F32.c255. cbn [SFcompare].
  destruct (Z.compare_spec (-16) e) as [<- | Hlt | Hgt].
  - rewrite Pos.compare_cont_spec. cbn [Pos.switch_Eq orb andb Z.ltb Z.eqb Z.compare Pos.compare].
    change (16711680 <? Z.pos m) with (Pos.ltb 16711680 m).
    unfold Pos.ltb. rewrite Pos.eqb_refl. by destruct (Pos.compare 16711680 m).
  - destruct (Z.ltb_spec (-16) e); [done|lia].
  - destruct (Z.ltb_spec (-16) e); [lia|].
    destruct (Z.eqb_spec e (-16)); [lia|done].
Qed.

Lemma clip_uchar (x : float) :
  F32.valid x = true -> is_nan x = false ->
  exists v, uchar_of_float (clip x (F32.of_int 0) (F32.of_int 255)) = Some v /\
    0 <= v <= 255 /\
    (F32.gt x F32.c255 = true -> v = 255) /\
    (F32.lt x F32.zero = true -> v = 0) /\
    (F32.gt x F32.c255 = false -> F32.lt x F32.zero = false -> F32.trunc x = Some v).
Proof.
  intros Hv Hn.
  change (F32.of_int 0) with F32.zero. change (F32.of_int 255) with F32.c255.
  destruct x as [s|s| |s m e]; [| | done |].
  - exists 0. by destruct s.
  - destruct s.
    + exists 0. repeat split; done.
    + exists 255. repeat split; done.
  - destruct s.
    + exists 0. repeat split; done.
    + destruct (valid_mantissa _ _ _ Hv) as [Hm He].
      assert (Hlt : F32.lt (S754_finite false m e) F32.zero = false) by done.
      unfold clip. rewrite Hlt, gt_c255.
      destruct (Z.ltb_spec (-16) e) as [H1|H1]; cbn [orb].
      { exists 255. repeat split; done. }
      destruct (Z.eqb_spec e (-16)) as [->|H2]; cbn [andb].
      * destruct (Z.ltb_spec 16711680 (Zpos m)) as [H3|H3].
        { exists 255. repeat split; done. }
        exists (Zpos m / 65536).
        assert (0 <= Zpos m / 65536 <= 255).
        { split; [apply Z.div_pos; lia|].
          apply Z.div_le_upper_bound; lia. }
        unfold uchar_of_float. cbn [F32.trunc mbind option_bind].
        change (2 ^ 16) with 65536.
        destruct (Z.leb_spec 0 (Zpos m / 65536)); [|lia].
        destruct (Z.leb_spec (Zpos m / 65536) 255); [|lia].
        repeat split; (done || lia).
      * destruct e as [|p|p]; [lia|lia|].
        exists (Zpos m / 2 ^ Zpos p).
        assert (0 <= Zpos m / 2 ^ Zpos p <= 255).
        { split; [apply Z.div_pos; lia|].
          apply Z.div_le_upper_bound; [lia|].
          assert (2 ^ 17 <= 2 ^ Zpos p) by (apply Z.pow_le_mono_r; lia).
          lia. }
        unfold uchar_of_float. cbn [F32.trunc mbind option_bind].
        destruct (Z.leb_spec 0 (Zpos m / 2 ^ Zpos p)); [|lia].
        destruct (Z.leb_spec (Zpos m / 2 ^ Zpos p) 255); [|lia].
        repeat split; (done || lia).
Qed.

Lemma clip_nan (min max : float) : clip S754_nan min max = S754_nan.
Proof. unfold clip, F32.gt, F32.lt, SFltb. cbn. by destruct max, min. Qed.

(** ** Products are valid numbers *)

Lemma round_result_valid (s : bool) (m e m1 : Z) :
  0 < m -> e <= fexp32 (Zdigits2 m + e) ->
  let E := fexp32 (Zdigits2 m + e) in
  m / 2 ^ (E - e) <= m1 <= m / 2 ^ (E - e) + 1 -> 0 <= m1 <= 2 ^ 24 ->
  F32.valid (round_result s m1 E) = true /\ is_nan (round_result s m1 E) = false.
Proof.
  intros Hm He E HM Hm1. unfold round_result.
  assert (HE : -149 <= E) by (unfold E; rewrite fexp32_eq; lia).
  destruct (Z.eqb_spec m1 0); [done|].
  destruct (Z.eqb_spec m1 (2 ^ 24)).
  { destruct (Z.leb_spec (E + 1) 104); [|done]. split; [|done].
    unfold F32.valid, valid_binary, bounded, canonical_mantissa.
    change (fexp 24 128) with fexp32. rewrite fexp32_eq.
    change (Z.pos (digits2_pos 8388608)) with 24.
    apply andb_true_iff. split; [apply Z.eqb_eq|apply Z.leb_le]; lia. }
  destruct (Z.leb_spec E 104); [|done]. split; [|done].
  unfold F32.valid, valid_binary, bounded, canonical_mantissa.
  change (fexp 24 128) with fexp32. rewrite fexp32_eq.
  assert (Hpos : 0 < m1) by lia.
  assert (Hd : Zdigits2 m1 = Zpos (digits2_pos (Z.to_pos m1))).
  { destruct m1; try lia. reflexivity. }
  rewrite <- Hd.
  assert (Hle : Zdigits2 m1 <= 24) by (apply Zdigits2_le; lia).
  apply andb_true_iff. split; [apply Z.eqb_eq|apply Z.leb_le; lia].
  unfold E in *. rewrite fexp32_eq in *.
  destruct (Z.max_spec (Zdigits2 m + e - 24) (-149)) as [[_ Heq]|[Hgt Heq]];
    [lia|].
  rewrite Heq in *.
  assert (24 <= Zdigits2 m1); [|lia].
  apply Zdigits2_ge; [|done].
  destruct (Zdigits2_bounds m Hm) as [[Hlo _] _].
  set (k := Zdigits2 m + e - 24 - e) in *.
  assert (Hk : 0 <= k) by lia.
  assert (2 ^ 23 <= m / 2 ^ k); [|lia].
  apply Z.div_le_lower_bound; [lia|].
  rewrite <- Z.pow_add_r by lia.
  replace (k + 23) with (Zdigits2 m - 1) by lia. lia.
Qed.

Lemma binary_round_aux_valid (s : bool) (m e : Z) :
  0 < m -> e <= fexp32 (Zdigits2 m + e) ->
  F32.valid (binary_round_aux 24 128 s m e loc_Exact) = true /\
  is_nan (binary_round_aux 24 128 s m e loc_Exact) = false.
Proof.
  intros Hm He.
  destruct (binary_round_aux_result s m e loc_Exact ltac:(lia))
    as (m1 & -> & HM & Hm1 & _).
  rewrite Z.max_r in * by done.
  by apply (round_result_valid s m e m1).
Qed.

Lemma valid_exponent (s : bool) (m : positive) (e : Z) :
  F32.valid (S754_finite s m e) = true ->
  e = fexp32 (Zpos (digits2_pos m) + e).
Proof.
  unfold F32.valid, valid_binary, bounded, canonical_mantissa.
  intros [Hc _]%andb_true_iff. apply Z.eqb_eq in Hc. done.
Qed.

Lemma mul_round (sa sb : bool) (ma mb : positive) (ea eb : Z) :
  F32.valid (S754_finite sa ma ea) = true -> F32.valid (S754_finite sb mb eb) = true ->
  F32.valid (binary_round_aux 24 128 (xorb sa sb) (Zpos (ma * mb)) (ea + eb) loc_Exact)
    = true /\
  is_nan (binary_round_aux 24 128 (xorb sa sb) (Zpos (ma * mb)) (ea + eb) loc_Exact)
    = false.
Proof.
  intros Ha Hb. apply binary_round_aux_valid; [lia|].
  apply valid_exponent in Ha, Hb. rewrite fexp32_eq in *.
  assert (Hda := digits2_pos_bounds ma). assert (Hdb := digits2_pos_bounds mb).
  set (da := Zpos (digits2_pos ma)) in *. set (db := Zpos (digits2_pos mb)) in *.
  assert (0 < da) by done. assert (0 < db) by done.
  assert (da + db - 1 <= Zdigits2 (Zpos (ma * mb))).
  { apply Zdigits2_ge; [|lia].
    replace (da + db - 1 - 1) with ((da - 1) + (db - 1)) by lia.
    rewrite Z.pow_add_r by lia. rewrite Pos2Z.inj_mul.
    apply Z.mul_le_mono_nonneg; lia. }
  lia.
Qed.

(** The product of two valid numbers is a valid number. *)
Lemma mul_valid (a b : float) :
  F32.valid a = true -> F32.valid b = true ->
  F32.valid (F32.mul a b) = true.
Proof.
  intros Ha Hb. destruct a as [sa|sa| |sa ma ea], b as [sb|sb| |sb mb eb]; try done.
  by apply mul_round.
Qed.

(** The product of a number by a finite number other than zero is not a
    NaN. *)
Lemma mul_nan (a b : float) :
  is_nan a = false -> F32.is_finite b = true -> F32.is_zero b = false ->
  F32.valid a = true -> F32.valid b = true ->
  is_nan (F32.mul a b) = false.
Proof.
  intros Ha Hb Hz Hva Hvb.
  destruct a as [sa|sa| |sa ma ea], b as [sb|sb| |sb mb eb]; try done.
  by apply mul_round.
Qed.

(** ** Tensor to RGB *)

Lemma clip_float3_saturated (px : float3) :
  number (float3_x px) -> number (float3_y px) -> number (float3_z px) ->
  exists r g b, clip_float3 px 0 255 = Some (make_uchar3 r g b) /\
    saturated (float3_x px) r /\ saturated (float3_y px) g /\ saturated (float3_z px) b.
Proof.
  intros [Hx Hx'] [Hy Hy'] [Hz Hz'].
  destruct (clip_uchar _ Hx Hx') as (r & Hr & Hsr).
  destruct (clip_uchar _ Hy Hy') as (g & Hg & Hsg).
  destruct (clip_uchar _ Hz Hz') as (b & Hb & Hsb).
  exists r, g, b. unfold clip_float3. rewrite Hr, Hg, Hb. done.
Qed.

Lemma scaled_number (s : float) : number s -> number (F32.mul s F32.c255).
Proof.
  intros [Hv Hn]. split.
  - by apply mul_valid.
  - by apply mul_nan.
Qed.

Lemma load_cells {A : Type} (cells : list A) (P : A -> Prop) (i : Z) :
  Forall P cells -> 0 <= i < Z.of_nat (length cells) ->
  exists s, cells !! Z.to_nat i = Some s /\ load (Ptr cells) i = Some s /\ P s.
Proof.
  intros HP Hi.
  destruct (lookup_lt_is_Some_2 cells (Z.to_nat i) ltac:(lia)) as [s Hs].
  exists s. split; [done|]. split.
  - unfold load, load_at. destruct (Z.leb_spec 0 i); [done|lia].
  - by eapply Forall_lookup_1.
Qed.

Lemma tensor_value_saturated (cells : list float) (W H x y : Z) :
  0 <= x < W -> 0 <= y < H -> W <= 2 ^ 24 -> H <= 2 ^ 24 ->
  3 * (W * H) <= INT_MAX -> 3 * (W * H) <= Z.of_nat (length cells) ->
  Forall number cells ->
  exists s0 s1 s2 r g b,
    cells !! Z.to_nat (0 * (W * H) + (y * W + x)) = Some s0 /\
    cells !! Z.to_nat (1 * (W * H) + (y * W + x)) = Some s1 /\
    cells !! Z.to_nat (2 * (W * H) + (y * W + x)) = Some s2 /\
    tensor_value (Ptr cells) (W * H) W x y = Some (make_uchar3 r g b) /\
    saturated (F32.mul s0 F32.c255) r /\
    saturated (F32.mul s1 F32.c255) g /\
    saturated (F32.mul s2 F32.c255) b.
Proof.
  intros Hx Hy HW HH Hint Hlen Hnum.
  assert (Ho : 0 <= y * W + x < W * H) by nia.
  destruct (load_cells cells number (0 * (W * H) + (y * W + x)) Hnum ltac:(lia))
    as (s0 & Hc0 & Hl0 & Hn0).
  destruct (load_cells cells number (1 * (W * H) + (y * W + x)) Hnum ltac:(lia))
    as (s1 & Hc1 & Hl1 & Hn1).
  destruct (load_cells cells number (2 * (W * H) + (y * W + x)) Hnum ltac:(lia))
    as (s2 & Hc2 & Hl2 & Hn2).
  destruct (clip_float3_saturated
              (make_float3 (F32.mul s0 F32.c255) (F32.mul s1 F32.c255)
                           (F32.mul s2 F32.c255)))
    as (r & g & b & Hclip & Hr & Hg & Hb); try by apply scaled_number.
  exists s0, s1, s2, r, g, b.
  split; [done|]. split; [done|]. split; [done|]. split; [|done].
  unfold tensor_value. rewrite tensor_cell_exact by lia.
  cbn [mbind option_bind fst snd].
  rewrite !plane_offset_Some by lia. cbn [mbind option_bind].
  rewrite Hl0. cbn [mbind option_bind]. rewrite Hl1. cbn [mbind option_bind].
  rewrite Hl2. cbn [mbind option_bind]. exact Hclip.
Qed.

(** ** A launch over an image inside a larger buffer *)

Section ImageLaunchFrame.

Context {A : Type}.
Variable kernel : dim3 -> dim3 -> dim3 -> list A -> option (list A).
Variable W H : Z.
Variable N : nat.
Variable value : Z -> Z -> option A.

Hypothesis W_pos : 0 < W.
Hypothesis H_pos : 0 < H.
Hypothesis WH_int : W * H <= INT_MAX.
Hypothesis N_large : W * H <= Z.of_nat N.
Hypothesis kernel_thread : forall bx by_ tx ty s,
  0 <= bx -> 0 <= by_ -> 0 <= tx < 8 -> 0 <= ty < 8 ->
  bx * 8 + tx <= INT_MAX -> by_ * 8 + ty <= INT_MAX ->
  length s = N ->
  kernel (make_dim3 bx by_ 0) (make_dim3 8 8 1) (make_dim3 tx ty 0) s =
    if (bx * 8 + tx >=? W) || (by_ * 8 + ty >=? H) then Some s
    else match value (bx * 8 + tx) (by_ * 8 + ty) with
         | Some v => store s ((by_ * 8 + ty) * W + (bx * 8 + tx)) v
         | None => None
         end.
Hypothesis value_defined : forall x y, 0 <= x < W -> 0 <= y < H -> is_Some (value x y).

(** The launch over the image with a destination of [N >= W * H] cells: it
    is defined, leaves in cell [y * W + x] the value of the pixel [(x,y)]
    and does not touch the cells from [W * H] on. *)
Lemma launch_image_frame (s : list A) :
  length s = N ->
  exists s',
    launch kernel (make_dim3 (uint (iDivUp (int_of_uint W) 8))
                             (uint (iDivUp (int_of_uint H) 8)) 1)
                  (make_dim3 8 8 1) s = Some s' /\
    length s' = length s /\
    (forall x y, 0 <= x < W -> 0 <= y < H ->
       s' !! Z.to_nat (y * W + x) = value x y) /\
    (forall j, (Z.to_nat (W * H) <= j)%nat -> s' !! j = s !! j).
Proof.
  intros Hlen.
  assert (HW : W <= INT_MAX) by nia.
  assert (HH : H <= INT_MAX) by nia.
  destruct (iDivUp_8 W ltac:(lia)) as (-> & HgW & HgW').
  destruct (iDivUp_8 H ltac:(lia)) as (-> & HgH & HgH').
  set (g := make_dim3 ((W + 7) / 8) ((H + 7) / 8) 1).
  set (b := make_dim3 8 8 1).
  unfold launch.
  assert (Hcoord : forall t, t ∈ grid_threads g b ->
    exists bx by_ tx ty, t = (make_dim3 bx by_ 0, make_dim3 tx ty 0) /\
      0 <= bx /\ 0 <= by_ /\ 0 <= tx < 8 /\ 0 <= ty < 8 /\
      bx * 8 + tx <= INT_MAX /\ by_ * 8 + ty <= INT_MAX).
  { intros t (bx & by_ & tx & ty & -> & Hbx & Hby & Htx & Hty)%elem_of_grid_threads.
    cbn in Hbx, Hby, Htx, Hty.
    exists bx, by_, tx, ty. repeat split; (done || lia). }
  assert (Hin : forall t i v, t ∈ grid_threads g b ->
    image_act W H value t = Some (i, v) -> 0 <= i < W * H).
  { intros t i v (bx & by_ & tx & ty & -> & ? & ? & ? & ? & ? & ?)%Hcoord Hact.
    apply image_act_Some in Hact; cbn [fst snd dim3_x dim3_y] in *; [|lia..].
    destruct Hact as (Hx & Hy & -> & _). nia. }
  destruct (run_threads_stores (image_act W H value)
              (fun t => kernel (fst t) b (snd t)) N
              (grid_threads g b) s) as (s' & Hrun & Hl & Hw & Hframe).
  - intros t s1 (bx & by_ & tx & ty & -> & ? & ? & ? & ? & ? & ?)%Hcoord Hs1.
    cbn [fst snd]. rewrite kernel_thread by done.
    unfold image_act. cbn [fst snd dim3_x dim3_y].
    destruct (Z.geb_spec (bx * 8 + tx) W); [done|].
    destruct (Z.geb_spec (by_ * 8 + ty) H); [done|]. cbn.
    destruct (value_defined (bx * 8 + tx) (by_ * 8 + ty)) as [v ->]; [lia..|]. done.
  - done.
  - apply NoDup_grid_threads.
  - intros t i v Ht Hact. specialize (Hin t i v Ht Hact). lia.
  - intros t1 t2 i v1 v2
      (bx1 & by1 & tx1 & ty1 & -> & ? & ? & ? & ? & ? & ?)%Hcoord
      (bx2 & by2 & tx2 & ty2 & -> & ? & ? & ? & ? & ? & ?)%Hcoord Ha1 Ha2.
    apply image_act_Some in Ha1; cbn [fst snd dim3_x dim3_y] in *; [|lia..].
    apply image_act_Some in Ha2; cbn [fst snd dim3_x dim3_y] in *; [|lia..].
    destruct Ha1 as (Hx1 & Hy1 & -> & _). destruct Ha2 as (Hx2 & Hy2 & Heq & _).
    assert (by1 * 8 + ty1 = by2 * 8 + ty2) by nia.
    assert (bx1 * 8 + tx1 = bx2 * 8 + tx2) by nia.
    assert (bx1 = bx2) by lia. assert (by1 = by2) by lia.
    assert (tx1 = tx2) by lia. assert (ty1 = ty2) by lia.
    by subst.
  - exists s'. split; [done|]. split; [lia|]. split.
    + intros x y Hx Hy.
      destruct (value_defined x y Hx Hy) as [v Hv]. rewrite Hv.
      apply (Hw (make_dim3 (x / 8) (y / 8) 0, make_dim3 (x mod 8) (y mod 8) 0)).
      * apply elem_of_grid_threads.
        exists (x / 8), (y / 8), (x mod 8), (y mod 8). cbn.
        assert (Hdx := Z.div_mod x 8 ltac:(lia)).
        assert (Hmx := Z.mod_pos_bound x 8 ltac:(lia)).
        assert (Hdy := Z.div_mod y 8 ltac:(lia)).
        assert (Hmy := Z.mod_pos_bound y 8 ltac:(lia)).
        repeat split; (done || lia).
      * unfold image_act. cbn [fst snd dim3_x dim3_y].
        assert (Hdx := Z.div_mod x 8 ltac:(lia)).
        assert (Hdy := Z.div_mod y 8 ltac:(lia)).
        replace (x / 8 * 8 + x mod 8) with x by lia.
        replace (y / 8 * 8 + y mod 8) with y by lia.
        destruct (Z.geb_spec x W); [lia|].
        destruct (Z.geb_spec y H); [lia|].
        cbn. by rewrite Hv.
    + intros j Hj. apply Hframe.
      intros t i v Ht Hact. specialize (Hin t i v Ht Hact). lia.
Qed.

End ImageLaunchFrame.

Section SegOverlayFrame.

Variable LOG_TRT : string.
Variable imageFormatToStr : imageFormat -> string.
Variable cudaGetLastError : cudaError_t.

Lemma cudaSegOverlay_frame (T : pixelType) (filter_linear mask_only : bool)
    (input : ptr pixel) (in_width in_height : Z) (out : list pixel) (W H : Z)
    (format : imageFormat)
    (class_colors : ptr float4) (scores : ptr Z) (scores_dim : int2) :
  format_type format = Some T ->
  0 < W -> 0 < H -> W * H <= INT_MAX ->
  W * H <= Z.of_nat (length out) ->
  (forall x y, 0 <= x < W -> 0 <= y < H ->
     is_Some (pixel_value T filter_linear mask_only input
                (int_of_uint in_width) (int_of_uint in_height) W H
                class_colors scores scores_dim x y)) ->
  exists out',
    completed (cudaSegOverlay LOG_TRT imageFormatToStr cudaGetLastError
                 input in_width in_height (Ptr out) W H format
                 class_colors scores scores_dim filter_linear mask_only) out
      = Some out' /\
    length out' = length out /\
    (forall x y, 0 <= x < W -> 0 <= y < H ->
       out' !! Z.to_nat (y * W + x) =
       pixel_value T filter_linear mask_only input
         (int_of_uint in_width) (int_of_uint in_height) W H
         class_colors scores scores_dim x y) /\
    (forall j, (Z.to_nat (W * H) <= j)%nat -> out' !! j = out !! j).
Proof.
  intros Hfmt HW HH HWH Hlen Hdef.
  assert (HW' : W <= INT_MAX) by nia.
  assert (HH' : H <= INT_MAX) by nia.
  unfold cudaSegOverlay. cbn [is_null].
  destruct (Z.eqb_spec W 0); [lia|]. destruct (Z.eqb_spec H 0); [lia|]. cbn [orb].
  rewrite (format_type_IsRGB _ _ Hfmt). cbn [negb status].
  unfold completed. cbn [launched dim3_x dim3_y].
  assert (Hl : forall f m,
    LAUNCH_OVERLAY f m format
      (make_dim3 (uint (iDivUp (int_of_uint W) 8)) (uint (iDivUp (int_of_uint H) 8)) 1)
      (make_dim3 8 8 1) input in_width in_height W H class_colors scores scores_dim =
    Some (launch (gpuSegOverlay T f m input (int_of_uint in_width) (int_of_uint in_height)
                    W H class_colors scores scores_dim)
            (make_dim3 (uint (iDivUp (int_of_uint W) 8)) (uint (iDivUp (int_of_uint H) 8)) 1)
            (make_dim3 8 8 1))).
  { intros f m. rewrite (LAUNCH_OVERLAY_type _ _ _ T) by done.
    rewrite !(int_of_uint_small W), !(int_of_uint_small H)
      by (unfold INT_MIN; unfold INT_MAX in *; lia).
    reflexivity. }
  assert (Hgoal : exists out',
    launch (gpuSegOverlay T filter_linear mask_only input
              (int_of_uint in_width) (int_of_uint in_height) W H
              class_colors scores scores_dim)
      (make_dim3 (uint (iDivUp (int_of_uint W) 8)) (uint (iDivUp (int_of_uint H) 8)) 1)
      (make_dim3 8 8 1) out = Some out' /\ length out' = length out /\
    (forall x y, 0 <= x < W -> 0 <= y < H ->
      out' !! Z.to_nat (y * W + x) =
      pixel_value T filter_linear mask_only input
        (int_of_uint in_width) (int_of_uint in_height) W H
        class_colors scores scores_dim x y) /\
    (forall j, (Z.to_nat (W * H) <= j)%nat -> out' !! j = out !! j)).
  { apply (launch_image_frame _ W H (length out)); try done.
    intros bx by_ tx ty s Hbx Hby Htx Hty Hx Hy Hs.
    rewrite gpuSegOverlay_thread by lia.
    destruct (Z.geb_spec (bx * 8 + tx) W); [done|].
    destruct (Z.geb_spec (by_ * 8 + ty) H); [done|]. cbn [orb].
    destruct (pixel_value _ _ _ _ _ _ _ _ _ _ _ _ _) as [v|]; [|done].
    cbn. rewrite offset_Some by nia. done. }
  destruct filter_linear, mask_only; rewrite Hl; exact Hgoal.
Qed.

End SegOverlayFrame.

(** ** The tensor kernels over an image *)

Lemma TensorToRGB_thread (srcImage : ptr float) (width height : Z)
    (bx by_ tx ty : Z) (s : list uchar3) :
  0 <= bx * 8 + tx <= INT_MAX -> 0 <= by_ * 8 + ty <= INT_MAX ->
  TensorToRGB srcImage width height
    (make_dim3 bx by_ 0) (make_dim3 8 8 1) (make_dim3 tx ty 0) s =
  n ← int_mul width height;
  if (bx * 8 + tx >=? width) || (by_ * 8 + ty >=? height) then Some s
  else v ← tensor_value srcImage n width (bx * 8 + tx) (by_ * 8 + ty);
       i ← offset (by_ * 8 + ty) width (bx * 8 + tx);
       store s i v.
Proof.
  intros Hx Hy. unfold TensorToRGB. cbn [dim3_x dim3_y].
  rewrite !global_index by done.
  destruct (int_mul width height) as [n|]; [|reflexivity]. cbn [mbind option_bind].
  destruct (_ || _); [reflexivity|].
  unfold tensor_value, tensor_cell.
  repeat (match goal with
          | |- context [mbind _ ?o] =>
              lazymatch o with
              | context [mbind] => fail
              | _ => destruct o eqn:?; cbn [mbind option_bind fst snd]
              end
          end); try reflexivity.
Qed.

Section TensorLaunch.

Variable cudaGetLastError : cudaError_t.

Lemma cudaTensor32ToRGB8_frame (src : ptr float) (dst : list uchar3) (W H : Z) :
  0 < W -> 0 < H -> W * H <= INT_MAX ->
  W * H <= Z.of_nat (length dst) ->
  (forall x y, 0 <= x < W -> 0 <= y < H ->
     is_Some (tensor_value src (W * H) W x y)) ->
  exists dst',
    completed (cudaTensor32ToRGB8 cudaGetLastError src (Ptr dst) W H) dst = Some dst' /\
    length dst' = length dst /\
    (forall x y, 0 <= x < W -> 0 <= y < H ->
       dst' !! Z.to_nat (y * W + x) = tensor_value src (W * H) W x y) /\
    (forall j, (Z.to_nat (W * H) <= j)%nat -> dst' !! j = dst !! j).
Proof.
  intros HW HH HWH Hlen Hdef.
  assert (HW0 : W <= INT_MAX) by nia.
  assert (HH0 : H <= INT_MAX) by nia.
  assert (Hnull : is_null src = false).
  { destruct (Hdef 0 0 ltac:(lia) ltac:(lia)) as [p Hp].
    unfold tensor_value in Hp. bind_cases Hp.
    eapply load_not_null; eassumption. }
  assert (HW' : int_of_uint W = W)
    by (apply int_of_uint_small; unfold INT_MIN, INT_MAX in *; lia).
  assert (HH' : int_of_uint H = H)
    by (apply int_of_uint_small; unfold INT_MIN, INT_MAX in *; lia).
  unfold cudaTensor32ToRGB8, launchTensorToRGB, completed.
  rewrite Hnull. cbn [orb is_null].
  destruct (Z.eqb_spec W 0); [lia|]. destruct (Z.eqb_spec H 0); [lia|].
  cbn [orb launched dim3_x dim3_y].
  destruct (launch_image_frame (TensorToRGB src W H) W H (length dst)
              (fun x y => tensor_value src (W * H) W x y)) with (s := dst)
    as (dst' & Hrun & Hl & Hpix & Hfr); try done.
  - intros bx by_ tx ty s Hbx Hby Htx Hty Hx Hy Hs.
    rewrite TensorToRGB_thread by lia.
    unfold int_mul. rewrite int_Some by (unfold INT_MIN; nia). cbn [mbind option_bind].
    destruct (Z.geb_spec (bx * 8 + tx) W); [done|].
    destruct (Z.geb_spec (by_ * 8 + ty) H); [done|]. cbn [orb].
    destruct (tensor_value _ _ _ _ _) as [v|]; [|done].
    cbn. rewrite offset_Some by nia. done.
  - rewrite HW', HH' in Hrun |- *.
    exists dst'. done.
Qed.

Lemma cudaBlendRGBA32ToRGB8_frame (src alpha : ptr float) (dst : list uchar3) (W H : Z) :
  0 < W -> 0 < H -> W * H <= INT_MAX ->
  W * H <= Z.of_nat (length dst) ->
  (forall x y, 0 <= x < W -> 0 <= y < H ->
     is_Some (matte_value src alpha (W * H) W x y)) ->
  exists dst',
    completed (cudaBlendRGBA32ToRGB8 cudaGetLastError src alpha (Ptr dst) W H) dst
      = Some dst' /\
    length dst' = length dst /\
    (forall x y, 0 <= x < W -> 0 <= y < H ->
       dst' !! Z.to_nat (y * W + x) = matte_value src alpha (W * H) W x y) /\
    (forall j, (Z.to_nat (W * H) <= j)%nat -> dst' !! j = dst !! j).
Proof.
  intros HW HH HWH Hlen Hdef.
  assert (HW0 : W <= INT_MAX) by nia.
  assert (HH0 : H <= INT_MAX) by nia.
  assert (Hnull : is_null src = false /\ is_null alpha = false).
  { destruct (Hdef 0 0 ltac:(lia) ltac:(lia)) as [p Hp].
    unfold matte_value in Hp. bind_cases Hp.
    split; eapply load_not_null; eassumption. }
  destruct Hnull as [Hn1 Hn2].
  assert (HW' : int_of_uint W = W)
    by (apply int_of_uint_small; unfold INT_MIN, INT_MAX in *; lia).
  assert (HH' : int_of_uint H = H)
    by (apply int_of_uint_small; unfold INT_MIN, INT_MAX in *; lia).
  unfold cudaBlendRGBA32ToRGB8, launchBlendRGBA32ToRGB8, completed.
  rewrite Hn1, Hn2. cbn [orb is_null].
  destruct (Z.eqb_spec W 0); [lia|]. destruct (Z.eqb_spec H 0); [lia|].
  cbn [orb launched dim3_x dim3_y].
  destruct (launch_image_frame (BlendRGBA32ToRGB8 src alpha W H) W H (length dst)
              (fun x y => matte_value src alpha (W * H) W x y)) with (s := dst)
    as (dst' & Hrun & Hl & Hpix & Hfr); try done.
  - intros bx by_ tx ty s Hbx Hby Htx Hty Hx Hy Hs.
    rewrite BlendRGBA32ToRGB8_thread by lia.
    unfold int_mul. rewrite int_Some by (unfold INT_MIN; nia). cbn [mbind option_bind].
    destruct (Z.geb_spec (bx * 8 + tx) W); [done|].
    destruct (Z.geb_spec (by_ * 8 + ty) H); [done|]. cbn [orb].
    destruct (matte_value _ _ _ _ _ _) as [v|]; [|done].
    cbn. rewrite offset_Some by nia. done.
  - rewrite HW', HH' in Hrun |- *.
    exists dst'. done.
Qed.

End TensorLaunch.

(** ** A destination that is too short *)

Lemma store_length {A : Type} (s s' : list A) (i : Z) (v : A) :
  store s i v = Some s' -> length s' = length s.
Proof.
  unfold store. destruct (_ && _); [|done]. intros [= <-]. apply length_insert.
Qed.

Lemma store_outside {A : Type} (s : list A) (i : Z) (v : A) :
  Z.of_nat (length s) <= i -> store s i v = None.
Proof.
  intros Hi. unfold store.
  destruct (Z.ltb_spec i (Z.of_nat (length s))); [lia|]. by rewrite andb_false_r.
Qed.

Lemma run_threads_Some_all {S T : Type} (body : T -> S -> option S) (I : S -> Prop)
    (ts : list T) :
  (forall t s1 s2, t ∈ ts -> I s1 -> body t s1 = Some s2 -> I s2) ->
  forall s s', I s -> run_threads body ts s = Some s' ->
  forall t, t ∈ ts -> exists s1, I s1 /\ is_Some (body t s1).
Proof.
  induction ts as [|t0 ts IH]; intros Hpres s s' Hs Hrun t Ht.
  - by apply elem_of_nil in Ht.
  - cbn in Hrun. destruct (body t0 s) as [s1|] eqn:Hb; [|done]. cbn in Hrun.
    apply elem_of_cons in Ht as [-> | Ht].
    + exists s. split; [done|]. by rewrite Hb.
    + eapply IH; [|by eapply (Hpres t0 s s1); [left|..]|exact Hrun|exact Ht].
      intros t1 sa sb Ht1. apply Hpres. by right.
Qed.

Section SegOverlayShort.

Variable LOG_TRT : string.
Variable imageFormatToStr : imageFormat -> string.
Variable cudaGetLastError : cudaError_t.

Lemma cudaSegOverlay_launch (T : pixelType) (filter_linear mask_only : bool)
    (input : ptr pixel) (in_width in_height : Z) (out : list pixel) (W H : Z)
    (format : imageFormat)
    (class_colors : ptr float4) (scores : ptr Z) (scores_dim : int2) :
  format_type format = Some T ->
  0 < W <= INT_MAX -> 0 < H <= INT_MAX ->
  completed (cudaSegOverlay LOG_TRT imageFormatToStr cudaGetLastError
               input in_width in_height (Ptr out) W H format
               class_colors scores scores_dim filter_linear mask_only) out =
  launch (gpuSegOverlay T filter_linear mask_only input
            (int_of_uint in_width) (int_of_uint in_height) W H
            class_colors scores scores_dim)
    (make_dim3 ((W + 7) / 8) ((H + 7) / 8) 1) (make_dim3 8 8 1) out.
Proof.
  intros Hfmt HW HH.
  unfold cudaSegOverlay. cbn [is_null].
  destruct (Z.eqb_spec W 0); [lia|]. destruct (Z.eqb_spec H 0); [lia|]. cbn [orb].
  rewrite (format_type_IsRGB _ _ Hfmt). cbn [negb status].
  unfold completed. cbn [launched dim3_x dim3_y].
  destruct (iDivUp_8 W HW) as (-> & _). destruct (iDivUp_8 H HH) as (-> & _).
  assert (Hl : forall f m,
    LAUNCH_OVERLAY f m format
      (make_dim3 ((W + 7) / 8) ((H + 7) / 8) 1)
      (make_dim3 8 8 1) input in_width in_height W H class_colors scores scores_dim =
    Some (launch (gpuSegOverlay T f m input (int_of_uint in_width) (int_of_uint in_height)
                    W H class_colors scores scores_dim)
            (make_dim3 ((W + 7) / 8) ((H + 7) / 8) 1) (make_dim3 8 8 1))).
  { intros f m. rewrite (LAUNCH_OVERLAY_type _ _ _ T) by done.
    rewrite !(int_of_uint_small W), !(int_of_uint_small H)
      by (unfold INT_MIN; unfold INT_MAX in *; lia).
    reflexivity. }
  destruct filter_linear, mask_only; by rewrite Hl.
Qed.

End SegOverlayShort.

(** ** The input image in mask-only mode *)

Lemma run_threads_ext {S T : Type} (body1 body2 : T -> S -> option S) (ts : list T) :
  (forall t s, body1 t s = body2 t s) ->
  forall s, run_threads body1 ts s = run_threads body2 ts s.
Proof.
  intros Hb. induction ts as [|t ts IH]; intros s; [done|].
  cbn. rewrite Hb. destruct (body2 t s); [apply IH|done].
Qed.

Lemma gpuSegOverlay_mask_input (T : pixelType) (filter_linear : bool)
    (input1 input2 : ptr pixel) (iw1 ih1 iw2 ih2 : Z) (W H : Z)
    (class_colors : ptr float4) (scores : ptr Z) (scores_dim : int2)
    (blockIdx blockDim threadIdx : dim3) (out : list pixel) :
  gpuSegOverlay T filter_linear true input1 iw1 ih1 W H class_colors scores scores_dim
    blockIdx blockDim threadIdx out =
  gpuSegOverlay T filter_linear true input2 iw2 ih2 W H class_colors scores scores_dim
    blockIdx blockDim threadIdx out.
Proof. unfold gpuSegOverlay. by destruct filter_linear. Qed.

(** ** The ends of a blend *)

Lemma mul_one_l (c : float) : F32.valid c = true -> F32.mul F32.one c = c.
Proof.
  intros Hv. rewrite mul_comm. destruct c as [s|s| |s m e]; try done.
  - by destruct s.
  - by destruct s.
  - by apply mul_one_valid.
Qed.

(** [1.0 * c + (1.0 - 1.0) * p] is [c]. *)
Lemma blend_one (c p : float) :
  F32.regular c = true -> c <> S754_zero true -> F32.is_finite p = true ->
  blend F32.one c p = c.
Proof.
  unfold F32.regular. intros [Hv Hf]%andb_true_iff Hs Hp.
  unfold blend. rewrite mul_one_l by done.
  change (F32.sub F32.one F32.one) with F32.zero.
  destruct c as [[]|s| |s m e]; try done;
    destruct p as [s'|s'| |s' m' e']; try done; by destruct s'.
Qed.

(** [0.0 * c + (1.0 - 0.0) * p] is [p]. *)
Lemma blend_zero (c p : float) :
  F32.is_finite c = true ->
  F32.regular p = true -> p <> S754_zero true ->
  blend F32.zero c p = p.
Proof.
  unfold F32.regular. intros Hc [Hv Hf]%andb_true_iff Hsp.
  unfold blend.
  change (F32.sub F32.one F32.zero) with F32.one.
  rewrite mul_one_l by done.
  destruct c as [s|s| |s m e]; try done;
    destruct p as [[]|s'| |s' m' e']; try done; by destruct s.
Qed.

(** ** Overlays of opaque and of transparent classes *)

Lemma point_color_loaded (class_colors : ptr float4) (scores : ptr Z) (scores_dim : int2)
    (px py : float) (c : float4) :
  point_color class_colors scores scores_dim px py = Some c ->
  exists i, load class_colors i = Some c.
Proof.
  unfold point_color. intros Hp. bind_cases Hp. eauto.
Qed.

Lemma blend_value_opaque (T : pixelType) (input : ptr pixel) (in_width in_height : Z)
    (px py : float) (c : float4) (p : pixel) :
  float4_w c = F32.c255 -> plain_color c ->
  (forall i q, load input i = Some q -> finite_pixel q) ->
  blend_value T input in_width in_height px py c = Some p ->
  mask_value T c = Some p.
Proof.
  intros Hw (Hx & Hy & Hz) Hin Hb. unfold blend_value in Hb.
  destruct (input_cell _ _ _ _) as [cell|]; [|done]. cbn [mbind option_bind] in Hb.
  destruct (offset _ _ _) as [i|]; [|done]. cbn [mbind option_bind] in Hb.
  destruct (load input i) as [q|] eqn:Hq; [|done]. cbn [mbind option_bind] in Hb.
  destruct (Hin i q Hq) as (Hqx & Hqy & Hqz).
  rewrite Hw in Hb. change (F32.div F32.c255 F32.c255) with F32.one in Hb.
  destruct Hx, Hy, Hz.
  rewrite !blend_one in Hb by done. exact Hb.
Qed.

Lemma uchar_channel (v : Z) : 0 <= v <= 255 ->
  F32.regular (F32.of_int v) = true /\ F32.of_int v <> S754_zero true /\
  uchar_of_float (F32.of_int v) = Some v.
Proof.
  intros Hv.
  assert (Hall : forallb (fun v =>
            F32.regular (F32.of_int v) &&
            match F32.of_int v with S754_zero true => false | _ => true end &&
            match uchar_of_float (F32.of_int v) with
            | Some z => z =? v
            | None => false
            end) (seqZ 0 256) = true) by (vm_compute; reflexivity).
  rewrite forallb_forall in Hall.
  specialize (Hall v). rewrite <- list_elem_of_In, elem_of_seqZ in Hall.
  specialize (Hall ltac:(lia)).
  apply andb_true_iff in Hall as [[H1 H2]%andb_true_iff H3].
  split; [done|]. split.
  - intros Heq. by rewrite Heq in H2.
  - destruct (uchar_of_float (F32.of_int v)) as [z|]; [|done].
    apply Z.eqb_eq in H3. by subst.
Qed.

Lemma blend_value_transparent (input : ptr pixel) (in_width in_height : Z)
    (px py : float) (c : float4) (p : pixel) :
  float4_w c = F32.zero -> finite_color c ->
  (forall i q, load input i = Some q -> rgb8_pixel q) ->
  blend_value T_uchar3 input in_width in_height px py c = Some p ->
  exists cell i, input_cell in_width in_height px py = Some cell /\
    offset (snd cell) in_width (fst cell) = Some i /\
    load input i = Some p.
Proof.
  intros Hw (Hx & Hy & Hz) Hin Hb. unfold blend_value in Hb.
  destruct (input_cell _ _ _ _) as [cell|] eqn:Hcell; [|done]. cbn [mbind option_bind] in Hb.
  destruct (offset _ _ _) as [i|] eqn:Hoff; [|done]. cbn [mbind option_bind] in Hb.
  destruct (load input i) as [q|] eqn:Hq; [|done]. cbn [mbind option_bind] in Hb.
  exists cell, i. split; [done|]. split; [done|].
  destruct (Hin i q Hq) as (r & g & b & -> & Hr & Hg & Hb').
  rewrite Hw in Hb. change (F32.div F32.zero F32.c255) with F32.zero in Hb.
  cbn [pixel_x pixel_y pixel_z uchar3_x uchar3_y uchar3_z] in Hb.
  destruct (uchar_channel r Hr) as (? & ? & Hur).
  destruct (uchar_channel g Hg) as (? & ? & Hug).
  destruct (uchar_channel b Hb') as (? & ? & Hub).
  rewrite !blend_zero in Hb by done.
  unfold make_vec in Hb. rewrite Hur, Hug, Hub in Hb. cbn in Hb.
  by rewrite <- Hb.
Qed.

(** ** The ends of the matting blend *)

Lemma matte_channel_one (s bg : float) :
  F32.valid s = true -> F32.is_finite bg = true ->
  uchar_of_float (clip (blend_channel s F32.one bg) (F32.of_int 0) (F32.of_int 255)) =
  uchar_of_float (clip (F32.mul s F32.c255) (F32.of_int 0) (F32.of_int 255)).
Proof.
  intros Hs Hbg. unfold blend_channel.
  assert (Hq : F32.valid (F32.mul s F32.c255) = true) by by apply mul_valid.
  rewrite (mul_comm (F32.mul s F32.c255) F32.one), mul_one_l by done.
  change (F32.sub F32.one F32.one) with F32.zero.
  destruct (F32.mul s F32.c255) as [sq|sq| |sq mq eq];
    destruct bg as [sb|sb| |sb mb eb]; try done;
    destruct sq, sb; reflexivity.
Qed.

Lemma matte_channel_zero (s bg : float) :
  F32.is_finite (F32.mul s F32.c255) = true ->
  F32.valid bg = true -> F32.is_finite bg = true -> F32.is_zero bg = false ->
  blend_channel s F32.zero bg = bg.
Proof.
  intros Hq Hv Hf Hz. unfold blend_channel.
  change (F32.sub F32.one F32.zero) with F32.one.
  rewrite mul_one_l by done.
  destruct (F32.mul s F32.c255) as [sq|sq| |sq mq eq]; try done;
    destruct bg as [sb|sb| |sb mb eb]; try done.
Qed.

Lemma matte_value_one (src alpha : ptr float) (n width x y : Z) (p : uchar3) :
  (forall i a, load alpha i = Some a -> a = F32.one) ->
  (forall i s, load src i = Some s -> F32.valid s = true) ->
  matte_value src alpha n width x y = Some p ->
  tensor_value src n width x y = Some p.
Proof.
  intros Ha Hs Hp. unfold matte_value in Hp. unfold tensor_value.
  destruct (tensor_cell x y) as [c|]; [|done]. cbn [mbind option_bind] in *.
  destruct (plane_offset n 0 _ _ _) as [i0|]; [|done]. cbn [mbind option_bind] in *.
  destruct (load src i0) as [s0|] eqn:H0; [|done]. cbn [mbind option_bind] in *.
  destruct (plane_offset n 1 _ _ _) as [i1|]; [|done]. cbn [mbind option_bind] in *.
  destruct (load src i1) as [s1|] eqn:H1; [|done]. cbn [mbind option_bind] in *.
  destruct (plane_offset n 2 _ _ _) as [i2|]; [|done]. cbn [mbind option_bind] in *.
  destruct (load src i2) as [s2|] eqn:H2; [|done]. cbn [mbind option_bind] in *.
  destruct (offset _ _ _) as [ia|]; [|done]. cbn [mbind option_bind] in *.
  destruct (load alpha ia) as [a|] eqn:Hl; [|done]. cbn [mbind option_bind] in *.
  rewrite (Ha ia a Hl) in Hp. rewrite <- Hp.
  unfold clip_float3. cbn [float3_x float3_y float3_z].
  rewrite !matte_channel_one by eauto. reflexivity.
Qed.

Lemma matte_value_zero (src alpha : ptr float) (n width x y : Z) (p : uchar3) :
  (forall i a, load alpha i = Some a -> a = F32.zero) ->
  (forall i s, load src i = Some s -> F32.is_finite (F32.mul s F32.c255) = true) ->
  matte_value src alpha n width x y = Some p ->
  p = make_uchar3 120 255 155.
Proof.
  intros Ha Hs Hp. unfold matte_value in Hp.
  destruct (tensor_cell x y) as [c|]; [|done]. cbn [mbind option_bind] in *.
  destruct (plane_offset n 0 _ _ _) as [i0|]; [|done]. cbn [mbind option_bind] in *.
  destruct (load src i0) as [s0|] eqn:H0; [|done]. cbn [mbind option_bind] in *.
  destruct (plane_offset n 1 _ _ _) as [i1|]; [|done]. cbn [mbind option_bind] in *.
  destruct (load src i1) as [s1|] eqn:H1; [|done]. cbn [mbind option_bind] in *.
  destruct (plane_offset n 2 _ _ _) as [i2|]; [|done]. cbn [mbind option_bind] in *.
  destruct (load src i2) as [s2|] eqn:H2; [|done]. cbn [mbind option_bind] in *.
  destruct (offset _ _ _) as [ia|]; [|done]. cbn [mbind option_bind] in *.
  destruct (load alpha ia) as [a|] eqn:Hl; [|done]. cbn [mbind option_bind] in *.
  rewrite (Ha ia a Hl) in Hp.
  rewrite !matte_channel_zero in Hp by eauto.
  vm_compute in Hp. by injection Hp as <-.
Qed.

(** ** Reads of the score grid and of the colour table *)

Lemma lookup_defined (cells : list Z) (P : Z -> Prop) (scores_dim : int2) (ix iy : Z) :
  0 <= ix < int2_x scores_dim -> 0 <= iy < int2_y scores_dim ->
  int2_x scores_dim * int2_y scores_dim <= INT_MAX ->
  int2_x scores_dim * int2_y scores_dim <= Z.of_nat (length cells) ->
  Forall P cells ->
  exists id, LOOKUP_CLASS_MAP (Ptr cells) scores_dim ix iy = Some id /\ P id.
Proof.
  intros Hx Hy Hint Hlen HP. unfold LOOKUP_CLASS_MAP.
  assert (iy * int2_x scores_dim + ix < int2_x scores_dim * int2_y scores_dim) by nia.
  rewrite offset_Some by lia. cbn [mbind option_bind].
  destruct (load_cells cells P (iy * int2_x scores_dim + ix) HP ltac:(nia))
    as (id & _ & Hl & Hid).
  by exists id.
Qed.

Lemma color_defined (colors : list float4) (id : Z) :
  0 <= id < Z.of_nat (length colors) ->
  exists c, load (Ptr colors) id = Some c /\ c ∈ colors.
Proof.
  intros Hid.
  destruct (lookup_lt_is_Some_2 colors (Z.to_nat id) ltac:(lia)) as [c Hc].
  exists c. split.
  - unfold load, load_at. destruct (Z.leb_spec 0 id); [done|lia].
  - by eapply list_elem_of_lookup_2.
Qed.

Lemma point_color_defined (colors : list float4) (cells : list Z) (scores_dim : int2)
    (x y W H : Z) :
  0 <= x < W -> 0 <= y < H -> W <= 2 ^ 24 -> H <= 2 ^ 24 ->
  1 <= int2_x scores_dim <= 2 ^ 24 -> 1 <= int2_y scores_dim <= 2 ^ 24 ->
  int2_x scores_dim * int2_y scores_dim <= INT_MAX ->
  int2_x scores_dim * int2_y scores_dim <= Z.of_nat (length cells) ->
  Forall (fun id => 0 <= id < Z.of_nat (length colors)) cells ->
  exists c, point_color (Ptr colors) (Ptr cells) scores_dim
              (normalized x W) (normalized y H) = Some c /\ c ∈ colors.
Proof.
  intros Hx Hy HW HH Hsx Hsy Hint Hlen Hids.
  destruct (point_axis_bound x W (int2_x scores_dim)) as (x1 & Hx1 & Hb1); try done.
  destruct (point_axis_bound y H (int2_y scores_dim)) as (y1 & Hy1 & Hb2); try done.
  destruct (lookup_defined cells _ scores_dim x1 y1 Hb1 Hb2 Hint Hlen Hids)
    as (id & Hl & Hid).
  destruct (color_defined colors id Hid) as (c & Hc & Hin).
  exists c. split; [|done].
  unfold point_color, point_cell. rewrite Hx1, Hy1. cbn [mbind option_bind fst snd].
  rewrite Hl. cbn [mbind option_bind]. done.
Qed.



(** ** The accuracy of the sampled cell *)

Lemma div_core_upper (mx my : positive) (ex ey : Z) :
  let '(q, e', l) := SFdiv_core_binary 24 128 (Zpos mx) ex (Zpos my) ey in
  let v := (IZR (Zpos mx) * bpow ex / (IZR (Zpos my) * bpow ey))%R in
  (v < IZR (q + 1) * bpow e')%R.
Proof.
  unfold SFdiv_core_binary.
  fold (fexp32 (Zdigits2 (Zpos mx) + ex - (Zdigits2 (Zpos my) + ey))).
  set (e' := Z.min _ (ex - ey)).
  set (s := ex - ey - e').
  assert (Hs : 0 <= s) by (unfold s, e'; lia).
  set (m' := match s with Zpos _ => Z.shiftl (Zpos mx) s | Z0 => Zpos mx | Zneg _ => 0 end).
  assert (Hm' : m' = Zpos mx * 2 ^ s).
  { unfold m'. destruct s as [|p|p]; [lia| |lia]. apply Z.shiftl_mul_pow2. lia. }
  assert (Hps : 0 < 2 ^ s) by (apply Z.pow_pos_nonneg; lia).
  assert (Hde := Z_div_mod m' (Zpos my) ltac:(lia)).
  destruct (Z.div_eucl m' (Zpos my)) as [q r]. destruct Hde as [Hq Hr].
  cbn zeta.
  assert (Hby := bpow_pos ey). assert (Hbe' := bpow_pos e').
  assert (Hmy : (0 < IZR (Zpos my))%R) by (apply IZR_lt; lia).
  assert (Hbx : bpow ex = (bpow e' * bpow ey * IZR (2 ^ s))%R).
  { rewrite <- bpow_IZR, <- !bpow_add by lia. f_equal. unfold s. lia. }
  assert (Hv : (IZR (Zpos mx) * bpow ex / (IZR (Zpos my) * bpow ey) =
               (IZR q + IZR r / IZR (Zpos my)) * bpow e')%R).
  { rewrite Hbx. apply (f_equal IZR) in Hq. rewrite Hm', plus_IZR, !mult_IZR in Hq.
    field_simplify_eq; [|lra]. nra. }
  rewrite Hv, plus_IZR.
  assert (Hr1 : (IZR r / IZR (Zpos my) < 1)%R).
  { apply Rmult_lt_reg_r with (IZR (Zpos my)); [lra|].
    unfold Rdiv. rewrite Rmult_assoc, Rinv_l by lra.
    rewrite Rmult_1_r, Rmult_1_l. apply IZR_lt. lia. }
  nra.
Qed.

(** The rounded value is within one unit of its last place of a value that
    the truncated mantissa brackets. *)
Lemma bra_bracket (s : bool) (m e : Z) (l : location) (v : R) :
  0 <= m ->
  (IZR m * bpow e <= v < IZR (m + 1) * bpow e)%R ->
  let E := Z.max e (fexp32 (Zdigits2 m + e)) in
  E + 1 <= 104 ->
  exists m1, carries (binary_round_aux 24 128 s m e l) s m1 E /\ 0 <= m1 /\
    (IZR (m1 - 1) * bpow E <= v < IZR (m1 + 1) * bpow E)%R.
Proof.
  intros Hm Hv E HE.
  destruct (binary_round_aux_carries s m e l Hm HE) as (m1 & Hc & HM & _).
  fold E in Hc, HM.
  set (k := E - e) in *. assert (Hk : 0 <= k) by (unfold k, E; lia).
  assert (Hpk : 0 < 2 ^ k) by (apply Z.pow_pos_nonneg; lia).
  assert (Hdm := Z.div_mod m (2 ^ k) ltac:(lia)).
  assert (Hmod := Z.mod_pos_bound m (2 ^ k) Hpk).
  set (M := m / 2 ^ k) in *.
  assert (HM0 : 0 <= M) by (apply Z.div_pos; lia).
  exists m1. split; [done|]. split; [lia|].
  assert (HbE : bpow E = (bpow e * IZR (2 ^ k))%R).
  { rewrite <- bpow_IZR, <- bpow_add by lia. f_equal. unfold k. lia. }
  assert (Hbe := bpow_pos e).
  assert (H1 : (IZR (M * 2 ^ k) <= IZR m)%R) by (apply IZR_le; lia).
  assert (H2 : (IZR (m + 1) <= IZR ((M + 1) * 2 ^ k))%R) by (apply IZR_le; lia).
  assert (H3 : (IZR (m1 - 1) <= IZR M)%R) by (apply IZR_le; lia).
  assert (H4 : (IZR (M + 1) <= IZR (m1 + 1))%R) by (apply IZR_le; lia).
  assert (H5 : (0 < IZR (2 ^ k))%R) by (apply IZR_lt; lia).
  rewrite mult_IZR in H1, H2. rewrite HbE.
  set (c := (bpow e * IZR (2 ^ k))%R).
  assert (Hc0 : (0 < c)%R) by (unfold c; nra).
  assert (H6 : (IZR M * c <= IZR m * bpow e)%R).
  { unfold c. replace (IZR M * (bpow e * IZR (2 ^ k)))%R
      with (IZR M * IZR (2 ^ k) * bpow e)%R by ring. nra. }
  assert (H7 : (IZR (m + 1) * bpow e <= IZR (M + 1) * c)%R).
  { unfold c. replace (IZR (M + 1) * (bpow e * IZR (2 ^ k)))%R
      with (IZR (M + 1) * IZR (2 ^ k) * bpow e)%R by ring. nra. }
  split.
  - apply Rle_trans with (IZR M * c)%R; [nra|lra].
  - apply Rlt_le_trans with (IZR (M + 1) * c)%R; [lra|nra].
Qed.

Lemma nn_val_unique (f : spec_float) (v1 v2 : R) (e1 e2 : Z) :
  nn_val f v1 e1 -> nn_val f v2 e2 -> v1 = v2.
Proof.
  intros [[-> ->]|(m & e & -> & -> & _)] [[H ->]|(m' & e' & H & -> & _)];
    try done. injection H as -> ->. reflexivity.
Qed.

Lemma normalized_near (x w : Z) :
  0 <= x < w -> w <= 2 ^ 24 ->
  exists v, nn_val (F32.div (F32.of_int x) (F32.of_int w)) v (-23) /\
    (0 <= v <= 1 - bpow (-24))%R /\
    (IZR x / IZR w - bpow (-24) <= v <= IZR x / IZR w + bpow (-24))%R.
Proof.
  intros Hx Hw.
  destruct (normalized_bound x w Hx Hw) as (v0 & Hn0 & Hb0).
  assert (Hb24 := bpow_pos (-24)).
  destruct (of_int_exact w ltac:(lia)) as (mw & ew & Hfw & Hvw & Hew).
  destruct (Z.eq_dec x 0) as [->|Hx0].
  { assert (Hz : nn_val (F32.div (F32.of_int 0) (F32.of_int w)) 0 (-23))
      by (rewrite Hfw; by left).
    exists 0%R. split; [exact Hz|]. split.
    - assert (Hv0 : v0 = 0%R) by (eapply nn_val_unique; [exact Hn0|exact Hz]).
      subst v0. exact Hb0.
    - unfold Rdiv. rewrite Rmult_0_l. lra. }
  exists v0. split; [done|]. split; [done|].
  destruct (of_int_exact x ltac:(lia)) as (mx & ex & Hfx & Hvx & Hex).
  rewrite Hfw, Hfx in Hn0.
  unfold F32.div in Hn0; cbn [SFdiv xorb] in Hn0.
  generalize (div_core_spec mx mw ex ew) (div_core_upper mx mw ex ew). revert Hn0.
  destruct (SFdiv_core_binary 24 128 (Zpos mx) ex (Zpos mw) ew) as [[q e'] l].
  cbn zeta. rewrite Hvx, Hvw.
  set (v := (IZR x / IZR w)%R).
  intros Hn0 (Hq & He' & Hlo & _) Hup.
  assert (Hxr : (1 <= IZR x)%R) by (apply IZR_le; lia).
  assert (Hwr : (IZR x + 1 <= IZR w)%R) by (rewrite <- plus_IZR; apply IZR_le; lia).
  assert (Hvw' : (v * IZR w = IZR x)%R) by (unfold v; field; lra).
  assert (Hv0 : (0 < v)%R) by (unfold v; apply Rdiv_lt_0_compat; lra).
  assert (Hv1 : (v < 1)%R).
  { apply Rmult_lt_reg_r with (IZR w); [lra|]. rewrite Hvw'. lra. }
  assert (Hd : Zdigits2 (Zpos mx) + ex <= Zdigits2 (Zpos mw) + ew).
  { apply digits_val; [lia|]. rewrite Hvx.
    assert (Hu := digits_upper (Zpos mw) ew ltac:(lia)). lra. }
  assert (He24 : e' <= -24) by (rewrite He', fexp32_eq; lia).
  assert (Hdq : Zdigits2 q + e' <= 0).
  { destruct (Z.eq_dec q 0) as [->|]; [cbn; lia|].
    apply digits_val; [lia|]. change (bpow 0) with 1%R. lra. }
  assert (HE : Z.max e' (fexp32 (Zdigits2 q + e')) <= -24) by (rewrite fexp32_eq; lia).
  destruct (bra_bracket false q e' l v Hq ltac:(lra) ltac:(lia))
    as (m1 & Hc & Hm1 & Hlo1 & Hup1).
  set (E := Z.max e' (fexp32 (Zdigits2 q + e'))) in *.
  assert (Hv0' : v0 = (IZR m1 * bpow E)%R).
  { eapply nn_val_unique; [exact Hn0|]. apply (carries_nn_val _ _ _ (-23) Hc). lia. }
  assert (HbE : (bpow E <= bpow (-24))%R) by (apply bpow_le; lia).
  assert (HbE0 := bpow_pos E).
  rewrite Hv0'. rewrite minus_IZR in Hlo1. rewrite plus_IZR in Hup1.
  split; nra.
Qed.

Lemma scaled_near (p : spec_float) (vp : R) (d : Z) :
  nn_val p vp (-23) -> (0 <= vp <= 1 - bpow (-24))%R ->
  1 <= d <= 2 ^ 23 ->
  exists vc, nn_val (F32.mul p (F32.of_int d)) vc 1 /\
    (vp * IZR d - / 4 <= vc <= vp * IZR d + / 4)%R.
Proof.
  intros Hp Hvp Hd.
  destruct (of_int_exact d ltac:(lia)) as (md & ed & -> & Hvd & Hed).
  assert (Hd1 : (1 <= IZR d)%R) by (apply IZR_le; lia).
  destruct Hp as [[-> ->]|(mp & ep & -> & -> & Hep)].
  { exists 0%R. split; [by left|lra]. }
  unfold F32.mul, F32.one; cbn [SFmul xorb].
  set (v := (IZR (Zpos mp) * bpow ep * IZR d)%R).
  assert (Hd23 : (IZR d <= IZR (2 ^ 23))%R) by (apply IZR_le; lia).
  assert (H24 := bpow_m24). assert (Hb24 := bpow_pos (-24)).
  assert (Hvp0 : (0 < IZR (Zpos mp) * bpow ep)%R).
  { apply Rmult_lt_0_compat; [apply IZR_lt; lia|apply bpow_pos]. }
  assert (Hmv : (IZR (Zpos (mp * md)) * bpow (ep + ed) = v)%R).
  { unfold v. rewrite <- Hvd, Pos2Z.inj_mul, mult_IZR, bpow_add. ring. }
  assert (Hv0 : (0 < v)%R) by (unfold v; nra).
  assert (Hvd' : (v < IZR d)%R) by (unfold v; nra).
  set (D := Zdigits2 (Zpos (mp * md)) + (ep + ed)).
  assert (HD : D <= 23).
  { apply digits_val; [lia|]. rewrite Hmv, (bpow_IZR 23) by lia. lra. }
  set (E := Z.max (ep + ed) (fexp32 D)).
  assert (HE : E <= -1) by (unfold E; rewrite fexp32_eq; lia).
  destruct (bra_real false (Zpos (mp * md)) (ep + ed) loc_Exact v)
    as (m1 & Hc & Hm1 & _ & Hnear); try done; try lia; try lra.
  { fold D E. lia. }
  fold D E in Hc, Hnear. specialize (Hnear eq_refl).
  exists (IZR m1 * bpow E)%R. split; [apply carries_nn_val; [done|lia]|].
  assert (HbE : (bpow E <= bpow (-1))%R) by (apply bpow_le; lia).
  assert (Hb1 : bpow (-1) = (/ 2)%R) by (unfold bpow; simpl; lra).
  assert (HbE0 := bpow_pos E).
  unfold Rabs in Hnear. destruct (Rcase_abs _) in Hnear; lra.
Qed.

(** The cell sampled along one axis is at most one cell away from the cell
    [x * d / w] of the exact position. *)
Lemma point_axis_near (x w d : Z) :
  0 <= x < w -> w <= 2 ^ 24 -> 1 <= d <= 2 ^ 23 ->
  exists z, int_of_float (F32.mul (normalized x w) (F32.of_int d)) = Some z /\
    0 <= z < d /\ x * d / w - 1 <= z <= x * d / w + 1.
Proof.
  intros Hx Hw Hd.
  destruct (point_axis_bound x w d Hx Hw ltac:(lia)) as (z & Hz & Hzd).
  exists z. split; [done|]. split; [done|].
  destruct (normalized_near x w Hx Hw) as (vp & Hp & Hvp & Hnear).
  destruct (scaled_near _ vp d Hp Hvp Hd) as (vc & Hc & Hcn).
  destruct (nn_val_trunc _ _ _ Hc) as (z' & Hz' & Hz0 & Hzv).
  unfold int_of_float, normalized in Hz. fold (normalized x w) in Hz.
  unfold normalized in Hz. rewrite Hz' in Hz. cbn in Hz.
  apply int_inv in Hz as [-> _].
  set (q := x * d / w).
  assert (Hdm := Z.div_mod (x * d) w ltac:(lia)).
  assert (Hmod := Z.mod_pos_bound (x * d) w ltac:(lia)).
  fold q in Hdm.
  assert (Hwr : (0 < IZR w)%R) by (apply IZR_lt; lia).
  assert (Hd1 : (1 <= IZR d)%R) by (apply IZR_le; lia).
  assert (Hd23 : (IZR d <= IZR (2 ^ 23))%R) by (apply IZR_le; lia).
  assert (H23 : (bpow (-24) * IZR (2 ^ 23) = / 2)%R).
  { rewrite <- bpow_IZR by lia. rewrite <- bpow_add. unfold bpow. simpl. lra. }
  assert (Hb24 := bpow_pos (-24)).
  set (r := (IZR x / IZR w * IZR d)%R) in *.
  assert (Hr : (IZR q <= r < IZR q + 1)%R).
  { assert (Hrw : (r * IZR w = IZR (x * d))%R).
    { unfold r. rewrite mult_IZR. field. lra. }
    rewrite Hdm, plus_IZR, mult_IZR in Hrw.
    assert (Hm0 : (0 <= IZR ((x * d) mod w))%R) by (apply IZR_le; lia).
    assert (Hm1 : (IZR ((x * d) mod w) < IZR w)%R) by (apply IZR_lt; lia).
    split.
    - apply Rmult_le_reg_r with (IZR w); [lra|]. nra.
    - apply Rmult_lt_reg_r with (IZR w); [lra|]. nra. }
  assert (Hcr : (r - 1 < vc < r + 1)%R).
  { assert (vp * IZR d <= r + bpow (-24) * IZR d)%R by (unfold r; nra).
    assert (r - bpow (-24) * IZR d <= vp * IZR d)%R by (unfold r; nra).
    assert (bpow (-24) * IZR d <= / 2)%R by nra.
    lra. }
  split.
  - assert (IZR q - 1 < IZR z' + 1)%R by lra.
    rewrite <- minus_IZR, <- plus_IZR in H. apply lt_IZR in H. lia.
  - assert (IZR z' < IZR q + 2)%R by lra.
    rewrite <- plus_IZR in H. apply lt_IZR in H. lia.
Qed.

(** ** The origin of the image under linear filtering *)

Lemma normalized_origin (w : Z) : 0 < w <= 2 ^ 24 -> normalized 0 w = F32.zero.
Proof.
  intros Hw. destruct (of_int_exact w Hw) as (m & e & Hf & _).
  unfold normalized. by rewrite Hf.
Qed.

Lemma linear_axis_origin (d : Z) : 1 <= d <= 2 ^ 24 ->
  linear_coord F32.zero d = F32.zero /\
  exists x2, linear_axis F32.zero d = Some (0, x2).
Proof.
  intros Hd. destruct (of_int_exact d ltac:(lia)) as (m & e & Hf & _).
  assert (Hc : linear_coord F32.zero d = F32.zero).
  { unfold linear_coord. by rewrite Hf. }
  split; [done|]. unfold linear_axis. rewrite Hc.
  change (int_of_float F32.zero) with (Some 0). cbn [mbind option_bind].
  unfold int_sub. rewrite (int_Some (d - 1)) by (unfold INT_MIN, INT_MAX; lia).
  cbn [mbind option_bind]. destruct (0 >=? d - 1).
  - exists 0. reflexivity.
  - exists 1. reflexivity.
Qed.

Lemma point_cell_origin (scores_dim : int2) :
  1 <= int2_x scores_dim <= 2 ^ 24 -> 1 <= int2_y scores_dim <= 2 ^ 24 ->
  point_cell scores_dim F32.zero F32.zero = Some (0, 0).
Proof.
  intros Hx Hy.
  destruct (of_int_exact (int2_x scores_dim) ltac:(lia)) as (mx & ex & Hfx & _).
  destruct (of_int_exact (int2_y scores_dim) ltac:(lia)) as (my & ey & Hfy & _).
  unfold point_cell. by rewrite Hfx, Hfy.
Qed.

(** [c0 * 1 + c1 * 0 + c2 * 0 + c3 * 0] is [c0]. *)
Lemma bilinear_first (c0 c1 c2 c3 : float) :
  plain c0 -> F32.is_finite c1 = true -> F32.is_finite c2 = true ->
  F32.is_finite c3 = true ->
  bilinear c0 c1 c2 c3 F32.one F32.zero F32.zero F32.zero = c0.
Proof.
  intros [[Hv Hf]%andb_true_iff Hz] H1 H2 H3. unfold bilinear.
  rewrite (mul_comm c0 F32.one), mul_one_l by done.
  destruct c0 as [[]|s0| |s0 m0 e0]; try done;
    destruct c1 as [s1|s1| |s1 m1 e1]; try done;
    destruct c2 as [s2|s2| |s2 m2 e2]; try done;
    destruct c3 as [s3|s3| |s3 m3 e3]; try done;
    try (by destruct s1, s2, s3).
Qed.

(** ** Buffers given as lists *)

Lemma load_Forall {A : Type} (P : A -> Prop) (cells : list A) :
  Forall P cells -> forall i c, load (Ptr cells) i = Some c -> P c.
Proof.
  intros HP i c. unfold load, load_at. destruct (0 <=? i); [|done].
  intros Hc. by eapply Forall_lookup_1.
Qed.

(** ** The properties *)

Section Tensor32Validation.

Variable cudaGetLastError : cudaError_t.

(** X1. [cudaTensor32ToRGB8] validates both pointers, then the dimensions:
    a null source or destination gives [cudaErrorInvalidDevicePointer]
    (even when a dimension is zero as well), a zero width or height with
    both pointers set gives [cudaErrorInvalidValue], and in both cases
    nothing is launched and the destination is left as it was; otherwise
    [TensorToRGB] is launched on a grid of 8x8 tiles and the status is the
    one polled after the launch. *)
Theorem cudaTensor32ToRGB8_validation
    (srcDev : ptr float) (dstDev : ptr uchar3) (width height : Z) :
  let c := cudaTensor32ToRGB8 cudaGetLastError srcDev dstDev width height in
  (srcDev = NULL \/ dstDev = NULL ->
     status c = cudaErrorInvalidDevicePointer /\ launched c = None /\
     forall buf, completed c buf = Some buf) /\
  (srcDev <> NULL -> dstDev <> NULL -> width = 0 \/ height = 0 ->
     status c = cudaErrorInvalidValue /\ launched c = None /\
     forall buf, completed c buf = Some buf) /\
  (srcDev <> NULL -> dstDev <> NULL -> width <> 0 -> height <> 0 ->
     status c = cudaGetLastError /\ logged c = [] /\
     launched c =
       Some (launch (TensorToRGB srcDev (int_of_uint width) (int_of_uint height))
               (make_dim3 (uint (iDivUp (int_of_uint width) 8))
                          (uint (iDivUp (int_of_uint height) 8)) 1)
               (make_dim3 8 8 1))).
Proof.
  cbn zeta. unfold cudaTensor32ToRGB8, launchTensorToRGB, completed.
  split; [|split].
  - intros [-> | ->]; cbn; [done|]. by rewrite orb_true_r.
  - intros Hs Hd Hdim. destruct srcDev; [done|]. destruct dstDev; [done|].
    cbn [is_null orb]. destruct Hdim as [-> | ->]; cbn; [done|].
    by rewrite orb_true_r.
  - intros Hs Hd HW HH. destruct srcDev; [done|]. destruct dstDev; [done|].
    cbn [is_null orb].
    destruct (Z.eqb_spec width 0); [done|].
    destruct (Z.eqb_spec height 0); [done|]. done.
Qed.

End Tensor32Validation.

Lemma cudaTensor32ToRGB8_validation_witness :
  status (cudaTensor32ToRGB8 cudaSuccess NULL (Ptr scenario_dst) 0 0)
    = cudaErrorInvalidDevicePointer /\
  status (cudaTensor32ToRGB8 cudaSuccess scenario_tensor (Ptr scenario_dst) 0 1)
    = cudaErrorInvalidValue /\
  status (cudaTensor32ToRGB8 cudaSuccess scenario_tensor (Ptr scenario_dst) 1 1)
    = cudaSuccess.
Proof.
  split; [|split].
  - destruct (cudaTensor32ToRGB8_validation cudaSuccess NULL (Ptr scenario_dst) 0 0)
      as (H1 & _ & _).
    apply H1. left. reflexivity.
  - destruct (cudaTensor32ToRGB8_validation cudaSuccess scenario_tensor
                (Ptr scenario_dst) 0 1) as (_ & H2 & _).
    apply H2; [discriminate|discriminate|left; reflexivity].
  - destruct (cudaTensor32ToRGB8_validation cudaSuccess scenario_tensor
                (Ptr scenario_dst) 1 1) as (_ & _ & H3).
    apply H3; discriminate.
Defined.

Section BlendValidation.

Variable cudaGetLastError : cudaError_t.

(** X2. [cudaBlendRGBA32ToRGB8] validates its three pointers, then the
    dimensions: a null source, alpha plane or destination gives
    [cudaErrorInvalidDevicePointer], a zero width or height with the three
    pointers set gives [cudaErrorInvalidValue], and in both cases nothing is
    launched and the destination is left as it was; otherwise
    [BlendRGBA32ToRGB8] is launched on a grid of 8x8 tiles and the status is
    the one polled after the launch. *)
Theorem cudaBlendRGBA32ToRGB8_validation
    (srcDev alphDev : ptr float) (dstDev : ptr uchar3) (width height : Z) :
  let c := cudaBlendRGBA32ToRGB8 cudaGetLastError srcDev alphDev dstDev width height in
  (srcDev = NULL \/ alphDev = NULL \/ dstDev = NULL ->
     status c = cudaErrorInvalidDevicePointer /\ launched c = None /\
     forall buf, completed c buf = Some buf) /\
  (srcDev <> NULL -> alphDev <> NULL -> dstDev <> NULL -> width = 0 \/ height = 0 ->
     status c = cudaErrorInvalidValue /\ launched c = None /\
     forall buf, completed c buf = Some buf) /\
  (srcDev <> NULL -> alphDev <> NULL -> dstDev <> NULL -> width <> 0 -> height <> 0 ->
     status c = cudaGetLastError /\ logged c = [] /\
     launched c =
       Some (launch (BlendRGBA32ToRGB8 srcDev alphDev (int_of_uint width) (int_of_uint height))
               (make_dim3 (uint (iDivUp (int_of_uint width) 8))
                          (uint (iDivUp (int_of_uint height) 8)) 1)
               (make_dim3 8 8 1))).
Proof.
  cbn zeta. unfold cudaBlendRGBA32ToRGB8, launchBlendRGBA32ToRGB8, completed.
  split; [|split].
  - intros [-> | [-> | ->]]; cbn; [done| |].
    + by rewrite orb_true_r.
    + by rewrite orb_true_r.
  - intros Hs Ha Hd Hdim.
    destruct srcDev; [done|]. destruct alphDev; [done|]. destruct dstDev; [done|].
    cbn [is_null orb]. destruct Hdim as [-> | ->]; cbn; [done|].
    by rewrite orb_true_r.
  - intros Hs Ha Hd HW HH.
    destruct srcDev; [done|]. destruct alphDev; [done|]. destruct dstDev; [done|].
    cbn [is_null orb].
    destruct (Z.eqb_spec width 0); [done|].
    destruct (Z.eqb_spec height 0); [done|]. done.
Qed.

End BlendValidation.

Lemma cudaBlendRGBA32ToRGB8_validation_witness :
  status (cudaBlendRGBA32ToRGB8 cudaSuccess matte_src NULL (Ptr matte_dst) 0 0)
    = cudaErrorInvalidDevicePointer /\
  status (cudaBlendRGBA32ToRGB8 cudaSuccess matte_src matte_alpha (Ptr matte_dst) 2 0)
    = cudaErrorInvalidValue /\
  status (cudaBlendRGBA32ToRGB8 cudaSuccess matte_src matte_alpha (Ptr matte_dst) 2 1)
    = cudaSuccess.
Proof.
  split; [|split].
  - destruct (cudaBlendRGBA32ToRGB8_validation cudaSuccess matte_src NULL
                (Ptr matte_dst) 0 0) as (H1 & _ & _).
    apply H1. right. left. reflexivity.
  - destruct (cudaBlendRGBA32ToRGB8_validation cudaSuccess matte_src matte_alpha
                (Ptr matte_dst) 2 0) as (_ & H2 & _).
    apply H2; [discriminate|discriminate|discriminate|right; reflexivity].
  - destruct (cudaBlendRGBA32ToRGB8_validation cudaSuccess matte_src matte_alpha
                (Ptr matte_dst) 2 1) as (_ & _ & H3).
    apply H3; discriminate.
Defined.

(** X3. [clip] to [0,255] followed by the conversion to [unsigned char]
    saturates: for every colour whose components are numbers (valid binary32
    values other than NaN, infinities included) the conversion is defined
    and each channel is 255 when the component is above 255, 0 when it is
    below 0, and its integral part otherwise.  A NaN is not clipped: [clip]
    returns it as it is. *)
Theorem clip_saturates (px : float3) :
  (number (float3_x px) -> number (float3_y px) -> number (float3_z px) ->
   exists r g b, clip_float3 px 0 255 = Some (make_uchar3 r g b) /\
     saturated (float3_x px) r /\ saturated (float3_y px) g /\
     saturated (float3_z px) b) /\
  (forall min max, clip S754_nan min max = S754_nan).
Proof.
  split; [apply clip_float3_saturated|apply clip_nan].
Qed.

Lemma clip_saturates_witness :
  exists r g b,
    clip_float3 (make_float3 (S754_infinity false) minus_point_two F32.half) 0 255
      = Some (make_uchar3 r g b) /\
    saturated (S754_infinity false) r /\ saturated minus_point_two g /\
    saturated F32.half b.
Proof.
  apply (proj1 (clip_saturates
                  (make_float3 (S754_infinity false) minus_point_two F32.half)));
    split; reflexivity.
Defined.

Section TensorPixels.

Variable cudaGetLastError : cudaError_t.

(** X4. For a planar tensor of numbers with three planes of [W * H] cells,
    [W] and [H] at most 2^24, [cudaTensor32ToRGB8] is defined and writes,
    for every pixel [(x,y)], the cells [y*W + x] of the three planes, each
    multiplied by 255, clipped to [0,255] and truncated to 8 bits; the
    destination keeps its length and its cells from [W * H] on. *)
Theorem tensor_to_rgb_pixels (cells : list float) (dst : list uchar3) (W H : Z) :
  0 < W <= 2 ^ 24 -> 0 < H <= 2 ^ 24 ->
  3 * (W * H) <= INT_MAX ->
  3 * (W * H) <= Z.of_nat (length cells) ->
  W * H <= Z.of_nat (length dst) ->
  Forall number cells ->
  exists dst',
    completed (cudaTensor32ToRGB8 cudaGetLastError (Ptr cells) (Ptr dst) W H) dst
      = Some dst' /\
    length dst' = length dst /\
    (forall x y, 0 <= x < W -> 0 <= y < H ->
       exists s0 s1 s2 r g b,
         cells !! Z.to_nat (0 * (W * H) + (y * W + x)) = Some s0 /\
         cells !! Z.to_nat (1 * (W * H) + (y * W + x)) = Some s1 /\
         cells !! Z.to_nat (2 * (W * H) + (y * W + x)) = Some s2 /\
         dst' !! Z.to_nat (y * W + x) = Some (make_uchar3 r g b) /\
         saturated (F32.mul s0 F32.c255) r /\
         saturated (F32.mul s1 F32.c255) g /\
         saturated (F32.mul s2 F32.c255) b) /\
    (forall j, (Z.to_nat (W * H) <= j)%nat -> dst' !! j = dst !! j).
Proof.
  intros HW HH Hint Hlen Hdst Hnum.
  destruct (cudaTensor32ToRGB8_frame cudaGetLastError (Ptr cells) dst W H)
    as (dst' & Hc & Hl & Hpix & Hfr); try lia.
  { intros x y Hx Hy.
    destruct (tensor_value_saturated cells W H x y
                ltac:(lia) ltac:(lia) ltac:(lia) ltac:(lia) Hint Hlen Hnum)
      as (s0 & s1 & s2 & r & g & b & _ & _ & _ & Hv & _).
    by rewrite Hv. }
  exists dst'. split; [done|]. split; [done|]. split; [|done].
  intros x y Hx Hy.
  destruct (tensor_value_saturated cells W H x y
              ltac:(lia) ltac:(lia) ltac:(lia) ltac:(lia) Hint Hlen Hnum)
    as (s0 & s1 & s2 & r & g & b & H0 & H1 & H2 & Hv & Hs).
  exists s0, s1, s2, r, g, b. rewrite Hpix by done. done.
Qed.

End TensorPixels.

Lemma tensor_to_rgb_pixels_witness :
  exists dst',
    completed (cudaTensor32ToRGB8 cudaSuccess
                 (Ptr [F32.one; F32.half; minus_point_two]) (Ptr scenario_dst) 1 1)
              scenario_dst = Some dst' /\
    length dst' = length scenario_dst /\
    (forall x y, 0 <= x < 1 -> 0 <= y < 1 ->
       exists s0 s1 s2 r g b,
         [F32.one; F32.half; minus_point_two] !! Z.to_nat (0 * (1 * 1) + (y * 1 + x))
           = Some s0 /\
         [F32.one; F32.half; minus_point_two] !! Z.to_nat (1 * (1 * 1) + (y * 1 + x))
           = Some s1 /\
         [F32.one; F32.half; minus_point_two] !! Z.to_nat (2 * (1 * 1) + (y * 1 + x))
           = Some s2 /\
         dst' !! Z.to_nat (y * 1 + x) = Some (make_uchar3 r g b) /\
         saturated (F32.mul s0 F32.c255) r /\
         saturated (F32.mul s1 F32.c255) g /\
         saturated (F32.mul s2 F32.c255) b) /\
    (forall j, (Z.to_nat (1 * 1) <= j)%nat -> dst' !! j = scenario_dst !! j).
Proof.
  apply (tensor_to_rgb_pixels cudaSuccess
           [F32.one; F32.half; minus_point_two] scenario_dst 1 1).
  - lia.
  - lia.
  - vm_compute. discriminate.
  - cbn. lia.
  - cbn. lia.
  - repeat constructor.
Defined.

Section ImageOnly.

Variable LOG_TRT : string.
Variable imageFormatToStr : imageFormat -> string.
Variable cudaGetLastError : cudaError_t.

(** X5. A call of [cudaSegOverlay] whose pixels are all defined writes the
    [W * H] cells of the image and nothing else: an output buffer with more
    than [W * H] cells keeps its length and every cell from [W * H] on,
    in each filter mode and with or without the input blended in. *)
Theorem cudaSegOverlay_writes_image_only (T : pixelType) (filter_linear mask_only : bool)
    (input : ptr pixel) (in_width in_height : Z) (out : list pixel) (W H : Z)
    (format : imageFormat)
    (class_colors : ptr float4) (scores : ptr Z) (scores_dim : int2) :
  format_type format = Some T ->
  0 < W -> 0 < H -> W * H <= INT_MAX ->
  W * H <= Z.of_nat (length out) ->
  (forall x y, 0 <= x < W -> 0 <= y < H ->
     is_Some (pixel_value T filter_linear mask_only input
                (int_of_uint in_width) (int_of_uint in_height) W H
                class_colors scores scores_dim x y)) ->
  exists out',
    completed (cudaSegOverlay LOG_TRT imageFormatToStr cudaGetLastError
                 input in_width in_height (Ptr out) W H format
                 class_colors scores scores_dim filter_linear mask_only) out
      = Some out' /\
    length out' = length out /\
    forall j, (Z.to_nat (W * H) <= j)%nat -> out' !! j = out !! j.
Proof.
  intros Hfmt HW HH HWH Hlen Hdef.
  destruct (cudaSegOverlay_frame LOG_TRT imageFormatToStr cudaGetLastError
              T filter_linear mask_only input in_width in_height out W H format
              class_colors scores scores_dim Hfmt HW HH HWH Hlen Hdef)
    as (out' & Hc & Hl & _ & Hfr).
  by exists out'.
Qed.

End ImageOnly.

Lemma cudaSegOverlay_writes_image_only_witness :
  exists out',
    completed (cudaSegOverlay EmptyString (fun _ => EmptyString) cudaSuccess
                 overlay_input 4 4 (Ptr padded_output) 4 4 IMAGE_RGB8
                 overlay_colors scenario_scores scenario_dim true false)
              padded_output = Some out' /\
    length out' = length padded_output /\
    forall j, (Z.to_nat (4 * 4) <= j)%nat -> out' !! j = padded_output !! j.
Proof.
  apply (cudaSegOverlay_writes_image_only EmptyString (fun _ => EmptyString) cudaSuccess
           T_uchar3 true false overlay_input 4 4 padded_output 4 4 IMAGE_RGB8
           overlay_colors scenario_scores scenario_dim).
  - reflexivity.
  - lia.
  - lia.
  - vm_compute. discriminate.
  - cbn. lia.
  - intros x y Hx Hy.
    enum_below x 4%nat; enum_below y 4%nat; vm_compute; eexists; reflexivity.
Defined.

Section Overwrite.

Variable LOG_TRT : string.
Variable imageFormatToStr : imageFormat -> string.
Variable cudaGetLastError : cudaError_t.

(** X6. A defined call of [cudaSegOverlay] overwrites every pixel of the
    image: started on two buffers of the same length it leaves the same
    [W * H] first cells, and run again on its own result it changes
    nothing. *)
Theorem cudaSegOverlay_overwrites (T : pixelType) (filter_linear mask_only : bool)
    (input : ptr pixel) (in_width in_height : Z) (out_a out_b : list pixel) (W H : Z)
    (format : imageFormat)
    (class_colors : ptr float4) (scores : ptr Z) (scores_dim : int2) :
  format_type format = Some T ->
  0 < W -> 0 < H -> W * H <= INT_MAX ->
  W * H <= Z.of_nat (length out_a) -> length out_b = length out_a ->
  (forall x y, 0 <= x < W -> 0 <= y < H ->
     is_Some (pixel_value T filter_linear mask_only input
                (int_of_uint in_width) (int_of_uint in_height) W H
                class_colors scores scores_dim x y)) ->
  exists a' b',
    completed (cudaSegOverlay LOG_TRT imageFormatToStr cudaGetLastError
                 input in_width in_height (Ptr out_a) W H format
                 class_colors scores scores_dim filter_linear mask_only) out_a
      = Some a' /\
    completed (cudaSegOverlay LOG_TRT imageFormatToStr cudaGetLastError
                 input in_width in_height (Ptr out_b) W H format
                 class_colors scores scores_dim filter_linear mask_only) out_b
      = Some b' /\
    (forall j, (j < Z.to_nat (W * H))%nat -> a' !! j = b' !! j) /\
    completed (cudaSegOverlay LOG_TRT imageFormatToStr cudaGetLastError
                 input in_width in_height (Ptr a') W H format
                 class_colors scores scores_dim filter_linear mask_only) a'
      = Some a'.
Proof.
  intros Hfmt HW HH HWH Hla Hlb Hdef.
  destruct (cudaSegOverlay_frame LOG_TRT imageFormatToStr cudaGetLastError
              T filter_linear mask_only input in_width in_height out_a W H format
              class_colors scores scores_dim Hfmt HW HH HWH Hla Hdef)
    as (a' & Hca & Hlena & Hpa & Hfa).
  destruct (cudaSegOverlay_frame LOG_TRT imageFormatToStr cudaGetLastError
              T filter_linear mask_only input in_width in_height out_b W H format
              class_colors scores scores_dim Hfmt HW HH HWH ltac:(lia) Hdef)
    as (b' & Hcb & Hlenb & Hpb & Hfb).
  destruct (cudaSegOverlay_frame LOG_TRT imageFormatToStr cudaGetLastError
              T filter_linear mask_only input in_width in_height a' W H format
              class_colors scores scores_dim Hfmt HW HH HWH ltac:(lia) Hdef)
    as (a'' & Hcc & Hlenc & Hpc & Hfc).
  assert (Hidx : forall j, (j < Z.to_nat (W * H))%nat ->
    exists x y, 0 <= x < W /\ 0 <= y < H /\ j = Z.to_nat (y * W + x)).
  { intros j Hj. exists (Z.of_nat j mod W), (Z.of_nat j / W).
    split; [apply Z.mod_pos_bound; lia|]. split.
    - split; [apply Z.div_pos; lia|]. apply Z.div_lt_upper_bound; lia.
    - assert (Hd := Z.div_mod (Z.of_nat j) W ltac:(lia)). lia. }
  exists a', b'. split; [done|]. split; [done|]. split.
  - intros j Hj. destruct (Hidx j Hj) as (x & y & Hx & Hy & ->).
    by rewrite Hpa, Hpb.
  - rewrite Hcc. f_equal. apply list_eq. intros j.
    destruct (Nat.lt_ge_cases j (Z.to_nat (W * H))) as [Hj|Hj].
    + destruct (Hidx j Hj) as (x & y & Hx & Hy & ->). by rewrite Hpc, Hpa.
    + by apply Hfc.
Qed.

End Overwrite.

Lemma cudaSegOverlay_overwrites_witness :
  exists a' b',
    completed (cudaSegOverlay EmptyString (fun _ => EmptyString) cudaSuccess
                 NULL 0 0 (Ptr scenario_output) 4 4 IMAGE_RGB8
                 scenario_colors scenario_scores scenario_dim false true)
              scenario_output = Some a' /\
    completed (cudaSegOverlay EmptyString (fun _ => EmptyString) cudaSuccess
                 NULL 0 0 (Ptr (repeat (px_uchar3 (make_uchar3 7 7 7)) 16)) 4 4 IMAGE_RGB8
                 scenario_colors scenario_scores scenario_dim false true)
              (repeat (px_uchar3 (make_uchar3 7 7 7)) 16) = Some b' /\
    (forall j, (j < Z.to_nat (4 * 4))%nat -> a' !! j = b' !! j) /\
    completed (cudaSegOverlay EmptyString (fun _ => EmptyString) cudaSuccess
                 NULL 0 0 (Ptr a') 4 4 IMAGE_RGB8
                 scenario_colors scenario_scores scenario_dim false true) a' = Some a'.
Proof.
  apply (cudaSegOverlay_overwrites EmptyString (fun _ => EmptyString) cudaSuccess
           T_uchar3 false true NULL 0 0 scenario_output
           (repeat (px_uchar3 (make_uchar3 7 7 7)) 16) 4 4 IMAGE_RGB8
           scenario_colors scenario_scores scenario_dim).
  - reflexivity.
  - lia.
  - lia.
  - vm_compute. discriminate.
  - cbn. lia.
  - reflexivity.
  - intros x y Hx Hy.
    enum_below x 4%nat; enum_below y 4%nat; vm_compute; eexists; reflexivity.
Defined.

Section ShortBuffer.

Variable LOG_TRT : string.
Variable imageFormatToStr : imageFormat -> string.
Variable cudaGetLastError : cudaError_t.

(** X7. [cudaSegOverlay] does not know the size of the output buffer: when
    the buffer holds fewer than [W * H] pixels the validation still passes
    and the launch is undefined, the thread of the last pixel storing past
    the end of the buffer. *)
Theorem cudaSegOverlay_short_buffer (T : pixelType) (filter_linear mask_only : bool)
    (input : ptr pixel) (in_width in_height : Z) (out : list pixel) (W H : Z)
    (format : imageFormat)
    (class_colors : ptr float4) (scores : ptr Z) (scores_dim : int2) :
  format_type format = Some T ->
  0 < W -> 0 < H -> W * H <= INT_MAX ->
  Z.of_nat (length out) < W * H ->
  let c := cudaSegOverlay LOG_TRT imageFormatToStr cudaGetLastError
             input in_width in_height (Ptr out) W H format
             class_colors scores scores_dim filter_linear mask_only in
  status c = cudaGetLastError /\ completed c out = None.
Proof.
  intros Hfmt HW HH HWH Hlen c. subst c.
  assert (HW' : W <= INT_MAX) by nia.
  assert (HH' : H <= INT_MAX) by nia.
  split.
  { unfold cudaSegOverlay. cbn [is_null].
    destruct (Z.eqb_spec W 0); [lia|]. destruct (Z.eqb_spec H 0); [lia|]. cbn [orb].
    by rewrite (format_type_IsRGB _ _ Hfmt). }
  rewrite (cudaSegOverlay_launch _ _ _ T) by (done || lia).
  destruct (launch _ _ _ out) as [out'|] eqn:Hrun; [|done]. exfalso.
  unfold launch in Hrun.
  set (g := make_dim3 ((W + 7) / 8) ((H + 7) / 8) 1) in *.
  set (b := make_dim3 8 8 1) in *.
  assert (Hcoord : forall t, t ∈ grid_threads g b ->
    exists bx by_ tx ty, t = (make_dim3 bx by_ 0, make_dim3 tx ty 0) /\
      0 <= bx * 8 + tx <= INT_MAX /\ 0 <= by_ * 8 + ty <= INT_MAX).
  { intros t (bx & by_ & tx & ty & -> & Hbx & Hby & Htx & Hty)%elem_of_grid_threads.
    cbn in Hbx, Hby, Htx, Hty.
    assert (8 * ((W + 7) / 8) <= W + 7) by (apply Z.mul_div_le; lia).
    assert (8 * ((H + 7) / 8) <= H + 7) by (apply Z.mul_div_le; lia).
    exists bx, by_, tx, ty. unfold INT_MAX in *. repeat split; (done || lia). }
  set (t := (make_dim3 ((W - 1) / 8) ((H - 1) / 8) 0,
             make_dim3 ((W - 1) mod 8) ((H - 1) mod 8) 0)).
  assert (Hdx := Z.div_mod (W - 1) 8 ltac:(lia)).
  assert (Hmx := Z.mod_pos_bound (W - 1) 8 ltac:(lia)).
  assert (Hdy := Z.div_mod (H - 1) 8 ltac:(lia)).
  assert (Hmy := Z.mod_pos_bound (H - 1) 8 ltac:(lia)).
  assert (Ht : t ∈ grid_threads g b).
  { apply elem_of_grid_threads.
    exists ((W - 1) / 8), ((H - 1) / 8), ((W - 1) mod 8), ((H - 1) mod 8). cbn.
    assert ((W - 1) / 8 < (W + 7) / 8).
    { apply Z.div_lt_upper_bound; [lia|].
      assert (Hd := Z.div_mod (W + 7) 8 ltac:(lia)).
      assert (Hm := Z.mod_pos_bound (W + 7) 8 ltac:(lia)). lia. }
    assert ((H - 1) / 8 < (H + 7) / 8).
    { apply Z.div_lt_upper_bound; [lia|].
      assert (Hd := Z.div_mod (H + 7) 8 ltac:(lia)).
      assert (Hm := Z.mod_pos_bound (H + 7) 8 ltac:(lia)). lia. }
    assert (0 <= (W - 1) / 8) by (apply Z.div_pos; lia).
    assert (0 <= (H - 1) / 8) by (apply Z.div_pos; lia).
    repeat split; (done || lia). }
  destruct (run_threads_Some_all
              (fun t => gpuSegOverlay T filter_linear mask_only input
                          (int_of_uint in_width) (int_of_uint in_height) W H
                          class_colors scores scores_dim (fst t) b (snd t))
              (fun s => length s = length out) (grid_threads g b))
    with (s := out) (s' := out') (t := t) as (s1 & Hs1 & [s2 Hs2]); try done.
  - intros t0 sa sb Ht0 Hsa Hbody.
    destruct (Hcoord t0 Ht0) as (bx & by_ & tx & ty & -> & Hx & Hy).
    cbn [fst snd] in Hbody. rewrite gpuSegOverlay_thread in Hbody by done.
    destruct (_ || _); [by injection Hbody as <-|].
    destruct (pixel_value _ _ _ _ _ _ _ _ _ _ _ _ _) as [v|]; [|done].
    cbn [mbind option_bind] in Hbody.
    destruct (offset _ _ _) as [i|]; [|done]. cbn [mbind option_bind] in Hbody.
    apply store_length in Hbody. lia.
  - subst t. cbn [fst snd] in Hs2. rewrite gpuSegOverlay_thread in Hs2 by lia.
    replace ((W - 1) / 8 * 8 + (W - 1) mod 8) with (W - 1) in Hs2 by lia.
    replace ((H - 1) / 8 * 8 + (H - 1) mod 8) with (H - 1) in Hs2 by lia.
    destruct (Z.geb_spec (W - 1) W); [lia|].
    destruct (Z.geb_spec (H - 1) H); [lia|]. cbn [orb] in Hs2.
    destruct (pixel_value _ _ _ _ _ _ _ _ _ _ _ _ _) as [v|]; [|done].
    cbn [mbind option_bind] in Hs2.
    rewrite offset_Some in Hs2 by nia. cbn [mbind option_bind] in Hs2.
    rewrite store_outside in Hs2; [done|]. nia.
Qed.

End ShortBuffer.

Lemma cudaSegOverlay_short_buffer_witness :
  status (cudaSegOverlay EmptyString (fun _ => EmptyString) cudaSuccess
            NULL 0 0 (Ptr short_output) 4 4 IMAGE_RGB8
            scenario_colors scenario_scores scenario_dim false true) = cudaSuccess /\
  completed (cudaSegOverlay EmptyString (fun _ => EmptyString) cudaSuccess
               NULL 0 0 (Ptr short_output) 4 4 IMAGE_RGB8
               scenario_colors scenario_scores scenario_dim false true)
            short_output = None.
Proof.
  apply (cudaSegOverlay_short_buffer EmptyString (fun _ => EmptyString) cudaSuccess
           T_uchar3 false true NULL 0 0 short_output 4 4 IMAGE_RGB8
           scenario_colors scenario_scores scenario_dim).
  - reflexivity.
  - lia.
  - lia.
  - vm_compute. discriminate.
  - cbn. lia.
Defined.

Section MaskInput.

Variable LOG_TRT : string.
Variable imageFormatToStr : imageFormat -> string.
Variable cudaGetLastError : cudaError_t.

(** X8. In mask-only mode the input image is not read: two calls that
    differ only in the input pointer and in the input dimensions return the
    same status, log the same lines and leave the same output buffer (or
    are both undefined), with either filter and for every format. *)
Theorem mask_ignores_input (filter_linear : bool)
    (input1 input2 : ptr pixel) (iw1 ih1 iw2 ih2 : Z)
    (output : ptr pixel) (out_width out_height : Z) (format : imageFormat)
    (class_colors : ptr float4) (scores : ptr Z) (scores_dim : int2)
    (buf : list pixel) :
  let c1 := cudaSegOverlay LOG_TRT imageFormatToStr cudaGetLastError
              input1 iw1 ih1 output out_width out_height format
              class_colors scores scores_dim filter_linear true in
  let c2 := cudaSegOverlay LOG_TRT imageFormatToStr cudaGetLastError
              input2 iw2 ih2 output out_width out_height format
              class_colors scores scores_dim filter_linear true in
  status c1 = status c2 /\ logged c1 = logged c2 /\
  completed c1 buf = completed c2 buf.
Proof.
  cbn zeta. unfold cudaSegOverlay, completed.
  destruct (is_null output); [done|].
  destruct (_ || _); [done|].
  destruct format; cbn [imageFormatIsRGB negb status logged launched]; try done;
    (split; [done|]); (split; [done|]);
    destruct filter_linear; cbn [LAUNCH_OVERLAY]; unfold launch;
    apply run_threads_ext; intros t s; apply gpuSegOverlay_mask_input.
Qed.

End MaskInput.

Section OpaqueOverlay.

Variable LOG_TRT : string.
Variable imageFormatToStr : imageFormat -> string.
Variable cudaGetLastError : cudaError_t.

(** X9. In point-filter mode, when every colour of the table is opaque
    ([w] is 255) with finite components, and the input image holds finite
    values, a defined overlay call leaves exactly the buffer that the
    mask-only call leaves: the input image does not show through. *)
Theorem overlay_opaque_is_mask (T : pixelType)
    (input : ptr pixel) (in_width in_height : Z) (out : list pixel) (W H : Z)
    (format : imageFormat)
    (class_colors : ptr float4) (scores : ptr Z) (scores_dim : int2) :
  format_type format = Some T ->
  0 < W -> 0 < H -> W * H <= INT_MAX ->
  W * H <= Z.of_nat (length out) ->
  (forall i c, load class_colors i = Some c ->
     float4_w c = F32.c255 /\ plain_color c) ->
  (forall i p, load input i = Some p -> finite_pixel p) ->
  (forall x y, 0 <= x < W -> 0 <= y < H ->
     is_Some (pixel_value T false false input
                (int_of_uint in_width) (int_of_uint in_height) W H
                class_colors scores scores_dim x y)) ->
  exists out',
    completed (cudaSegOverlay LOG_TRT imageFormatToStr cudaGetLastError
                 input in_width in_height (Ptr out) W H format
                 class_colors scores scores_dim false false) out = Some out' /\
    completed (cudaSegOverlay LOG_TRT imageFormatToStr cudaGetLastError
                 input in_width in_height (Ptr out) W H format
                 class_colors scores scores_dim false true) out = Some out'.
Proof.
  intros Hfmt HW HH HWH Hlen Hcol Hin Hdef.
  assert (Hval : forall x y, 0 <= x < W -> 0 <= y < H ->
    pixel_value T false true input (int_of_uint in_width) (int_of_uint in_height) W H
      class_colors scores scores_dim x y =
    pixel_value T false false input (int_of_uint in_width) (int_of_uint in_height) W H
      class_colors scores scores_dim x y).
  { intros x y Hx Hy. destruct (Hdef x y Hx Hy) as [p Hp]. rewrite Hp.
    unfold pixel_value in *. cbn zeta in *.
    destruct (point_color _ _ _ _ _) as [c|] eqn:Hc; [|done].
    cbn [mbind option_bind] in *.
    destruct (point_color_loaded _ _ _ _ _ _ Hc) as [i Hi].
    destruct (Hcol i c Hi) as [Hw Hplain].
    by eapply blend_value_opaque. }
  destruct (cudaSegOverlay_frame LOG_TRT imageFormatToStr cudaGetLastError
              T false false input in_width in_height out W H format
              class_colors scores scores_dim Hfmt HW HH HWH Hlen Hdef)
    as (out1 & Hc1 & Hl1 & Hp1 & Hf1).
  destruct (cudaSegOverlay_frame LOG_TRT imageFormatToStr cudaGetLastError
              T false true input in_width in_height out W H format
              class_colors scores scores_dim Hfmt HW HH HWH Hlen)
    as (out2 & Hc2 & Hl2 & Hp2 & Hf2).
  { intros x y Hx Hy. rewrite Hval by done. by apply Hdef. }
  exists out1. split; [done|]. rewrite Hc2. f_equal.
  apply list_eq. intros j.
  destruct (Nat.lt_ge_cases j (Z.to_nat (W * H))) as [Hj|Hj].
  - assert (Hjx : 0 <= Z.of_nat j mod W < W) by (apply Z.mod_pos_bound; lia).
    assert (Hjy : 0 <= Z.of_nat j / W < H).
    { split; [apply Z.div_pos; lia|]. apply Z.div_lt_upper_bound; lia. }
    assert (Hj' : j = Z.to_nat (Z.of_nat j / W * W + Z.of_nat j mod W)).
    { assert (Hd := Z.div_mod (Z.of_nat j) W ltac:(lia)). lia. }
    rewrite Hj'. rewrite Hp1, Hp2 by done. by apply Hval.
  - by rewrite Hf1, Hf2.
Qed.

End OpaqueOverlay.

Lemma overlay_opaque_is_mask_witness :
  exists out',
    completed (cudaSegOverlay EmptyString (fun _ => EmptyString) cudaSuccess
                 overlay_input 4 4 (Ptr scenario_output) 4 4 IMAGE_RGB8
                 scenario_colors scenario_scores scenario_dim false false)
              scenario_output = Some out' /\
    completed (cudaSegOverlay EmptyString (fun _ => EmptyString) cudaSuccess
                 overlay_input 4 4 (Ptr scenario_output) 4 4 IMAGE_RGB8
                 scenario_colors scenario_scores scenario_dim false true)
              scenario_output = Some out'.
Proof.
  apply (overlay_opaque_is_mask EmptyString (fun _ => EmptyString) cudaSuccess
           T_uchar3 overlay_input 4 4 scenario_output 4 4 IMAGE_RGB8
           scenario_colors scenario_scores scenario_dim).
  - reflexivity.
  - lia.
  - lia.
  - vm_compute. discriminate.
  - cbn. lia.
  - apply load_Forall. repeat constructor; vm_compute; discriminate.
  - apply load_Forall. repeat constructor.
  - intros x y Hx Hy.
    enum_below x 4%nat; enum_below y 4%nat; vm_compute; eexists; reflexivity.
Defined.

Section TransparentOverlay.

Variable LOG_TRT : string.
Variable imageFormatToStr : imageFormat -> string.
Variable cudaGetLastError : cudaError_t.

(** X10. In point-filter mode on RGB8 images, when every colour of the table
    is fully transparent ([w] is 0) with finite components, a defined
    overlay call copies the input: the pixel [(x,y)] of the output is the
    input pixel [(x_in, y_in) = (int(px * in_width), int(py * in_height))],
    unchanged. *)
Theorem overlay_transparent_is_input
    (input : ptr pixel) (in_width in_height : Z) (out : list pixel) (W H : Z)
    (class_colors : ptr float4) (scores : ptr Z) (scores_dim : int2) :
  0 < W -> 0 < H -> W * H <= INT_MAX ->
  W * H <= Z.of_nat (length out) ->
  (forall i c, load class_colors i = Some c ->
     float4_w c = F32.zero /\ finite_color c) ->
  (forall i p, load input i = Some p -> rgb8_pixel p) ->
  (forall x y, 0 <= x < W -> 0 <= y < H ->
     is_Some (pixel_value T_uchar3 false false input
                (int_of_uint in_width) (int_of_uint in_height) W H
                class_colors scores scores_dim x y)) ->
  exists out',
    completed (cudaSegOverlay LOG_TRT imageFormatToStr cudaGetLastError
                 input in_width in_height (Ptr out) W H IMAGE_RGB8
                 class_colors scores scores_dim false false) out = Some out' /\
    forall x y, 0 <= x < W -> 0 <= y < H ->
      exists cell i,
        input_cell (int_of_uint in_width) (int_of_uint in_height)
          (normalized x W) (normalized y H) = Some cell /\
        offset (snd cell) (int_of_uint in_width) (fst cell) = Some i /\
        is_Some (load input i) /\
        out' !! Z.to_nat (y * W + x) = load input i.
Proof.
  intros HW HH HWH Hlen Hcol Hin Hdef.
  destruct (cudaSegOverlay_frame LOG_TRT imageFormatToStr cudaGetLastError
              T_uchar3 false false input in_width in_height out W H IMAGE_RGB8
              class_colors scores scores_dim eq_refl HW HH HWH Hlen Hdef)
    as (out' & Hc & Hl & Hp & _).
  exists out'. split; [done|].
  intros x y Hx Hy. rewrite Hp by done.
  destruct (Hdef x y Hx Hy) as [p Hv]. rewrite Hv.
  unfold pixel_value in Hv. cbn zeta in Hv.
  destruct (point_color _ _ _ _ _) as [c|] eqn:Hpc; [|done].
  cbn [mbind option_bind] in Hv.
  destruct (point_color_loaded _ _ _ _ _ _ Hpc) as [k Hk].
  destruct (Hcol k c Hk) as [Hw Hfin].
  destruct (blend_value_transparent _ _ _ _ _ _ _ Hw Hfin Hin Hv)
    as (cell & i & Hcell & Hoff & Hload).
  exists cell, i. rewrite Hload. by eauto.
Qed.

End TransparentOverlay.

Lemma overlay_transparent_is_input_witness :
  exists out',
    completed (cudaSegOverlay EmptyString (fun _ => EmptyString) cudaSuccess
                 overlay_input 4 4 (Ptr scenario_output) 4 4 IMAGE_RGB8
                 transparent_colors scenario_scores scenario_dim false false)
              scenario_output = Some out' /\
    forall x y, 0 <= x < 4 -> 0 <= y < 4 ->
      exists cell i,
        input_cell (int_of_uint 4) (int_of_uint 4)
          (normalized x 4) (normalized y 4) = Some cell /\
        offset (snd cell) (int_of_uint 4) (fst cell) = Some i /\
        is_Some (load overlay_input i) /\
        out' !! Z.to_nat (y * 4 + x) = load overlay_input i.
Proof.
  apply (overlay_transparent_is_input EmptyString (fun _ => EmptyString) cudaSuccess
           overlay_input 4 4 scenario_output 4 4
           transparent_colors scenario_scores scenario_dim).
  - lia.
  - lia.
  - vm_compute. discriminate.
  - cbn. lia.
  - apply load_Forall. repeat constructor.
  - apply load_Forall. repeat constructor;
      exists 50, 60, 70; (split; [reflexivity|lia]).
  - intros x y Hx Hy.
    enum_below x 4%nat; enum_below y 4%nat; vm_compute; eexists; reflexivity.
Defined.

(** X11. [cudaBlendImage] at the ends of the alpha range: with [alph = 1.0]
    it returns the foreground and with [alph = 0.0] the background, exactly,
    for finite colours without negative zeros. *)
Theorem cudaBlendImage_ends (fgr bgr : float3) :
  (plain (float3_x fgr) -> plain (float3_y fgr) -> plain (float3_z fgr) ->
   F32.is_finite (float3_x bgr) = true -> F32.is_finite (float3_y bgr) = true ->
   F32.is_finite (float3_z bgr) = true ->
   cudaBlendImage fgr bgr F32.one = fgr) /\
  (plain (float3_x bgr) -> plain (float3_y bgr) -> plain (float3_z bgr) ->
   F32.is_finite (float3_x fgr) = true -> F32.is_finite (float3_y fgr) = true ->
   F32.is_finite (float3_z fgr) = true ->
   cudaBlendImage fgr bgr F32.zero = bgr).
Proof.
  split.
  - intros [] [] [] Hx Hy Hz. unfold cudaBlendImage. cbn zeta.
    fold (blend F32.one (float3_x fgr) (float3_x bgr)).
    fold (blend F32.one (float3_y fgr) (float3_y bgr)).
    fold (blend F32.one (float3_z fgr) (float3_z bgr)).
    rewrite !blend_one by done. by destruct fgr.
  - intros [] [] [] Hx Hy Hz. unfold cudaBlendImage. cbn zeta.
    fold (blend F32.zero (float3_x fgr) (float3_x bgr)).
    fold (blend F32.zero (float3_y fgr) (float3_y bgr)).
    fold (blend F32.zero (float3_z fgr) (float3_z bgr)).
    rewrite !blend_zero by done. by destruct bgr.
Qed.

Lemma cudaBlendImage_ends_witness :
  cudaBlendImage (make_float3 F32.c255 F32.zero F32.c120)
                 (make_float3 F32.c155 F32.c155 F32.c155) F32.one
    = make_float3 F32.c255 F32.zero F32.c120 /\
  cudaBlendImage (make_float3 F32.c255 F32.zero F32.c120)
                 (make_float3 F32.c155 F32.c155 F32.c155) F32.zero
    = make_float3 F32.c155 F32.c155 F32.c155.
Proof.
  destruct (cudaBlendImage_ends (make_float3 F32.c255 F32.zero F32.c120)
              (make_float3 F32.c155 F32.c155 F32.c155)) as [H1 H2].
  split.
  - apply H1; try reflexivity; (split; [reflexivity|discriminate]).
  - apply H2; try reflexivity; (split; [reflexivity|discriminate]).
Defined.

Section OpaqueMatte.

Variable cudaGetLastError : cudaError_t.

(** X12. With an alpha plane of ones, [cudaBlendRGBA32ToRGB8] leaves exactly
    the buffer that [cudaTensor32ToRGB8] leaves for the same tensor: where
    the matte is 1.0 the composite is the foreground scaled to 0..255,
    clipped and truncated, and the background does not contribute. *)
Theorem matte_opaque_is_tensor (src alpha : ptr float) (dst : list uchar3) (W H : Z) :
  0 < W -> 0 < H -> W * H <= INT_MAX ->
  W * H <= Z.of_nat (length dst) ->
  (forall i a, load alpha i = Some a -> a = F32.one) ->
  (forall i s, load src i = Some s -> F32.valid s = true) ->
  (forall x y, 0 <= x < W -> 0 <= y < H ->
     is_Some (matte_value src alpha (W * H) W x y)) ->
  exists dst',
    completed (cudaBlendRGBA32ToRGB8 cudaGetLastError src alpha (Ptr dst) W H) dst
      = Some dst' /\
    completed (cudaTensor32ToRGB8 cudaGetLastError src (Ptr dst) W H) dst
      = Some dst'.
Proof.
  intros HW HH HWH Hlen Ha Hs Hdef.
  assert (Hval : forall x y, 0 <= x < W -> 0 <= y < H ->
    tensor_value src (W * H) W x y = matte_value src alpha (W * H) W x y).
  { intros x y Hx Hy. destruct (Hdef x y Hx Hy) as [p Hp]. rewrite Hp.
    by eapply matte_value_one. }
  destruct (cudaBlendRGBA32ToRGB8_frame cudaGetLastError src alpha dst W H
              HW HH HWH Hlen Hdef) as (d1 & Hc1 & Hl1 & Hp1 & Hf1).
  destruct (cudaTensor32ToRGB8_frame cudaGetLastError src dst W H HW HH HWH Hlen)
    as (d2 & Hc2 & Hl2 & Hp2 & Hf2).
  { intros x y Hx Hy. rewrite Hval by done. by apply Hdef. }
  exists d1. split; [done|]. rewrite Hc2. f_equal.
  apply list_eq. intros j.
  destruct (Nat.lt_ge_cases j (Z.to_nat (W * H))) as [Hj|Hj].
  - assert (Hjx : 0 <= Z.of_nat j mod W < W) by (apply Z.mod_pos_bound; lia).
    assert (Hjy : 0 <= Z.of_nat j / W < H).
    { split; [apply Z.div_pos; lia|]. apply Z.div_lt_upper_bound; lia. }
    assert (Hj' : j = Z.to_nat (Z.of_nat j / W * W + Z.of_nat j mod W)).
    { assert (Hd := Z.div_mod (Z.of_nat j) W ltac:(lia)). lia. }
    rewrite Hj'. rewrite Hp1, Hp2 by done. by apply Hval.
  - by rewrite Hf1, Hf2.
Qed.

End OpaqueMatte.

Lemma matte_opaque_is_tensor_witness :
  exists dst',
    completed (cudaBlendRGBA32ToRGB8 cudaSuccess matte_src ones_alpha (Ptr matte_dst) 2 1)
              matte_dst = Some dst' /\
    completed (cudaTensor32ToRGB8 cudaSuccess matte_src (Ptr matte_dst) 2 1)
              matte_dst = Some dst'.
Proof.
  apply (matte_opaque_is_tensor cudaSuccess matte_src ones_alpha matte_dst 2 1).
  - lia.
  - lia.
  - vm_compute. discriminate.
  - cbn. lia.
  - apply load_Forall. repeat constructor.
  - apply load_Forall. repeat constructor.
  - intros x y Hx Hy.
    enum_below x 2%nat; enum_below y 1%nat; vm_compute; eexists; reflexivity.
Defined.

Section TransparentMatte.

Variable cudaGetLastError : cudaError_t.

(** X13. With an alpha plane of zeros, [cudaBlendRGBA32ToRGB8] paints the
    fixed background: every pixel of the image is (120, 255, 155), whatever
    the foreground, as long as 255 times its values is finite. *)
Theorem matte_transparent_is_background
    (src alpha : ptr float) (dst : list uchar3) (W H : Z) :
  0 < W -> 0 < H -> W * H <= INT_MAX ->
  W * H <= Z.of_nat (length dst) ->
  (forall i a, load alpha i = Some a -> a = F32.zero) ->
  (forall i s, load src i = Some s -> F32.is_finite (F32.mul s F32.c255) = true) ->
  (forall x y, 0 <= x < W -> 0 <= y < H ->
     is_Some (matte_value src alpha (W * H) W x y)) ->
  exists dst',
    completed (cudaBlendRGBA32ToRGB8 cudaGetLastError src alpha (Ptr dst) W H) dst
      = Some dst' /\
    forall x y, 0 <= x < W -> 0 <= y < H ->
      dst' !! Z.to_nat (y * W + x) = Some (make_uchar3 120 255 155).
Proof.
  intros HW HH HWH Hlen Ha Hs Hdef.
  destruct (cudaBlendRGBA32ToRGB8_frame cudaGetLastError src alpha dst W H
              HW HH HWH Hlen Hdef) as (d1 & Hc1 & Hl1 & Hp1 & Hf1).
  exists d1. split; [done|].
  intros x y Hx Hy. rewrite Hp1 by done.
  destruct (Hdef x y Hx Hy) as [p Hp]. rewrite Hp. f_equal.
  by eapply matte_value_zero.
Qed.

End TransparentMatte.

Lemma matte_transparent_is_background_witness :
  exists dst',
    completed (cudaBlendRGBA32ToRGB8 cudaSuccess matte_src zeros_alpha (Ptr matte_dst) 2 1)
              matte_dst = Some dst' /\
    forall x y, 0 <= x < 2 -> 0 <= y < 1 ->
      dst' !! Z.to_nat (y * 2 + x) = Some (make_uchar3 120 255 155).
Proof.
  apply (matte_transparent_is_background cudaSuccess matte_src zeros_alpha matte_dst 2 1).
  - lia.
  - lia.
  - vm_compute. discriminate.
  - cbn. lia.
  - apply load_Forall. repeat constructor.
  - apply load_Forall. repeat constructor.
  - intros x y Hx Hy.
    enum_below x 2%nat; enum_below y 1%nat; vm_compute; eexists; reflexivity.
Defined.

Section PointMaskTable.

Variable LOG_TRT : string.
Variable imageFormatToStr : imageFormat -> string.
Variable cudaGetLastError : cudaError_t.

(** X14. The point-filter mask is drawn without any access out of bounds:
    for an output of at most 2^24 columns and rows, a score grid of
    [scores_dim.x * scores_dim.y] class ids (dimensions between 1 and 2^24)
    that all index the colour table, and colours that fit the channel type,
    the call is defined, whatever the input pointer, and every pixel of the
    image is one of the colours of the table. *)
Theorem point_mask_in_table (T : pixelType)
    (input : ptr pixel) (in_width in_height : Z) (out : list pixel) (W H : Z)
    (format : imageFormat)
    (colors : list float4) (cells : list Z) (scores_dim : int2) :
  format_type format = Some T ->
  0 < W <= 2 ^ 24 -> 0 < H <= 2 ^ 24 -> W * H <= INT_MAX ->
  W * H <= Z.of_nat (length out) ->
  1 <= int2_x scores_dim <= 2 ^ 24 -> 1 <= int2_y scores_dim <= 2 ^ 24 ->
  int2_x scores_dim * int2_y scores_dim <= INT_MAX ->
  int2_x scores_dim * int2_y scores_dim <= Z.of_nat (length cells) ->
  Forall (fun id => 0 <= id < Z.of_nat (length colors)) cells ->
  Forall (fun c => is_Some (mask_value T c)) colors ->
  exists out',
    completed (cudaSegOverlay LOG_TRT imageFormatToStr cudaGetLastError
                 input in_width in_height (Ptr out) W H format
                 (Ptr colors) (Ptr cells) scores_dim false true) out = Some out' /\
    length out' = length out /\
    forall x y, 0 <= x < W -> 0 <= y < H ->
      exists c, c ∈ colors /\ is_Some (mask_value T c) /\
        out' !! Z.to_nat (y * W + x) = mask_value T c.
Proof.
  intros Hfmt HW HH HWH Hlen Hsx Hsy Hint Hcells Hids Hcol.
  assert (Hval : forall x y, 0 <= x < W -> 0 <= y < H ->
    exists c, c ∈ colors /\ is_Some (mask_value T c) /\
      pixel_value T false true input (int_of_uint in_width) (int_of_uint in_height) W H
        (Ptr colors) (Ptr cells) scores_dim x y = mask_value T c).
  { intros x y Hx Hy.
    destruct (point_color_defined colors cells scores_dim x y W H)
      as (c & Hc & Hin); try (done || lia).
    exists c. split; [done|]. split.
    - rewrite Forall_forall in Hcol. by apply Hcol.
    - unfold pixel_value. cbn zeta. rewrite Hc. done. }
  destruct (cudaSegOverlay_frame LOG_TRT imageFormatToStr cudaGetLastError
              T false true input in_width in_height out W H format
              (Ptr colors) (Ptr cells) scores_dim)
    as (out' & Hc & Hl & Hp & _); try (done || lia).
  { intros x y Hx Hy. destruct (Hval x y Hx Hy) as (c & _ & Hs & ->). done. }
  exists out'. split; [done|]. split; [done|].
  intros x y Hx Hy. destruct (Hval x y Hx Hy) as (c & Hin & Hs & Hv).
  exists c. rewrite Hp by done. done.
Qed.

End PointMaskTable.

Lemma point_mask_in_table_witness :
  exists out',
    completed (cudaSegOverlay EmptyString (fun _ => EmptyString) cudaSuccess
                 NULL 0 0 (Ptr scenario_output) 4 4 IMAGE_RGB8
                 (Ptr [rgba 255 0 0 255; rgba 0 255 0 255]) (Ptr [0; 1; 1; 0])
                 scenario_dim false true) scenario_output = Some out' /\
    length out' = length scenario_output /\
    forall x y, 0 <= x < 4 -> 0 <= y < 4 ->
      exists c, c ∈ [rgba 255 0 0 255; rgba 0 255 0 255] /\
        is_Some (mask_value T_uchar3 c) /\
        out' !! Z.to_nat (y * 4 + x) = mask_value T_uchar3 c.
Proof.
  apply (point_mask_in_table EmptyString (fun _ => EmptyString) cudaSuccess
           T_uchar3 NULL 0 0 scenario_output 4 4 IMAGE_RGB8
           [rgba 255 0 0 255; rgba 0 255 0 255] [0; 1; 1; 0] scenario_dim).
  - reflexivity.
  - lia.
  - lia.
  - vm_compute. discriminate.
  - cbn. lia.
  - cbn. lia.
  - cbn. lia.
  - vm_compute. discriminate.
  - cbn. lia.
  - repeat constructor; cbn; lia.
  - repeat constructor; vm_compute; eexists; reflexivity.
Defined.

Section FloatSafety.

Variable LOG_TRT : string.
Variable imageFormatToStr : imageFormat -> string.
Variable cudaGetLastError : cudaError_t.


End FloatSafety.


(** X16. The cell sampled in point-filter mode is within one cell of the
    exact position: for an output of at most 2^24 columns and rows and
    score-grid and input dimensions between 1 and 2^23, the score cell
    [(x1,y1)] of the pixel [(x,y)] satisfies
    [|x1 - x*scores_dim.x/out_width| <= 1] and
    [|y1 - y*scores_dim.y/out_height| <= 1] (integer quotients), and
    likewise the input pixel [(x_in,y_in)]; the two roundings of
    [float(x) / float(out_width) * float(dim)] cannot move it further. *)
Theorem point_sampling_accuracy (x y W H : Z) (scores_dim : int2)
    (in_width in_height : Z) :
  0 <= x < W -> 0 <= y < H -> W <= 2 ^ 24 -> H <= 2 ^ 24 ->
  1 <= int2_x scores_dim <= 2 ^ 23 -> 1 <= int2_y scores_dim <= 2 ^ 23 ->
  1 <= in_width <= 2 ^ 23 -> 1 <= in_height <= 2 ^ 23 ->
  (exists x1 y1,
     point_cell scores_dim (normalized x W) (normalized y H) = Some (x1, y1) /\
     x * int2_x scores_dim / W - 1 <= x1 <= x * int2_x scores_dim / W + 1 /\
     y * int2_y scores_dim / H - 1 <= y1 <= y * int2_y scores_dim / H + 1) /\
  (exists x_in y_in,
     input_cell in_width in_height (normalized x W) (normalized y H)
       = Some (x_in, y_in) /\
     x * in_width / W - 1 <= x_in <= x * in_width / W + 1 /\
     y * in_height / H - 1 <= y_in <= y * in_height / H + 1).
Proof.
  intros Hx Hy HW HH Hsx Hsy Hiw Hih. split.
  - destruct (point_axis_near x W (int2_x scores_dim)) as (x1 & Hx1 & _ & Hn1); try done.
    destruct (point_axis_near y H (int2_y scores_dim)) as (y1 & Hy1 & _ & Hn2); try done.
    exists x1, y1. unfold point_cell. rewrite Hx1, Hy1. done.
  - destruct (point_axis_near x W in_width) as (x1 & Hx1 & _ & Hn1); try done.
    destruct (point_axis_near y H in_height) as (y1 & Hy1 & _ & Hn2); try done.
    exists x1, y1. unfold input_cell. rewrite Hx1, Hy1. done.
Qed.

Lemma point_sampling_accuracy_witness :
  (exists x1 y1,
     point_cell (make_int2 22 22) (normalized 13 22) (normalized 0 22) = Some (x1, y1) /\
     13 * 22 / 22 - 1 <= x1 <= 13 * 22 / 22 + 1 /\
     0 * 22 / 22 - 1 <= y1 <= 0 * 22 / 22 + 1) /\
  (exists x_in y_in,
     input_cell 22 22 (normalized 13 22) (normalized 0 22) = Some (x_in, y_in) /\
     13 * 22 / 22 - 1 <= x_in <= 13 * 22 / 22 + 1 /\
     0 * 22 / 22 - 1 <= y_in <= 0 * 22 / 22 + 1).
Proof.
  apply (point_sampling_accuracy 13 0 22 22 (make_int2 22 22) 22 22); cbn; lia.
Defined.

(** The bound is reached: with equal sizes the pixel 13 of 22 samples the
    pixel 12. *)
Lemma same_size_sampling_shifts :
  input_cell 22 22 (normalized 13 22) (normalized 0 22) = Some (12, 0).
Proof. vm_compute. reflexivity. Qed.

(** X17. The origin of the image is not interpolated: the thread of the
    pixel (0,0) stores the same pixel with linear filtering as with point
    filtering (the colour of the class of cell (0,0), blended or not),
    whenever its four neighbours are read and the colours of the table are
    finite, for an output of at most 2^24 columns and rows. *)
Theorem linear_origin_is_point (T : pixelType) (mask_only : bool)
    (input : ptr pixel) (in_width in_height W H : Z)
    (class_colors : ptr float4) (scores : ptr Z) (scores_dim : int2)
    (out : list pixel) :
  0 < W <= 2 ^ 24 -> 0 < H <= 2 ^ 24 ->
  1 <= int2_x scores_dim <= 2 ^ 24 -> 1 <= int2_y scores_dim <= 2 ^ 24 ->
  (forall i c, load class_colors i = Some c -> plain4 c) ->
  is_Some (linear_color class_colors scores scores_dim
             (normalized 0 W) (normalized 0 H)) ->
  gpuSegOverlay T true mask_only input in_width in_height W H
    class_colors scores scores_dim
    (make_dim3 0 0 0) (make_dim3 8 8 1) (make_dim3 0 0 0) out =
  gpuSegOverlay T false mask_only input in_width in_height W H
    class_colors scores scores_dim
    (make_dim3 0 0 0) (make_dim3 8 8 1) (make_dim3 0 0 0) out.
Proof.
  intros HW HH Hsx Hsy Hcol [c Hlin].
  rewrite !gpuSegOverlay_thread by (unfold INT_MAX; lia).
  change (0 * 8 + 0) with 0.
  destruct (_ || _); [done|].
  unfold pixel_value. cbn zeta.
  rewrite !normalized_origin in * by done.
  destruct (linear_axis_origin (int2_x scores_dim) Hsx) as (Hcx & x2 & Hax).
  destruct (linear_axis_origin (int2_y scores_dim) Hsy) as (Hcy & y2 & Hay).
  assert (Hpoint : point_color class_colors scores scores_dim F32.zero F32.zero
                   = Some c).
  { unfold linear_color in Hlin. rewrite Hax, Hay, Hcx, Hcy in Hlin.
    cbn [mbind option_bind fst snd] in Hlin.
    unfold point_color. rewrite point_cell_origin by done.
    cbn [mbind option_bind fst snd].
    destruct (LOOKUP_CLASS_MAP scores scores_dim 0 0) as [id0|]; [|done].
    cbn [mbind option_bind] in *.
    destruct (LOOKUP_CLASS_MAP scores scores_dim x2 0) as [id1|]; [|done].
    cbn [mbind option_bind] in *.
    destruct (LOOKUP_CLASS_MAP scores scores_dim x2 y2) as [id2|]; [|done].
    cbn [mbind option_bind] in *.
    destruct (LOOKUP_CLASS_MAP scores scores_dim 0 y2) as [id3|]; [|done].
    cbn [mbind option_bind] in *.
    destruct (load class_colors id0) as [c0|] eqn:H0; [|done].
    cbn [mbind option_bind] in *.
    destruct (load class_colors id1) as [c1|] eqn:H1; [|done].
    cbn [mbind option_bind] in *.
    destruct (load class_colors id2) as [c2|] eqn:H2; [|done].
    cbn [mbind option_bind] in *.
    destruct (load class_colors id3) as [c3|] eqn:H3; [|done].
    cbn [mbind option_bind] in *.
    injection Hlin as <-. f_equal.
    destruct (Hcol _ _ H0) as (? & ? & ? & ?).
    destruct (Hcol _ _ H1) as ([[_ ?]%andb_true_iff _] & [[_ ?]%andb_true_iff _] &
                               [[_ ?]%andb_true_iff _] & [[_ ?]%andb_true_iff _]).
    destruct (Hcol _ _ H2) as ([[_ ?]%andb_true_iff _] & [[_ ?]%andb_true_iff _] &
                               [[_ ?]%andb_true_iff _] & [[_ ?]%andb_true_iff _]).
    destruct (Hcol _ _ H3) as ([[_ ?]%andb_true_iff _] & [[_ ?]%andb_true_iff _] &
                               [[_ ?]%andb_true_iff _] & [[_ ?]%andb_true_iff _]).
    rewrite !(linear_weights_zero F32.zero 0) by done.
    unfold bilinear4. cbn [fst snd].
    change (F32.mul F32.one F32.one) with F32.one.
    change (F32.mul F32.one F32.zero) with F32.zero.
    change (F32.mul F32.zero F32.one) with F32.zero.
    change (F32.mul F32.zero F32.zero) with F32.zero.
    rewrite !bilinear_first by done. by destruct c0. }
  by rewrite Hlin, Hpoint.
Qed.

Lemma linear_origin_is_point_witness :
  gpuSegOverlay T_uchar3 true true NULL 0 0 4 4
    scenario_colors scenario_scores scenario_dim
    (make_dim3 0 0 0) (make_dim3 8 8 1) (make_dim3 0 0 0) scenario_output =
  gpuSegOverlay T_uchar3 false true NULL 0 0 4 4
    scenario_colors scenario_scores scenario_dim
    (make_dim3 0 0 0) (make_dim3 8 8 1) (make_dim3 0 0 0) scenario_output.
Proof.
  apply (linear_origin_is_point T_uchar3 true NULL 0 0 4 4
           scenario_colors scenario_scores scenario_dim scenario_output).
  - lia.
  - lia.
  - cbn. lia.
  - cbn. lia.
  - apply load_Forall. repeat constructor; vm_compute; discriminate.
  - vm_compute. eexists. reflexivity.
Defined.

(** * Sampling at every size, interpolation up to rounding

    The coordinates [px] and [py] are quotients of numbers rounded to
    binary32, and the score grid and the input image are sampled at products
    of these by dimensions rounded to binary32.  The lemmas below follow
    the roundings for images, grids and colours of any size. *)

(** ** Integers as binary32 numbers *)

Lemma bpow_half (e : Z) : bpow (e - 1) = (bpow e / 2)%R.
Proof.
  replace (e - 1) with (e + -1) by lia. rewrite bpow_add.
  replace (bpow (-1)) with (/ 2)%R; [lra|]. unfold bpow. simpl. lra.
Qed.

Lemma bpow_23 : bpow 23 = 8388608%R.
Proof. rewrite bpow_IZR by lia. reflexivity. Qed.

Lemma bpow_24 : bpow 24 = 16777216%R.
Proof. rewrite bpow_IZR by lia. reflexivity. Qed.

Lemma shl_align_digits (p : positive) (e E : Z) :
  let '(mz, ez) := shl_align p e E in
  ez = Z.min e E /\ (IZR (Zpos mz) * bpow ez = IZR (Zpos p) * bpow e)%R /\
  Zdigits2 (Zpos mz) + ez = Zpos (digits2_pos p) + e.
Proof.
  generalize (shl_align_real p e E). destruct (shl_align p e E) as [mz ez].
  intros [Hez Hval]. split; [done|]. split; [done|].
  apply Z.le_antisymm.
  - apply digits_val; [lia|]. rewrite Hval. apply (digits_upper (Zpos p) e). lia.
  - assert (Zpos (digits2_pos p) + e - 1 < Zdigits2 (Z.pos mz) + ez); [|lia].
    apply digits_val_ge; [lia|]. rewrite Hval. apply (digits_lower (Zpos p) e). lia.
Qed.

Lemma binary_round_valid (s : bool) (p : positive) (e : Z) :
  F32.valid (binary_round 24 128 s p e) = true /\
  is_nan (binary_round 24 128 s p e) = false.
Proof.
  unfold binary_round. fold (fexp32 (Zpos (digits2_pos p) + e)).
  generalize (shl_align_digits p e (fexp32 (Zpos (digits2_pos p) + e))).
  destruct (shl_align p e _) as [mz ez]. intros (Hez & _ & Hdig).
  apply binary_round_aux_valid; [lia|]. rewrite Hdig. lia.
Qed.

Lemma binary_normalize_valid (m e : Z) :
  F32.valid (binary_normalize 24 128 m e false) = true.
Proof.
  destruct m as [|p|p]; [done| |]; apply binary_round_valid.
Qed.

Lemma of_int_valid (z : Z) : F32.valid (F32.of_int z) = true.
Proof. apply binary_normalize_valid. Qed.

(** [float(z)] for [0 < z < 2^31]: the nearest multiple [m1 * 2^E] of
    [2^E], where [E] is 24 less than the number of bits of [z]. *)
Lemma of_int_real (z : Z) : 0 < z < 2 ^ 31 ->
  let E := fexp32 (Zdigits2 z) in
  exists m e m1, F32.of_int z = S754_finite false m e /\
    (IZR (Zpos m) * bpow e = IZR m1 * bpow E)%R /\ E <= e <= E + 1 /\
    (IZR (m1 - 1) * bpow E < IZR z)%R /\
    (Rabs (IZR m1 * bpow E - IZR z) <= bpow E / 2)%R.
Proof.
  intros Hz E. destruct z as [|p|p]; try lia.
  destruct (Zdigits2_bounds (Zpos p) ltac:(lia)) as [[Hlo Hhi] Hd].
  assert (Hd31 : Zdigits2 (Zpos p) <= 31) by (apply Zdigits2_le; lia).
  assert (HE : E = Zdigits2 (Zpos p) - 24) by (unfold E; rewrite fexp32_eq; lia).
  unfold F32.of_int, binary_normalize.
  destruct (binary_round_real false p 0) as (m1 & Hr & Hm1 & Hup & Hnear).
  replace (Zpos (digits2_pos p) + 0) with (Zdigits2 (Zpos p)) in * by (cbn; lia).
  fold E in Hr, Hup, Hnear. change (bpow 0) with 1%R in *. rewrite Rmult_1_r in *.
  destruct (round_result_carries false m1 E Hm1 ltac:(lia))
    as [[-> _]|(Hp1 & m & e & Hm & Hv & He)].
  - (* the result is not zero *)
    exfalso. rewrite Rmult_0_l, Rminus_0_l, Rabs_Ropp, Rabs_right in Hnear.
    2:{ apply Rle_ge, IZR_le. lia. }
    assert (Hl := digits_lower (Zpos p) 0 ltac:(lia)).
    change (bpow 0) with 1%R in Hl. rewrite Rmult_1_r in Hl.
    replace (Zdigits2 (Zpos p) + 0 - 1) with (E + 23) in Hl by lia.
    rewrite bpow_add, (bpow_IZR 23) in Hl by lia.
    assert (Hb := bpow_pos E). change (2 ^ 23) with 8388608 in Hl. nra.
  - exists m, e, m1. rewrite Hr, Hm. done.
Qed.

(** The bounds of [float(z)] read off the number of bits of [z]. *)
Lemma of_int_binade (z : Z) : 0 < z < 2 ^ 31 ->
  let E := fexp32 (Zdigits2 z) in
  E = Zdigits2 z - 24 /\ E <= 7 /\
  (8388608 * bpow E <= IZR z < 16777216 * bpow E)%R.
Proof.
  intros Hz E.
  destruct (Zdigits2_bounds z ltac:(lia)) as [[Hlo Hhi] Hn].
  assert (Hn31 : Zdigits2 z <= 31) by (apply Zdigits2_le; lia).
  assert (HE : E = Zdigits2 z - 24) by (unfold E; rewrite fexp32_eq; lia).
  split; [done|]. split; [lia|].
  assert (H23 : (bpow (Zdigits2 z - 1) = 8388608 * bpow E)%R).
  { replace (Zdigits2 z - 1) with (23 + E) by lia. by rewrite bpow_add, bpow_23. }
  assert (H24 : (bpow (Zdigits2 z) = 16777216 * bpow E)%R).
  { replace (Zdigits2 z) with (24 + E) at 1 by lia. by rewrite bpow_add, bpow_24. }
  rewrite <- H23, <- H24, !bpow_IZR by lia. split; [apply IZR_le|apply IZR_lt]; lia.
Qed.

(** Conversion to [float] is monotone. *)
Lemma of_int_le (x w : Z) : 0 < x <= w -> w < 2 ^ 31 ->
  exists mx ex mw ew,
    F32.of_int x = S754_finite false mx ex /\ F32.of_int w = S754_finite false mw ew /\
    (IZR (Zpos mx) * bpow ex <= IZR (Zpos mw) * bpow ew)%R /\ ex <= 8 /\ ew <= 8.
Proof.
  intros Hx Hw.
  destruct (of_int_real x ltac:(lia)) as (mx & ex & m1x & Hfx & Hvx & Hex & Hupx & Hnx).
  destruct (of_int_real w ltac:(lia)) as (mw & ew & m1w & Hfw & Hvw & Hew & Hupw & Hnw).
  destruct (of_int_binade x ltac:(lia)) as (HEx & HEx7 & Hbx).
  destruct (of_int_binade w ltac:(lia)) as (HEw & HEw7 & Hbw).
  set (Ex := fexp32 (Zdigits2 x)) in *. set (Ew := fexp32 (Zdigits2 w)) in *.
  exists mx, ex, mw, ew. split; [done|]. split; [done|]. split; [|lia].
  rewrite Hvx, Hvw.
  assert (Hux := bpow_pos Ex). assert (Huw := bpow_pos Ew).
  assert (Hdd : Zdigits2 x <= Zdigits2 w).
  { destruct (Zdigits2_bounds w ltac:(lia)) as [[_ Hhi] Hn]. apply Zdigits2_le; lia. }
  destruct (Z.eq_dec (Zdigits2 x) (Zdigits2 w)) as [Heq|Hne].
  - (* the same binade *)
    assert (HE : Ex = Ew) by lia. rewrite HE in *.
    destruct (Z.eq_dec x w) as [->|Hxw].
    { rewrite Hfx in Hfw. injection Hfw as -> ->. lra. }
    assert (Hlt : (IZR x < IZR w)%R) by (apply IZR_lt; lia).
    assert (Hm : (IZR m1x < IZR (m1w + 1))%R).
    { rewrite plus_IZR. unfold Rabs in Hnx, Hnw.
      destruct (Rcase_abs _) in Hnx; destruct (Rcase_abs _) in Hnw; nra. }
    apply lt_IZR in Hm. assert (Hle : m1x <= m1w) by lia. apply IZR_le in Hle. nra.
  - (* [x] has fewer bits than [w] *)
    assert (H1 : (IZR m1x * bpow Ex <= IZR 16777216 * bpow Ex)%R).
    { eapply carried_le_grid; [exact Hupx|]. lra. }
    assert (H2 : (16777216 * bpow Ex <= 8388608 * bpow Ew)%R).
    { assert (H := bpow_le (24 + Ex) (23 + Ew) ltac:(lia)).
      rewrite !bpow_add, bpow_23, bpow_24 in H. exact H. }
    assert (H3 : (IZR (8388608 - 1) < IZR m1w)%R).
    { rewrite minus_IZR. unfold Rabs in Hnw. destruct (Rcase_abs _) in Hnw; nra. }
    apply lt_IZR in H3. assert (Hle : 8388608 <= m1w) by lia. apply IZR_le in Hle. nra.
Qed.

(** ** The cell read in point-filter mode *)

Lemma nn_val_weaken (f : spec_float) (v : R) (e1 e2 : Z) :
  nn_val f v e1 -> e1 <= e2 -> nn_val f v e2.
Proof.
  intros [H|(m & e & H1 & H2 & H3)] He; [by left|].
  right. exists m, e. split; [done|]. split; [done|lia].
Qed.

(** [px * float(dim)] stays below [dim] for every positive [int], also
    where [float(dim)] is above [dim]: [px <= 1 - 2^-24] brings the product
    down to the binary32 number before [float(dim)]. *)
Lemma scaled_bound_wide (p : spec_float) (vp : R) (d : Z) :
  nn_val p vp (-23) -> (0 <= vp <= 1 - bpow (-24))%R ->
  1 <= d <= INT_MAX ->
  exists vc, nn_val (F32.mul p (F32.of_int d)) vc 8 /\ (0 <= vc < IZR d)%R.
Proof.
  intros Hp Hvp Hd.
  destruct (Z_le_gt_dec d (2 ^ 24)) as [Hsmall|Hbig].
  { destruct (scaled_bound p vp d Hp Hvp ltac:(lia)) as (vc & Hc & Hvc).
    exists vc. split; [|done]. apply (nn_val_weaken _ _ 1); [done|lia]. }
  unfold INT_MAX in Hd.
  destruct (of_int_real d ltac:(lia)) as (m & e & m1 & -> & Hv & He & Hup & Hnear).
  destruct (of_int_binade d ltac:(lia)) as (HE & HE7 & HP & HQ).
  set (E := fexp32 (Zdigits2 d)) in *.
  assert (Hn25 : 25 <= Zdigits2 d) by (apply Zdigits2_ge; lia).
  assert (Hu := bpow_pos E). set (u := bpow E) in *.
  assert (H24 := bpow_m24). assert (Hb24 := bpow_pos (-24)).
  change (2 ^ 24) with 16777216 in H24.
  assert (Hm1lo : 8388608 <= m1).
  { assert (H : (IZR (8388608 - 1) < IZR m1)%R).
    { rewrite minus_IZR. unfold Rabs in Hnear. destruct (Rcase_abs _) in Hnear; nra. }
    apply lt_IZR in H. lia. }
  assert (Hm1hi : m1 <= 16777216).
  { assert (H : (IZR (m1 - 1) < IZR 16777216)%R) by nra.
    apply lt_IZR in H. lia. }
  assert (Hm1lo' := IZR_le _ _ Hm1lo). assert (Hm1hi' := IZR_le _ _ Hm1hi).
  destruct Hp as [[-> _]|(mp & ep & -> & -> & Hep)].
  { exists 0%R. split; [by left|]. split; [lra|]. apply IZR_lt. lia. }
  unfold F32.mul; cbn [SFmul xorb].
  set (F := (IZR m1 * u)%R) in *.
  set (v := (IZR (Zpos mp) * bpow ep * F)%R).
  assert (Hvp0 : (0 < IZR (Zpos mp) * bpow ep)%R).
  { apply Rmult_lt_0_compat; [apply IZR_lt; lia|apply bpow_pos]. }
  assert (Hmv : (IZR (Zpos (mp * m)) * bpow (ep + e) = v)%R).
  { unfold v. rewrite <- Hv, Pos2Z.inj_mul, mult_IZR, bpow_add. ring. }
  assert (HF0 : (0 < F)%R) by (unfold F; nra).
  assert (Hv0 : (0 < v)%R) by (unfold v; nra).
  assert (HvF : (v <= F - F * bpow (-24))%R) by (unfold v; nra).
  assert (HFm : (F * bpow (-24) = IZR m1 * bpow (-24) * u)%R) by (unfold F; ring).
  set (D := Zdigits2 (Zpos (mp * m)) + (ep + e)).
  assert (HD : D <= 24 + E).
  { apply digits_val; [lia|]. rewrite Hmv, bpow_add, bpow_24. fold u. unfold F in *. nra. }
  set (E' := Z.max (ep + e) (fexp32 D)).
  assert (HE'E : E' <= E) by (unfold E'; rewrite fexp32_eq; lia).
  destruct (bra_real false (Zpos (mp * m)) (ep + e) loc_Exact v)
    as (m1' & Hc & Hm1' & Hup' & Hnear'); try done; try lia; try lra.
  { fold D E'. lia. }
  fold D E' in Hc, Hup', Hnear'. specialize (Hnear' eq_refl).
  exists (IZR m1' * bpow E')%R. split; [apply carries_nn_val; [done|lia]|].
  split; [apply Rmult_le_pos; [apply IZR_le; lia|apply Rlt_le, bpow_pos]|].
  destruct (Rlt_le_dec v (8388608 * u)) as [Hlow|Hhigh].
  - (* the product is below the binade of [d] *)
    assert (HD23 : D <= 23 + E).
    { apply digits_val; [lia|]. rewrite Hmv, bpow_add, bpow_23. fold u. lra. }
    assert (HE'1 : E' <= E - 1) by (unfold E'; rewrite fexp32_eq; lia).
    assert (HuE' : bpow (E - 1) = (bpow E' * IZR (2 ^ (E - 1 - E')))%R)
      by (apply bpow_shift; lia).
    rewrite bpow_half in HuE'. fold u in HuE'.
    assert (Hle : (IZR m1' * bpow E' <= 8388608 * u)%R).
    { replace (8388608 * u)%R with (IZR (16777216 * 2 ^ (E - 1 - E')) * bpow E')%R
        by (rewrite mult_IZR; lra).
      eapply carried_le_grid; [exact Hup'|]. rewrite mult_IZR. lra. }
    destruct (Rle_lt_or_eq_dec _ _ HP) as [Hlt|Heq]; [lra|].
    (* [d] is a power of two *)
    assert (m1 = 8388608) as Hm1.
    { apply (carried_on_grid m1 8388608 E). fold u. rewrite Heq. exact Hnear. }
    assert (Hle2 : (IZR m1' * bpow E' <= 16777215 * (u / 2))%R).
    { replace (16777215 * (u / 2))%R with (IZR (16777215 * 2 ^ (E - 1 - E')) * bpow E')%R
        by (rewrite mult_IZR; lra).
      eapply carried_le_grid; [exact Hup'|]. rewrite mult_IZR.
      unfold F in *. rewrite Hm1 in *. nra. }
    lra.
  - (* the product is in the binade of [d] *)
    assert (HD24 : 23 + E < D).
    { apply digits_val_ge; [lia|]. rewrite Hmv, bpow_add, bpow_23. fold u. lra. }
    assert (HE'' : E' = E) by (unfold E'; rewrite fexp32_eq; lia).
    rewrite HE'' in *. fold u in Hnear', Hup' |- *.
    assert (Hm1gt : 8388608 < m1).
    { assert (H : (IZR 8388608 < IZR m1)%R) by (unfold F in *; nra).
      apply lt_IZR in H. exact H. }
    apply IZR_lt in Hm1gt.
    assert (Hlt : (IZR m1' < IZR m1)%R).
    { unfold Rabs in Hnear'. destruct (Rcase_abs _) in Hnear'; unfold F in *; nra. }
    apply lt_IZR in Hlt. assert (Hle : m1' <= m1 - 1) by lia.
    apply IZR_le in Hle. rewrite minus_IZR in Hle.
    unfold Rabs in Hnear. destruct (Rcase_abs _) in Hnear; nra.
Qed.

(** Images of at most 2^24 columns, grids of any size. *)
Lemma point_axis_bound_wide (x w d : Z) :
  0 <= x < w -> w <= 2 ^ 24 -> 1 <= d <= INT_MAX ->
  exists z, int_of_float (F32.mul (normalized x w) (F32.of_int d)) = Some z /\
            0 <= z < d.
Proof.
  intros Hx Hw Hd.
  destruct (normalized_bound x w Hx Hw) as (vp & Hp & Hvp).
  destruct (scaled_bound_wide _ vp d Hp Hvp Hd) as (vc & Hc & Hvc).
  destruct (nn_val_trunc _ _ _ Hc) as (z & Hz & Hz0 & Hzv).
  assert (Hzd : z < d) by (apply lt_IZR; lra).
  exists z. split; [|lia].
  unfold int_of_float, normalized. rewrite Hz. cbn.
  apply int_Some. unfold INT_MIN, INT_MAX in *. lia.
Qed.

(** C10. In point-filter mode, for every output pixel of an image of at
    most 2^24 columns and 2^24 rows, and for score grids and input images
    of any positive [int] dimensions, the cells read are in bounds without
    any clamp: [0 <= x1 < scores_dim.x], [0 <= y1 < scores_dim.y] and, in
    overlay mode, [0 <= x_in < in_width], [0 <= y_in < in_height]; where an
    [int] can count the cells, the indices [y1 * scores_dim.x + x1] and
    [y_in * in_width + x_in] are below the number of cells.  Up to 2^24 the
    coordinates [x] and [out_width] are binary32 numbers, so that
    [px <= 1 - 2^-24], and the product [px * float(dim)] is rounded to a
    binary32 number below [dim], also where [float(dim)] is not [dim]. *)
Theorem point_reads_in_bounds (x y W H : Z) (scores_dim : int2) (in_width in_height : Z) :
  0 <= x < W -> 0 <= y < H -> W <= 2 ^ 24 -> H <= 2 ^ 24 ->
  1 <= int2_x scores_dim <= INT_MAX -> 1 <= int2_y scores_dim <= INT_MAX ->
  1 <= in_width <= INT_MAX -> 1 <= in_height <= INT_MAX ->
  (exists x1 y1,
     point_cell scores_dim (normalized x W) (normalized y H) = Some (x1, y1) /\
     0 <= x1 < int2_x scores_dim /\ 0 <= y1 < int2_y scores_dim /\
     (int2_x scores_dim * int2_y scores_dim <= INT_MAX ->
      offset y1 (int2_x scores_dim) x1 = Some (y1 * int2_x scores_dim + x1) /\
      0 <= y1 * int2_x scores_dim + x1 < int2_x scores_dim * int2_y scores_dim)) /\
  (exists x_in y_in,
     input_cell in_width in_height (normalized x W) (normalized y H) = Some (x_in, y_in) /\
     0 <= x_in < in_width /\ 0 <= y_in < in_height /\
     (in_width * in_height <= INT_MAX ->
      offset y_in in_width x_in = Some (y_in * in_width + x_in) /\
      0 <= y_in * in_width + x_in < in_width * in_height)).
Proof.
  intros Hx Hy HW HH Hsx Hsy Hiw Hih. split.
  - destruct (point_axis_bound_wide x W (int2_x scores_dim)) as (x1 & Hx1 & Hb1); try done.
    destruct (point_axis_bound_wide y H (int2_y scores_dim)) as (y1 & Hy1 & Hb2); try done.
    exists x1, y1. unfold point_cell. rewrite Hx1, Hy1. cbn [mbind option_bind].
    split; [done|]. split; [done|]. split; [done|]. intros Hs.
    assert (y1 * int2_x scores_dim + x1 < int2_x scores_dim * int2_y scores_dim) by nia.
    split; [apply offset_Some; lia|nia].
  - destruct (point_axis_bound_wide x W in_width) as (x1 & Hx1 & Hb1); try done.
    destruct (point_axis_bound_wide y H in_height) as (y1 & Hy1 & Hb2); try done.
    exists x1, y1. unfold input_cell. rewrite Hx1, Hy1. cbn [mbind option_bind].
    split; [done|]. split; [done|]. split; [done|]. intros Hi.
    assert (y1 * in_width + x1 < in_width * in_height) by nia.
    split; [apply offset_Some; lia|nia].
Qed.

Lemma point_reads_in_bounds_witness :
  (exists x1 y1,
     point_cell (make_int2 2147483647 3) (normalized 16777215 16777216) (normalized 1 4)
       = Some (x1, y1) /\
     0 <= x1 < 2147483647 /\ 0 <= y1 < 3 /\
     (2147483647 * 3 <= INT_MAX ->
      offset y1 2147483647 x1 = Some (y1 * 2147483647 + x1) /\
      0 <= y1 * 2147483647 + x1 < 2147483647 * 3)) /\
  (exists x_in y_in,
     input_cell 4 4 (normalized 16777215 16777216) (normalized 1 4) = Some (x_in, y_in) /\
     0 <= x_in < 4 /\ 0 <= y_in < 4 /\
     (4 * 4 <= INT_MAX ->
      offset y_in 4 x_in = Some (y_in * 4 + x_in) /\
      0 <= y_in * 4 + x_in < 4 * 4)).
Proof.
  apply (point_reads_in_bounds 16777215 1 16777216 4 (make_int2 2147483647 3) 4 4);
    cbn; unfold INT_MAX; lia.
Defined.

(** C10, counterexample: in an image of 2^24 + 1 columns the pixel of
    column 2^24 has [px = 1.0] (both numbers round to 16777216.0f), and on a
    score grid of 2 columns it reads the column [x1 = 2], outside the grid. *)
Lemma point_cell_out_of_bounds :
  0 <= 16777216 < 16777217 /\
  point_cell (make_int2 2 1) (normalized 16777216 16777217) (normalized 0 1)
    = Some (2, 0) /\
  ~ (2 < int2_x (make_int2 2 1)).
Proof. split; [lia|]. split; [vm_compute; reflexivity|]. cbn. lia. Qed.

(** ** The neighbours read in linear-filter mode *)

(** The product by [float(dim)] is a valid number: the mantissa of
    [float(dim)] has 24 bits. *)
Lemma scaled_valid (mp : positive) (ep d : Z) :
  1 <= d <= INT_MAX ->
  F32.valid (F32.mul (S754_finite false mp ep) (F32.of_int d)) = true.
Proof.
  intros Hd. unfold INT_MAX in Hd.
  assert (Hval := of_int_valid d).
  destruct (of_int_real d ltac:(lia)) as (m & e & m1 & Hm & Hv & He & _).
  rewrite Hm in Hval |- *. unfold F32.mul; cbn [SFmul xorb].
  apply binary_round_aux_valid; [lia|].
  apply valid_exponent in Hval.
  destruct (Zdigits2_bounds d ltac:(lia)) as [_ Hn].
  rewrite !fexp32_eq in *.
  assert (Hdm : Zpos (digits2_pos m) = 24) by lia.
  assert (Hdp := digits2_pos_bounds mp). assert (Hdm' := digits2_pos_bounds m).
  rewrite Hdm in Hdm'. change (24 - 1) with 23 in Hdm'.
  assert (24 <= Zdigits2 (Zpos (mp * m))).
  { apply Zdigits2_ge; [|lia]. change (24 - 1) with 23. rewrite Pos2Z.inj_mul. nia. }
  lia.
Qed.

(** A rounded number below zero stays below zero. *)
Lemma binary_round_negative (p : positive) (e : Z) :
  -149 <= e -> SFltb (binary_round 24 128 true p e) (S754_zero false) = true.
Proof.
  intros He.
  destruct (binary_round_real true p e) as (m1 & -> & Hm1 & _ & Hnear).
  set (E := fexp32 (Zpos (digits2_pos p) + e)) in *.
  assert (Hm0 : m1 <> 0).
  { intros ->. rewrite Rmult_0_l, Rminus_0_l, Rabs_Ropp, Rabs_right in Hnear.
    2:{ apply Rle_ge, Rmult_le_pos; [apply IZR_le; lia|apply Rlt_le, bpow_pos]. }
    assert (Hl := digits_lower (Zpos p) e ltac:(lia)).
    change (Zdigits2 (Zpos p)) with (Zpos (digits2_pos p)) in Hl.
    assert (Hp1 : (1 <= IZR (Zpos p))%R) by (apply IZR_le; lia).
    assert (Hbe := bpow_pos e). assert (HbE := bpow_pos E).
    destruct (Z_le_gt_dec E e) as [Hle|Hgt].
    - assert (H := bpow_le E e Hle). nra.
    - assert (HE : E = Zpos (digits2_pos p) + e - 24)
        by (unfold E in *; rewrite fexp32_eq in *; lia).
      assert (H := bpow_lt (E - 1) (Zpos (digits2_pos p) + e - 1) ltac:(lia)).
      rewrite bpow_half in H. lra. }
  unfold round_result.
  destruct (Z.eqb_spec m1 0); [done|].
  destruct (m1 =? 2 ^ 24); destruct (_ <=? _); reflexivity.
Qed.

(** [max(c - 0.5, 0)] is not above [c]. *)
Lemma linear_coord_le (c : spec_float) (vc : R) (eb : Z) :
  F32.valid c = true -> nn_val c vc eb -> eb <= 100 ->
  let b := F32.sub c F32.half in
  let cx := if F32.lt b F32.zero then F32.zero else b in
  exists vx, nn_val cx vx (eb + 1) /\ (0 <= vx <= vc)%R.
Proof.
  intros Hval Hc Heb. cbn zeta. unfold F32.lt, F32.zero, F32.half, F32.sub.
  destruct Hc as [[-> ->]|(mc & ec & -> & -> & Hec)].
  { cbn. exists 0%R. split; [by left|lra]. }
  assert (Hvc0 : (0 < IZR (Zpos mc) * bpow ec)%R).
  { apply Rmult_lt_0_compat; [apply IZR_lt; lia|apply bpow_pos]. }
  cbn [SFsub cond_Zopp].
  set (ez := Z.min ec (-24)).
  generalize (shl_align_real mc ec ez). destruct (shl_align mc ec ez) as [a ea].
  intros [Hea Ha].
  generalize (shl_align_real 8388608 (-24) ez).
  destruct (shl_align 8388608 (-24) ez) as [h eh]. intros [Heh Hh].
  cbn [fst].
  replace (Z.min ec ez) with ez in Hea by (unfold ez; lia).
  replace (Z.min (-24) ez) with ez in Heh by (unfold ez; lia).
  subst ea eh.
  assert (Hhalf : (IZR 8388608 * bpow (-24) = 1 / 2)%R).
  { change 8388608 with (2 ^ 23). rewrite <- bpow_IZR by lia.
    rewrite <- bpow_add. unfold bpow. simpl. lra. }
  rewrite Hhalf in Hh.
  assert (Hbz := bpow_pos ez).
  assert (Hdiff : (IZR (Zpos a - Zpos h) * bpow ez = IZR (Zpos mc) * bpow ec - 1 / 2)%R).
  { rewrite minus_IZR. lra. }
  destruct (Zpos a - Zpos h) as [|q|q] eqn:Hq; cbn [binary_normalize].
  - cbn. exists 0%R. split; [by left|lra].
  - (* c > 0.5 *)
    destruct (binary_round_real false q ez) as (m1 & -> & Hm1 & Hup & _).
    set (E := fexp32 (Zpos (digits2_pos q) + ez)) in *.
    apply valid_exponent in Hval.
    assert (HD : Zpos (digits2_pos q) + ez <= Zpos (digits2_pos mc) + ec).
    { apply (digits_val (Zpos q)); [lia|]. rewrite Hdiff.
      assert (Hu := digits_upper (Zpos mc) ec ltac:(lia)).
      change (Zdigits2 (Zpos mc)) with (Zpos (digits2_pos mc)) in Hu. lra. }
    assert (HE : E <= ec) by (unfold E; rewrite fexp32_eq in *; lia).
    assert (HB : (IZR (Zpos mc) * bpow ec = IZR (Zpos mc * 2 ^ (ec - E)) * bpow E)%R).
    { rewrite mult_IZR, (bpow_shift E ec) by lia. ring. }
    assert (Hle : (IZR m1 * bpow E <= IZR (Zpos mc) * bpow ec)%R).
    { rewrite HB. eapply carried_le_grid; [exact Hup|]. rewrite <- HB, Hdiff. lra. }
    assert (Hnn : nn_val (round_result false m1 E) (IZR m1 * bpow E) (eb + 1)).
    { apply carries_nn_val; [apply round_result_carries; lia|lia]. }
    assert (Hpos : (0 <= IZR m1 * bpow E)%R).
    { apply Rmult_le_pos; [apply IZR_le; lia|apply Rlt_le, bpow_pos]. }
    exists (IZR m1 * bpow E)%R.
    destruct Hnn as [[-> Hz]|(m'' & e'' & -> & Hv'' & He'')].
    + cbn. split; [by left|lra].
    + cbn [SFltb SFcompare]. split; [|lra]. right. by exists m'', e''.
  - (* c < 0.5 *)
    exists 0%R. split; [|lra].
    apply valid_mantissa in Hval.
    rewrite binary_round_negative by (unfold ez; lia). by left.
Qed.

(** The two neighbours of [linear_axis] once the low one is in the grid. *)
Lemma linear_axis_clamped (p : float) (d z : Z) :
  F32.trunc (linear_coord p d) = Some z -> 0 <= z <= d - 1 -> d <= INT_MAX ->
  linear_axis p d = Some (z, Spec.high_neighbor z d).
Proof.
  intros Hz Hzd Hd.
  unfold linear_axis, int_of_float. rewrite Hz. cbn.
  unfold INT_MAX in Hd.
  rewrite int_Some by (unfold INT_MIN, INT_MAX; lia). cbn.
  unfold int_sub. rewrite int_Some by (unfold INT_MIN, INT_MAX; lia). cbn.
  unfold Spec.high_neighbor.
  destruct (Z.geb_spec z (d - 1)); cbn.
  - do 2 f_equal. lia.
  - unfold int_add. rewrite int_Some by (unfold INT_MIN, INT_MAX; lia). cbn.
    do 2 f_equal. lia.
Qed.

(** Images of at most 2^24 columns, score grids of any size. *)
Lemma linear_axis_small_image (x w d : Z) :
  0 <= x < w -> w <= 2 ^ 24 -> 1 <= d <= INT_MAX ->
  exists x1, linear_axis (normalized x w) d = Some (x1, Spec.high_neighbor x1 d) /\
             0 <= x1 <= d - 1.
Proof.
  intros Hx Hw Hd.
  destruct (normalized_bound x w Hx Hw) as (vp & Hp & Hvp).
  destruct (scaled_bound_wide _ vp d Hp Hvp Hd) as (vc & Hc & Hvc).
  assert (Hval : F32.valid (F32.mul (normalized x w) (F32.of_int d)) = true).
  { unfold normalized. destruct Hp as [[-> _]|(mp & ep & -> & _)].
    - unfold INT_MAX in Hd.
      destruct (of_int_real d ltac:(lia)) as (m & e & m1 & -> & _). done.
    - by apply scaled_valid. }
  destruct (linear_coord_le _ vc 8 Hval Hc ltac:(lia)) as (vx & Hcx & Hvx).
  destruct (nn_val_trunc _ _ _ Hcx) as (z & Hz & Hz0 & Hzv).
  assert (Hzd : z < d) by (apply lt_IZR; lra).
  exists z. split; [|lia]. apply linear_axis_clamped; [done|lia|lia].
Qed.

(** [px <= 1] in an image of any size. *)
Lemma normalized_le_one (x w : Z) :
  0 <= x < w -> w <= INT_MAX ->
  exists v, nn_val (normalized x w) v (-22) /\ (0 <= v <= 1)%R.
Proof.
  intros Hx Hw. unfold INT_MAX in Hw. unfold normalized.
  destruct (Z.eq_dec x 0) as [->|Hx0].
  { destruct (of_int_real w ltac:(lia)) as (mw & ew & m1w & -> & _).
    exists 0%R. split; [by left|lra]. }
  destruct (of_int_le x w ltac:(lia) ltac:(lia))
    as (mx & ex & mw & ew & -> & -> & Hle & Hex & Hew).
  unfold F32.div; cbn [SFdiv xorb].
  generalize (div_core_spec mx mw ex ew).
  destruct (SFdiv_core_binary 24 128 (Zpos mx) ex (Zpos mw) ew) as [[q e'] l].
  cbn zeta.
  set (X := (IZR (Zpos mx) * bpow ex)%R) in *. set (Y := (IZR (Zpos mw) * bpow ew)%R) in *.
  set (v := (X / Y)%R).
  intros (Hq & He' & Hlo & Hex' & Hin).
  assert (HX : (0 < X)%R).
  { apply Rmult_lt_0_compat; [apply IZR_lt; lia|apply bpow_pos]. }
  assert (HvY : (v * Y = X)%R) by (unfold v; field; lra).
  assert (Hv0 : (0 < v)%R) by (unfold v; apply Rdiv_lt_0_compat; lra).
  assert (Hv1 : (v <= 1)%R).
  { apply Rmult_le_reg_r with Y; [lra|]. rewrite HvY. lra. }
  assert (Hd : Zdigits2 (Zpos mx) + ex <= Zdigits2 (Zpos mw) + ew).
  { apply digits_val; [lia|]. fold X.
    assert (Hu := digits_upper (Zpos mw) ew ltac:(lia)). fold Y in Hu. lra. }
  assert (He24 : e' <= -24) by (rewrite He', fexp32_eq; lia).
  assert (Hdq : Zdigits2 q + e' <= 1).
  { destruct (Z.eq_dec q 0) as [->|]; [cbn; lia|].
    apply digits_val; [lia|]. rewrite bpow_1. lra. }
  assert (HE : Z.max e' (fexp32 (Zdigits2 q + e')) <= -23) by (rewrite fexp32_eq; lia).
  destruct (bra_real false q e' l v) as (m1 & Hc & Hm1 & Hup & _); try done; try lia.
  set (E := Z.max e' (fexp32 (Zdigits2 q + e'))) in *.
  exists (IZR m1 * bpow E)%R. split; [apply carries_nn_val; [done|lia]|].
  split; [apply Rmult_le_pos; [apply IZR_le; lia|apply Rlt_le, bpow_pos]|].
  assert (HB : (1 = IZR (2 ^ (- E)) * bpow E)%R).
  { rewrite <- (bpow_IZR (- E)), <- bpow_add by lia.
    replace (- E + E) with 0 by lia. reflexivity. }
  rewrite HB. eapply carried_le_grid; [exact Hup|]. rewrite <- HB. done.
Qed.

(** [px * float(dim) <= dim] on a score grid of at most 2^23 columns. *)
Lemma scaled_le (p : spec_float) (vp : R) (d : Z) :
  nn_val p vp (-22) -> (0 <= vp <= 1)%R -> 1 <= d <= 2 ^ 23 ->
  exists vc, nn_val (F32.mul p (F32.of_int d)) vc 3 /\ (0 <= vc <= IZR d)%R.
Proof.
  intros Hp Hvp Hd.
  destruct (of_int_exact d ltac:(lia)) as (md & ed & -> & Hvd & Hed).
  assert (Hd1 : (1 <= IZR d)%R) by (apply IZR_le; lia).
  destruct Hp as [[-> _]|(mp & ep & -> & -> & Hep)].
  { exists 0%R. split; [by left|lra]. }
  unfold F32.mul; cbn [SFmul xorb].
  set (v := (IZR (Zpos mp) * bpow ep * IZR d)%R).
  assert (Hd23 : (IZR d <= IZR (2 ^ 23))%R) by (apply IZR_le; lia).
  assert (Hvp0 : (0 < IZR (Zpos mp) * bpow ep)%R).
  { apply Rmult_lt_0_compat; [apply IZR_lt; lia|apply bpow_pos]. }
  assert (Hmv : (IZR (Zpos (mp * md)) * bpow (ep + ed) = v)%R).
  { unfold v. rewrite <- Hvd, Pos2Z.inj_mul, mult_IZR, bpow_add. ring. }
  assert (Hv0 : (0 < v)%R) by (unfold v; nra).
  assert (Hvd' : (v <= IZR d)%R) by (unfold v; nra).
  set (D := Zdigits2 (Zpos (mp * md)) + (ep + ed)).
  assert (HD : D <= 24).
  { apply digits_val; [lia|]. rewrite Hmv, (bpow_IZR 24) by lia.
    assert (IZR (2 ^ 23) < IZR (2 ^ 24))%R by (apply IZR_lt; lia). lra. }
  set (E := Z.max (ep + ed) (fexp32 D)).
  assert (HE : E <= 0) by (unfold E; rewrite fexp32_eq; lia).
  destruct (bra_real false (Zpos (mp * md)) (ep + ed) loc_Exact v)
    as (m1 & Hc & Hm1 & Hup & _); try done; try lia; try lra.
  { fold D E. lia. }
  fold D E in Hc, Hup.
  exists (IZR m1 * bpow E)%R. split; [apply carries_nn_val; [done|lia]|].
  split; [apply Rmult_le_pos; [apply IZR_le; lia|apply Rlt_le, bpow_pos]|].
  assert (HB : (IZR d = IZR (d * 2 ^ (- E)) * bpow E)%R).
  { rewrite mult_IZR, <- (bpow_IZR (- E)) by lia.
    rewrite Rmult_assoc, <- bpow_add. replace (- E + E) with 0 by lia.
    change (bpow 0) with 1%R. lra. }
  rewrite HB. eapply carried_le_grid; [exact Hup|]. rewrite <- HB. done.
Qed.

(** Score grids of at most 2^23 columns, images of any size. *)
Lemma linear_axis_small_grid (x w d : Z) :
  0 <= x < w -> w <= INT_MAX -> 1 <= d <= 2 ^ 23 ->
  exists x1, linear_axis (normalized x w) d = Some (x1, Spec.high_neighbor x1 d) /\
             0 <= x1 <= d - 1.
Proof.
  intros Hx Hw Hd.
  destruct (normalized_le_one x w Hx Hw) as (vp & Hp & Hvp).
  destruct (scaled_le _ vp d Hp Hvp Hd) as (vc & Hc & Hvc).
  destruct (linear_coord_trunc_le _ vc d 3 Hc Hvc Hd) as (z & Hz & Hzd).
  exists z. split; [|done]. apply linear_axis_clamped; [done|done|].
  unfold INT_MAX. lia.
Qed.

(** C5.  In linear-filter mode, along each axis on which the image has at
    most 2^24 pixels or the score grid at most 2^23 cells, the low
    neighbour lies in the grid and the high neighbour is
    [x2 = min(x1+1, scores_dim.x-1)], [y2 = min(y1+1, scores_dim.y-1)]: on
    the last column or row the high neighbour is the low one, the four
    cells read all lie in [0, scores_dim.x) x [0, scores_dim.y), and on a
    1x1 grid they are all the cell (0,0). *)
Theorem linear_neighbors_clamped (x y W H : Z) (scores_dim : int2) :
  0 <= x < W -> 0 <= y < H -> W <= INT_MAX -> H <= INT_MAX ->
  1 <= int2_x scores_dim <= INT_MAX -> 1 <= int2_y scores_dim <= INT_MAX ->
  W <= 2 ^ 24 \/ int2_x scores_dim <= 2 ^ 23 ->
  H <= 2 ^ 24 \/ int2_y scores_dim <= 2 ^ 23 ->
  exists x1 y1,
    let x2 := Spec.high_neighbor x1 (int2_x scores_dim) in
    let y2 := Spec.high_neighbor y1 (int2_y scores_dim) in
    linear_axis (normalized x W) (int2_x scores_dim) = Some (x1, x2) /\
    linear_axis (normalized y H) (int2_y scores_dim) = Some (y1, y2) /\
    (0 <= x1 <= x2 /\ x2 < int2_x scores_dim) /\
    (0 <= y1 <= y2 /\ y2 < int2_y scores_dim) /\
    (x1 = int2_x scores_dim - 1 -> x2 = x1) /\
    (y1 = int2_y scores_dim - 1 -> y2 = y1) /\
    (int2_x scores_dim = 1 -> int2_y scores_dim = 1 ->
       x1 = 0 /\ y1 = 0 /\ x2 = 0 /\ y2 = 0).
Proof.
  intros Hx Hy HW HH Hsx Hsy Hcx Hcy.
  assert (Hax : exists x1, linear_axis (normalized x W) (int2_x scores_dim)
              = Some (x1, Spec.high_neighbor x1 (int2_x scores_dim)) /\
              0 <= x1 <= int2_x scores_dim - 1).
  { destruct Hcx; [apply linear_axis_small_image|apply linear_axis_small_grid]; lia. }
  assert (Hay : exists y1, linear_axis (normalized y H) (int2_y scores_dim)
              = Some (y1, Spec.high_neighbor y1 (int2_y scores_dim)) /\
              0 <= y1 <= int2_y scores_dim - 1).
  { destruct Hcy; [apply linear_axis_small_image|apply linear_axis_small_grid]; lia. }
  destruct Hax as (x1 & Hx1 & Hb1). destruct Hay as (y1 & Hy1 & Hb2).
  exists x1, y1. cbn zeta. unfold Spec.high_neighbor in *.
  split; [done|]. split; [done|]. repeat split; lia.
Qed.

Lemma linear_neighbors_clamped_witness :
  exists x1 y1,
    let x2 := Spec.high_neighbor x1 8388610 in
    let y2 := Spec.high_neighbor y1 2 in
    linear_axis (normalized 16777215 16777216) 8388610 = Some (x1, x2) /\
    linear_axis (normalized 16777216 16777217) 2 = Some (y1, y2) /\
    (0 <= x1 <= x2 /\ x2 < 8388610) /\
    (0 <= y1 <= y2 /\ y2 < 2) /\
    (x1 = 8388610 - 1 -> x2 = x1) /\
    (y1 = 2 - 1 -> y2 = y1) /\
    (8388610 = 1 -> 2 = 1 -> x1 = 0 /\ y1 = 0 /\ x2 = 0 /\ y2 = 0).
Proof.
  apply (linear_neighbors_clamped 16777215 16777216 16777216 16777217
           (make_int2 8388610 2)); cbn; unfold INT_MAX; lia.
Defined.

(** C5, counterexample: in an image of 2^24 + 1 columns over a score grid
    of 2^23 + 2 columns, the pixel of column 2^24 has the low neighbour
    [x1 = scores_dim.x]; the bounds check keeps [x2 = x1], which is not
    [min(x1+1, scores_dim.x-1)], and both columns are outside the grid. *)
Lemma linear_neighbor_out_of_bounds :
  0 <= 16777216 < 16777217 /\
  linear_axis (normalized 16777216 16777217) 8388610 = Some (8388610, 8388610) /\
  Spec.high_neighbor 8388610 8388610 <> 8388610 /\
  ~ (8388610 < 8388610).
Proof.
  split; [lia|]. split; [vm_compute; reflexivity|].
  split; [vm_compute; discriminate|lia].
Qed.

(** ** The error of one rounding *)

Lemma bpow_m24_inv : bpow (-24) = (/ 16777216)%R.
Proof.
  assert (H := bpow_m24). change (2 ^ 24) with 16777216 in H.
  apply Rmult_eq_reg_r with 16777216%R; [|lra]. rewrite H. field.
Qed.

(** Half a unit in the last place of [m * 2^e]. *)
Lemma half_ulp_bound (m e : Z) : 0 < m ->
  (bpow (fexp32 (Zdigits2 m + e)) / 2 <= bpow (-24) * (IZR m * bpow e) + bpow (-150))%R.
Proof.
  intros Hm. rewrite fexp32_eq, <- bpow_half.
  assert (Hl := digits_lower m e Hm).
  assert (H24 := bpow_pos (-24)). assert (H150 := bpow_pos (-150)).
  assert (Hv : (0 < IZR m * bpow e)%R).
  { apply Rmult_lt_0_compat; [apply IZR_lt; lia|apply bpow_pos]. }
  destruct (Z.max_spec (Zdigits2 m + e - 24) (-149)) as [[_ ->]|[_ ->]].
  - change (-149 - 1) with (-150). nra.
  - replace (Zdigits2 m + e - 24 - 1) with (-24 + (Zdigits2 m + e - 1)) by lia.
    rewrite bpow_add. nra.
Qed.

Lemma carries_magnitude (r : spec_float) (s : bool) (m1 E eb : Z) :
  carries r s m1 E -> E + 1 <= eb -> magnitude r s (IZR m1 * bpow E) eb.
Proof.
  intros [[-> ->]|(_ & m & e & -> & Hv & He)] Hb.
  - left. split; [by eexists|]. lra.
  - right. exists m, e. split; [done|]. split; [lra|lia].
Qed.

Lemma magnitude_nonneg (f : spec_float) (s : bool) (v : R) (eb : Z) :
  magnitude f s v eb -> (0 <= v)%R.
Proof.
  intros [[_ ->]|(m & e & _ & -> & _)]; [lra|].
  apply Rmult_le_pos; [apply IZR_le; lia|apply Rlt_le, bpow_pos].
Qed.

Lemma magnitude_value (f : spec_float) (s : bool) (v : R) (eb : Z) :
  magnitude f s v eb ->
  F32.is_finite f = true /\ value f = (if s then - v else v)%R.
Proof.
  intros [[[s' ->] ->]|(m & e & -> & -> & _)]; (split; [done|]); cbn.
  - destruct s; lra.
  - reflexivity.
Qed.

(** The product of a number by a weight: the relative error is at most
    [2^-24], up to [2^-150] where the product is subnormal. *)
Lemma mul_magnitude (c w : spec_float) (s : bool) (vc vw : R) (ec ew : Z) :
  magnitude c s vc ec -> nn_val w vw ew -> ec + ew <= 102 ->
  (vc * vw <= bpow 120)%R ->
  exists v, magnitude (F32.mul c w) s v 103 /\
    (Rabs (v - vc * vw) <= bpow (-24) * (vc * vw) + bpow (-150))%R.
Proof.
  intros Hc Hw He Hb.
  assert (H24 := bpow_pos (-24)). assert (H150 := bpow_pos (-150)).
  assert (Hzero : forall s', exists v, magnitude (S754_zero s') s v 103 /\
            (Rabs (v - 0) <= bpow (-24) * 0 + bpow (-150))%R).
  { intros s'. exists 0%R. split; [left; split; [by eexists|done]|].
    rewrite Rminus_0_r, Rabs_R0. lra. }
  destruct Hc as [[[s' ->] ->]|(mc & ec' & -> & -> & Hec)].
  { rewrite Rmult_0_l.
    destruct Hw as [[-> _]|(mw & ew' & -> & _)]; apply Hzero. }
  destruct Hw as [[-> ->]|(mw & ew' & -> & -> & Hew)].
  { rewrite Rmult_0_r. apply Hzero. }
  unfold F32.mul; cbn [SFmul]. rewrite xorb_false_r.
  set (v0 := (IZR (Zpos mc) * bpow ec' * (IZR (Zpos mw) * bpow ew'))%R) in *.
  assert (Hmv : (IZR (Zpos (mc * mw)) * bpow (ec' + ew') = v0)%R).
  { unfold v0. rewrite Pos2Z.inj_mul, mult_IZR, bpow_add. ring. }
  set (D := Zdigits2 (Zpos (mc * mw)) + (ec' + ew')).
  assert (HD : D <= 121).
  { apply digits_val; [lia|]. rewrite Hmv.
    assert (H := bpow_lt 120 121 ltac:(lia)). lra. }
  set (E := Z.max (ec' + ew') (fexp32 D)).
  assert (HE : E <= 102) by (unfold E; rewrite fexp32_eq; lia).
  destruct (bra_real s (Zpos (mc * mw)) (ec' + ew') loc_Exact v0)
    as (m1 & Hcar & Hm1 & _ & Hnear); try done; try lia; try lra.
  { fold D E. lia. }
  fold D E in Hcar, Hnear. specialize (Hnear eq_refl).
  exists (IZR m1 * bpow E)%R. split; [apply carries_magnitude; [done|lia]|].
  assert (Hv0 : (0 < v0)%R).
  { rewrite <- Hmv. apply Rmult_lt_0_compat; [apply IZR_lt; lia|apply bpow_pos]. }
  destruct (Z.eq_dec E (ec' + ew')) as [HEe|HEe].
  - rewrite <- Hmv, <- HEe in Hnear |- *. apply carried_on_grid in Hnear.
    rewrite Hnear, Rminus_diag, Rabs_R0. rewrite HEe, Hmv. nra.
  - assert (HEf : E = fexp32 D) by (unfold E in *; lia).
    eapply Rle_trans; [exact Hnear|]. rewrite HEf, <- Hmv.
    apply half_ulp_bound. lia.
Qed.

(** The sum of two numbers of the same sign. *)
Lemma add_magnitude (a b : spec_float) (s : bool) (va vb : R) (ea eb : Z) :
  magnitude a s va ea -> magnitude b s vb eb -> ea <= 103 -> eb <= 103 ->
  (va + vb <= bpow 120)%R ->
  exists v, magnitude (F32.add a b) s v 103 /\
    (Rabs (v - (va + vb)) <= bpow (-24) * (va + vb) + bpow (-150))%R.
Proof.
  intros Ha Hb Hea Heb Hbound.
  assert (H24 := bpow_pos (-24)). assert (H150 := bpow_pos (-150)).
  assert (Hva := magnitude_nonneg _ _ _ _ Ha). assert (Hvb := magnitude_nonneg _ _ _ _ Hb).
  assert (Hsame : forall f v e, magnitude f s v e -> e <= 103 -> (0 <= v)%R ->
            exists v', magnitude f s v' 103 /\
              (Rabs (v' - v) <= bpow (-24) * v + bpow (-150))%R).
  { intros f v e Hf He Hv. exists v. split.
    - destruct Hf as [Hf|(m & e' & Hf & Hv' & He')]; [by left|].
      right. exists m, e'. split; [done|]. split; [done|lia].
    - rewrite Rminus_diag, Rabs_R0. nra. }
  destruct Ha as [[[sa ->] ->]|(ma & ea' & -> & -> & Hea')].
  { rewrite Rplus_0_l.
    destruct Hb as [[[sb ->] ->]|(mb & eb' & -> & -> & Heb')].
    - unfold F32.add; cbn [SFadd].
      destruct sa, sb; apply (Hsame _ _ 0); try lia; try lra;
        left; (split; [by eexists|done]).
    - unfold F32.add; cbn [SFadd]. apply (Hsame _ _ eb'); [|lia|lra].
      right. by exists mb, eb'. }
  destruct Hb as [[[sb ->] ->]|(mb & eb' & -> & -> & Heb')].
  { rewrite Rplus_0_r. unfold F32.add; cbn [SFadd]. apply (Hsame _ _ ea'); [|lia|lra].
    right. by exists ma, ea'. }
  unfold F32.add; cbn [SFadd].
  set (ez := Z.min ea' eb').
  generalize (shl_align_real ma ea' ez). destruct (shl_align ma ea' ez) as [a' ea''].
  intros [Hea'' Hva'].
  generalize (shl_align_real mb eb' ez). destruct (shl_align mb eb' ez) as [b' eb''].
  intros [Heb'' Hvb'].
  cbn [fst].
  replace (Z.min ea' ez) with ez in Hea'' by (unfold ez; lia).
  replace (Z.min eb' ez) with ez in Heb'' by (unfold ez; lia).
  subst ea'' eb''.
  set (v0 := (IZR (Zpos ma) * bpow ea' + IZR (Zpos mb) * bpow eb')%R) in *.
  assert (Hsum : (IZR (Zpos (a' + b')) * bpow ez = v0)%R).
  { unfold v0. rewrite Pos2Z.inj_add, plus_IZR. lra. }
  assert (Hnorm : binary_normalize 24 128
            (cond_Zopp s (Zpos a') + cond_Zopp s (Zpos b')) ez false
          = binary_round 24 128 s (a' + b') ez).
  { destruct s; reflexivity. }
  rewrite Hnorm.
  destruct (binary_round_real s (a' + b') ez) as (m1 & -> & Hm1 & _ & Hnear).
  rewrite Hsum in Hnear.
  set (D := Zpos (digits2_pos (a' + b')) + ez) in *.
  assert (HD : D <= 121).
  { apply (digits_val (Zpos (a' + b'))); [lia|]. rewrite Hsum.
    assert (H := bpow_lt 120 121 ltac:(lia)). lra. }
  assert (HE : fexp32 D <= 97) by (rewrite fexp32_eq; lia).
  exists (IZR m1 * bpow (fexp32 D))%R.
  split; [apply carries_magnitude; [apply round_result_carries; lia|lia]|].
  eapply Rle_trans; [exact Hnear|]. rewrite <- Hsum.
  apply (half_ulp_bound (Zpos (a' + b')) ez). lia.
Qed.

(** ** The bilinear weights *)

Lemma one_value : (IZR 8388608 * bpow (-23) = 1)%R.
Proof.
  change 8388608 with (2 ^ 23). rewrite <- bpow_IZR by lia.
  rewrite <- bpow_add. reflexivity.
Qed.

Lemma unit_on_grid (E : Z) : E <= 0 -> (1 = IZR (2 ^ (- E)) * bpow E)%R.
Proof.
  intros HE. rewrite <- (bpow_IZR (- E)), <- bpow_add by lia.
  replace (- E + E) with 0 by lia. reflexivity.
Qed.

(** [1.0f - x] for [0 <= x <= 1]. *)
Lemma one_minus (x : spec_float) (vx : R) (eb : Z) :
  nn_val x vx eb -> (0 <= vx <= 1)%R ->
  exists a, nn_val (F32.sub F32.one x) a (-23) /\ (0 <= a <= 1)%R /\
    (Rabs (a - (1 - vx)) <= bpow (-25))%R.
Proof.
  intros Hx Hvx. assert (H25 := bpow_pos (-25)). assert (H1 := one_value).
  destruct Hx as [[-> ->]|(mx & ex & -> & -> & Hex)].
  { exists 1%R. split; [right; exists 8388608%positive, (-23); by rewrite H1|].
    split; [lra|]. rewrite Rminus_0_r, Rminus_diag, Rabs_R0. lra. }
  unfold F32.sub, F32.one. cbn [SFsub cond_Zopp].
  set (ez := Z.min (-23) ex).
  generalize (shl_align_real 8388608 (-23) ez). destruct (shl_align 8388608 (-23) ez) as [h eh].
  intros [Heh Hh].
  generalize (shl_align_real mx ex ez). destruct (shl_align mx ex ez) as [a ea].
  intros [Hea Ha].
  cbn [fst].
  replace (Z.min (-23) ez) with ez in Heh by (unfold ez; lia).
  replace (Z.min ex ez) with ez in Hea by (unfold ez; lia).
  subst ea eh. rewrite H1 in Hh.
  assert (Hbz := bpow_pos ez).
  assert (Hvx0 : (0 < IZR (Zpos mx) * bpow ex)%R).
  { apply Rmult_lt_0_compat; [apply IZR_lt; lia|apply bpow_pos]. }
  assert (Hdiff : (IZR (Zpos h - Zpos a) * bpow ez = 1 - IZR (Zpos mx) * bpow ex)%R).
  { rewrite minus_IZR. lra. }
  destruct (Zpos h - Zpos a) as [|q|q] eqn:Hq; cbn [binary_normalize].
  - exists 0%R. split; [by left|]. split; [lra|].
    rewrite Rmult_0_l in Hdiff. rewrite <- Hdiff, Rminus_diag, Rabs_R0. lra.
  - destruct (binary_round_real false q ez) as (m1 & -> & Hm1 & Hup & Hnear).
    set (E := fexp32 (Zpos (digits2_pos q) + ez)) in *.
    rewrite Hdiff in Hup, Hnear.
    assert (HD : Zpos (digits2_pos q) + ez <= 0).
    { apply (digits_val (Zpos q)); [lia|]. rewrite Hdiff. change (bpow 0) with 1%R. lra. }
    assert (HE : E <= -24) by (unfold E; rewrite fexp32_eq; lia).
    exists (IZR m1 * bpow E)%R.
    split; [apply carries_nn_val; [apply round_result_carries; lia|lia]|].
    split; [split|].
    + apply Rmult_le_pos; [apply IZR_le; lia|apply Rlt_le, bpow_pos].
    + rewrite (unit_on_grid E) by lia. eapply carried_le_grid; [exact Hup|].
      rewrite <- unit_on_grid by lia. lra.
    + eapply Rle_trans; [exact Hnear|]. rewrite <- bpow_half. apply bpow_le. lia.
  - exfalso. assert (H : (IZR (Zneg q) < 0)%R) by (apply IZR_lt; lia). nra.
Qed.

(** The product of two weights. *)
Lemma mul_unit (A B : spec_float) (a b : R) :
  nn_val A a 0 -> nn_val B b 0 -> (a <= 1)%R -> (b <= 1)%R ->
  exists w, nn_val (F32.mul A B) w 1 /\ (0 <= w <= 1)%R /\
    (Rabs (w - a * b) <= bpow (-25))%R.
Proof.
  intros HA HB Ha Hb. assert (H25 := bpow_pos (-25)).
  assert (Hzero : exists w, nn_val (S754_zero false) w 1 /\ (0 <= w <= 1)%R /\
            (Rabs (w - 0) <= bpow (-25))%R).
  { exists 0%R. split; [by left|]. split; [lra|]. rewrite Rminus_0_r, Rabs_R0. lra. }
  destruct HA as [[-> ->]|(ma & ea & -> & -> & Hea)].
  { rewrite Rmult_0_l. destruct HB as [[-> _]|(mb & eb & -> & _)]; exact Hzero. }
  destruct HB as [[-> ->]|(mb & eb & -> & -> & Heb)].
  { rewrite Rmult_0_r. exact Hzero. }
  unfold F32.mul; cbn [SFmul xorb].
  set (v0 := (IZR (Zpos ma) * bpow ea * (IZR (Zpos mb) * bpow eb))%R) in *.
  assert (Hva : (0 < IZR (Zpos ma) * bpow ea)%R).
  { apply Rmult_lt_0_compat; [apply IZR_lt; lia|apply bpow_pos]. }
  assert (Hvb : (0 < IZR (Zpos mb) * bpow eb)%R).
  { apply Rmult_lt_0_compat; [apply IZR_lt; lia|apply bpow_pos]. }
  assert (Hmv : (IZR (Zpos (ma * mb)) * bpow (ea + eb) = v0)%R).
  { unfold v0. rewrite Pos2Z.inj_mul, mult_IZR, bpow_add. ring. }
  assert (Hv0 : (0 < v0 <= 1)%R) by (unfold v0; nra).
  set (D := Zdigits2 (Zpos (ma * mb)) + (ea + eb)).
  assert (HD : D <= 1).
  { apply digits_val; [lia|]. rewrite Hmv, bpow_1. lra. }
  set (E := Z.max (ea + eb) (fexp32 D)).
  assert (HE : E <= 0) by (unfold E; rewrite fexp32_eq; lia).
  destruct (bra_real false (Zpos (ma * mb)) (ea + eb) loc_Exact v0)
    as (m1 & Hcar & Hm1 & Hup & Hnear); try done; try lia; try lra.
  { fold D E. lia. }
  fold D E in Hcar, Hup, Hnear. specialize (Hnear eq_refl).
  exists (IZR m1 * bpow E)%R. split; [apply carries_nn_val; [done|lia]|].
  split; [split|].
  - apply Rmult_le_pos; [apply IZR_le; lia|apply Rlt_le, bpow_pos].
  - rewrite (unit_on_grid E) by lia. eapply carried_le_grid; [exact Hup|].
    rewrite <- unit_on_grid by lia. lra.
  - destruct (Z_le_gt_dec E (-24)) as [Hlow|Hhigh].
    { eapply Rle_trans; [exact Hnear|]. rewrite <- bpow_half. apply bpow_le. lia. }
    (* the product is on the grid of the result *)
    assert (Hgrid : exists g, v0 = (IZR g * bpow E)%R).
    { destruct (Z.eq_dec E (ea + eb)) as [HEe|HEe].
      - exists (Zpos (ma * mb)). by rewrite HEe, Hmv.
      - assert (HD1 : D = 1) by (unfold E in *; rewrite fexp32_eq in *; lia).
        assert (Hl := digits_lower (Zpos (ma * mb)) (ea + eb) ltac:(lia)).
        fold D in Hl. rewrite Hmv, HD1 in Hl. change (bpow (1 - 1)) with 1%R in Hl.
        exists (2 ^ (- E)). rewrite <- unit_on_grid by lia. lra. }
    destruct Hgrid as (g & Hg). rewrite Hg in Hnear |- *.
    apply carried_on_grid in Hnear. rewrite Hnear, Rminus_diag, Rabs_R0. lra.
Qed.

(** The integral part of a binary32 number is a binary32 number. *)
Lemma of_int_floor (mc : positive) (ec x1 : Z) :
  F32.valid (S754_finite false mc ec) = true ->
  F32.trunc (S754_finite false mc ec) = Some x1 -> 0 < x1 < 2 ^ 31 ->
  exists mi ei, F32.of_int x1 = S754_finite false mi ei /\
    (IZR (Zpos mi) * bpow ei = IZR x1)%R.
Proof.
  intros Hval Htr Hx1.
  destruct (Z_le_gt_dec x1 (2 ^ 24)) as [Hsmall|Hbig].
  { destruct (of_int_exact x1 ltac:(lia)) as (mi & ei & Hi & Hv & _). by exists mi, ei. }
  destruct (trunc_spec mc ec) as (z & Hz & _ & Hzv). rewrite Htr in Hz.
  injection Hz as <-.
  assert (Hcan := valid_exponent _ _ _ Hval). rewrite fexp32_eq in Hcan.
  assert (H24 : 24 < Zpos (digits2_pos mc) + ec).
  { apply (digits_val_ge (Zpos mc)); [lia|]. rewrite bpow_24.
    assert (IZR 16777216 < IZR x1)%R by (apply IZR_lt; lia). lra. }
  assert (Hec : 1 <= ec) by lia.
  assert (Hx : x1 = Zpos mc * 2 ^ ec).
  { cbn [F32.trunc] in Htr. destruct ec as [|pe|pe]; try lia. by injection Htr as <-. }
  assert (Hdig : Zdigits2 x1 = Zpos (digits2_pos mc) + ec).
  { rewrite Hx. apply (Zdigits2_shift (Zpos mc)); lia. }
  assert (Hd31 : Zdigits2 x1 <= 31) by (apply Zdigits2_le; lia).
  destruct x1 as [|p|p]; try lia.
  unfold F32.of_int, binary_normalize.
  assert (Hcar : carries (binary_round 24 128 false p 0) false (Zpos mc) ec).
  { apply binary_round_exact.
    - change (Zpos (digits2_pos p)) with (Zdigits2 (Zpos p)).
      rewrite fexp32_eq, Hdig. lia.
    - change (bpow 0) with 1%R. rewrite Hx, mult_IZR, (bpow_IZR ec) by lia. lra.
    - change (Zdigits2 (Zpos p)) with (Zpos (digits2_pos p)) in *. lia. }
  destruct Hcar as [[H0 _]|(_ & mi & ei & -> & Hv & _)]; [lia|].
  exists mi, ei. split; [done|].
  rewrite Hv, Hx, mult_IZR, (bpow_IZR ec) by lia. reflexivity.
Qed.

(** [cx - float(x1)] for [x1 = int(cx)]: the fractional part of [cx],
    without rounding. *)
Lemma sub_trunc_exact (c : spec_float) (vc : R) (x1 eb : Z) :
  F32.valid c = true -> nn_val c vc eb -> F32.trunc c = Some x1 -> x1 < 2 ^ 31 ->
  exists d, nn_val (F32.sub c (F32.of_int x1)) d 0 /\ (0 <= d < 1)%R.
Proof.
  intros Hval Hc Htr Hx1.
  destruct Hc as [[-> ->]|(mc & ec & -> & -> & Hec)].
  { injection Htr as <-. exists 0%R. split; [by left|lra]. }
  destruct (trunc_spec mc ec) as (z & Hz & Hz0 & Hzv). rewrite Htr in Hz.
  injection Hz as <-.
  assert (Hcan := valid_exponent _ _ _ Hval). rewrite fexp32_eq in Hcan.
  destruct (valid_mantissa _ _ _ Hval) as [_ Hec149].
  set (vc := (IZR (Zpos mc) * bpow ec)%R) in *.
  destruct (Z.eq_dec x1 0) as [->|Hx0].
  { (* cx < 1 *)
    change (F32.of_int 0) with (S754_zero false). unfold F32.sub; cbn [SFsub].
    exists vc. split; [|lra]. right. exists mc, ec. split; [done|]. split; [done|].
    assert (Zpos (digits2_pos mc) + ec <= 0); [|lia].
    apply (digits_val (Zpos mc)); [lia|]. change (bpow 0) with 1%R. fold vc. lra. }
  destruct (of_int_floor mc ec x1 Hval Htr ltac:(lia)) as (mi & ei & Hi & Hvi).
  assert (Hvali := of_int_valid x1). rewrite Hi in Hvali |- *.
  assert (Hcani := valid_exponent _ _ _ Hvali). rewrite fexp32_eq in Hcani.
  assert (Hx1r : (1 <= IZR x1)%R) by (apply IZR_le; lia).
  assert (Hec23 : -23 <= ec).
  { assert (0 < Zpos (digits2_pos mc) + ec); [|lia].
    apply (digits_val_ge (Zpos mc)); [lia|]. change (bpow 0) with 1%R. fold vc. lra. }
  assert (Hei23 : -23 <= ei).
  { assert (0 < Zpos (digits2_pos mi) + ei); [|lia].
    apply (digits_val_ge (Zpos mi)); [lia|]. change (bpow 0) with 1%R. lra. }
  unfold F32.sub. cbn [SFsub cond_Zopp].
  set (ez := Z.min ec ei).
  generalize (shl_align_real mc ec ez). destruct (shl_align mc ec ez) as [a ea].
  intros [Hea Ha].
  generalize (shl_align_real mi ei ez). destruct (shl_align mi ei ez) as [h eh].
  intros [Heh Hh].
  cbn [fst].
  replace (Z.min ec ez) with ez in Hea by (unfold ez; lia).
  replace (Z.min ei ez) with ez in Heh by (unfold ez; lia).
  subst ea eh. fold vc in Ha. rewrite Hvi in Hh.
  assert (Hbz := bpow_pos ez).
  assert (Hdiff : (IZR (Zpos a - Zpos h) * bpow ez = vc - IZR x1)%R).
  { rewrite minus_IZR. lra. }
  destruct (Zpos a - Zpos h) as [|q|q] eqn:Hq; cbn [binary_normalize].
  - exists 0%R. split; [by left|lra].
  - set (E := fexp32 (Zpos (digits2_pos q) + ez)).
    assert (HD : Zpos (digits2_pos q) + ez <= 0).
    { apply (digits_val (Zpos q)); [lia|]. rewrite Hdiff. change (bpow 0) with 1%R. lra. }
    assert (Hq24 : Zpos (digits2_pos q) <= 24) by (unfold ez in *; lia).
    assert (HE : E <= ez /\ E <= -24) by (unfold E, ez in *; rewrite fexp32_eq; lia).
    assert (Hcar : carries (binary_round 24 128 false q ez) false
                     (Zpos q * 2 ^ (ez - E)) E).
    { apply binary_round_exact; [done| |lia].
      rewrite mult_IZR, (bpow_shift E ez) by lia. ring. }
    exists (vc - IZR x1)%R. split; [|lra].
    rewrite <- Hdiff.
    replace (IZR (Zpos q) * bpow ez)%R with (IZR (Zpos q * 2 ^ (ez - E)) * bpow E)%R
      by (rewrite mult_IZR, (bpow_shift E ez) by lia; ring).
    apply carries_nn_val; [done|lia].
  - exfalso. assert (H : (IZR (Zneg q) < 0)%R) by (apply IZR_lt; lia). nra.
Qed.

(** The weights [x1f] and [x2f] lie in [0,1] and add up to 1 within
    [2^-25]. *)
Lemma linear_weights_unit (c : spec_float) (vc : R) (x1 eb : Z) :
  F32.valid c = true -> nn_val c vc eb -> F32.trunc c = Some x1 -> x1 < 2 ^ 31 ->
  exists a b, nn_val (fst (linear_weights c x1)) a 0 /\
    nn_val (snd (linear_weights c x1)) b 0 /\
    (0 <= a <= 1)%R /\ (0 <= b <= 1)%R /\ (Rabs (a + b - 1) <= bpow (-25))%R.
Proof.
  intros Hval Hc Htr Hx1. unfold linear_weights. cbn [fst snd].
  destruct (sub_trunc_exact c vc x1 eb Hval Hc Htr Hx1) as (d & Hd & Hd01).
  destruct (one_minus _ d 0 Hd ltac:(lra)) as (a & Ha & Ha01 & _).
  destruct (one_minus _ a (-23) Ha Ha01) as (b & Hb & Hb01 & Hab).
  exists a, b. split; [apply (nn_val_weaken _ _ (-23)); [done|lia]|].
  split; [apply (nn_val_weaken _ _ (-23)); [done|lia]|].
  split; [done|]. split; [done|].
  replace (a + b - 1)%R with (b - (1 - a))%R by ring. done.
Qed.

(** The clamped coordinate that [int] converts is a valid number that is
    zero or positive. *)
Lemma linear_coord_regular (p : float) (d x1 : Z) :
  F32.valid p = true -> int_of_float (linear_coord p d) = Some x1 ->
  F32.valid (linear_coord p d) = true /\
  (exists vc, nn_val (linear_coord p d) vc 104) /\
  F32.trunc (linear_coord p d) = Some x1 /\ x1 < 2 ^ 31.
Proof.
  intros Hp Hint.
  assert (Htr : F32.trunc (linear_coord p d) = Some x1 /\ x1 < 2 ^ 31).
  { unfold int_of_float in Hint.
    destruct (F32.trunc (linear_coord p d)) as [z|]; [|done]. cbn in Hint.
    apply int_inv in Hint as [-> H]. unfold INT_MAX in H. split; [done|lia]. }
  destruct Htr as [Htr Hx1]. split; [|split; [|done]].
  all: revert Htr; unfold linear_coord.
  all: assert (Hm := mul_valid p (F32.of_int d) Hp (of_int_valid d)).
  all: destruct (F32.mul p (F32.of_int d)) as [s|s| |s m e].
  all: unfold F32.sub, F32.half, F32.lt, F32.zero; cbn [SFsub]; try done.
  all: try (destruct s; done).
  all: try (intros _; by (exists 0%R; left)).
  all: try (destruct s; [intros _; by (exists 0%R; left)|done]).
  - (* validity *)
    intros _. destruct (SFltb _ _); [done|apply binary_normalize_valid].
  - (* zero or positive *)
    destruct (valid_mantissa _ _ _ Hm) as [_ He].
    set (ez := Z.min e (-24)).
    destruct s; cbn [cond_Zopp].
    + set (a := fst (shl_align m e ez)). set (h := fst (shl_align 8388608 (-24) ez)).
      replace (- Zpos a - Zpos h) with (Zneg (a + h)) by lia.
      cbn [binary_normalize]. rewrite binary_round_negative by (unfold ez; lia).
      intros _. by (exists 0%R; left).
    + destruct (Zpos (fst (shl_align m e ez)) - Zpos (fst (shl_align 8388608 (-24) ez)))
        as [|q|q]; cbn [binary_normalize].
      * intros _. by (exists 0%R; left).
      * destruct (binary_round_valid false q ez) as [Hv _].
        destruct (binary_round_real false q ez) as (m1 & Hr & Hm1 & _).
        rewrite Hr in Hv |- *. unfold round_result in *.
        destruct (m1 =? 0); [intros _; by (exists 0%R; left)|].
        destruct (m1 =? 2 ^ 24).
        -- destruct (_ <=? _); [|done]. intros _. cbn [SFltb SFcompare].
           eexists. right. eexists _, _. split; [reflexivity|]. split; [reflexivity|].
           apply valid_mantissa in Hv. lia.
        -- destruct (_ <=? _); [|done]. intros _. cbn [SFltb SFcompare].
           eexists. right. eexists _, _. split; [reflexivity|]. split; [reflexivity|].
           apply valid_mantissa in Hv. lia.
      * rewrite binary_round_negative by (unfold ez; lia).
        intros _. by (exists 0%R; left).
Qed.

(** ** The bilinear sum of one colour *)

Lemma Rabs_bounds (x y : R) : (Rabs x <= y)%R -> (- y <= x <= y)%R.
Proof. unfold Rabs. destruct (Rcase_abs x); lra. Qed.

Lemma moderate_magnitude (c : float) :
  moderate c = true ->
  exists s vc, magnitude c s vc 100 /\ (vc <= bpow 100)%R.
Proof.
  destruct c as [s|s| |s m e]; try done; intros Hc.
  - exists s, 0%R. split; [left; split; [by eexists|done]|].
    apply Rlt_le, bpow_pos.
  - apply Z.leb_le in Hc. exists s, (IZR (Zpos m) * bpow e)%R.
    split; [right; exists m, e; split; [done|]; split; [done|lia]|].
    assert (Hu := digits_upper (Zpos m) e ltac:(lia)).
    change (Zdigits2 (Zpos m)) with (Zpos (digits2_pos m)) in Hu.
    assert (H := bpow_le _ _ Hc). lra.
Qed.

(** The four weights add up to 1 within [2^-22]. *)
Lemma weights_sum (ax bx ay by_ w1 w2 w3 w4 : R) :
  (0 <= ax <= 1)%R -> (0 <= bx <= 1)%R -> (0 <= ay <= 1)%R -> (0 <= by_ <= 1)%R ->
  (Rabs (ax + bx - 1) <= / 33554432)%R -> (Rabs (ay + by_ - 1) <= / 33554432)%R ->
  (Rabs (w1 - ax * ay) <= / 33554432)%R -> (Rabs (w2 - bx * ay) <= / 33554432)%R ->
  (Rabs (w3 - bx * by_) <= / 33554432)%R -> (Rabs (w4 - ax * by_) <= / 33554432)%R ->
  (Rabs (w1 + w2 + w3 + w4 - 1) <= 7 / 33554432)%R.
Proof.
  intros Hax Hbx Hay Hby Hx%Rabs_bounds Hy%Rabs_bounds
    H1%Rabs_bounds H2%Rabs_bounds H3%Rabs_bounds H4%Rabs_bounds.
  set (A := (ax + bx)%R) in *. set (B := (ay + by_)%R) in *.
  assert (HAB : (ax * ay + bx * ay + bx * by_ + ax * by_ = A * B)%R) by (unfold A, B; ring).
  assert (HP : (- (5 / 67108864) <= A * B - 1 <= 5 / 67108864)%R)
    by (clear - Hx Hy; nra).
  apply Rabs_le; lra.
Qed.

(** The bilinear sum of four equal numbers [c] is [c] up to rounding. *)
Lemma bilinear_sum (vc w1 w2 w3 w4 t1 t2 t3 t4 s1 s2 s3 h : R) :
  (0 <= vc)%R -> (0 < h)%R ->
  (0 <= w1)%R -> (0 <= w2)%R -> (0 <= w3)%R -> (0 <= w4)%R ->
  (0 <= t1)%R -> (0 <= t2)%R -> (0 <= t3)%R -> (0 <= t4)%R ->
  (Rabs (w1 + w2 + w3 + w4 - 1) <= 7 / 33554432)%R ->
  (Rabs (t1 - vc * w1) <= / 16777216 * (vc * w1) + h)%R ->
  (Rabs (t2 - vc * w2) <= / 16777216 * (vc * w2) + h)%R ->
  (Rabs (t3 - vc * w3) <= / 16777216 * (vc * w3) + h)%R ->
  (Rabs (t4 - vc * w4) <= / 16777216 * (vc * w4) + h)%R ->
  (Rabs (s1 - (t1 + t2)) <= / 16777216 * (t1 + t2) + h)%R ->
  (Rabs (s2 - (s1 + t3)) <= / 16777216 * (s1 + t3) + h)%R ->
  (Rabs (s3 - (s2 + t4)) <= / 16777216 * (s2 + t4) + h)%R ->
  (Rabs (s3 - vc) <= / 2097152 * vc + 8 * h)%R.
Proof.
  intros Hvc Hh Hw1 Hw2 Hw3 Hw4 Ht1 Ht2 Ht3 Ht4 HS%Rabs_bounds
    H1%Rabs_bounds H2%Rabs_bounds H3%Rabs_bounds H4%Rabs_bounds
    H5%Rabs_bounds H6%Rabs_bounds H7%Rabs_bounds.
  set (X := (vc * (w1 + w2 + w3 + w4))%R).
  set (T := (t1 + t2 + t3 + t4)%R).
  assert (HXu : (X <= vc + 7 / 33554432 * vc)%R) by (unfold X; clear - Hvc HS; nra).
  assert (HXl : (vc - 7 / 33554432 * vc <= X)%R) by (unfold X; clear - Hvc HS; nra).
  assert (HT : (X - / 16777216 * X - 4 * h <= T <= X + / 16777216 * X + 4 * h)%R)
    by (unfold X, T; clear - H1 H2 H3 H4; lra).
  assert (HTv : (vc - 451 / 1677721600 * vc - 4 * h <= T <= vc + 451 / 1677721600 * vc + 4 * h)%R)
    by (clear - HXu HXl HT Hvc Hh; lra).
  assert (Hs1 : (t1 + t2 - / 16777216 * (t1 + t2) - h <= s1
                 <= t1 + t2 + / 16777216 * (t1 + t2) + h)%R) by (clear - H5; lra).
  assert (Hs2 : (t1 + t2 + t3 - 201 / 1677721600 * (t1 + t2 + t3) - 201 / 100 * h <= s2
                 <= t1 + t2 + t3 + 201 / 1677721600 * (t1 + t2 + t3) + 201 / 100 * h)%R)
    by (clear - Hs1 H6 Ht1 Ht2 Ht3 Hh; lra).
  assert (Hs3 : (T - 302 / 1677721600 * T - 302 / 100 * h <= s3
                 <= T + 302 / 1677721600 * T + 302 / 100 * h)%R)
    by (unfold T; clear - Hs2 H7 Ht1 Ht2 Ht3 Ht4 Hh; lra).
  apply Rabs_le; clear - Hs3 HTv Hvc Hh; lra.
Qed.

Lemma bpow_m25_inv : bpow (-25) = (/ 33554432)%R.
Proof.
  change (-25) with (-24 - 1). rewrite bpow_half, bpow_m24_inv. lra.
Qed.

Lemma bpow_m21_inv : bpow (-21) = (/ 2097152)%R.
Proof.
  change (-21) with (3 + -24). rewrite bpow_add, bpow_m24_inv.
  rewrite (bpow_IZR 3) by lia. change (2 ^ 3) with 8. lra.
Qed.

Lemma bpow_m147 : bpow (-147) = (8 * bpow (-150))%R.
Proof.
  change (-147) with (3 + -150). rewrite bpow_add, (bpow_IZR 3) by lia. reflexivity.
Qed.

(** The bilinear sum [c*x1y1f + c*x2y1f + c*x2y2f + c*x1y2f] is [c] up to
    rounding, for weights that add up to 1 along each axis. *)
Lemma bilinear_constant (c : float) (wx wy : float * float) (ax bx ay by_ : R) :
  moderate c = true ->
  nn_val (fst wx) ax 0 -> nn_val (snd wx) bx 0 ->
  nn_val (fst wy) ay 0 -> nn_val (snd wy) by_ 0 ->
  (0 <= ax <= 1)%R -> (0 <= bx <= 1)%R -> (0 <= ay <= 1)%R -> (0 <= by_ <= 1)%R ->
  (Rabs (ax + bx - 1) <= bpow (-25))%R -> (Rabs (ay + by_ - 1) <= bpow (-25))%R ->
  rounded (bilinear c c c c (F32.mul (fst wx) (fst wy)) (F32.mul (snd wx) (fst wy))
                            (F32.mul (snd wx) (snd wy)) (F32.mul (fst wx) (snd wy))) c.
Proof.
  intros Hmod Hax Hbx Hay Hby Rax Rbx Ray Rby Hsx Hsy.
  destruct (moderate_magnitude c Hmod) as (s & vc & Hc & Hvc).
  assert (Hvc0 := magnitude_nonneg _ _ _ _ Hc).
  destruct (mul_unit _ _ ax ay Hax Hay ltac:(lra) ltac:(lra)) as (w1 & Hw1 & Rw1 & Ew1).
  destruct (mul_unit _ _ bx ay Hbx Hay ltac:(lra) ltac:(lra)) as (w2 & Hw2 & Rw2 & Ew2).
  destruct (mul_unit _ _ bx by_ Hbx Hby ltac:(lra) ltac:(lra)) as (w3 & Hw3 & Rw3 & Ew3).
  destruct (mul_unit _ _ ax by_ Hax Hby ltac:(lra) ltac:(lra)) as (w4 & Hw4 & Rw4 & Ew4).
  rewrite bpow_m25_inv in *.
  assert (HS := weights_sum ax bx ay by_ w1 w2 w3 w4 Rax Rbx Ray Rby Hsx Hsy Ew1 Ew2 Ew3 Ew4).
  (* sizes: nothing overflows *)
  assert (HB : (1 <= bpow 100)%R) by (apply (bpow_le 0 100); lia).
  assert (HB' : (bpow 100 * 1024 <= bpow 120)%R).
  { assert (H := bpow_le 110 120 ltac:(lia)). change 110 with (100 + 10) in H.
    rewrite bpow_add, (bpow_IZR 10) in H by lia. exact H. }
  assert (Heta : (0 < bpow (-150) <= 1)%R).
  { split; [apply bpow_pos|apply (bpow_le (-150) 0); lia]. }
  set (h := bpow (-150)) in *.
  assert (Hx : forall w, (0 <= w <= 1)%R -> (0 <= vc * w <= bpow 100)%R) by (intros; nra).
  destruct (mul_magnitude c _ s vc w1 100 1 Hc Hw1 ltac:(lia))
    as (t1 & Ht1 & Et1); [destruct (Hx w1 Rw1); lra|].
  destruct (mul_magnitude c _ s vc w2 100 1 Hc Hw2 ltac:(lia))
    as (t2 & Ht2 & Et2); [destruct (Hx w2 Rw2); lra|].
  destruct (mul_magnitude c _ s vc w3 100 1 Hc Hw3 ltac:(lia))
    as (t3 & Ht3 & Et3); [destruct (Hx w3 Rw3); lra|].
  destruct (mul_magnitude c _ s vc w4 100 1 Hc Hw4 ltac:(lia))
    as (t4 & Ht4 & Et4); [destruct (Hx w4 Rw4); lra|].
  rewrite bpow_m24_inv in *. fold h in Et1, Et2, Et3, Et4.
  assert (Pt1 := magnitude_nonneg _ _ _ _ Ht1). assert (Pt2 := magnitude_nonneg _ _ _ _ Ht2).
  assert (Pt3 := magnitude_nonneg _ _ _ _ Ht3). assert (Pt4 := magnitude_nonneg _ _ _ _ Ht4).
  assert (Bt : forall t w, (0 <= w <= 1)%R ->
            (Rabs (t - vc * w) <= / 16777216 * (vc * w) + h)%R -> (t <= 3 * bpow 100)%R).
  { intros t w Hw Ht%Rabs_bounds. destruct (Hx w Hw). lra. }
  assert (Bt1 := Bt _ _ Rw1 Et1). assert (Bt2 := Bt _ _ Rw2 Et2).
  assert (Bt3 := Bt _ _ Rw3 Et3). assert (Bt4 := Bt _ _ Rw4 Et4).
  destruct (add_magnitude _ _ s t1 t2 103 103 Ht1 Ht2 ltac:(lia) ltac:(lia))
    as (s1 & Hs1 & Es1); [lra|].
  rewrite bpow_m24_inv in Es1. fold h in Es1.
  assert (Bs1 : (s1 <= 8 * bpow 100)%R) by (apply Rabs_bounds in Es1; lra).
  destruct (add_magnitude _ _ s s1 t3 103 103 Hs1 Ht3 ltac:(lia) ltac:(lia))
    as (s2 & Hs2 & Es2); [lra|].
  rewrite bpow_m24_inv in Es2. fold h in Es2.
  assert (Bs2 : (s2 <= 13 * bpow 100)%R) by (apply Rabs_bounds in Es2; lra).
  destruct (add_magnitude _ _ s s2 t4 103 103 Hs2 Ht4 ltac:(lia) ltac:(lia))
    as (s3 & Hs3 & Es3); [lra|].
  rewrite bpow_m24_inv in Es3. fold h in Es3.
  assert (Hfin := bilinear_sum vc w1 w2 w3 w4 t1 t2 t3 t4 s1 s2 s3 h Hvc0
    ltac:(lra) ltac:(lra) ltac:(lra) ltac:(lra) ltac:(lra) Pt1 Pt2 Pt3 Pt4
    HS Et1 Et2 Et3 Et4 Es1 Es2 Es3).
  unfold bilinear.
  destruct (magnitude_value _ _ _ _ Hs3) as [Hf Hv].
  destruct (magnitude_value _ _ _ _ Hc) as [_ Hvc'].
  split; [exact Hf|].
  rewrite Hv, Hvc', bpow_m21_inv, bpow_m147. fold h.
  destruct s.
  - replace (- s3 - - vc)%R with (- (s3 - vc))%R by ring.
    rewrite !Rabs_Ropp, (Rabs_right vc) by lra. exact Hfin.
  - rewrite (Rabs_right vc) by lra. exact Hfin.
Qed.

(** The integral part of a channel that is an integer [k] up to rounding. *)
Lemma rounded_trunc (r c : float) (k : Z) :
  rounded r c -> value c = IZR k -> 0 <= k <= 255 ->
  exists z, F32.trunc r = Some z /\ k - 1 <= z <= k.
Proof.
  intros [Hf Hr] Hc Hk. rewrite Hc, bpow_m21_inv in Hr.
  assert (H147 : (bpow (-147) <= / 2)%R).
  { assert (H := bpow_le (-147) (-1) ltac:(lia)).
    change (-1) with (0 - 1) in H. rewrite bpow_half in H.
    change (bpow 0) with 1%R in H. lra. }
  assert (Hk0 : (0 <= IZR k)%R) by (apply IZR_le; lia).
  assert (Hk1 : (IZR k <= 255)%R) by (apply IZR_le; lia).
  rewrite (Rabs_right (IZR k)) in Hr by lra.
  apply Rabs_bounds in Hr.
  destruct r as [s|s| |s m e]; try done.
  - cbn [value] in Hr. exists 0. split; [done|].
    assert (H : (IZR k < IZR 1)%R) by lra. apply lt_IZR in H. lia.
  - destruct (trunc_spec m e) as (z & Hz & Hz0 & Hzv).
    destruct s; cbn [value] in Hr.
    + (* a negative result: [k] is 0 and the integral part is 0 *)
      assert (Hv : (0 < IZR (Zpos m) * bpow e)%R).
      { apply Rmult_lt_0_compat; [apply IZR_lt; lia|apply bpow_pos]. }
      assert (H : (IZR k < IZR 1)%R) by lra. apply lt_IZR in H.
      assert (H' : (IZR z < IZR 1)%R) by lra. apply lt_IZR in H'.
      exists (- z). split; [|lia].
      cbn [F32.trunc] in Hz |- *. injection Hz as <-. reflexivity.
    + exists z. split; [done|].
      assert (H1 : (IZR (k - 2) < IZR z)%R) by (rewrite minus_IZR; lra).
      assert (H2 : (IZR z < IZR (k + 1))%R) by (rewrite plus_IZR; lra).
      apply lt_IZR in H1, H2. lia.
Qed.

(** ** The interpolated colour of a region of one class *)

(** C4.  In linear-filter mode, when the four cells (x1,y1), (x2,y1),
    (x2,y2), (x1,y2) hold the same class id, the interpolated colour is
    the colour of that class up to the rounding of the bilinear sum: for a
    colour whose channels are below 2^100 in magnitude, every channel of
    the result is a finite number within [2^-21 * |c| + 2^-147] of the
    channel [c] of the class, so that the integral part of a channel whose
    class value is an integer [k] of 0..255 is [k] or [k - 1]; and the
    result is the colour of the class itself when the fractional offsets
    [x1d] and [y1d] of the pixel are zero. *)
Theorem linear_constant_region
    (class_colors : ptr float4) (scores : ptr Z) (scores_dim : int2)
    (px py : float) (x1 x2 y1 y2 id : Z) (c : float4) :
  F32.valid px = true -> F32.valid py = true ->
  linear_axis px (int2_x scores_dim) = Some (x1, x2) ->
  linear_axis py (int2_y scores_dim) = Some (y1, y2) ->
  LOOKUP_CLASS_MAP scores scores_dim x1 y1 = Some id ->
  LOOKUP_CLASS_MAP scores scores_dim x2 y1 = Some id ->
  LOOKUP_CLASS_MAP scores scores_dim x2 y2 = Some id ->
  LOOKUP_CLASS_MAP scores scores_dim x1 y2 = Some id ->
  load class_colors id = Some c ->
  moderate_color c = true ->
  let cx := linear_coord px (int2_x scores_dim) in
  let cy := linear_coord py (int2_y scores_dim) in
  exists r, linear_color class_colors scores scores_dim px py = Some r /\
    rounded_color r c /\
    (forall k, 0 <= k <= 255 ->
       (value (float4_x c) = IZR k ->
        exists z, F32.trunc (float4_x r) = Some z /\ k - 1 <= z <= k) /\
       (value (float4_y c) = IZR k ->
        exists z, F32.trunc (float4_y r) = Some z /\ k - 1 <= z <= k) /\
       (value (float4_z c) = IZR k ->
        exists z, F32.trunc (float4_z r) = Some z /\ k - 1 <= z <= k)) /\
    (float4_regular c = true ->
     F32.is_zero (F32.sub cx (F32.of_int x1)) = true ->
     F32.is_zero (F32.sub cy (F32.of_int y1)) = true ->
     r = c).
Proof.
  intros Hpx Hpy Hax Hay H11 H21 H22 H12 Hc Hmod cx cy.
  exists (bilinear4 c c c c (linear_weights cx x1) (linear_weights cy y1)).
  split.
  { unfold linear_color. rewrite Hax, Hay. cbn [mbind option_bind fst snd].
    rewrite H11, H21, H22, H12. cbn [mbind option_bind].
    rewrite Hc. reflexivity. }
  assert (Hix : int_of_float cx = Some x1).
  { unfold linear_axis in Hax. fold cx in Hax.
    destruct (int_of_float cx) as [z|]; [|done]. cbn in Hax.
    destruct (int_sub _ 1); [|done]. cbn in Hax.
    destruct (if z >=? _ then _ else _); [|done]. cbn in Hax. by injection Hax as -> _. }
  assert (Hiy : int_of_float cy = Some y1).
  { unfold linear_axis in Hay. fold cy in Hay.
    destruct (int_of_float cy) as [z|]; [|done]. cbn in Hay.
    destruct (int_sub _ 1); [|done]. cbn in Hay.
    destruct (if z >=? _ then _ else _); [|done]. cbn in Hay. by injection Hay as -> _. }
  destruct (linear_coord_regular px _ x1 Hpx Hix) as (Hvx & (vx & Hnx) & Htx & Hx1).
  destruct (linear_coord_regular py _ y1 Hpy Hiy) as (Hvy & (vy & Hny) & Hty & Hy1).
  fold cx in Hvx, Hnx, Htx. fold cy in Hvy, Hny, Hty.
  destruct (linear_weights_unit cx vx x1 104 Hvx Hnx Htx Hx1)
    as (ax & bx & Hax' & Hbx' & Rax & Rbx & Hsx).
  destruct (linear_weights_unit cy vy y1 104 Hvy Hny Hty Hy1)
    as (ay & by_ & Hay' & Hby' & Ray & Rby & Hsy).
  assert (Hch : forall ch, moderate ch = true ->
            rounded (bilinear ch ch ch ch
              (F32.mul (fst (linear_weights cx x1)) (fst (linear_weights cy y1)))
              (F32.mul (snd (linear_weights cx x1)) (fst (linear_weights cy y1)))
              (F32.mul (snd (linear_weights cx x1)) (snd (linear_weights cy y1)))
              (F32.mul (fst (linear_weights cx x1)) (snd (linear_weights cy y1)))) ch).
  { intros ch Hm. by apply (bilinear_constant ch _ _ ax bx ay by_). }
  set (r := bilinear4 c c c c (linear_weights cx x1) (linear_weights cy y1)).
  assert (Hr : rounded_color r c).
  { unfold moderate_color in Hmod.
    apply andb_true_iff in Hmod as [Hmod Hmw].
    apply andb_true_iff in Hmod as [Hmod Hmz].
    apply andb_true_iff in Hmod as [Hmx Hmy].
    unfold rounded_color, r, bilinear4. cbn [float4_x float4_y float4_z float4_w].
    repeat split; by apply Hch. }
  split; [exact Hr|]. split.
  - destruct Hr as (Rx & Ry & Rz & _).
    intros k Hk. repeat split; intros Hv; by eapply rounded_trunc.
  - intros Hreg Hzx Hzy. unfold r.
    rewrite (linear_weights_zero cx x1 Hzx), (linear_weights_zero cy y1 Hzy).
    unfold float4_regular in Hreg.
    apply andb_true_iff in Hreg as [Hreg Hw].
    apply andb_true_iff in Hreg as [Hreg Hz].
    apply andb_true_iff in Hreg as [Hx Hy].
    unfold bilinear4. cbn [fst snd].
    rewrite !bilinear_degenerate by done. by destruct c.
Qed.

Lemma linear_constant_region_witness :
  let cx := linear_coord (normalized 5 7) (int2_x constant_dim) in
  let cy := linear_coord (normalized 2 7) (int2_y constant_dim) in
  exists r, linear_color constant_colors constant_scores constant_dim
              (normalized 5 7) (normalized 2 7) = Some r /\
    rounded_color r (rgba 255 200 100 77) /\
    (forall k, 0 <= k <= 255 ->
       (value (float4_x (rgba 255 200 100 77)) = IZR k ->
        exists z, F32.trunc (float4_x r) = Some z /\ k - 1 <= z <= k) /\
       (value (float4_y (rgba 255 200 100 77)) = IZR k ->
        exists z, F32.trunc (float4_y r) = Some z /\ k - 1 <= z <= k) /\
       (value (float4_z (rgba 255 200 100 77)) = IZR k ->
        exists z, F32.trunc (float4_z r) = Some z /\ k - 1 <= z <= k)) /\
    (float4_regular (rgba 255 200 100 77) = true ->
     F32.is_zero (F32.sub cx (F32.of_int 1)) = true ->
     F32.is_zero (F32.sub cy (F32.of_int 0)) = true ->
     r = rgba 255 200 100 77).
Proof.
  apply (linear_constant_region constant_colors constant_scores constant_dim
           (normalized 5 7) (normalized 2 7) 1 2 0 1 0 (rgba 255 200 100 77));
    vm_compute; reflexivity.
Defined.

(** C4, counterexample: on a 3x3 grid of the single class 0, of colour
    (255, 200, 100, 77), the pixel (5,2) of a 7x7 output reads four cells of
    class 0, and its interpolated green is 199.99998..., not 200: linear
    mode stores (255, 199, 99) in an RGB8 mask where point mode stores
    (255, 200, 100). *)
Lemma linear_constant_region_inexact :
  linear_axis (normalized 5 7) 3 = Some (1, 2) /\
  linear_axis (normalized 2 7) 3 = Some (0, 1) /\
  LOOKUP_CLASS_MAP constant_scores constant_dim 1 0 = Some 0 /\
  LOOKUP_CLASS_MAP constant_scores constant_dim 2 0 = Some 0 /\
  LOOKUP_CLASS_MAP constant_scores constant_dim 2 1 = Some 0 /\
  LOOKUP_CLASS_MAP constant_scores constant_dim 1 1 = Some 0 /\
  load constant_colors 0 = Some (rgba 255 200 100 77) /\
  linear_color constant_colors constant_scores constant_dim
    (normalized 5 7) (normalized 2 7) <> Some (rgba 255 200 100 77) /\
  point_color constant_colors constant_scores constant_dim
    (normalized 5 7) (normalized 2 7) = Some (rgba 255 200 100 77) /\
  pixel_value T_uchar3 true true NULL 0 0 7 7
    constant_colors constant_scores constant_dim 5 2
    = Some (px_uchar3 (make_uchar3 255 199 99)) /\
  pixel_value T_uchar3 false true NULL 0 0 7 7
    constant_colors constant_scores constant_dim 5 2
    = Some (px_uchar3 (make_uchar3 255 200 100)).
Proof.
  repeat split; try (vm_compute; reflexivity). vm_compute. discriminate.
Qed.
